(* ===== verification/_CoqProject ===== *)
-Q . S2P
Prelude.v
Binary64.v
Protocol.v
Bits.v
Core.v
Convert.v
Encoder.v
Net.v
Input.v
Xmit.v
Control.v
Drain.v
XmitSpec.v
Dirty.v
Coverage.v
ViewH264.v
ViewNet.v
Blit.v
ViewRead.v
Paint.v
Stream.v
OutReady.v
Link.v
Mirror.v
Samples.v
HidReport.v
HidKbd.v
Hid.v
HidProps.v
Edid.v
EdidProps.v
InputSpec.v
InputProps.v
EndToEnd.v
TxProps.v
Upstream.v
Session.v
SessionProps.v
Served.v
Kvm.v
KvmDiff.v
KvmMaster.v
Capture.v
CaptureCtl.v
CaptureInv.v
CaptureTx.v
CaptureSys.v
KvmSamples.v
KvmProps.v
CaptureProps.v
EvdiGate.v
GateSpec.v
GateProps.v
EvdiCursor.v
EvdiBlend.v
EvdiCards.v
CardsProps.v
Evdi.v
EvdiPool.v
EvdiTx.v
EvdiSys.v
EvdiSamples.v
EvdiProps.v
SbcOut.v
SbcFb.v
SbcDrm.v
Sbc.v
V4l2dec.v
SbcLoop.v
SbcShows.v
SbcStep.v
SbcRun.v
SbcOwn.v
SbcProps.v
Audio.v
ViewAudio.v
AudioFlow.v
AudioSys.v
AudioProps.v
