(* ===== verification/Prelude.v ===== *)
(** * sRemFB: a verification library

    sRemFB shows a desktop (or a captured HDMI source) on small boards over
    TCP.  A server grabs frames, keeps a dirty region per client and sends
    rectangles (raw, LZ4) or H.264 access units; a controller chooses
    between the two from PING/PONG delays; the client draws what it
    receives and sends input back.  This library models the parts of
    src/ that carry this logic and proves what makes them correct.

    ** The parts and the files

    - protocol.h: [Protocol] (structs, encodings, constants).
    - server/core/core.h, source.h: [Core] (SremfbClient and its parameters).
    - server/core/convert.c: [Convert]; encoder.c: [Encoder];
      net.c: [Net]; xmit.c: [Xmit] (queue, dirty region, mode switch) and
      [Drain] (damage, builds, on_out_ready()); control.c: [Control], with
      doubles as [Binary64] values; input.c: [Bits], [Input];
      session.c: [Upstream] (reassembly of client messages), [Session]
      (admission, loss, shutdown); audio.c: [Audio].
    - server/evdi/edid.c: [Edid]; evdi.c and evdi.h: [EvdiGate] (the plug
      gate), [EvdiCursor], [EvdiCards] (card numbers the compositor knows),
      [Evdi] (one connector: updates, events, plugging, the mode timer),
      [EvdiPool] (devices, source operations).
    - server/kvm/hidmap.c, input_hid.c: [HidReport], [Hid]; diff.c and
      convert_uyvy.c: [Kvm]; capture.c: [Capture] (letterbox, blit,
      fan-out, frames), [CaptureCtl] (stream, signal, acquire, release).
    - view/h264.c: [ViewH264]; view/net.c: [ViewNet]; view/audio.c:
      [ViewAudio].
    - client/output.h: [SbcOut] (the operations as a class with its laws);
      output_fb.c: [SbcFb]; output_drm.c: [SbcDrm]; sremfb-client.c: [Sbc]
      (state, panel, blit thread, mailbox) and [SbcLoop] (hello, messages,
      receive loop, reconnection); v4l2dec.c: [V4l2dec].

    State is a record with the code's fields, changed by [c⟨f := v⟩]; an
    operation is a function from states to states (with the answers of the
    kernel or of a library as arguments); a callback of the main loop is
    one operation.  The SBC client has two threads: the answers of its V4L2
    device are a script that also holds the steps of the blit thread and
    the device's writes, so every ioctl is a point of interleaving.  x264,
    LZ4, libavcodec, the clock, the environment, the viewer's system calls
    and SDL's audio device are type classes ([X264], [LZ4], [AvCodec],
    [Platform], [ViewSys], [SDLAudio]); what the code relies on is in the
    classes of laws ([X264Laws], [LZ4Laws], [AvCodecLaws],
    [SDLAudioLaws]).  [Samples], [KvmSamples] and [EvdiSamples] instantiate
    them for the witnesses.

    ** What is shown

    - The display path.  [XmitSpec], [Dirty] and [Coverage]: the
      dirty region covers what the client does not have; [Blit],
      [Paint], [Stream], [OutReady]: one dispatch appends whole
      messages, whose painting is the shadow buffer, and no rect is sent
      inside an H.264 episode ([brackets]); [Link]: the client as a
      transition system ([tx_step]; [tx_any] also allows the frame to
      change freely when a whole repaint is due); [Served]: a client
      between its frame source and the session; [ViewRead],
      [Mirror]: the viewer's loop executes the messages.  [TxProps] and
      [EndToEnd] have the theorems: the viewer's framebuffer is the wire
      conversion of the captured frame; what a failed encode leaves.
    - The physical screen.  [SbcShows]: where stream pixels land on the
      panel, rect by rect; [SbcStep]: what a call of the decoder can
      change (the display by whole batches only); [SbcRun]: messages and
      runs of turns do what [paint] says.  [SbcOwn]: each capture buffer
      of the decoder has one owner at every interleaving.  [SbcProps] has
      the theorems: the panel shows the captured frame, no picture is torn
      (short of the last one when a signal stops the client), full frames
      are atomic on DRM.  They hold for any backend with
      [OutputLaws].
    - Sessions.  [Upstream]: the parser does not depend on how the bytes
      were cut into reads, and resynchronises.  [SessionProps]: [sv_inv]
      holds in every reachable state of the server ([sv_step]):
      descriptors, sources and MAC addresses; shutdown closes everything; a
      box that reconnects is judged by its source alone.
    - Input.  [InputSpec], [InputProps]: declared events only, no stuck
      key, no blind click.  [HidKbd], [HidProps]: the boot keyboard report
      is the set of held keys, motion is conserved, one owner.
    - EDID.  [EdidProps]: checksums, timings read back (exactly below
      4096 pixels, modulo 4096 above), stable identity.
    - The EVDI connector.  [GateSpec], [GateProps]: hotplugs are bounded
      and the gate reopens; [CardsProps]: card numbers; [EvdiBlend]: the
      cursor is blended exactly; [EvdiTx], [EvdiSys]: the
      connector with its client ([ev_step]); [EvdiProps]: an idle client's
      viewer shows the desktop with the cursor in place.
    - The HDMI capture.  [KvmDiff], [KvmMaster]: tiles exact,
      rectangles cover them and, when they fit the limit, nothing else;
      incremental conversion is full conversion.
      [CaptureInv]: the state machine of signal and stream under every
      answer of the driver ([cap_step]); [CaptureTx]: what blits, repaints
      and resizes do to a client; [CaptureSys]: the source with its
      clients ([sys_step], [sys_inv]).  [KvmProps] and
      [CaptureProps] have the theorems, up to the end-to-end one: an idle
      client's viewer shows the last captured frame.
    - Sound.  [AudioFlow]: the packets of one callback, the receiver's
      sequence test, what the queue holds; [AudioSys]: server, network and
      viewer as a transition system ([astep]), and the default output with
      the sessions that take and give it back and the user who may choose
      another ([dstep]).  [AudioProps]
      has the theorems: what is queued is what was captured, in order and
      never twice, the delay is capped, only the peer hears it, and the
      default output, or what the user chose since, comes back while
      PipeWire keeps up with the server.

    ** Fuel

    Loops that are not structural take fuel, always a bound computed from
    their input: bytes left (parsers), answers left (reads and sends),
    clients left (shutdown), messages sent (the viewer's loop), frames
    captured (audio packets), one row of tiles, device answers left (the
    decoder's loops); the waits of the decoder have the code's own limit on
    tries.  The theorems state results, not "if it returns".

    ** Not modelled

    Device and kernel I/O whose answers are arguments here: opening devices
    and sockets, libevdi and libdrm themselves, sysfs and /proc scans.
    evdi.c: compositor_pid() and the power-save query (D-Bus), the reset and
    probe of all connectors, evdi_add_one().  Left out whole: layout.c
    (D-Bus calls to mutter), the viewer's window and key table (SDL),
    encoder_v4l2.c (the V4L2 encoder), testsrc.c (a synthetic source),
    usbexport.c (usbip), the entry points with their argument parsing, the
    tests and tools.  A write(2) to /dev/uinput that fails (core/input.c
    only warns) is logged like one that works.  PipeWire is followed as long
    as it makes each change before the server's or the user's next step, and
    the user as long as none of our outputs is picked by hand.  In the
    SBC client the blit thread runs while the main thread waits in poll(2)
    or in a call to the device, not in the middle of a blocking read, and
    the allocation of the buffer for access units never fails. *)

From stdpp Require Export base list numbers option strings sets.
From Stdlib Require Export ZArith Lia.

#[global] Open Scope Z_scope.

(** ** Functional record update

    [c⟨f := v⟩] is the C assignment [c->f = v] and [c⟨f ::= g⟩] is
    [c->f = g(c->f)].  A record type becomes updatable by giving its
    eta-expansion as an instance of [Eta]; the setter of a field is then
    found by abstracting the projection in that expansion. *)
Class Eta (R : Type) := rec_eta : R → R.
Class Setter {R T : Type} (p : R → T) := upd : (T → T) → R → R.

Ltac find_setter :=
  match goal with
  | |- @Setter ?R ?T ?p =>
    let i := constr:(_ : Eta R) in
    let e := eval red in i in
    let e := match e with
             | _ => eval unfold i in e
             | _ => e
             end in
    let f := eval pattern p in e in
    match f with
    | ?g p =>
      let s := constr:(fun (h : T → T) => g (fun r => h (p r))) in
      let s := eval cbv beta in s in
      exact s
    end
  end.
#[export] Hint Extern 1 (Setter _) => find_setter : typeclass_instances.

Declare Scope srem_scope.
Delimit Scope srem_scope with srem.
#[global] Open Scope srem_scope.
Notation "r ⟨ p := v ⟩" := (upd (p:=p) (λ _, v) r)
  (at level 1, left associativity, format "r ⟨ p  :=  v ⟩") : srem_scope.
Notation "r ⟨ p ::= f ⟩" := (upd (p:=p) f r)
  (at level 1, left associativity, format "r ⟨ p  ::=  f ⟩") : srem_scope.

(** [lia] with the quotients and remainders of the context turned into
    their defining (in)equations. *)
Ltac dlia := Z.div_mod_to_equations; lia.

(** ** Machine integers

    A C integer is a [Z]; every place where the code narrows or wraps a
    value applies the conversion of the target type. *)
Abbreviation bytes := (list Z).

Definition u8 (x : Z) : Z := x mod 2 ^ 8.
Definition u16 (x : Z) : Z := x mod 2 ^ 16.
Definition u32 (x : Z) : Z := x mod 2 ^ 32.
Definition u64 (x : Z) : Z := x mod 2 ^ 64.
Definition s8 (x : Z) : Z := (x + 2 ^ 7) mod 2 ^ 8 - 2 ^ 7.
Definition s32 (x : Z) : Z := (x + 2 ^ 31) mod 2 ^ 32 - 2 ^ 31.
Definition s64 (x : Z) : Z := (x + 2 ^ 63) mod 2 ^ 64 - 2 ^ 63.

(** The GLib macros MIN, MAX and CLAMP. *)
Definition CLAMP (x low high : Z) : Z :=
  if high <? x then high else if x <? low then low else x.

Definition is_byte (b : Z) : Prop := 0 ≤ b < 256.
Abbreviation bytes_ok := (Forall is_byte).

Lemma u8_range x : 0 ≤ u8 x < 256.
Proof. unfold u8. change (2 ^ 8) with 256. dlia. Qed.
Lemma u16_range x : 0 ≤ u16 x < 65536.
Proof. unfold u16. change (2 ^ 16) with 65536. dlia. Qed.
Lemma u32_range x : 0 ≤ u32 x < 4294967296.
Proof. unfold u32. change (2 ^ 32) with 4294967296. dlia. Qed.
Lemma u64_range x : 0 ≤ u64 x < 2 ^ 64.
Proof. apply Z.mod_pos_bound. lia. Qed.
Lemma u8_small x : 0 ≤ x < 256 → u8 x = x.
Proof. intros. unfold u8. apply Z.mod_small. change (2 ^ 8) with 256. lia. Qed.
Lemma u16_small x : 0 ≤ x < 65536 → u16 x = x.
Proof. intros. unfold u16. apply Z.mod_small. change (2 ^ 16) with 65536. lia. Qed.
Lemma u32_small x : 0 ≤ x < 4294967296 → u32 x = x.
Proof. intros. unfold u32. apply Z.mod_small. change (2 ^ 32) with 4294967296. lia. Qed.
Lemma s32_small x : - 2147483648 ≤ x < 2147483648 → s32 x = x.
Proof.
  intros. unfold s32. change (2 ^ 31) with 2147483648. change (2 ^ 32) with 4294967296.
  rewrite Z.mod_small; lia.
Qed.
Lemma CLAMP_range x lo hi : lo ≤ hi → lo ≤ CLAMP x lo hi ≤ hi.
Proof. intros. unfold CLAMP. repeat case_match; lia. Qed.
Lemma CLAMP_id x lo hi : lo ≤ x ≤ hi → CLAMP x lo hi = x.
Proof. intros. unfold CLAMP. repeat case_match; lia. Qed.

Create HintDb srem.
Create Rewrite HintDb srem.
#[export] Hint Resolve u8_range u16_range u32_range CLAMP_range : srem.
#[export] Hint Rewrite u8_small u16_small u32_small CLAMP_id using lia : srem.

(** ** Little-endian packing: the memory image of the packed structs *)
Fixpoint le (n : nat) (z : Z) : bytes :=
  match n with
  | O => []
  | S n => z mod 256 :: le n (z / 256)
  end.

Fixpoint of_le (l : bytes) : Z :=
  match l with
  | [] => 0
  | b :: l => b + 256 * of_le l
  end.

Lemma length_le n z : length (le n z) = n.
Proof. revert z; induction n; intros; simpl; auto. Qed.

Lemma le_ok n z : bytes_ok (le n z).
Proof.
  revert z; induction n; intros; simpl; constructor; auto.
  unfold is_byte. dlia.
Qed.

Lemma of_le_le n z : 0 ≤ z < 256 ^ Z.of_nat n → of_le (le n z) = z.
Proof.
  revert z; induction n; intros z Hz.
  - simpl in *. change (256 ^ 0) with 1 in Hz. lia.
  - cbn [le of_le]. rewrite IHn; [dlia|].
    rewrite Nat2Z.inj_succ, Z.pow_succ_r in Hz by lia.
    split; [apply Z.div_pos; lia|].
    apply Z.div_lt_upper_bound; lia.
Qed.

Lemma le_of_le l : bytes_ok l → le (length l) (of_le l) = l.
Proof.
  induction 1 as [|b l Hb Hl IH]; [done|].
  cbn [length le of_le]. unfold is_byte in Hb.
  rewrite (Z.mul_comm 256), Z.mod_add, Z.mod_small by lia.
  rewrite Z.div_add, Z.div_small by lia.
  by rewrite Z.add_0_l, IH.
Qed.

Lemma of_le_range l : bytes_ok l → 0 ≤ of_le l < 256 ^ Z.of_nat (length l).
Proof.
  induction 1 as [|b l Hb Hl IH]; [done|].
  cbn [length of_le]. unfold is_byte in Hb.
  rewrite Nat2Z.inj_succ, Z.pow_succ_r by lia. lia.
Qed.
#[export] Hint Resolve le_ok : srem.
#[export] Hint Rewrite length_le : srem.

(** ** Memory: [slice] reads [n] bytes at [off], [blit] is [memcpy] *)
Definition slice {A} (off n : Z) (l : list A) : list A :=
  take (Z.to_nat n) (drop (Z.to_nat off) l).

Definition blit {A} (dst : list A) (off : Z) (src : list A) : list A :=
  take (Z.to_nat off) dst ++ src ++ drop (Z.to_nat off + length src) dst.

Lemma length_slice {A} off n (l : list A) :
  0 ≤ off → 0 ≤ n → off + n ≤ Z.of_nat (length l) →
  length (slice off n l) = Z.to_nat n.
Proof. intros. unfold slice. rewrite length_take, length_drop. lia. Qed.

Lemma lookup_slice {A} off n (l : list A) (i : nat) :
  Z.of_nat i < n → slice off n l !! i = l !! (Z.to_nat off + i)%nat.
Proof.
  intros. unfold slice. rewrite lookup_take_lt by lia. by rewrite lookup_drop.
Qed.

Lemma slice_slice {A} a n b m (l : list A) :
  0 ≤ a → 0 ≤ b → 0 ≤ m → b + m ≤ n → slice b m (slice a n l) = slice (a + b) m l.
Proof.
  intros. apply list_eq. intros k. destruct (decide (Z.of_nat k < m)).
  - rewrite !lookup_slice by lia. f_equal; lia.
  - unfold slice. rewrite !lookup_take_ge by lia. done.
Qed.

Lemma length_blit {A} (dst : list A) off src :
  0 ≤ off → off + Z.of_nat (length src) ≤ Z.of_nat (length dst) →
  length (blit dst off src) = length dst.
Proof.
  intros. unfold blit. rewrite !length_app, length_take, length_drop. lia.
Qed.

Lemma lookup_blit {A} (dst : list A) off src (i : nat) :
  0 ≤ off → off + Z.of_nat (length src) ≤ Z.of_nat (length dst) →
  blit dst off src !! i =
    if bool_decide (off ≤ Z.of_nat i < off + Z.of_nat (length src))
    then src !! (i - Z.to_nat off)%nat else dst !! i.
Proof.
  intros. unfold blit. case_bool_decide as Hi.
  - rewrite lookup_app_r by (rewrite length_take; lia).
    rewrite length_take, lookup_app_l by lia. f_equal; lia.
  - destruct (decide (Z.of_nat i < off)).
    + rewrite lookup_app_l by (rewrite length_take; lia).
      by rewrite lookup_take_lt by lia.
    + rewrite lookup_app_r by (rewrite length_take; lia).
      rewrite length_take, lookup_app_r by lia.
      rewrite lookup_drop. f_equal. lia.
Qed.

Lemma list_ne_lookup `{EqDecision A} (l k : list A) : l ≠ k → ∃ i, l !! i ≠ k !! i.
Proof.
  revert k. induction l as [|x l IH]; intros [|y k] Hne; [done|by exists 0%nat|by exists 0%nat|].
  destruct (decide (x = y)) as [->|Hxy].
  - destruct (IH k) as [i Hi]; [congruence|]. by exists (S i).
  - exists 0%nat. cbn. congruence.
Qed.

Lemma slice_eq_lookup {A} off n (a b : list A) (i : nat) :
  slice off n a = slice off n b →
  off ≤ Z.of_nat i < off + n → 0 ≤ off → a !! i = b !! i.
Proof.
  intros Heq Hi Hoff.
  replace i with (Z.to_nat off + (i - Z.to_nat off))%nat by lia.
  rewrite <- !(lookup_slice off n) by lia. by rewrite Heq.
Qed.

Lemma slice_ok off n l : bytes_ok l → bytes_ok (slice off n l).
Proof. intros. unfold slice. by apply Forall_take, Forall_drop. Qed.
#[export] Hint Resolve slice_ok : srem.

Lemma slice_skip {A} off n (l k : list A) :
  Z.of_nat (length l) ≤ off →
  slice off n (l ++ k) = slice (off - Z.of_nat (length l)) n k.
Proof.
  intros. unfold slice. rewrite drop_app_ge by lia. do 2 f_equal. lia.
Qed.

Lemma slice_hit {A} off n (l k : list A) :
  off = 0 → n = Z.of_nat (length l) → slice off n (l ++ k) = l.
Proof.
  intros -> ->. unfold slice. rewrite drop_0, Nat2Z.id. apply take_app_length.
Qed.

Lemma slice_all {A} off n (l : list A) :
  off = 0 → n = Z.of_nat (length l) → slice off n l = l.
Proof. intros -> ->. unfold slice. rewrite drop_0, Nat2Z.id. apply take_ge; lia. Qed.

Lemma slice_join {A} a n m (l : list A) :
  0 ≤ a → 0 ≤ n → 0 ≤ m →
  slice a n l ++ slice (a + n) m l = slice a (n + m) l.
Proof.
  intros. unfold slice. rewrite (Z2Nat.inj_add a n), (Z2Nat.inj_add n m) by lia.
  rewrite <- drop_drop. apply take_take_drop.
Qed.

(** [get n off b]: the little-endian integer of [n] bytes at [off]. *)
Definition get (n : nat) (off : Z) (b : bytes) : Z :=
  of_le (slice off (Z.of_nat n) b).

Lemma le_get n off b :
  bytes_ok b → 0 ≤ off → off + Z.of_nat n ≤ Z.of_nat (length b) →
  le n (get n off b) = slice off (Z.of_nat n) b.
Proof.
  intros. unfold get.
  rewrite <- (le_of_le (slice off (Z.of_nat n) b)) at 2 by auto with srem.
  by rewrite length_slice, Nat2Z.id by lia.
Qed.

(** Reads fields back out of a concatenation of packed fields. *)
Ltac read_fields :=
  unfold get;
  repeat first
    [ rewrite slice_hit by (rewrite ?length_le; simpl; lia)
    | rewrite slice_all by (rewrite ?length_le; simpl; lia)
    | rewrite slice_skip by (rewrite ?length_le; simpl; lia);
      rewrite ?length_le ];
  rewrite ?of_le_le by (simpl Z.of_nat; lia).

(** [seqZ a n] is [a; a+1; ...]: the index of a [for] loop. *)
Definition for_ {S} (a n : Z) (body : Z → S → S) (s : S) : S :=
  foldl (λ s i, body i s) s (seqZ a n).

Lemma for_ind {S} (P : Z → S → Prop) a n body s :
  P a s → (∀ i s, a ≤ i < a + n → P i s → P (i + 1) (body i s)) →
  P (a + Z.max 0 n) (for_ a n body s).
Proof.
  intros H0 Hs. unfold for_.
  destruct (decide (n ≤ 0)) as [Hn|Hn].
  { rewrite seqZ_nil by lia. simpl. replace (a + Z.max 0 n) with a by lia. done. }
  replace (Z.max 0 n) with n by lia.
  assert (∃ k, n = Z.of_nat k) as [k ->] by (exists (Z.to_nat n); lia).
  clear Hn. revert Hs.
  induction k as [|k IH]; intros Hs.
  - rewrite seqZ_nil by lia. simpl. by rewrite Z.add_0_r.
  - rewrite Nat2Z.inj_succ, <- Z.add_1_r, seqZ_app by lia.
    rewrite foldl_app. rewrite (seqZ_cons (a + Z.of_nat k)) by lia.
    rewrite (seqZ_nil _ (Z.pred 1)) by lia. simpl.
    rewrite Z.add_assoc. apply Hs; [lia|]. apply IH.
    intros; apply Hs; [lia|done].
Qed.

Lemma for_ind0 {S} (P : Z → S → Prop) n body s :
  0 ≤ n → P 0 s → (∀ i s, 0 ≤ i < n → P i s → P (i + 1) (body i s)) →
  P n (for_ 0 n body s).
Proof.
  intros Hn H0 Hs. pose proof (for_ind P 0 n body s H0) as Hf.
  replace (0 + Z.max 0 n) with n in Hf by lia. apply Hf. intros; apply Hs; auto; lia.
Qed.

Lemma for_ext {S} a n (f g : Z → S → S) s :
  (∀ i s, f i s = g i s) → for_ a n f s = for_ a n g s.
Proof.
  intros Hfg. unfold for_. revert s. generalize (seqZ a n) as l.
  intros l. induction l as [|i l IH]; intros s; simpl; [done|].
  by rewrite Hfg, IH.
Qed.

(** Two runs of a loop stay related. *)
Lemma for_rel {S T} (R : S → T → Prop) a n (f : Z → S → S) (g : Z → T → T) s t :
  (∀ i s t, R s t → R (f i s) (g i t)) → R s t → R (for_ a n f s) (for_ a n g t).
Proof.
  intros Hfg. unfold for_. revert s t. generalize (seqZ a n) as l.
  intros l. induction l as [|i l IH]; intros s t Hst; simpl; auto.
Qed.

Lemma for_shift {S} a n (f : Z → S → S) s : for_ a n f s = for_ 0 n (λ i, f (a + i)) s.
Proof.
  unfold for_. replace (seqZ a n) with (Z.add a <$> seqZ 0 n).
  - generalize (seqZ 0 n) as l. intros l. revert s. induction l as [|x l IH]; intros s; [done|].
    cbn. apply IH.
  - by rewrite fmap_add_seqZ, Z.add_0_r.
Qed.

Lemma for_snoc {S} a n (f : Z → S → S) s : 0 ≤ n → for_ a (n + 1) f s = f (a + n) (for_ a n f s).
Proof.
  intros Hn. unfold for_. rewrite seqZ_app by lia. rewrite foldl_app.
  rewrite (seqZ_cons (a + n) 1), (seqZ_nil _ (Z.pred 1)) by lia. done.
Qed.

(** [rows a n f] is [f a ++ f (a+1) ++ ... ++ f (a+n-1)]: a loop that
    writes one fixed-size item per index into consecutive places. *)
Definition rows {A} (a n : Z) (f : Z → list A) : list A :=
  mjoin (f <$> seqZ a n).

Lemma rows_app {A} a n m (f : Z → list A) :
  0 ≤ n → 0 ≤ m → rows a (n + m) f = rows a n f ++ rows (a + n) m f.
Proof. intros. unfold rows. by rewrite seqZ_app, fmap_app, join_app by lia. Qed.

Lemma rows_ext {A} a n (f g : Z → list A) :
  (∀ i, a ≤ i < a + n → f i = g i) → rows a n f = rows a n g.
Proof.
  intros Hfg. unfold rows. f_equal. apply list_fmap_ext.
  intros i x Hx%list_elem_of_lookup_2. apply elem_of_seqZ in Hx. by apply Hfg.
Qed.

Lemma rows_shift {A} a x n (f : Z → list A) :
  rows (a + x) n f = rows a n (λ i, f (i + x)).
Proof.
  unfold rows. f_equal. unfold seqZ. rewrite <- !list_fmap_compose.
  apply list_fmap_ext. intros. simpl. f_equal. lia.
Qed.

Lemma length_rows {A} a n k (f : Z → list A) :
  (∀ i, a ≤ i < a + n → length (f i) = k) →
  length (rows a n f) = (Z.to_nat n * k)%nat.
Proof.
  intros Hf. unfold rows. rewrite length_join, <- list_fmap_compose.
  rewrite (list_fmap_ext _ (λ _, k)).
  2:{ intros i x Hx%list_elem_of_lookup_2. apply elem_of_seqZ in Hx. by apply Hf. }
  rewrite <- (length_seqZ a n). clear Hf. generalize (seqZ a n) as l.
  intros l. induction l as [|x l IH]; simpl; [done|]. f_equal. apply IH.
Qed.

Lemma rows_Forall {A} (P : A → Prop) a n (f : Z → list A) :
  (∀ i, a ≤ i < a + n → Forall P (f i)) → Forall P (rows a n f).
Proof.
  intros Hf. unfold rows. apply Forall_join, Forall_fmap, Forall_forall.
  intros i Hi. apply elem_of_seqZ in Hi. by apply Hf.
Qed.

Lemma slice_rows {A} a n k x w (f : Z → list A) :
  (∀ i, a ≤ i < a + n → Z.of_nat (length (f i)) = k) →
  0 ≤ x → 0 ≤ w → x + w ≤ n →
  slice (x * k) (w * k) (rows a n f) = rows (a + x) w f.
Proof.
  intros Hf ???.
  assert (Hlen : ∀ b m, a ≤ b → 0 ≤ m → b + m ≤ a + n →
            Z.of_nat (length (rows b m f)) = m * k).
  { intros. rewrite (length_rows b m (Z.to_nat k)); [|intros; rewrite <- (Hf i); lia].
    destruct (decide (n = 0)); [nia|]. specialize (Hf a). nia. }
  replace (rows a n f) with (rows a (x + (w + (n - x - w))) f) by (f_equal; lia).
  rewrite !rows_app by lia.
  rewrite slice_skip by (rewrite Hlen; lia).
  apply slice_hit; rewrite Hlen; lia.
Qed.

Lemma rows_lookup {A} a n k (f : Z → list A) (i : nat) :
  (∀ j, a ≤ j < a + n → Z.of_nat (length (f j)) = k) →
  0 < k → Z.of_nat i < n * k →
  rows a n f !! i = f (a + Z.of_nat i / k) !! Z.to_nat (Z.of_nat i mod k).
Proof.
  intros Hf Hk Hi. pose proof (Z.div_mod (Z.of_nat i) k).
  pose proof (Z.mod_pos_bound (Z.of_nat i) k Hk) as Hm.
  set (q := Z.of_nat i / k) in *. set (r := Z.of_nat i mod k) in *.
  assert (0 ≤ q < n) by nia.
  transitivity (slice (q * k) (1 * k) (rows a n f) !! Z.to_nat r).
  { rewrite lookup_slice by lia. f_equal. nia. }
  rewrite (slice_rows _ _ _ _ _ _ Hf) by lia.
  unfold rows. rewrite (seqZ_cons _ 1), seqZ_nil by lia. simpl.
  by rewrite app_nil_r.
Qed.

(** ** Tactics *)

(** Splits the branches of the function under scrutiny and turns the
    boolean tests of the path into propositions. *)
Ltac split_ifs :=
  repeat (case_match; simplify_eq/=);
  repeat match goal with
  | H : (_ && _)%bool = true |- _ => apply andb_prop in H as [? ?]
  | H : (_ || _)%bool = false |- _ => apply orb_false_elim in H as [? ?]
  | H : negb _ = true |- _ => apply negb_true_iff in H
  | H : negb _ = false |- _ => apply negb_false_iff in H
  end.

(** Unfolds a handler, splits its branches, closes the easy ones. *)
Ltac branches := intros; split_ifs; auto with srem; try lia.
