(* ===== verification/Binary64.v ===== *)
(** * The C type [double]

    IEEE-754 binary64 as the Standard Library's executable specification
    [SpecFloat] computes it (53 bits of precision, exponents up to 1024,
    round to nearest even): every operation below is the rounded one, NaN
    and the infinities included. *)
From Stdlib Require Export SpecFloat.
From S2P Require Import Prelude.

Abbreviation double := spec_float.

Definition D_of_Z (z : Z) : double := binary_normalize 53 1024 z 0 false.
Definition Dadd (a b : double) : double := SFadd 53 1024 a b.
Definition Dsub (a b : double) : double := SFsub 53 1024 a b.
Definition Dmul (a b : double) : double := SFmul 53 1024 a b.
Definition Ddiv (a b : double) : double := SFdiv 53 1024 a b.
Definition Dsqrt (a : double) : double := SFsqrt 53 1024 a.
Definition Dabs (a : double) : double := SFabs a.

(** [a < b], [a <= b], [a == b]: false when an operand is NaN. *)
Definition Dltb (a b : double) : bool := SFltb a b.
Definition Dleb (a b : double) : bool := SFleb a b.
Definition Deqb (a b : double) : bool := SFeqb a b.

Definition D0 : double := S754_zero false.

(** A decimal literal [n/10^k] is the double nearest to that quotient: both
    operands are exact, so the correctly rounded division is the literal. *)
Definition D_lit (n k : Z) : double := Ddiv (D_of_Z n) (D_of_Z (10 ^ k)).

(** The value of a finite double as [m * 2^e] truncated toward zero: the C
    cast to an integer type (a NaN or an infinity gives 0 here; the cast is
    undefined in C). *)
Definition D_trunc (x : double) : Z :=
  match x with
  | S754_finite s m e =>
    let v := if 0 <=? e then Z.pos m * 2 ^ e else Z.pos m / 2 ^ (- e) in
    if s then - v else v
  | _ => 0
  end.

(** floor(3) as an integer, and lround(3): half away from zero. *)
Definition D_floor (x : double) : Z :=
  match x with
  | S754_finite s m e =>
    if 0 <=? e then (if s then - (Z.pos m * 2 ^ e) else Z.pos m * 2 ^ e)
    else if s then - Z.pos m / 2 ^ (- e) else Z.pos m / 2 ^ (- e)
  | _ => 0
  end.

Definition D_lround (x : double) : Z :=
  match x with
  | S754_finite s m e =>
    let v := if 0 <=? e then Z.pos m * 2 ^ e
             else (2 * Z.pos m + 2 ^ (- e)) / (2 * 2 ^ (- e)) in
    if s then - v else v
  | _ => 0
  end.
