(* ===== verification/Protocol.v ===== *)
(** * protocol.h: the wire protocol shared by server and client

    The constants, the enumerations as [Z] codes, one record per packed
    struct and its memory image ([*_bytes], the little-endian layout both
    ends exchange), with the reader of that image ([*_of]). *)
From S2P Require Import Prelude.

Definition SREMFB_MAGIC : Z := 0x30624672.
Definition SREMFB_PROTO_VER : Z := 2.
Definition SREMFB_DEFAULT_PORT : Z := 4629.

(** enum sremfb_pixfmt *)
Definition SREMFB_PIX_XRGB8888 : Z := 0.
Definition SREMFB_PIX_RGB565 : Z := 1.

(** enum sremfb_encoding *)
Definition SREMFB_ENC_RAW : Z := 0.
Definition SREMFB_ENC_LZ4 : Z := 1.
Definition SREMFB_ENC_BLANK : Z := 2.
Definition SREMFB_ENC_UNBLANK : Z := 3.
Definition SREMFB_ENC_PING : Z := 4.
Definition SREMFB_ENC_H264 : Z := 5.
Definition SREMFB_ENC_H264_EOS : Z := 6.

Definition SREMFB_H264_FLAG_IDR : Z := Z.shiftl 1 0.

(** client hello flags *)
Definition SREMFB_HELLO_FLAG_LZ4 : Z := Z.shiftl 1 0.
Definition SREMFB_HELLO_FLAG_FEEDBACK : Z := Z.shiftl 1 1.
Definition SREMFB_HELLO_FLAG_H264 : Z := Z.shiftl 1 2.
Definition SREMFB_HELLO_FLAG_USB : Z := Z.shiftl 1 3.
Definition SREMFB_HELLO_FLAG_INPUT : Z := Z.shiftl 1 4.
Definition SREMFB_HELLO_FLAG_AUDIO : Z := Z.shiftl 1 5.

(** server hello flags *)
Definition SREMFB_SRV_FLAG_PING : Z := Z.shiftl 1 0.
Definition SREMFB_SRV_FLAG_H264 : Z := Z.shiftl 1 1.
Definition SREMFB_SRV_FLAG_INPUT : Z := Z.shiftl 1 2.
Definition SREMFB_SRV_FLAG_AUDIO : Z := Z.shiftl 1 3.

(** enum sremfb_status *)
Definition SREMFB_STATUS_OK : Z := 0.
Definition SREMFB_STATUS_BAD_HELLO : Z := 1.
Definition SREMFB_STATUS_SERVER_FAIL : Z := 2.
Definition SREMFB_STATUS_NO_DEVICE : Z := 3.

(** enum sremfb_cmsg_type, enum sremfb_indev *)
Definition SREMFB_CMSG_PONG : Z := 1.
Definition SREMFB_CMSG_INPUT : Z := 2.
Definition SREMFB_INDEV_ALL : Z := 0.
Definition SREMFB_INDEV_KEYBOARD : Z := 1.
Definition SREMFB_INDEV_MOUSE : Z := 2.
Definition SREMFB_INDEV_POINTER : Z := 3.
Definition SREMFB_INDEV_GAMEPAD : Z := 4.

(** enum sremfb_udp_type, enum sremfb_audio_fmt and the audio constants *)
Definition SREMFB_UDP_AUDIO : Z := 1.
Definition SREMFB_UDP_AUDIO_HELLO : Z := 2.
Definition SREMFB_UDP_ECHO : Z := 3.
Definition SREMFB_AUDIO_S16LE_48K_STEREO : Z := 0.
Definition SREMFB_AUDIO_RATE : Z := 48000.
Definition SREMFB_AUDIO_MAX_FRAMES : Z := 240.

(** [flags & bit] as a C condition *)
Definition has_flag (flags bit : Z) : bool := negb (Z.land flags bit =? 0).

(** struct sremfb_client_hello, 48 bytes *)
Record sremfb_client_hello := mk_client_hello {
  ch_magic : Z; ch_proto_ver : Z; ch_flags : Z;
  ch_xres : Z; ch_yres : Z; ch_bpp : Z; ch_pixfmt : Z;
  ch_red_off : Z; ch_red_len : Z; ch_green_off : Z; ch_green_len : Z;
  ch_blue_off : Z; ch_blue_len : Z;
  ch_mac : bytes; ch_model : bytes; ch_reserved : bytes }.

Definition client_hello_bytes (h : sremfb_client_hello) : bytes :=
  le 4 (ch_magic h) ++ le 2 (ch_proto_ver h) ++ le 2 (ch_flags h) ++
  le 2 (ch_xres h) ++ le 2 (ch_yres h) ++ le 1 (ch_bpp h) ++
  le 1 (ch_pixfmt h) ++ le 1 (ch_red_off h) ++ le 1 (ch_red_len h) ++
  le 1 (ch_green_off h) ++ le 1 (ch_green_len h) ++ le 1 (ch_blue_off h) ++
  le 1 (ch_blue_len h) ++ ch_mac h ++ ch_model h ++ ch_reserved h.

Definition client_hello_of (b : bytes) : sremfb_client_hello :=
  mk_client_hello (get 4 0 b) (get 2 4 b) (get 2 6 b) (get 2 8 b) (get 2 10 b)
    (get 1 12 b) (get 1 13 b) (get 1 14 b) (get 1 15 b) (get 1 16 b)
    (get 1 17 b) (get 1 18 b) (get 1 19 b)
    (slice 20 6 b) (slice 26 13 b) (slice 39 9 b).

(** struct sremfb_server_hello, 16 bytes *)
Record sremfb_server_hello := mk_server_hello {
  sh_magic : Z; sh_proto_ver : Z; sh_status : Z; sh_width : Z; sh_height : Z;
  sh_pixfmt : Z; sh_flags : Z; sh_audio_token : Z }.
#[export] Instance eta_server_hello : Eta sremfb_server_hello := λ h,
  mk_server_hello (sh_magic h) (sh_proto_ver h) (sh_status h) (sh_width h)
    (sh_height h) (sh_pixfmt h) (sh_flags h) (sh_audio_token h).

Definition server_hello_bytes (h : sremfb_server_hello) : bytes :=
  le 4 (sh_magic h) ++ le 2 (sh_proto_ver h) ++ le 2 (sh_status h) ++
  le 2 (sh_width h) ++ le 2 (sh_height h) ++ le 1 (sh_pixfmt h) ++
  le 1 (sh_flags h) ++ le 2 (sh_audio_token h).

Definition server_hello_of (b : bytes) : sremfb_server_hello :=
  mk_server_hello (get 4 0 b) (get 2 4 b) (get 2 6 b) (get 2 8 b) (get 2 10 b)
    (get 1 12 b) (get 1 13 b) (get 2 14 b).

(** struct sremfb_frame_hdr, 20 bytes; [reserved[0]] carries the H.264
    flags, the other two reserved bytes are written as zero and kept
    apart. *)
Record sremfb_frame_hdr := mk_frame_hdr {
  fh_magic : Z; fh_encoding : Z; fh_reserved0 : Z; fh_reserved12 : Z;
  fh_x : Z; fh_y : Z; fh_w : Z; fh_h : Z; fh_payload_len : Z }.
#[export] Instance eta_frame_hdr : Eta sremfb_frame_hdr := λ h,
  mk_frame_hdr (fh_magic h) (fh_encoding h) (fh_reserved0 h) (fh_reserved12 h)
    (fh_x h) (fh_y h) (fh_w h) (fh_h h) (fh_payload_len h).

(** [struct sremfb_frame_hdr hdr = {0}] *)
Definition frame_hdr_zero : sremfb_frame_hdr := mk_frame_hdr 0 0 0 0 0 0 0 0 0.

Definition frame_hdr_bytes (h : sremfb_frame_hdr) : bytes :=
  le 4 (fh_magic h) ++ le 1 (fh_encoding h) ++ le 1 (fh_reserved0 h) ++
  le 2 (fh_reserved12 h) ++ le 2 (fh_x h) ++ le 2 (fh_y h) ++ le 2 (fh_w h) ++
  le 2 (fh_h h) ++ le 4 (fh_payload_len h).

Definition frame_hdr_of (b : bytes) : sremfb_frame_hdr :=
  mk_frame_hdr (get 4 0 b) (get 1 4 b) (get 1 5 b) (get 2 6 b) (get 2 8 b)
    (get 2 10 b) (get 2 12 b) (get 2 14 b) (get 4 16 b).

(** struct sremfb_client_msg and struct sremfb_input_msg, 16 bytes each *)
Record sremfb_client_msg := mk_client_msg {
  cm_magic : Z; cm_type : Z; cm_reserved : bytes; cm_t_echo_us : Z }.

Definition client_msg_bytes (m : sremfb_client_msg) : bytes :=
  le 4 (cm_magic m) ++ le 1 (cm_type m) ++ cm_reserved m ++ le 8 (cm_t_echo_us m).

Definition client_msg_of (b : bytes) : sremfb_client_msg :=
  mk_client_msg (get 4 0 b) (get 1 4 b) (slice 5 3 b) (get 8 8 b).

Record sremfb_input_msg := mk_input_msg {
  im_magic : Z; im_type : Z; im_dev : Z; im_reserved : Z;
  im_ev_type : Z; im_ev_code : Z; im_ev_value : Z }.

Definition input_msg_bytes (m : sremfb_input_msg) : bytes :=
  le 4 (im_magic m) ++ le 1 (im_type m) ++ le 1 (im_dev m) ++
  le 2 (im_reserved m) ++ le 2 (im_ev_type m) ++ le 2 (im_ev_code m) ++
  le 4 (u32 (im_ev_value m)).

Definition input_msg_of (b : bytes) : sremfb_input_msg :=
  mk_input_msg (get 4 0 b) (get 1 4 b) (get 1 5 b) (get 2 6 b) (get 2 8 b)
    (get 2 10 b) (s32 (get 4 12 b)).

(** The UDP datagrams of the audio flow. *)
Record sremfb_audio_hdr := mk_audio_hdr {
  ah_magic : Z; ah_type : Z; ah_format : Z; ah_frames : Z; ah_seq : Z;
  ah_reserved : Z; ah_t_us : Z }.

Definition audio_hdr_bytes (h : sremfb_audio_hdr) : bytes :=
  le 4 (ah_magic h) ++ le 1 (ah_type h) ++ le 1 (ah_format h) ++
  le 2 (ah_frames h) ++ le 4 (ah_seq h) ++ le 4 (ah_reserved h) ++
  le 8 (ah_t_us h).

Definition audio_hdr_of (b : bytes) : sremfb_audio_hdr :=
  mk_audio_hdr (get 4 0 b) (get 1 4 b) (get 1 5 b) (get 2 6 b) (get 4 8 b)
    (get 4 12 b) (get 8 16 b).

Record sremfb_udp_hello := mk_udp_hello {
  uh_magic : Z; uh_type : Z; uh_reserved : Z; uh_token : Z; uh_t_client_us : Z }.

Definition udp_hello_bytes (h : sremfb_udp_hello) : bytes :=
  le 4 (uh_magic h) ++ le 1 (uh_type h) ++ le 1 (uh_reserved h) ++
  le 2 (uh_token h) ++ le 8 (uh_t_client_us h).

Definition udp_hello_of (b : bytes) : sremfb_udp_hello :=
  mk_udp_hello (get 4 0 b) (get 1 4 b) (get 1 5 b) (get 2 6 b) (get 8 8 b).

Record sremfb_udp_echo := mk_udp_echo {
  ue_magic : Z; ue_type : Z; ue_reserved : bytes; ue_t_client_us : Z;
  ue_t_server_us : Z }.

Definition udp_echo_bytes (e : sremfb_udp_echo) : bytes :=
  le 4 (ue_magic e) ++ le 1 (ue_type e) ++ ue_reserved e ++
  le 8 (ue_t_client_us e) ++ le 8 (ue_t_server_us e).

Definition udp_echo_of (b : bytes) : sremfb_udp_echo :=
  mk_udp_echo (get 4 0 b) (get 1 4 b) (slice 5 3 b) (get 8 8 b) (get 8 16 b).

(** ** Well-formed values: every field in the range of its C type *)
Definition client_hello_wf (h : sremfb_client_hello) : Prop :=
  (0 ≤ ch_magic h < 2 ^ 32) ∧ (0 ≤ ch_proto_ver h < 2 ^ 16) ∧
  (0 ≤ ch_flags h < 2 ^ 16) ∧ (0 ≤ ch_xres h < 2 ^ 16) ∧
  (0 ≤ ch_yres h < 2 ^ 16) ∧ (0 ≤ ch_bpp h < 2 ^ 8) ∧
  (0 ≤ ch_pixfmt h < 2 ^ 8) ∧ (0 ≤ ch_red_off h < 2 ^ 8) ∧
  (0 ≤ ch_red_len h < 2 ^ 8) ∧ (0 ≤ ch_green_off h < 2 ^ 8) ∧
  (0 ≤ ch_green_len h < 2 ^ 8) ∧ (0 ≤ ch_blue_off h < 2 ^ 8) ∧
  (0 ≤ ch_blue_len h < 2 ^ 8) ∧
  length (ch_mac h) = 6%nat ∧ length (ch_model h) = 13%nat ∧
  length (ch_reserved h) = 9%nat.

Definition server_hello_wf (h : sremfb_server_hello) : Prop :=
  (0 ≤ sh_magic h < 2 ^ 32) ∧ (0 ≤ sh_proto_ver h < 2 ^ 16) ∧
  (0 ≤ sh_status h < 2 ^ 16) ∧ (0 ≤ sh_width h < 2 ^ 16) ∧
  (0 ≤ sh_height h < 2 ^ 16) ∧ (0 ≤ sh_pixfmt h < 2 ^ 8) ∧
  (0 ≤ sh_flags h < 2 ^ 8) ∧ (0 ≤ sh_audio_token h < 2 ^ 16).

Definition frame_hdr_wf (h : sremfb_frame_hdr) : Prop :=
  (0 ≤ fh_magic h < 2 ^ 32) ∧ (0 ≤ fh_encoding h < 2 ^ 8) ∧
  (0 ≤ fh_reserved0 h < 2 ^ 8) ∧ (0 ≤ fh_reserved12 h < 2 ^ 16) ∧
  (0 ≤ fh_x h < 2 ^ 16) ∧ (0 ≤ fh_y h < 2 ^ 16) ∧ (0 ≤ fh_w h < 2 ^ 16) ∧
  (0 ≤ fh_h h < 2 ^ 16) ∧ (0 ≤ fh_payload_len h < 2 ^ 32).

Definition client_msg_wf (m : sremfb_client_msg) : Prop :=
  (0 ≤ cm_magic m < 2 ^ 32) ∧ (0 ≤ cm_type m < 2 ^ 8) ∧
  length (cm_reserved m) = 3%nat ∧ (0 ≤ cm_t_echo_us m < 2 ^ 64).

Definition input_msg_wf (m : sremfb_input_msg) : Prop :=
  (0 ≤ im_magic m < 2 ^ 32) ∧ (0 ≤ im_type m < 2 ^ 8) ∧
  (0 ≤ im_dev m < 2 ^ 8) ∧ (0 ≤ im_reserved m < 2 ^ 16) ∧
  (0 ≤ im_ev_type m < 2 ^ 16) ∧ (0 ≤ im_ev_code m < 2 ^ 16) ∧
  (- 2 ^ 31 ≤ im_ev_value m < 2 ^ 31).

(** ** Sizes (the [_Static_assert]s) and images *)
Lemma length_client_hello h :
  length (ch_mac h) = 6%nat → length (ch_model h) = 13%nat →
  length (ch_reserved h) = 9%nat → length (client_hello_bytes h) = 48%nat.
Proof.
  intros. unfold client_hello_bytes. rewrite !length_app, !length_le. lia.
Qed.

Lemma length_client_hello_bytes h : client_hello_wf h →
  length (client_hello_bytes h) = 48%nat.
Proof.
  intros (?&?&?&?&?&?&?&?&?&?&?&?&?&H1&H2&H3). unfold client_hello_bytes.
  rewrite !length_app, !length_le, H1, H2, H3. done.
Qed.

Lemma length_server_hello_bytes h : length (server_hello_bytes h) = 16%nat.
Proof. unfold server_hello_bytes. by rewrite !length_app, !length_le. Qed.

Lemma length_frame_hdr_bytes h : length (frame_hdr_bytes h) = 20%nat.
Proof. unfold frame_hdr_bytes. by rewrite !length_app, !length_le. Qed.

Lemma frame_hdr_bytes_ok h : bytes_ok (frame_hdr_bytes h).
Proof. unfold frame_hdr_bytes. rewrite !Forall_app. auto 20 with srem. Qed.

#[local] Opaque le.

(** ** Reading back what was written *)
Lemma client_hello_of_bytes h :
  client_hello_wf h → client_hello_of (client_hello_bytes h) = h.
Proof.
  intros (?&?&?&?&?&?&?&?&?&?&?&?&?&?&?&?). destruct h; simpl in *.
  unfold client_hello_of, client_hello_bytes; simpl.
  f_equal; read_fields; done.
Qed.

Lemma server_hello_of_bytes h :
  server_hello_wf h → server_hello_of (server_hello_bytes h) = h.
Proof.
  intros (?&?&?&?&?&?&?&?). destruct h; simpl in *.
  unfold server_hello_of, server_hello_bytes; simpl.
  f_equal; read_fields; done.
Qed.

Lemma frame_hdr_of_bytes h tl :
  frame_hdr_wf h → frame_hdr_of (frame_hdr_bytes h ++ tl) = h.
Proof.
  intros (?&?&?&?&?&?&?&?&?). destruct h; simpl in *.
  unfold frame_hdr_of, frame_hdr_bytes; simpl. rewrite <- !app_assoc.
  f_equal; read_fields; done.
Qed.

Lemma client_msg_of_bytes m tl :
  client_msg_wf m → client_msg_of (client_msg_bytes m ++ tl) = m.
Proof.
  intros (?&?&?&?). destruct m; simpl in *.
  unfold client_msg_of, client_msg_bytes; simpl. rewrite <- !app_assoc.
  f_equal; read_fields; done.
Qed.

Lemma s32_u32 v : - 2 ^ 31 ≤ v < 2 ^ 31 → s32 (u32 v) = v.
Proof.
  intros. unfold s32, u32.
  rewrite Z.add_mod_idemp_l, Z.mod_small by lia. lia.
Qed.

Lemma input_msg_of_bytes m tl :
  input_msg_wf m → input_msg_of (input_msg_bytes m ++ tl) = m.
Proof.
  intros (?&?&?&?&?&?&Hv). destruct m; simpl in *.
  unfold input_msg_of, input_msg_bytes; simpl. rewrite <- !app_assoc.
  pose proof (u32_range im_ev_value0).
  f_equal; read_fields; try done. apply s32_u32; lia.
Qed.
