(* ===== verification/Bits.v ===== *)
(** * Bit arrays: bit_get() and bit_put()

    input.c and input_hid.c keep the set of pressed keys as an array of
    bytes, one bit per key code, with the same two accessors. *)
From S2P Require Import Prelude.

Definition bit_get (b : bytes) (n : Z) : bool :=
  Z.testbit (nth (Z.to_nat (n / 8)) b 0) (n mod 8).

Definition bit_put (b : bytes) (n : Z) (on : bool) : bytes :=
  let i := Z.to_nat (n / 8) in
  let x := nth i b 0 in
  let mask := Z.shiftl 1 (n mod 8) in
  <[i := if on then Z.lor x (u8 mask) else Z.land x (u8 (Z.lnot mask))]> b.

Lemma length_bit_put b n on : length (bit_put b n on) = length b.
Proof. apply length_insert. Qed.

Lemma testbit_one k j : 0 ≤ k → Z.testbit (Z.shiftl 1 k) j = (j =? k).
Proof.
  intros Hk. rewrite Z.shiftl_1_l. destruct (j =? k) eqn:Hj.
  - assert (j = k) as -> by lia. by apply Z.pow2_bits_true.
  - apply Z.pow2_bits_false. lia.
Qed.

Lemma testbit_u8 x j : 0 ≤ j < 8 → Z.testbit (u8 x) j = Z.testbit x j.
Proof. intros. unfold u8. by rewrite Z.mod_pow2_bits_low by lia. Qed.

(** Writing one bit changes that bit only. *)
Lemma bit_get_put b n m on :
  0 ≤ n < 8 * Z.of_nat (length b) → 0 ≤ m →
  bit_get (bit_put b n on) m = if m =? n then on else bit_get b m.
Proof.
  intros Hn Hm. unfold bit_get, bit_put.
  assert (Hm8 : 0 ≤ m mod 8 < 8) by dlia. assert (Hn8 : 0 ≤ n mod 8 < 8) by dlia.
  destruct (decide (m / 8 = n / 8)) as [Hq|Hq].
  - rewrite Hq. rewrite (nth_lookup (<[_ := _]> b)), list_lookup_insert_eq by dlia. cbn [from_option]; unfold id.
    assert (Heq : (m =? n) = (m mod 8 =? n mod 8)) by dlia.
    rewrite Heq. destruct on; cbv iota.
    + rewrite Z.lor_spec, testbit_u8, testbit_one by lia.
      by destruct (m mod 8 =? n mod 8), (Z.testbit _ _).
    + rewrite Z.land_spec, testbit_u8, Z.lnot_spec, testbit_one by lia.
      by destruct (m mod 8 =? n mod 8), (Z.testbit _ _).
  - rewrite !(nth_lookup _ (Z.to_nat (m / 8))), list_lookup_insert_ne by dlia.
    destruct (m =? n) eqn:Hmn; [|done]. exfalso. apply Hq. f_equal. lia.
Qed.

Lemma bit_get_clear b m : Forall (λ x, x = 0) b → bit_get b m = false.
Proof.
  intros Hb. unfold bit_get. rewrite nth_lookup.
  destruct (b !! _) as [x|] eqn:Hx; cbn; [|apply Z.bits_0].
  rewrite Forall_lookup in Hb. rewrite (Hb _ _ Hx). apply Z.bits_0.
Qed.
