(* ===== verification/Core.v ===== *)
(** * core.h and source.h: the shared data of the server

    The per-client state [SremfbClient], the server state, the damage
    rectangle and the frame geometry, the interfaces of the libraries the
    core calls (x264, LZ4, the environment and the clock) as type classes,
    and the two operations of session.c every other file of the core uses:
    allocating a GLib event source and scheduling the loss of a client.

    A pointer that may be NULL is an [option]; a GLib source id is a [Z]
    with 0 for "none"; a buffer is the list of its bytes.  [c_sendbuf] and
    [c_yuvbuf] say whether the scratch buffer exists: their content is
    rewritten before every use, and the bytes a message was built from are
    kept in [c_out_seg0]/[c_out_seg1].  [c_recvbuf] is the filled part of
    recvbuf, so recvlen is its length; [c_dirty] is dirty[0..dirty_n).

    Three fields are not in the C struct.  [c_tick] counts the clock
    readings the client's handlers made, [c_next_source] is the next id
    GLib hands out, and [c_wire] is the ghost record of every byte the
    kernel accepted on the client's socket. *)
From S2P Require Import Prelude Binary64 Protocol.

(** source.h *)
Record sremfb_rect := mk_rect { x1 : Z; y1 : Z; x2 : Z; y2 : Z }.
#[export] Instance eta_rect : Eta sremfb_rect := λ r,
  mk_rect (x1 r) (y1 r) (x2 r) (y2 r).
#[export] Instance rect_eq_dec : EqDecision sremfb_rect.
Proof. solve_decision. Defined.
Record sremfb_geom := mk_geom { g_width : Z; g_height : Z }.

(** core.h *)
Inductive SremfbClientState := MODE_WAIT | STREAMING.
Inductive SremfbXmitMode := XMIT_RAW | XMIT_H264.
Inductive SremfbCtlState :=
  | CTL_RAW_STEADY | CTL_RAW_SUSPECT | CTL_H264_ACTIVE | CTL_H264_COOLDOWN.
#[export] Instance client_state_eq_dec : EqDecision SremfbClientState.
Proof. solve_decision. Defined.
#[export] Instance xmit_mode_eq_dec : EqDecision SremfbXmitMode.
Proof. solve_decision. Defined.
#[export] Instance ctl_state_eq_dec : EqDecision SremfbCtlState.
Proof. solve_decision. Defined.

Definition SREMFB_MAX_CLIENTS : Z := 8.

(** input.c: one uinput device.  [d_log] is the ghost record of the events
    written to it. *)
Record SremfbIndev := mk_indev {
  d_fd : Z; d_keys : bytes; d_down : bytes; d_rels : Z; d_abss : Z;
  d_abs_min : list Z; d_abs_max : list Z; d_dirty : bool;
  d_log : list (Z * Z * Z) }.
#[export] Instance eta_indev : Eta SremfbIndev := λ d,
  mk_indev (d_fd d) (d_keys d) (d_down d) (d_rels d) (d_abss d)
    (d_abs_min d) (d_abs_max d) (d_dirty d) (d_log d).

Record SremfbInput := mk_input {
  in_dev : list SremfbIndev; in_geo_warned : bool; in_abs_placed : bool;
  in_n_events : Z }.
#[export] Instance eta_input : Eta SremfbInput := λ i,
  mk_input (in_dev i) (in_geo_warned i) (in_abs_placed i) (in_n_events i).

(** ** The libraries the core calls *)

(** The fields of x264's parameter block the encoder assigns. *)
Record x264_param_t := mk_x264_param {
  i_width : Z; i_height : Z; i_csp : Z; b_annexb : bool;
  b_repeat_headers : bool; i_threads : Z; b_sliced_threads : bool;
  i_fps_num : Z; i_fps_den : Z; b_vfr_input : bool; i_keyint_max : Z;
  i_keyint_min : Z; i_scenecut_threshold : Z; i_rc_method : Z;
  i_bitrate : Z; i_vbv_max_bitrate : Z; i_vbv_buffer_size : Z;
  b_fullrange : bool; i_colorprim : Z; i_transfer : Z; i_colmatrix : Z;
  i_log_level : Z }.
#[export] Instance eta_x264_param : Eta x264_param_t := λ p,
  mk_x264_param (i_width p) (i_height p) (i_csp p) (b_annexb p)
    (b_repeat_headers p) (i_threads p) (b_sliced_threads p) (i_fps_num p)
    (i_fps_den p) (b_vfr_input p) (i_keyint_max p) (i_keyint_min p)
    (i_scenecut_threshold p) (i_rc_method p) (i_bitrate p)
    (i_vbv_max_bitrate p) (i_vbv_buffer_size p) (b_fullrange p)
    (i_colorprim p) (i_transfer p) (i_colmatrix p) (i_log_level p).

(** The picture handed to x264: three planes with their strides. *)
Record x264_picture_t := mk_x264_picture {
  pic_planes : bytes * bytes * bytes; pic_strides : Z * Z * Z;
  pic_pts : Z; pic_idr : bool }.

(** One x264_encoder_encode() call: the returned size, the NAL count, the
    contiguous payload and the key-frame flag of the output picture. *)
Record x264_out := mk_x264_out {
  xo_size : Z; xo_n_nal : Z; xo_payload : bytes; xo_keyframe : bool }.

Class X264 := {
  X264_CSP_I420 : Z;
  X264_KEYINT_MAX_INFINITE : Z;
  X264_RC_ABR : Z;
  X264_LOG_WARNING : Z;
  x264_t : Type;
  x264_param_default_preset : string → string → option x264_param_t;
  x264_encoder_open : x264_param_t → option x264_t;
  x264_encoder_reconfig : x264_t → x264_param_t → x264_t * Z;
  x264_encoder_encode : x264_t → x264_picture_t → x264_t * x264_out }.

(** What x264 documents: the NALs of a picture are contiguous, the returned
    size is their total and an int. *)
Class X264Laws (X : X264) := {
  x264_encode_size h pic h' out : x264_encoder_encode h pic = (h', out) →
    xo_size out < 2 ^ 31 ∧
    (0 < xo_size out → Z.of_nat (length (xo_payload out)) = xo_size out) }.

(** LZ4: the compressor, given the source, its size, the capacity of the
    destination and the acceleration, gives the block ([[]] when it fails or
    the block does not fit); the decompressor, given the block and the
    capacity, the decoded bytes, or [None] on a malformed block. *)
Class LZ4 := {
  LZ4_compressBound : Z → Z;
  LZ4_compress_fast : bytes → Z → Z → Z → bytes;
  LZ4_decompress_safe : bytes → Z → option bytes }.

Definition LZ4_MAX_INPUT_SIZE : Z := 0x7E000000.

(** What LZ4 documents: a block decodes to what was compressed; the
    bound is the macro of lz4.h. *)
Class LZ4Laws (L : LZ4) := {
  LZ4_roundtrip src cap acc blk :
    LZ4_compress_fast src (Z.of_nat (length src)) cap acc = blk → blk ≠ [] →
    LZ4_decompress_safe blk (Z.of_nat (length src)) = Some src;
  LZ4_bound n : 0 ≤ n ≤ LZ4_MAX_INPUT_SIZE →
    LZ4_compressBound n = n + n / 255 + 16 }.

(** The process environment and the monotonic clock, in microseconds: the
    value of the n-th reading of g_get_monotonic_time(). *)
Class Platform := {
  getenv_FORCE_H264 : bool;
  getenv_NO_H264 : bool;
  getenv_NO_DITHER : bool;
  getenv_NO_USB : bool;
  g_monotonic : nat → Z }.

(** struct SremfbEncoder (encoder.c) *)
Section encoder_struct.
Context `{X264}.

Record SremfbEncoder := mk_encoder {
  e_h : x264_t; e_param : x264_param_t; e_w : Z; e_h_px : Z; e_kbps : Z;
  e_pts : Z }.
#[export] Instance eta_encoder : Eta SremfbEncoder := λ e,
  mk_encoder (e_h e) (e_param e) (e_w e) (e_h_px e) (e_kbps e) (e_pts e).

Record SremfbClient := mk_client {
  c_state : SremfbClientState; c_fd : Z; c_watch_id : Z;
  c_hello : sremfb_client_hello; c_lz4 : bool; c_peer : string;
  c_macstr : string; c_lost_id : Z; c_geom : sremfb_geom;
  c_grabbuf : option bytes; c_shadowbuf : option bytes; c_sendbuf : bool;
  c_outq : list bytes; c_outq_off : Z; c_out_seg0 : bytes;
  c_out_seg1 : bytes; c_out_off : Z; c_out_active : bool;
  c_out_watch_id : Z; c_out_retry_id : Z; c_dirty : list sremfb_rect;
  c_dirty_all : bool; c_dirty_raw : Z; c_feedback : bool;
  c_h264_cap : bool; c_usb_cap : bool; c_input_cap : bool;
  c_audio_cap : bool; c_audio : option Z; c_audio_token : Z;
  c_input : option SremfbInput; c_connector : string;
  c_layout_pending : bool; c_layout_serial : string;
  c_layout_product : string; c_recvbuf : bytes; c_recv_garbage : Z;
  c_xmit_mode : SremfbXmitMode; c_ctl_state : SremfbCtlState;
  c_ctl_since_us : Z; c_ctl_calm_us : Z; c_ctl_exit_us : Z;
  c_ctl_probe_backoff : Z; c_ping_timer_id : Z; c_last_ping_us : Z;
  c_last_pong_us : Z; c_pings_outstanding : Z; c_ping_wire_mark : Z;
  c_wire_total : Z; c_delay_ewma_us : double; c_capacity_Bps : double;
  c_lz4_ratio_ewma : double; c_raw_rate_Bps : double; c_grab_fps : double;
  c_last_grab_us : Z; c_last_deliver_us : Z; c_damage_cont_us : Z;
  c_cap_win_start_us : Z; c_cap_win_bytes : Z; c_raw_win_bytes : Z;
  c_enc : option SremfbEncoder; c_yuvbuf : bool; c_h264_failed : bool;
  c_force_idr : bool; c_last_enc_us : Z; c_st_grabs : Z; c_st_rects : Z;
  c_st_wire_bytes : Z; c_st_raw_bytes : Z; c_st_since_us : Z; c_tick : nat;
  c_next_source : Z; c_wire : bytes }.
#[export] Instance eta_client : Eta SremfbClient := λ c,
  mk_client
    (c_state c) (c_fd c) (c_watch_id c) (c_hello c) (c_lz4 c) (c_peer c)
    (c_macstr c) (c_lost_id c) (c_geom c) (c_grabbuf c) (c_shadowbuf c)
    (c_sendbuf c) (c_outq c) (c_outq_off c) (c_out_seg0 c) (c_out_seg1 c)
    (c_out_off c) (c_out_active c) (c_out_watch_id c) (c_out_retry_id c)
    (c_dirty c) (c_dirty_all c) (c_dirty_raw c) (c_feedback c)
    (c_h264_cap c) (c_usb_cap c) (c_input_cap c) (c_audio_cap c)
    (c_audio c) (c_audio_token c) (c_input c) (c_connector c)
    (c_layout_pending c) (c_layout_serial c) (c_layout_product c)
    (c_recvbuf c) (c_recv_garbage c) (c_xmit_mode c) (c_ctl_state c)
    (c_ctl_since_us c) (c_ctl_calm_us c) (c_ctl_exit_us c)
    (c_ctl_probe_backoff c) (c_ping_timer_id c) (c_last_ping_us c)
    (c_last_pong_us c) (c_pings_outstanding c) (c_ping_wire_mark c)
    (c_wire_total c) (c_delay_ewma_us c) (c_capacity_Bps c)
    (c_lz4_ratio_ewma c) (c_raw_rate_Bps c) (c_grab_fps c)
    (c_last_grab_us c) (c_last_deliver_us c) (c_damage_cont_us c)
    (c_cap_win_start_us c) (c_cap_win_bytes c) (c_raw_win_bytes c)
    (c_enc c) (c_yuvbuf c) (c_h264_failed c) (c_force_idr c)
    (c_last_enc_us c) (c_st_grabs c) (c_st_rects c) (c_st_wire_bytes c)
    (c_st_raw_bytes c) (c_st_since_us c) (c_tick c) (c_next_source c)
    (c_wire c).

(** g_new0(SremfbClient, 1) with the fields on_listen_ready() copies from
    the connection: everything else is zero. *)
Definition client_new0 (cfd : Z) (hello : sremfb_client_hello) (peer : string) : SremfbClient :=
  mk_client
    MODE_WAIT cfd 0 hello false peer "" 0 (mk_geom 0 0) None None false []
    0 [] [] 0 false 0 0 [] false 0 false false false false false None 0
    None "" false "" "" [] 0 XMIT_RAW CTL_RAW_STEADY 0 0 0 0 0 0 0 0 0 0 D0
    D0 D0 D0 D0 0 0 0 0 0 0 None false false false 0 0 0 0 0 0 0%nat 1 [].
End encoder_struct.

(** core.h: the IPv4 allowlist and the server. *)
Record SremfbAllowNet := mk_allow_net { an_addr : Z; an_mask : Z }.

Section core.
Context `{X264} `{Platform}.

(** g_get_monotonic_time() as the n-th reading of this client *)
Definition g_get_monotonic_time (c : SremfbClient) : Z * SremfbClient :=
  (g_monotonic (c_tick c), c⟨c_tick ::= S⟩).

(** g_unix_fd_add(), g_timeout_add(), g_idle_add(): a fresh source id *)
Definition g_source_new (c : SremfbClient) : Z * SremfbClient :=
  (c_next_source c, c⟨c_next_source ::= Z.succ⟩).

(** session.c: deferred to the main loop, once *)
Definition sremfb_schedule_client_lost (c : SremfbClient) : SremfbClient :=
  if c_lost_id c =? 0
  then let (id, c) := g_source_new c in c⟨c_lost_id := id⟩
  else c.

(** core.h: bytes per pixel of the client's format *)
Definition client_bytespp (c : SremfbClient) : Z :=
  if ch_pixfmt (c_hello c) =? SREMFB_PIX_RGB565 then 2 else 4.
End core.
