(* ===== verification/Convert.v ===== *)
(** * convert.c: BGRx to the client's pixel format, and to I420

    A row is read as little-endian 32-bit pixels and written pixel by
    pixel ([rows] is the loop over consecutive destination places).  The
    lemmas: output sizes, that a partial rectangle converts to the same
    bytes the full row has there (the dither matrix is screen-aligned),
    and that every I420 sample stays in the BT.601 limited range, so the
    casts to uint8_t lose nothing. *)
From S2P Require Import Prelude Protocol Core.

(** static const uint8_t bayer[4][4] *)
Definition bayer : list (list Z) :=
  [[0; 8; 2; 10]; [12; 4; 14; 6]; [3; 11; 1; 9]; [15; 7; 13; 5]].

Definition clamp255 (v : Z) : Z := if v <? 0 then 0 else if 255 <? v then 255 else v.

(** ((const uint32_t * )src)[i] *)
Definition px_at (src : bytes) (i : Z) : Z := get 4 (4 * i) src.

Section convert.
Context `{Platform}.

Definition dither_enabled : bool := negb getenv_NO_DITHER.

(** One RGB565 destination pixel, without and with dithering. *)
Definition rgb565_plain (px : Z) : Z :=
  u16 (Z.lor (Z.lor (Z.land (Z.shiftr px 8) 0xF800)
                    (Z.land (Z.shiftr px 5) 0x07E0))
             (Z.land (Z.shiftr px 3) 0x001F)).

Definition rgb565_dithered (px t : Z) : Z :=
  let r := clamp255 (Z.land (Z.shiftr px 16) 0xFF + Z.shiftr t 1 - 4) in
  let g := clamp255 (Z.land (Z.shiftr px 8) 0xFF + Z.shiftr t 2 - 2) in
  let b := clamp255 (Z.land px 0xFF + Z.shiftr t 1 - 4) in
  u16 (Z.lor (Z.lor (Z.shiftl (Z.shiftr r 3) 11) (Z.shiftl (Z.shiftr g 2) 5))
             (Z.shiftr b 3)).

(** The bytes written to dst. *)
Definition sremfb_convert_bgrx_row (src : bytes) (width pixfmt x0 y : Z) : bytes :=
  if pixfmt =? SREMFB_PIX_XRGB8888 then slice 0 (width * 4) src
  else if negb dither_enabled then
    rows 0 width (λ i, le 2 (rgb565_plain (px_at src i)))
  else
    let brow := nth (Z.to_nat (Z.land y 3)) bayer [] in
    rows 0 width (λ i,
      let t := nth (Z.to_nat (Z.land (x0 + i) 3)) brow 0 in
      le 2 (rgb565_dithered (px_at src i) t)).

(** The luma sample of one pixel. *)
Definition luma_of (px : Z) : Z :=
  let r := Z.land (Z.shiftr px 16) 0xFF in
  let g := Z.land (Z.shiftr px 8) 0xFF in
  let b := Z.land px 0xFF in
  u8 (Z.shiftr (66 * r + 129 * g + 25 * b + 128 + 4096) 8).

(** The 2x2 box average of one channel, and the chroma samples. *)
Definition box4 (sh : Z) (p : list Z) : Z :=
  Z.shiftr (foldl (λ acc q, acc + Z.land (Z.shiftr q sh) 0xFF) 0 p) 2.

Definition cb_of (r g b : Z) : Z :=
  u8 (Z.shiftr (-38 * r - 74 * g + 112 * b + 128 + 32768) 8).
Definition cr_of (r g b : Z) : Z :=
  u8 (Z.shiftr (112 * r - 94 * g - 18 * b + 128 + 32768) 8).

(** The four source pixels of chroma sample (i, j), odd edges reusing the
    last column or row. *)
Definition chroma_px (bgrx : bytes) (w h i j : Z) : list Z :=
  let y0 := j * 2 in
  let y1 := if y0 + 1 <? h then y0 + 1 else y0 in
  let x0c := i * 2 in
  let x1c := if x0c + 1 <? w then x0c + 1 else x0c in
  [px_at bgrx (y0 * w + x0c); px_at bgrx (y0 * w + x1c);
   px_at bgrx (y1 * w + x0c); px_at bgrx (y1 * w + x1c)].

(** The three planes written to yp, up and vp. *)
Definition sremfb_convert_bgrx_to_i420 (bgrx : bytes) (w h : Z) : bytes * bytes * bytes :=
  let cw := (w + 1) / 2 in
  let ch := (h + 1) / 2 in
  let yp := rows 0 h (λ j, rows 0 w (λ i, [luma_of (px_at bgrx (j * w + i))])) in
  let plane (f : Z → Z → Z → Z) :=
    rows 0 ch (λ j, rows 0 cw (λ i,
      let p := chroma_px bgrx w h i j in
      [f (box4 16 p) (box4 8 p) (box4 0 p)])) in
  (yp, plane cb_of, plane cr_of).

(** ** Sizes *)
Definition bytespp_of (pixfmt : Z) : Z := if pixfmt =? SREMFB_PIX_XRGB8888 then 4 else 2.

Lemma length_convert_row src width pixfmt x0 y :
  0 ≤ width → width * 4 ≤ Z.of_nat (length src) →
  Z.of_nat (length (sremfb_convert_bgrx_row src width pixfmt x0 y))
    = width * bytespp_of pixfmt.
Proof.
  intros. unfold sremfb_convert_bgrx_row, bytespp_of.
  repeat case_match; rewrite ?length_slice by lia; try lia;
    rewrite (length_rows _ _ 2) by (intros; apply length_le); lia.
Qed.

Lemma convert_row_ok src width pixfmt x0 y :
  bytes_ok src → bytes_ok (sremfb_convert_bgrx_row src width pixfmt x0 y).
Proof.
  intros. unfold sremfb_convert_bgrx_row.
  repeat case_match; auto with srem; apply rows_Forall; auto with srem.
Qed.

Lemma px_at_slice src x w i :
  0 ≤ x → 0 ≤ i < w → (x + w) * 4 ≤ Z.of_nat (length src) →
  px_at (slice (x * 4) (w * 4) src) i = px_at src (x + i).
Proof.
  intros. unfold px_at, get. f_equal. apply list_eq. intros k.
  destruct (decide (Z.of_nat k < 4)).
  - rewrite !lookup_slice by lia. f_equal; lia.
  - unfold slice. rewrite !lookup_take_ge by lia. done.
Qed.

(** The bytes of a sub-rectangle are the bytes of the full row there. *)
Lemma convert_row_slice src W pixfmt x0 y x w :
  0 ≤ x → 0 ≤ w → x + w ≤ W → W * 4 ≤ Z.of_nat (length src) →
  slice (x * bytespp_of pixfmt) (w * bytespp_of pixfmt)
    (sremfb_convert_bgrx_row src W pixfmt x0 y) =
  sremfb_convert_bgrx_row (slice (x * 4) (w * 4) src) w pixfmt (x0 + x) y.
Proof.
  intros. unfold sremfb_convert_bgrx_row, bytespp_of. case_match.
  { apply list_eq. intros k. destruct (decide (Z.of_nat k < w * 4)).
    - rewrite !lookup_slice by lia. f_equal; lia.
    - unfold slice. rewrite !lookup_take_ge by lia. done. }
  case_match; rewrite (slice_rows _ _ 2) by (intros; rewrite ?length_le; simpl; lia);
    rewrite rows_shift; apply rows_ext; intros i Hi;
    rewrite px_at_slice by lia; replace (x + i) with (i + x) by lia;
    replace (x0 + x + i) with (x0 + (i + x)) by lia; done.
Qed.

(** ** The I420 samples *)
Lemma land_ff_range q : 0 ≤ Z.land q 0xFF ≤ 255.
Proof.
  change (Z.land q 0xFF) with (Z.land q (Z.ones 8)). rewrite Z.land_ones by lia.
  change (2 ^ 8) with 256. dlia.
Qed.

Lemma box4_range sh a b c d : 0 ≤ box4 sh [a; b; c; d] ≤ 255.
Proof.
  unfold box4. simpl foldl. rewrite Z.shiftr_div_pow2 by lia. change (2 ^ 2) with 4.
  pose proof (land_ff_range (Z.shiftr a sh)). pose proof (land_ff_range (Z.shiftr b sh)).
  pose proof (land_ff_range (Z.shiftr c sh)). pose proof (land_ff_range (Z.shiftr d sh)).
  dlia.
Qed.

Lemma luma_range px : 16 ≤ luma_of px ≤ 235.
Proof.
  unfold luma_of. rewrite Z.shiftr_div_pow2 by lia. change (2 ^ 8) with 256.
  pose proof (land_ff_range (Z.shiftr px 16)).
  pose proof (land_ff_range (Z.shiftr px 8)). pose proof (land_ff_range px).
  rewrite u8_small; dlia.
Qed.

Lemma cb_range r g b : 0 ≤ r ≤ 255 → 0 ≤ g ≤ 255 → 0 ≤ b ≤ 255 →
  16 ≤ cb_of r g b ≤ 240.
Proof.
  intros. unfold cb_of. rewrite Z.shiftr_div_pow2 by lia. change (2 ^ 8) with 256.
  rewrite u8_small; dlia.
Qed.

Lemma cr_range r g b : 0 ≤ r ≤ 255 → 0 ≤ g ≤ 255 → 0 ≤ b ≤ 255 →
  16 ≤ cr_of r g b ≤ 240.
Proof.
  intros. unfold cr_of. rewrite Z.shiftr_div_pow2 by lia. change (2 ^ 8) with 256.
  rewrite u8_small; dlia.
Qed.

Lemma length_i420_plane cw ch f :
  0 ≤ cw → 0 ≤ ch →
  Z.of_nat (length (rows 0 ch (λ j, rows 0 cw (λ i, [f i j : Z])))) = ch * cw.
Proof.
  intros. rewrite (length_rows _ _ (Z.to_nat cw)); [lia|].
  intros. rewrite (length_rows _ _ 1); [lia|done].
Qed.
End convert.
