(* ===== verification/Encoder.v ===== *)
(** * encoder.c: the H.264 encoder of one client

    x264 itself is the parameter [X264]; the wrapper configures it, moves
    its bitrate and classifies what an encode call returns. *)
From S2P Require Import Prelude Core.

Section encoder.
Context `{X264}.

Definition sremfb_enc_open (width height kbps : Z) : option SremfbEncoder :=
  p ← x264_param_default_preset "superfast" "zerolatency";
  let p := p⟨i_width := width⟩⟨i_height := height⟩⟨i_csp := X264_CSP_I420⟩
    ⟨b_annexb := true⟩⟨b_repeat_headers := true⟩⟨i_threads := 4⟩
    ⟨b_sliced_threads := true⟩
    ⟨i_fps_num := 60⟩⟨i_fps_den := 1⟩⟨b_vfr_input := false⟩
    ⟨i_keyint_max := X264_KEYINT_MAX_INFINITE⟩⟨i_keyint_min := 1⟩
    ⟨i_scenecut_threshold := 0⟩
    ⟨i_rc_method := X264_RC_ABR⟩⟨i_bitrate := kbps⟩
    ⟨i_vbv_max_bitrate := kbps⟩⟨i_vbv_buffer_size := Z.quot kbps 10⟩
    ⟨b_fullrange := false⟩⟨i_colorprim := 6⟩⟨i_transfer := 6⟩
    ⟨i_colmatrix := 6⟩⟨i_log_level := X264_LOG_WARNING⟩ in
  h ← x264_encoder_open p;
  Some (mk_encoder h p width height kbps 0).

Definition sremfb_enc_set_bitrate (e : option SremfbEncoder) (kbps : Z)
    : option SremfbEncoder :=
  match e with
  | None => None
  | Some e =>
    if kbps =? e_kbps e then Some e
    else
      let p := (e_param e)⟨i_bitrate := kbps⟩⟨i_vbv_max_bitrate := kbps⟩
                 ⟨i_vbv_buffer_size := Z.quot kbps 10⟩ in
      let e := e⟨e_param := p⟩ in
      let '(h, r) := x264_encoder_reconfig (e_h e) p in
      let e := e⟨e_h := h⟩ in
      Some (if r =? 0 then e⟨e_kbps := kbps⟩ else e)
  end.

Definition sremfb_enc_bitrate (e : option SremfbEncoder) : Z :=
  match e with Some e => e_kbps e | None => 0 end.

(** The returned size (-1 error, 0 nothing), the access unit, is_idr. *)
Definition sremfb_enc_encode (e : SremfbEncoder) (yuv : bytes * bytes * bytes)
    (force_idr : bool) : SremfbEncoder * (Z * bytes * bool) :=
  let pic := mk_x264_picture yuv (e_w e, Z.quot (e_w e) 2, Z.quot (e_w e) 2)
               (e_pts e) force_idr in
  let e := e⟨e_pts ::= Z.succ⟩ in
  let '(h, out) := x264_encoder_encode (e_h e) pic in
  let e := e⟨e_h := h⟩ in
  let sz := xo_size out in
  if (sz <=? 0) || (xo_n_nal out <=? 0)
  then (e, (if sz <? 0 then -1 else 0, [], false))
  else (e, (sz, slice 0 sz (xo_payload out), xo_keyframe out)).

Lemma enc_open_params width height kbps e :
  sremfb_enc_open width height kbps = Some e →
  e_w e = width ∧ e_h_px e = height ∧ e_kbps e = kbps ∧
  i_bitrate (e_param e) = kbps ∧ i_vbv_max_bitrate (e_param e) = kbps.
Proof.
  unfold sremfb_enc_open. intros (p&_&(h&_&Heq)%bind_Some)%bind_Some.
  simplify_eq/=. done.
Qed.
End encoder.
