(* ===== verification/Net.v ===== *)
(** * net.c: the allowlist, blocking reads and writes, the server hello

    Socket results are explicit: a read(2) or send(2) answer per call, in
    order.  An address keeps the memory layout of its struct: [s_addr] is
    the little-endian integer of the four network-order bytes. *)
From Stdlib Require Import Ascii String.
From stdpp Require Import pretty.
From S2P Require Import Prelude Protocol Core.
#[local] Open Scope list_scope.
#[local] Open Scope Z_scope.

(** struct sockaddr_storage by family *)
Inductive sockaddr :=
  | SA_INET (s_addr port : Z)
  | SA_INET6 (s6_addr : bytes) (port : Z)
  | SA_OTHER.

(** htonl(3) on the little-endian targets *)
Definition htonl (x : Z) : Z := of_le (rev (le 4 x)).

Definition INADDR_LOOPBACK : Z := 0x7f000001.

Definition IN6_IS_ADDR_V4MAPPED (a : bytes) : bool :=
  bool_decide (slice 0 12 a = replicate 10 0 ++ [255; 255]).
Definition IN6_IS_ADDR_LOOPBACK (a : bytes) : bool :=
  bool_decide (slice 0 16 a = replicate 15 0 ++ [1]).

(** ** C strings as lists of characters *)
Abbreviation cstr := (list ascii).
Definition is_digit (c : ascii) : bool :=
  let n := Z.of_nat (nat_of_ascii c) in (48 <=? n) && (n <=? 57).
Definition digit (c : ascii) : Z := Z.of_nat (nat_of_ascii c) - 48.
Definition is_space (c : ascii) : bool :=
  let n := Z.of_nat (nat_of_ascii c) in (n =? 32) || ((9 <=? n) && (n <=? 13)).

(** g_strsplit_set(s, ", \t", -1) *)
Definition is_sep (c : ascii) : bool :=
  bool_decide (c = ","%char ∨ c = " "%char ∨ nat_of_ascii c = 9%nat).
Fixpoint g_strsplit_set (s : cstr) : list cstr :=
  match s with
  | [] => [[]]
  | c :: s =>
    match g_strsplit_set s with
    | [] => [[]]
    | p :: ps => if is_sep c then [] :: p :: ps else (c :: p) :: ps
    end
  end.

(** strchr(s, '/') with the string cut there: what precedes, what follows *)
Fixpoint split_slash (s : cstr) : cstr * option cstr :=
  match s with
  | [] => ([], None)
  | c :: s =>
    if bool_decide (c = "/"%char) then ([], Some s)
    else let '(a, b) := split_slash s in (c :: a, b)
  end.

(** strtol(s, &end, 10): the value and what [end] points at.  Without a
    single digit nothing is consumed and the value is 0. *)
Fixpoint scan_digits (acc : Z) (s : cstr) : Z * cstr :=
  match s with
  | c :: s' => if is_digit c then scan_digits (acc * 10 + digit c) s' else (acc, s)
  | [] => (acc, [])
  end.
Fixpoint skip_spaces (s : cstr) : cstr :=
  match s with
  | c :: s' => if is_space c then skip_spaces s' else s
  | [] => []
  end.
Definition strtol (s : cstr) : Z * cstr :=
  let t := skip_spaces s in
  let '(neg, t) :=
    match t with
    | "-"%char :: t => (true, t)
    | "+"%char :: t => (false, t)
    | _ => (false, t)
    end in
  match t with
  | c :: _ =>
    if is_digit c
    then let '(v, e) := scan_digits 0 t in
         (CLAMP (if neg : bool then - v else v) (- 2 ^ 63) (2 ^ 63 - 1), e)
    else (0, s)
  | [] => (0, s)
  end.

(** inet_pton(AF_INET, ...): four decimal bytes without leading zeros *)
Fixpoint dec_byte (n : nat) (acc : Z) (s : cstr) : option (Z * cstr) :=
  match s with
  | c :: s' =>
    if is_digit c then
      match n with
      | O => None
      | S n => let v := acc * 10 + digit c in
               if 255 <? v then None else dec_byte n v s'
      end
    else Some (acc, s)
  | [] => Some (acc, [])
  end.
Definition pton_byte (s : cstr) : option (Z * cstr) :=
  match s with
  | c :: c' :: _ =>
    if negb (is_digit c) then None
    else if (digit c =? 0) && is_digit c' then None else dec_byte 3 0 s
  | [c] => if is_digit c then dec_byte 3 0 s else None
  | [] => None
  end.
Definition dot (s : cstr) : option cstr :=
  match s with
  | c :: s => if bool_decide (c = "."%char) then Some s else None
  | [] => None
  end.
Definition inet_pton4 (s : cstr) : option Z :=
  '(a, s) ← pton_byte s; s ← dot s;
  '(b, s) ← pton_byte s; s ← dot s;
  '(c, s) ← pton_byte s; s ← dot s;
  '(d, s) ← pton_byte s;
  match s with [] => Some (of_le [a; b; c; d]) | _ => None end.

(** ** The allowlist *)

(** [prefix == 0 ? 0 : htonl(~0u << (32 - prefix))] *)
Definition prefix_mask (prefix : Z) : Z :=
  if prefix =? 0 then 0
  else htonl (u32 (Z.shiftl (2 ^ 32 - 1) (32 - prefix))).

(** One element of the spec: the loop body of net_allow_parse(). *)
Definition allow_entry (p : cstr) : option SremfbAllowNet :=
  let '(host, rest) := split_slash p in
  prefix ← match rest with
           | None => Some 32
           | Some s =>
             let '(v, e) := strtol s in
             match e with
             | [] => if (v <? 0) || (32 <? v) then None else Some v
             | _ => None
             end
           end;
  a ← inet_pton4 host;
  Some (mk_allow_net a (prefix_mask prefix)).

Definition net_allow_parse (spec : string) : option (list SremfbAllowNet) :=
  nets ← mapM allow_entry
           (filter (λ p, p ≠ []) (g_strsplit_set (list_ascii_of_string spec)));
  match nets with [] => None | _ => Some nets end.

(** The IPv4 address of the peer, [None] when it has none. *)
Definition peer_v4 (ss : sockaddr) : option Z :=
  match ss with
  | SA_INET a _ => Some a
  | SA_INET6 a6 _ =>
    if IN6_IS_ADDR_V4MAPPED a6 then Some (of_le (slice 12 4 a6))
    else if IN6_IS_ADDR_LOOPBACK a6 then Some (htonl INADDR_LOOPBACK)
    else None
  | SA_OTHER => None
  end.

Definition net_matches (v4 : Z) (n : SremfbAllowNet) : bool :=
  Z.land v4 (an_mask n) =? Z.land (an_addr n) (an_mask n).

Definition peer_allowed (allow : list SremfbAllowNet) (ss : sockaddr) : bool :=
  match allow with
  | [] => true
  | _ =>
    match peer_v4 ss with
    | None => false
    | Some v4 => existsb (net_matches v4) allow
    end
  end.

(** inet_ntop(3) of an IPv6 address is a parameter. *)
Class NetNames := inet_ntop6 : bytes → string.

(** "%u" of a byte or a port *)
Definition show_Z (z : Z) : string := pretty z.

Section names.
Context `{NetNames}.

Definition inet_ntop4 (a : bytes) : string :=
  (show_Z (nth 0 a 0) +:+ "." +:+ show_Z (nth 1 a 0) +:+ "." +:+
   show_Z (nth 2 a 0) +:+ "." +:+ show_Z (nth 3 a 0))%string.

(** The "ip" part of a source address; shared with audio.c's addr_ip(). *)
Definition addr_host (ss : sockaddr) : string :=
  match ss with
  | SA_INET a _ => inet_ntop4 (le 4 a)
  | SA_INET6 a6 _ =>
    if IN6_IS_ADDR_V4MAPPED a6 then inet_ntop4 (slice 12 4 a6) else inet_ntop6 a6
  | SA_OTHER => "?"
  end.

Definition peer_to_string (ss : sockaddr) : string :=
  let port := match ss with SA_INET _ p => p | SA_INET6 _ p => p | SA_OTHER => 0 end in
  (addr_host ss +:+ ":" +:+ show_Z port)%string.
End names.

(** ** Reads and writes *)

(** One read(2): data (at most what was asked for), end of file, EINTR or
    another error. *)
Inductive read_res := RData (b : bytes) | REof | REintr | RErr.

(** readn(): [None] on EOF or error; running out of answers is a pending
    read. *)
Fixpoint readn (len : Z) (answers : list read_res) : option (bytes * list read_res) :=
  if len <=? 0 then Some ([], answers)
  else
    match answers with
    | RData b :: answers =>
      let b := take (Z.to_nat len) b in
      match b with
      | [] => None
      | _ => '(tl, answers) ← readn (len - Z.of_nat (List.length b)) answers;
             Some (b ++ tl, answers)
      end
    | REintr :: answers => readn len answers
    | _ => None
    end.

(** One send(2): bytes accepted (at most what was offered), EINTR, EAGAIN
    or another error. *)
Inductive send_res := SSent (n : Z) | SEintr | SEagain | SErr.

(** net_send_some(): the bytes accepted, 0 on EAGAIN, -1 fatal.  Without a
    further answer the socket is not writable. *)
Fixpoint net_send_some (len : Z) (answers : list send_res) : Z * list send_res :=
  match answers with
  | [] => (0, [])
  | SSent n :: answers => (Z.min (Z.max 0 n) len, answers)
  | SEintr :: answers => net_send_some len answers
  | SEagain :: answers => (0, answers)
  | SErr :: answers => (-1, answers)
  end.

(** net_send_all(): on EAGAIN poll(2) waits for writability; the next
    answer is the send that follows it, and running out of answers is the
    poll timing out.  Gives what was sent and whether it was everything. *)
Fixpoint net_send_all (b : bytes) (answers : list send_res) : bytes * bool :=
  match b with
  | [] => ([], true)
  | _ =>
    match answers with
    | SSent n :: answers =>
      let k := Z.to_nat (Z.max 0 n) in
      let '(tl, ok) := net_send_all (drop k b) answers in
      (take k b ++ tl, ok)
    | SEintr :: answers | SEagain :: answers => net_send_all b answers
    | SErr :: _ | [] => ([], false)
    end
  end.

Definition net_fill_server_hello (width height pixfmt status flags : Z)
    : sremfb_server_hello :=
  mk_server_hello SREMFB_MAGIC SREMFB_PROTO_VER status width height pixfmt flags 0.

Definition net_send_server_hello (width height pixfmt status flags : Z)
    (answers : list send_res) : bytes * bool :=
  net_send_all
    (server_hello_bytes (net_fill_server_hello width height pixfmt status flags)) answers.

Section accept.
Context `{NetNames}.

(** After accept(2): the address check, the socket options (not
    modelled) and the blocking read of the hello. *)
Definition net_accept_and_hello (allow : list SremfbAllowNet)
    (fd : Z) (ss : sockaddr) (answers : list read_res)
    : option (Z * sremfb_client_hello * string) :=
  if fd <? 0 then None
  else
    let peer := peer_to_string ss in
    if negb (peer_allowed allow ss) then None
    else
      '(b, _) ← readn 48 answers;
      Some (fd, client_hello_of b, peer).
End accept.
