(* ===== verification/Input.v ===== *)
(** * core/input.c: input injection through uinput

    The four devices of a client, the desktop layout they are placed on and
    the message handler.  A device's [d_log] is the sequence of events the
    code writes to it (a write(2) that fails is only reported, and not told
    apart here); /dev/uinput answers through the class [Uinput].  The
    layout [L] of the file is a record passed along; a D-Bus reply is its
    parsed content. *)
From S2P Require Import Prelude Binary64 Protocol Bits Core.
From stdpp Require Import gmap strings.
#[local] Open Scope list_scope.
#[local] Open Scope Z_scope.

(** ** linux/input-event-codes.h *)
Definition EV_SYN : Z := 0.
Definition EV_KEY : Z := 1.
Definition EV_REL : Z := 2.
Definition EV_ABS : Z := 3.
Definition SYN_REPORT : Z := 0.
Definition KEY_ESC : Z := 1.
Definition BTN_MISC : Z := 0x100.
Definition KEY_CNT : Z := 0x300.
Definition BTN_LEFT : Z := 0x110.
Definition BTN_RIGHT : Z := 0x111.
Definition BTN_MIDDLE : Z := 0x112.
Definition BTN_SIDE : Z := 0x113.
Definition BTN_EXTRA : Z := 0x114.
Definition REL_X : Z := 0.
Definition REL_Y : Z := 1.
Definition REL_HWHEEL : Z := 6.
Definition REL_WHEEL : Z := 8.
Definition REL_WHEEL_HI_RES : Z := 0x0b.
Definition REL_HWHEEL_HI_RES : Z := 0x0c.
Definition ABS_X : Z := 0.
Definition ABS_Y : Z := 1.
Definition ABS_Z : Z := 2.
Definition ABS_RX : Z := 3.
Definition ABS_RY : Z := 4.
Definition ABS_RZ : Z := 5.
Definition ABS_HAT0X : Z := 0x10.
Definition ABS_HAT0Y : Z := 0x11.
Definition ABS_CNT : Z := 0x40.

Definition ABS_POINTER_MAX : Z := 32767.

(** ** Desktop layout *)
Record SremfbLayoutMon := mk_layout_mon {
  lm_connector : string; lm_x : Z; lm_y : Z; lm_w : Z; lm_h : Z }.

(** The static [L]; [L_calls] counts the GetCurrentState calls issued. *)
Record layout_L := mk_L {
  L_bus : bool; L_pending : bool; L_again : bool;
  L_mons : list SremfbLayoutMon; L_ext_w : Z; L_ext_h : Z; L_calls : nat }.
#[export] Instance eta_L : Eta layout_L := λ l,
  mk_L (L_bus l) (L_pending l) (L_again l) (L_mons l) (L_ext_w l) (L_ext_h l) (L_calls l).

(** GetCurrentState's reply: the fields the code reads. *)
Record dbus_mode := mk_mode { dm_w : Z; dm_h : Z; dm_current : bool }.
Record dbus_logical := mk_logical {
  dl_x : Z; dl_y : Z; dl_scale : double; dl_transform : Z; dl_connectors : list string }.
Record dbus_state := mk_dbus {
  ds_monitors : list (string * list dbus_mode);
  ds_logicals : list dbus_logical;
  ds_layout_mode : option Z }.

(** current mode size of every monitor, by connector *)
Definition current_modes (mons : list (string * list dbus_mode)) : gmap string (Z * Z) :=
  foldl (λ t '(conn, modes),
    foldl (λ t m, if dm_current m then <[conn := (dm_w m, dm_h m)]> t else t) t modes)
    ∅ mons.

(** the size of one logical monitor, from the mode of its first known monitor *)
Definition logical_size (layout_mode : Z) (lg : dbus_logical) (wh : Z * Z) : Z * Z :=
  let '(w, h) := wh in
  let '(w, h) := if Z.testbit (dl_transform lg) 0 then (h, w) else (w, h) in
  if (layout_mode =? 1) && Dltb D0 (dl_scale lg)
  then (s32 (D_lround (Ddiv (D_of_Z w) (dl_scale lg))),
        s32 (D_lround (Ddiv (D_of_Z h) (dl_scale lg))))
  else (w, h).

(** the loop over the monitors of one logical monitor *)
Definition logical_mons (layout_mode : Z) (modes : gmap string (Z * Z))
    (lg : dbus_logical) (mons : list SremfbLayoutMon) : Z * Z * list SremfbLayoutMon :=
  foldl (λ '(w, h, mons) conn,
    let '(w, h) :=
      match modes !! conn with
      | Some wh => if w =? 0 then logical_size layout_mode lg wh else (w, h)
      | None => (w, h)
      end in
    (w, h, mons ++ [mk_layout_mon (String.substring 0 31 conn) (dl_x lg) (dl_y lg) w h]))
    (0, 0, mons) (dl_connectors lg).

Definition layout_parse (L : layout_L) (res : dbus_state) : layout_L :=
  let layout_mode := default 1 (ds_layout_mode res) in
  let modes := current_modes (ds_monitors res) in
  foldl (λ L lg,
    let '(w, h, mons) := logical_mons layout_mode modes lg (L_mons L) in
    let L := L⟨L_mons := mons⟩ in
    if 0 <? w then L⟨L_ext_w ::= (λ e, Z.max e (dl_x lg + w))⟩
                    ⟨L_ext_h ::= (λ e, Z.max e (dl_y lg + h))⟩
    else L)
    L⟨L_mons := []⟩⟨L_ext_w := 0⟩⟨L_ext_h := 0⟩ (ds_logicals res).

Definition layout_refresh (L : layout_L) : layout_L :=
  if negb (L_bus L) then L
  else if L_pending L then L⟨L_again := true⟩
  else L⟨L_pending := true⟩⟨L_calls ::= S⟩.

(** [None] is a failed call. *)
Definition on_layout_reply (L : layout_L) (res : option dbus_state) : layout_L :=
  let L := L⟨L_pending := false⟩ in
  let L := match res with None => L | Some res => layout_parse L res end in
  if L_again L then layout_refresh L⟨L_again := false⟩ else L.

Definition on_monitors_changed (L : layout_L) : layout_L := layout_refresh L.

(** Stream pixel to 0..ABS_POINTER_MAX over the stage, on one monitor. *)
Definition map_axis (off size span ext v : Z) : Z :=
  let v := CLAMP v 0 (span - 1) in
  let g := Dadd (D_of_Z off)
             (Ddiv (Dmul (Dadd (D_of_Z v) (D_lit 5 1)) (D_of_Z size)) (D_of_Z span)) in
  CLAMP (D_trunc (Ddiv (Dmul g (D_of_Z (ABS_POINTER_MAX + 1))) (D_of_Z ext)))
    0 ABS_POINTER_MAX.

Section input.
Context `{X264}.

Definition layout_map (L : layout_L) (c : SremfbClient) (code v : Z) : option Z :=
  if bool_decide (c_connector c = ""%string) || (L_ext_w L <=? 0) || (L_ext_h L <=? 0)
  then None
  else
    lm ← head (filter (λ lm, lm_connector lm = c_connector c ∧ 0 < lm_w lm) (L_mons L));
    Some (if code =? ABS_X
          then map_axis (lm_x lm) (lm_w lm) (g_width (c_geom c)) (L_ext_w L) v
          else map_axis (lm_y lm) (lm_h lm) (g_height (c_geom c)) (L_ext_h L) v).

(** ** uinput *)

(** /dev/uinput: the descriptor open(2) gives for a device (negative when it
    fails) and whether UI_DEV_SETUP and UI_DEV_CREATE succeed. *)
Class Uinput := {
  uinput_open : string → Z;
  uinput_create : string → bool }.

Definition ui_emit (d : SremfbIndev) (type code value : Z) : SremfbIndev :=
  let d := d⟨d_log ::= (λ l, l ++ [(type, code, value)])⟩ in
  d⟨d_dirty := negb (type =? EV_SYN)⟩.

Definition ui_key (d : SremfbIndev) (code : Z) : SremfbIndev :=
  d⟨d_keys ::= (λ k, bit_put k code true)⟩.

Definition ui_rel (d : SremfbIndev) (code : Z) : SremfbIndev :=
  d⟨d_rels ::= (λ r, Z.lor r (u32 (Z.shiftl 1 code)))⟩.

Definition ui_abs (d : SremfbIndev) (code min max : Z) : SremfbIndev :=
  d⟨d_abss ::= (λ a, Z.lor a (u64 (Z.shiftl 1 code)))⟩
   ⟨d_abs_min ::= (λ l, <[Z.to_nat code := min]> l)⟩
   ⟨d_abs_max ::= (λ l, <[Z.to_nat code := max]> l)⟩.

(** g_new0() and then [fd = -1] *)
Definition indev0 : SremfbIndev :=
  mk_indev (-1) (replicate 96 0) (replicate 96 0) 0 0 (replicate 64 0)
    (replicate 64 0) false [].

Definition ui_open `{Uinput} (what : string) : SremfbIndev * bool :=
  let d := indev0⟨d_fd := uinput_open what⟩ in (d, 0 <=? d_fd d).

Definition ui_create `{Uinput} (what : string) (d : SremfbIndev) : SremfbIndev :=
  if uinput_create what then d else d⟨d_fd := -1⟩.

Definition ui_buttons (d : SremfbIndev) : SremfbIndev :=
  let d := foldl ui_key d [BTN_LEFT; BTN_RIGHT; BTN_MIDDLE; BTN_SIDE; BTN_EXTRA] in
  foldl ui_rel d [REL_WHEEL; REL_HWHEEL; REL_WHEEL_HI_RES; REL_HWHEEL_HI_RES].

(** The two loops of indev_release(): a key that is down is released, the
    axes of a gamepad go back to rest; [any] as in the code. *)
Definition release_key (k : Z) (s : SremfbIndev * bool) : SremfbIndev * bool :=
  let '(d, any) := s in
  if bit_get (d_down d) k
  then ((ui_emit d EV_KEY k 0)⟨d_down ::= (λ b, bit_put b k false)⟩, true)
  else (d, any).

Definition center_abs (a : Z) (s : SremfbIndev * bool) : SremfbIndev * bool :=
  let '(d, any) := s in
  if Z.testbit (d_abss d) a &&
     ((nth (Z.to_nat a) (d_abs_min d) 0 <? 0) || (a =? ABS_Z) || (a =? ABS_RZ))
  then (ui_emit d EV_ABS a 0, true)
  else (d, any).

Definition indev_release (d : SremfbIndev) : SremfbIndev :=
  if d_fd d <? 0 then d
  else
    let s := for_ 0 KEY_CNT release_key (d, false) in
    let '(d, any) := for_ 0 ABS_CNT center_abs s in
    if any || d_dirty d then ui_emit d EV_SYN SYN_REPORT 0 else d.

(** input_release_all(): every device but [0], which is unused *)
Definition release_devs (devs : list SremfbIndev) : list SremfbIndev :=
  match devs with
  | [] => []
  | d0 :: devs => d0 :: (indev_release <$> devs)
  end.
Definition input_release_all (in_ : SremfbInput) : SremfbInput :=
  in_⟨in_dev ::= release_devs⟩.

(** ** The API *)
Definition gamepad_buttons : list Z :=
  [0x130; 0x131; 0x133; 0x134; 0x136; 0x137; 0x13a; 0x13b; 0x13c; 0x13d; 0x13e].

Definition make_keyboard `{Uinput} : SremfbIndev :=
  let '(d, ok) := ui_open "keyboard" in
  if ok then ui_create "keyboard" (for_ KEY_ESC (BTN_MISC - KEY_ESC) (λ k d, ui_key d k) d)
  else d.

Definition make_mouse `{Uinput} : SremfbIndev :=
  let '(d, ok) := ui_open "mouse" in
  if ok then ui_create "mouse" (ui_rel (ui_rel (ui_buttons d) REL_X) REL_Y) else d.

Definition make_pointer `{Uinput} : SremfbIndev :=
  let '(d, ok) := ui_open "pointer" in
  if ok then
    let d := ui_buttons d in
    let d := ui_abs d ABS_X 0 ABS_POINTER_MAX in
    ui_create "pointer" (ui_abs d ABS_Y 0 ABS_POINTER_MAX)
  else d.

Definition make_gamepad `{Uinput} : SremfbIndev :=
  let '(d, ok) := ui_open "gamepad" in
  if ok then
    let d := foldl ui_key d gamepad_buttons in
    let d := foldl (λ d a, ui_abs d a (-32768) 32767) d [ABS_X; ABS_Y; ABS_RX; ABS_RY] in
    let d := ui_abs (ui_abs d ABS_Z 0 255) ABS_RZ 0 255 in
    ui_create "gamepad" (ui_abs (ui_abs d ABS_HAT0X (-1) 1) ABS_HAT0Y (-1) 1)
  else d.

(** The server flag it grants, the layout and the client. *)
Definition sremfb_input_start `{Uinput} (input_enabled : bool) (L : layout_L)
    (c : SremfbClient) : Z * layout_L * SremfbClient :=
  if negb (c_input_cap c) then (0, L, c)
  else if negb input_enabled then (0, L, c)
  else
    match c_input c with
    | Some _ => (SREMFB_SRV_FLAG_INPUT, L, c)
    | None =>
      let devs := [make_keyboard; make_mouse; make_pointer; make_gamepad] in
      if forallb (λ d, d_fd d <? 0) devs then (0, L, c)
      else
        let in_ := mk_input (indev0 :: devs) false false 0 in
        (SREMFB_SRV_FLAG_INPUT, layout_refresh L, c⟨c_input := Some in_⟩)
    end.

(** The devices are destroyed with the file descriptors; the released ones
    are returned, as what was written to them. *)
Definition sremfb_input_stop (c : SremfbClient) : list SremfbIndev * SremfbClient :=
  match c_input c with
  | None => ([], c)
  | Some in_ => (in_dev (input_release_all in_), c⟨c_input := None⟩)
  end.

(** What one event does to a device before it is emitted: the value to
    emit and the new [down] bits, [None] when the event is dropped. *)
Definition key_event (d : SremfbIndev) (dev : Z) (abs_placed : bool) (code v : Z)
    : option SremfbIndev :=
  if (KEY_CNT <=? code) || negb (bit_get (d_keys d) code) ||
     (negb (v =? 0) && negb (v =? 1)) then None
  else if (dev =? SREMFB_INDEV_POINTER) && (v =? 1) && negb abs_placed then None
  else if v =? Z.b2z (bit_get (d_down d) code) then None
  else Some d⟨d_down ::= (λ b, bit_put b code (v =? 1))⟩.

Definition set_dev (in_ : SremfbInput) (dev : Z) (d : SremfbIndev) : SremfbInput :=
  in_⟨in_dev ::= (λ l, <[Z.to_nat dev := d]> l)⟩.

(** [ui_emit(d, ...)] and [n_events++] at the end of the handler *)
Definition emit_event (c : SremfbClient) (in_ : SremfbInput) (dev : Z) (d : SremfbIndev)
    (type code v : Z) : SremfbClient :=
  let in_ := set_dev in_ dev (ui_emit d type code v) in
  c⟨c_input := Some in_⟨in_n_events ::= (λ n, u64 (n + 1))⟩⟩.

Definition sremfb_input_msg (L : layout_L) (c : SremfbClient) (m : sremfb_input_msg)
    : layout_L * SremfbClient :=
  match c_input c with
  | None => (L, c)
  | Some in_ =>
    let v := im_ev_value m in
    let dev := im_dev m in
    let code := im_ev_code m in
    if dev =? SREMFB_INDEV_ALL then
      if im_ev_type m =? 0 then (L, c⟨c_input := Some (input_release_all in_)⟩) else (L, c)
    else if SREMFB_INDEV_GAMEPAD <? dev then (L, c)
    else
      match in_dev in_ !! Z.to_nat dev with
      | None => (L, c)
      | Some d =>
        if d_fd d <? 0 then (L, c)
        else if im_ev_type m =? EV_SYN then
          if negb (code =? SYN_REPORT) then (L, c)
          else (L, emit_event c in_ dev d EV_SYN code v)
        else if im_ev_type m =? EV_KEY then
          match key_event d dev (in_abs_placed in_) code v with
          | None => (L, c)
          | Some d => (L, emit_event c in_ dev d EV_KEY code v)
          end
        else if im_ev_type m =? EV_REL then
          if (32 <=? code) || negb (Z.testbit (d_rels d) code) then (L, c)
          else (L, emit_event c in_ dev d EV_REL code v)
        else if im_ev_type m =? EV_ABS then
          if (ABS_CNT <=? code) || negb (Z.testbit (d_abss d) code) then (L, c)
          else if dev =? SREMFB_INDEV_POINTER then
            match layout_map L c code v with
            | None => (layout_refresh L, c⟨c_input := Some in_⟨in_geo_warned := true⟩⟩)
            | Some v => (L, emit_event c in_⟨in_abs_placed := true⟩ dev d EV_ABS code v)
            end
          else
            let lo := nth (Z.to_nat code) (d_abs_min d) 0 in
            let hi := nth (Z.to_nat code) (d_abs_max d) 0 in
            (L, emit_event c in_ dev d EV_ABS code (CLAMP v lo hi))
        else (L, c)
      end
  end.
End input.
