(* ===== verification/Xmit.v ===== *)
(** * xmit.c, first half: the control queue and the dirty region

    Everything up to the mode switch: what the pressure controller
    (Control.v) calls.  The frame builds and the drain, which call the
    controller, are in Drain.v. *)
From S2P Require Import Prelude Binary64 Protocol Core Encoder Net.

Definition XMIT_DIRTY_MAX : Z := 16.

Section xmit.
Context `{X264} `{Platform}.

Definition xmit_fail (c : SremfbClient) : SremfbClient :=
  sremfb_schedule_client_lost c.

Definition g_queue_is_empty (q : list bytes) : bool :=
  match q with [] => true | _ => false end.
Definition dirty_n (c : SremfbClient) : Z := Z.of_nat (length (c_dirty c)).

(** Nothing for the drain to do. *)
Definition xmit_idle (c : SremfbClient) : bool :=
  negb (c_out_active c) && g_queue_is_empty (c_outq c) &&
  (dirty_n c =? 0) && negb (c_dirty_all c).

Definition sremfb_xmit_kick (c : SremfbClient) : SremfbClient :=
  if (c_fd c <? 0) || negb (c_lost_id c =? 0) || negb (c_out_watch_id c =? 0)
  then c
  else if xmit_idle c then c
  else let (id, c) := g_source_new c in c⟨c_out_watch_id := id⟩.

(** ** Control queue *)
Definition sremfb_xmit_ctrl (c : SremfbClient) (msg : bytes) : SremfbClient :=
  if (c_fd c <? 0) || negb (c_lost_id c =? 0) then c
  else
    let c := c⟨c_outq ::= (λ q, q ++ [msg])⟩ in
    let c := c⟨c_wire_total ::= (λ t, u64 (t + Z.of_nat (length msg)))⟩ in
    sremfb_xmit_kick c.

Definition sremfb_xmit_hello (c : SremfbClient) (flags : Z) : SremfbClient :=
  let sh := net_fill_server_hello (u16 (g_width (c_geom c)))
              (u16 (g_height (c_geom c))) (ch_pixfmt (c_hello c))
              SREMFB_STATUS_OK flags in
  let sh := if has_flag flags SREMFB_SRV_FLAG_AUDIO
            then sh⟨sh_audio_token := c_audio_token c⟩ else sh in
  sremfb_xmit_ctrl c (server_hello_bytes sh).

(** ** Dirty region *)
Definition rects_touch (a b : sremfb_rect) : bool :=
  (x1 a <=? x2 b) && (x1 b <=? x2 a) && (y1 a <=? y2 b) && (y1 b <=? y2 a).

Definition rect_union (a b : sremfb_rect) : sremfb_rect :=
  mk_rect (Z.min (x1 a) (x1 b)) (Z.min (y1 a) (y1 b))
          (Z.max (x2 a) (x2 b)) (Z.max (y2 a) (y2 b)).

(** The first loop of dirty_add(): merge into the first touching rect. *)
Fixpoint merge_touching (l : list sremfb_rect) (r : sremfb_rect)
    : option (list sremfb_rect) :=
  match l with
  | [] => None
  | d :: l =>
    if rects_touch d r then Some (rect_union d r :: l)
    else l ← merge_touching l r; Some (d :: l)
  end.

Definition dirty_add (c : SremfbClient) (r : sremfb_rect) : SremfbClient :=
  if c_dirty_all c then c
  else
    match merge_touching (c_dirty c) r with
    | Some l => c⟨c_dirty := l⟩
    | None =>
      if dirty_n c <? XMIT_DIRTY_MAX then c⟨c_dirty ::= (λ l, l ++ [r])⟩
      else
        match c_dirty c with
        | [] => c
        | d :: l => c⟨c_dirty := [rect_union (foldl rect_union d l) r]⟩
        end
    end.

(** memcmp() of row [y] of the rect in grabbuf and shadowbuf: equal *)
Definition row_same (grab shadow : bytes) (stride rowoff rowlen y : Z) : bool :=
  bool_decide (slice (y * stride + rowoff) rowlen grab =
               slice (y * stride + rowoff) rowlen shadow).

(** The two while loops of rect_trim(), one step per row. *)
Fixpoint trim_top (n : nat) (same : Z → bool) (a b : Z) : Z :=
  match n with
  | O => a
  | S n => if (a <? b) && same a then trim_top n same (a + 1) b else a
  end.
Fixpoint trim_bottom (n : nat) (same : Z → bool) (a b : Z) : Z :=
  match n with
  | O => b
  | S n => if (a <? b) && same (b - 1) then trim_bottom n same a (b - 1) else b
  end.

Definition rect_trim (c : SremfbClient) (r : sremfb_rect) : sremfb_rect * bool :=
  match c_grabbuf c, c_shadowbuf c with
  | Some grab, Some shadow =>
    let stride := g_width (c_geom c) * 4 in
    let same := row_same grab shadow stride (x1 r * 4) ((x2 r - x1 r) * 4) in
    let n := Z.to_nat (y2 r - y1 r) in
    let a := trim_top n same (y1 r) (y2 r) in
    let b := trim_bottom n same a (y2 r) in
    (mk_rect (x1 r) a (x2 r) b, a <? b)
  | _, _ => (r, true)
  end.

(** ** Mode switch *)
Definition frame_hdr_for (encoding : Z) : sremfb_frame_hdr :=
  frame_hdr_zero⟨fh_magic := SREMFB_MAGIC⟩⟨fh_encoding := encoding⟩.

(** [kbps0] is sremfb_ctl_initial_kbps(), defined by the controller. *)
Definition sremfb_xmit_set_mode (kbps0 : Z) (c : SremfbClient)
    (mode : SremfbXmitMode) : SremfbClient :=
  if bool_decide (c_xmit_mode c = mode) ||
     negb (bool_decide (c_state c = STREAMING)) then c
  else
    match mode with
    | XMIT_H264 =>
      let opened :=
        match c_enc c with
        | None =>
          match sremfb_enc_open (g_width (c_geom c)) (g_height (c_geom c)) kbps0 with
          | None => None
          | Some e => Some c⟨c_enc := Some e⟩⟨c_yuvbuf := true⟩
          end
        | Some _ => Some c
        end in
      match opened with
      | None => c⟨c_h264_failed := true⟩
      | Some c =>
        let c := c⟨c_force_idr := true⟩⟨c_xmit_mode := XMIT_H264⟩ in
        if negb (dirty_n c =? 0) || c_dirty_all c
        then c⟨c_dirty := []⟩⟨c_dirty_all := true⟩ else c
      end
    | XMIT_RAW =>
      let c := c⟨c_xmit_mode := XMIT_RAW⟩ in
      let c := sremfb_xmit_ctrl c
                 (frame_hdr_bytes (frame_hdr_for SREMFB_ENC_H264_EOS)) in
      let c := c⟨c_dirty := []⟩⟨c_dirty_all := true⟩ in
      sremfb_xmit_kick c
    end.
End xmit.
