(* ===== verification/Control.v ===== *)
(** * control.c: the pressure controller

    The delay signal, the RAW/H.264 state machine, the AIMD loop on the
    encoder bitrate, the rate windows and the PING heartbeat.  Every
    [double] of the file is a binary64 value (Binary64.v) and every clock
    reading is taken where the code takes it. *)
From S2P Require Import Prelude Binary64 Protocol Core Encoder Xmit.

Definition G_USEC_PER_SEC : Z := 1000000.

Definition PING_INTERVAL_MS : Z := 250.
Definition PING_IDLE_US : Z := 2000000.
Definition PONG_DEAD_US : Z := 6000000.
Definition PINGS_MAX_FLIGHT : Z := 4.
Definition DELAY_HI_US : double := D_of_Z 150000.
Definition DELAY_AIMD_LO_US : double := D_of_Z 50000.
Definition DELAY_LO_US : double := D_of_Z 30000.
Definition FPS_MIN : double := D_of_Z 15.
Definition DAMAGE_GAP_US : Z := 100000.
Definition DAMAGE_CONT_US : Z := 1000000.
Definition ENTER_CONFIRM_US : Z := 500000.
Definition RAW_GRACE_US : Z := 2000000.
Definition EXIT_CALM_US : Z := 10000000.
Definition EXIT_HEADROOM : double := D_lit 5 1.
Definition CAP_WINDOW_US : Z := 1000000.
Definition KBPS_MIN : Z := 1500.
Definition KBPS_MAX : Z := 40000.
Definition KBPS_START : Z := 8000.
Definition AIMD_UP_KBPS : Z := 500.
Definition AIMD_DOWN : double := D_lit 7 1.

Definition EWMA (cur x a : double) : double :=
  if Deqb cur D0 then x else Dadd cur (Dmul a (Dsub x cur)).

Section control.
Context `{X264} `{Platform}.

Definition env_force_h264 : bool := getenv_FORCE_H264.
Definition env_no_h264 : bool := getenv_NO_H264.

Definition h264_allowed (c : SremfbClient) : bool :=
  c_h264_cap c && c_feedback c && negb (c_h264_failed c) && negb env_no_h264.

Definition sremfb_ctl_state_name (c : SremfbClient) : string :=
  match c_ctl_state c with
  | CTL_RAW_STEADY => "raw"
  | CTL_RAW_SUSPECT => "raw?"
  | CTL_H264_ACTIVE => "h264"
  | CTL_H264_COOLDOWN => "h264~"
  end.

Definition ctl_set_state (c : SremfbClient) (s : SremfbCtlState) : SremfbClient :=
  if bool_decide (c_ctl_state c = s) then c
  else
    let c := c⟨c_ctl_state := s⟩ in
    let (now, c) := g_get_monotonic_time c in
    c⟨c_ctl_since_us := now⟩⟨c_ctl_calm_us := 0⟩.

Definition send_ping (c : SremfbClient) : SremfbClient :=
  let hdr := (frame_hdr_for SREMFB_ENC_PING)⟨fh_payload_len := 8⟩ in
  let (now, c) := g_get_monotonic_time c in
  let t_us := u64 now in
  let c := sremfb_xmit_ctrl c (frame_hdr_bytes hdr ++ le 8 t_us) in
  let c := c⟨c_pings_outstanding ::= (λ n, u32 (n + 1))⟩ in
  let c := c⟨c_last_ping_us := s64 t_us⟩ in
  c⟨c_ping_wire_mark := c_wire_total c⟩.

Definition damage_continuous (c : SremfbClient) (now : Z) : bool :=
  negb (c_last_grab_us c =? 0) && (now - c_last_grab_us c <? DAMAGE_GAP_US).

Definition raw_predicted_Bps (c : SremfbClient) : double :=
  let ratio := if Dltb (D_of_Z 1) (c_lz4_ratio_ewma c)
               then c_lz4_ratio_ewma c else D_of_Z 1 in
  Ddiv (c_raw_rate_Bps c) ratio.

Definition raw_pressure (c : SremfbClient) (now : Z) : bool :=
  Dltb DELAY_HI_US (c_delay_ewma_us c) ||
  (Dltb (D_lit 1 1) (c_grab_fps c) && Dltb (c_grab_fps c) FPS_MIN &&
   damage_continuous c now &&
   (DAMAGE_CONT_US <? now - c_damage_cont_us c)).

(** The predictor of the COOLDOWN exit: RAW would drown the measured
    capacity, on average or on one frame's wire time. *)
Definition raw_wont_fit (c : SremfbClient) : bool :=
  if Dltb D0 (c_capacity_Bps c) then
    let pred := raw_predicted_Bps c in
    let avg := Dltb (Dmul EXIT_HEADROOM (c_capacity_Bps c)) pred in
    if Dltb (D_lit 1 1) (c_grab_fps c) then
      let frame_us := Dmul (Ddiv (Ddiv pred (c_grab_fps c)) (c_capacity_Bps c))
                           (D_of_Z G_USEC_PER_SEC) in
      if Dltb (Dmul EXIT_HEADROOM DELAY_HI_US) frame_us then true else avg
    else avg
  else false.

Definition sremfb_ctl_initial_kbps : Z := KBPS_START.

(** cases RAW_STEADY and RAW_SUSPECT of ctl_evaluate() *)
Definition ctl_eval_raw (c : SremfbClient) (now : Z) : SremfbClient :=
  let pressure := raw_pressure c now in
  let pressure := if env_force_h264 && h264_allowed c then true else pressure in
  if bool_decide (c_ctl_state c = CTL_RAW_STEADY) then
    if negb (c_ctl_since_us c =? 0) && (now - c_ctl_since_us c <? RAW_GRACE_US)
    then c
    else if pressure then ctl_set_state c CTL_RAW_SUSPECT else c
  else if negb pressure then ctl_set_state c CTL_RAW_STEADY
  else if (ENTER_CONFIRM_US <? now - c_ctl_since_us c) || env_force_h264 then
    if negb (h264_allowed c) then
      if 30 * G_USEC_PER_SEC <? now - c_ctl_since_us c
      then ctl_set_state c CTL_RAW_STEADY else c
    else
      let c := sremfb_xmit_set_mode sremfb_ctl_initial_kbps c XMIT_H264 in
      if bool_decide (c_xmit_mode c = XMIT_H264) then
        let c :=
          if negb (c_ctl_exit_us c =? 0) &&
             (now - c_ctl_exit_us c <? 8 * G_USEC_PER_SEC)
          then c⟨c_ctl_probe_backoff ::= (λ b, Z.min (b + 1) 6)⟩
          else c⟨c_ctl_probe_backoff := 0⟩ in
        ctl_set_state c CTL_H264_ACTIVE
      else ctl_set_state c CTL_RAW_STEADY
  else c.

(** case H264_COOLDOWN *)
Definition ctl_eval_cooldown (c : SremfbClient) (now : Z) : SremfbClient :=
  if Dltb DELAY_HI_US (c_delay_ewma_us c) then ctl_set_state c CTL_H264_ACTIVE
  else
    let c := if c_ctl_calm_us c =? 0 then c⟨c_ctl_calm_us := now⟩ else c in
    let calm := now - c_ctl_calm_us c in
    if Dltb DELAY_LO_US (c_delay_ewma_us c) then c
    else if calm <? EXIT_CALM_US then c
    else if raw_wont_fit c &&
            ((calm <? Z.shiftl 3 (c_ctl_probe_backoff c) * EXIT_CALM_US) ||
             damage_continuous c now) then c
    else
      let c := sremfb_xmit_set_mode sremfb_ctl_initial_kbps c XMIT_RAW in
      let c := ctl_set_state c CTL_RAW_STEADY in
      c⟨c_ctl_exit_us := now⟩.

Definition ctl_evaluate (c : SremfbClient) : SremfbClient :=
  let (now, c) := g_get_monotonic_time c in
  match c_ctl_state c with
  | CTL_RAW_STEADY | CTL_RAW_SUSPECT => ctl_eval_raw c now
  | CTL_H264_ACTIVE =>
    if env_force_h264 then c
    else if Dltb (c_delay_ewma_us c) DELAY_LO_US then
      let c := ctl_set_state c CTL_H264_COOLDOWN in
      c⟨c_ctl_calm_us := now⟩
    else c
  | CTL_H264_COOLDOWN => ctl_eval_cooldown c now
  end.

Definition ctl_aimd (c : SremfbClient) : SremfbClient :=
  if negb (bool_decide (c_xmit_mode c = XMIT_H264)) then c
  else
    match c_enc c with
    | None => c
    | Some _ =>
      let kbps := sremfb_enc_bitrate (c_enc c) in
      let apply (c : SremfbClient) (kbps : Z) : SremfbClient :=
        c⟨c_enc ::= (λ e, sremfb_enc_set_bitrate e (CLAMP kbps KBPS_MIN KBPS_MAX))⟩ in
      if Dltb DELAY_HI_US (c_delay_ewma_us c)
      then apply c (D_trunc (Dmul (D_of_Z kbps) AIMD_DOWN))
      else if Dltb (c_delay_ewma_us c) DELAY_AIMD_LO_US then
        let (now, c) := g_get_monotonic_time c in
        if now - c_last_enc_us c <? Z.quot G_USEC_PER_SEC 2
        then apply c (kbps + AIMD_UP_KBPS) else c
      else c
    end.

Definition sremfb_ctl_skip_encode (c : SremfbClient) : bool * SremfbClient :=
  if Dleb (c_delay_ewma_us c) DELAY_HI_US then (false, c)
  else
    let (now, c) := g_get_monotonic_time c in
    (now - c_last_enc_us c <? D_trunc (Ddiv (D_of_Z G_USEC_PER_SEC) FPS_MIN), c).

Definition sremfb_ctl_on_pong (c : SremfbClient) (t_echo_us : Z) : SremfbClient :=
  let (now, c) := g_get_monotonic_time c in
  let delay := D_of_Z (s64 (now - s64 t_echo_us)) in
  if Dltb delay D0 || Dltb (Dmul (D_of_Z 60) (D_of_Z G_USEC_PER_SEC)) delay then c
  else
    let c := c⟨c_last_pong_us := now⟩ in
    let c := if c_pings_outstanding c =? 0 then c
             else c⟨c_pings_outstanding ::= (λ n, u32 (n - 1))⟩ in
    if bool_decide (c_ctl_state c = CTL_RAW_STEADY) &&
       negb (c_ctl_since_us c =? 0) && (now - c_ctl_since_us c <? RAW_GRACE_US)
    then ctl_evaluate c
    else
      let c := c⟨c_delay_ewma_us ::= (λ d, EWMA d delay (D_lit 3 1))⟩ in
      ctl_evaluate (ctl_aimd c).

Definition ctl_windows (c : SremfbClient) (now : Z) : SremfbClient :=
  if c_cap_win_start_us c =? 0 then c⟨c_cap_win_start_us := now⟩
  else
    let win := now - c_cap_win_start_us c in
    if win <? CAP_WINDOW_US then c
    else
      let rate b := Ddiv (Dmul (D_of_Z b) (D_of_Z G_USEC_PER_SEC)) (D_of_Z win) in
      let wire_rate := rate (c_cap_win_bytes c) in
      let raw_rate := rate (c_raw_win_bytes c) in
      let c := c⟨c_raw_rate_Bps ::= (λ r, EWMA r raw_rate (D_lit 3 1))⟩ in
      let raw := bool_decide (c_xmit_mode c = XMIT_RAW) in
      let c := if raw && Dltb D0 wire_rate && raw_pressure c now
               then c⟨c_capacity_Bps ::= (λ r, EWMA r wire_rate (D_lit 3 1))⟩ else c in
      let c := if raw && (0 <? c_cap_win_bytes c)
               then c⟨c_lz4_ratio_ewma ::=
                      (λ r, EWMA r (Ddiv raw_rate wire_rate) (D_lit 2 1))⟩ else c in
      c⟨c_cap_win_start_us := now⟩⟨c_cap_win_bytes := 0⟩⟨c_raw_win_bytes := 0⟩.

Definition sremfb_ctl_on_damage (c : SremfbClient) (raw_bytes : Z) : SremfbClient :=
  let (now, c) := g_get_monotonic_time c in
  let c := if (c_last_grab_us c =? 0) || (DAMAGE_GAP_US <=? now - c_last_grab_us c)
           then c⟨c_damage_cont_us := now⟩ else c in
  let c := c⟨c_last_grab_us := now⟩ in
  let c := c⟨c_raw_win_bytes ::= (λ b, u64 (b + raw_bytes))⟩ in
  ctl_evaluate (ctl_windows c now).

Definition sremfb_ctl_on_deliver (c : SremfbClient) (wire_bytes : Z) : SremfbClient :=
  let (now, c) := g_get_monotonic_time c in
  let c :=
    if c_last_deliver_us c =? 0 then c
    else
      let gap := D_of_Z (now - c_last_deliver_us c) in
      if Dltb D0 gap
      then c⟨c_grab_fps ::= (λ f, EWMA f (Ddiv (D_of_Z G_USEC_PER_SEC) gap) (D_lit 2 1))⟩
      else c in
  let c := c⟨c_last_deliver_us := now⟩ in
  let c := c⟨c_cap_win_bytes ::= (λ b, u64 (b + wire_bytes))⟩ in
  ctl_evaluate (ctl_windows c now).

(** The timer stays armed whatever happens (G_SOURCE_CONTINUE). *)
Definition ping_tick (c : SremfbClient) : SremfbClient :=
  let (now, c) := g_get_monotonic_time c in
  if (c_fd c <? 0) || negb (bool_decide (c_state c = STREAMING)) ||
     negb (c_lost_id c =? 0) then c
  else if (0 <? c_pings_outstanding c) && (PONG_DEAD_US <? now - c_last_pong_us c)
  then sremfb_schedule_client_lost c
  else if c_wire_total c =? c_ping_wire_mark c then
    let c := c⟨c_delay_ewma_us ::= (λ d, EWMA d D0 (D_lit 1 1))⟩ in
    let c := c⟨c_raw_rate_Bps ::= (λ d, EWMA d D0 (D_lit 1 1))⟩ in
    let c := ctl_evaluate c in
    if (now - c_last_ping_us c <? PING_IDLE_US) ||
       (PINGS_MAX_FLIGHT <=? c_pings_outstanding c)
    then c else send_ping c
  else if PINGS_MAX_FLIGHT <=? c_pings_outstanding c then c
  else send_ping c.

Definition sremfb_ctl_start (c : SremfbClient) : SremfbClient :=
  let c := c⟨c_xmit_mode := XMIT_RAW⟩ in
  let c := ctl_set_state c CTL_RAW_STEADY in
  let (now, c) := g_get_monotonic_time c in
  let c := c⟨c_ctl_since_us := now⟩⟨c_delay_ewma_us := D0⟩⟨c_grab_fps := D0⟩
    ⟨c_last_grab_us := 0⟩⟨c_last_deliver_us := 0⟩⟨c_last_ping_us := 0⟩ in
  let (now, c) := g_get_monotonic_time c in
  let c := c⟨c_last_pong_us := now⟩⟨c_pings_outstanding := 0⟩⟨c_wire_total := 0⟩
    ⟨c_ping_wire_mark := 0⟩⟨c_cap_win_start_us := 0⟩⟨c_cap_win_bytes := 0⟩
    ⟨c_raw_win_bytes := 0⟩ in
  if c_feedback c && (c_ping_timer_id c =? 0)
  then let (id, c) := g_source_new c in c⟨c_ping_timer_id := id⟩
  else c.

Definition sremfb_ctl_stop (c : SremfbClient) : SremfbClient :=
  c⟨c_ping_timer_id := 0⟩⟨c_enc := None⟩⟨c_yuvbuf := false⟩⟨c_xmit_mode := XMIT_RAW⟩.
End control.
