(* ===== verification/Drain.v ===== *)
(** * xmit.c, second half: damage intake, frame builds and the drain

    [on_out_ready] is one dispatch of the G_IO_OUT watch; its [answers] are
    the kernel's answers to the send(2) calls of that dispatch.  The ghost
    [c_wire] collects what the kernel accepted. *)
From S2P Require Import Prelude Binary64 Protocol Core Convert Encoder Net Xmit Control.

Definition XMIT_RETRY_MS : Z := 50.

Section drain.
Context `{X264} `{LZ4} `{Platform}.

(** ** Damage intake *)
Definition clamp_rect (g : sremfb_geom) (r : sremfb_rect) : sremfb_rect :=
  mk_rect (CLAMP (x1 r) 0 (g_width g)) (CLAMP (y1 r) 0 (g_height g))
          (CLAMP (x2 r) 0 (g_width g)) (CLAMP (y2 r) 0 (g_height g)).

Definition damage_one (bytespp : Z) (cr : SremfbClient * Z) (rect : sremfb_rect)
    : SremfbClient * Z :=
  let '(c, raw) := cr in
  let r := clamp_rect (c_geom c) rect in
  if (x2 r <=? x1 r) || (y2 r <=? y1 r) then (c, raw)
  else
    let '(r, differs) := rect_trim c r in
    if negb differs then (c, raw)
    else
      let raw := raw + (x2 r - x1 r) * (y2 r - y1 r) * bytespp in
      if bool_decide (c_xmit_mode c = XMIT_H264)
      then (c⟨c_dirty_all := true⟩, raw)
      else (dirty_add c r, raw).

Definition sremfb_xmit_damage (c : SremfbClient) (rects : list sremfb_rect)
    (bytespp : Z) : SremfbClient :=
  let '(c, raw) := foldl (damage_one bytespp) (c, 0) rects in
  if raw =? 0 then c
  else
    let c := c⟨c_dirty_raw ::= Z.add raw⟩ in
    let c := if c_feedback c then sremfb_ctl_on_damage c raw else c in
    sremfb_xmit_kick c.

(** ** Frame builds *)
Definition frame_start (c : SremfbClient) (seg0 seg1 : bytes) : SremfbClient :=
  let len := Z.of_nat (length seg0) + Z.of_nat (length seg1) in
  let c := c⟨c_out_seg0 := seg0⟩⟨c_out_seg1 := seg1⟩⟨c_out_off := 0⟩
    ⟨c_out_active := true⟩ in
  let c := c⟨c_st_rects ::= Z.succ⟩⟨c_st_wire_bytes ::= Z.add len⟩
    ⟨c_wire_total ::= (λ t, u64 (t + len))⟩ in
  if c_feedback c then sremfb_ctl_on_deliver c len else c.

(** The memcpy loop of shadow_update(), row by row. *)
Definition copy_rows (stride x y w h : Z) (src dst : bytes) : bytes :=
  for_ 0 h (λ row dst,
    let off := (y + row) * stride + x * 4 in
    blit dst off (slice off (w * 4) src)) dst.

Definition shadow_update (c : SremfbClient) (x y w h : Z) : SremfbClient :=
  match c_grabbuf c, c_shadowbuf c with
  | Some grab, Some shadow =>
    c⟨c_shadowbuf :=
      Some (copy_rows (g_width (c_geom c) * 4) x y w h grab shadow)⟩
  | _, _ => c
  end.

(** The converted rows of a rect: the first raw_len bytes of rectbuf. *)
Definition rect_pixels (grab : bytes) (gw pixfmt x y w h : Z) : bytes :=
  rows 0 h (λ row,
    sremfb_convert_bgrx_row
      (slice (((y + row) * gw + x) * 4) (w * 4) grab) w pixfmt x (y + row)).

Definition build_raw_rect (c : SremfbClient) (r : sremfb_rect) : SremfbClient :=
  match c_grabbuf c with
  | None => c
  | Some grab =>
    let bytespp := client_bytespp c in
    let x := u32 (x1 r) in
    let y := u32 (y1 r) in
    let w := u32 (x2 r - x1 r) in
    let h := u32 (y2 r - y1 r) in
    let raw_len := w * h * bytespp in
    let rectbuf := rect_pixels grab (g_width (c_geom c))
                     (ch_pixfmt (c_hello c)) x y w h in
    let c := shadow_update c x y w h in
    let hdr := (frame_hdr_for SREMFB_ENC_RAW)⟨fh_x := u16 x⟩⟨fh_y := u16 y⟩
                 ⟨fh_w := u16 w⟩⟨fh_h := u16 h⟩ in
    let blk := if c_lz4 c
               then LZ4_compress_fast rectbuf (s32 raw_len)
                      (LZ4_compressBound (s32 raw_len)) 1
               else [] in
    let csz := Z.of_nat (length blk) in
    let '(hdr, payload) :=
      if (0 <? csz) && (csz <? raw_len)
      then (hdr⟨fh_encoding := SREMFB_ENC_LZ4⟩, blk) else (hdr, rectbuf) in
    let hdr := hdr⟨fh_payload_len := u32 (Z.of_nat (length payload))⟩ in
    let c := c⟨c_st_raw_bytes ::= Z.add raw_len⟩ in
    frame_start c (frame_hdr_bytes hdr ++ payload) []
  end.

Definition build_h264_frame (c : SremfbClient) : SremfbClient :=
  match c_grabbuf c, c_enc c with
  | Some grab, Some enc =>
    let w := u32 (g_width (c_geom c)) in
    let h := u32 (g_height (c_geom c)) in
    let yuv := sremfb_convert_bgrx_to_i420 grab w h in
    let c := shadow_update c 0 0 w h in
    let '(enc, (sz, nal, is_idr)) := sremfb_enc_encode enc yuv (c_force_idr c) in
    let c := c⟨c_enc := Some enc⟩⟨c_force_idr := false⟩ in
    if sz <? 0 then
      let c := c⟨c_h264_failed := true⟩ in
      sremfb_xmit_set_mode sremfb_ctl_initial_kbps c XMIT_RAW
    else
      let (now, c) := g_get_monotonic_time c in
      let c := c⟨c_last_enc_us := now⟩ in
      if sz =? 0 then c
      else
        let hdr := (frame_hdr_for SREMFB_ENC_H264)
          ⟨fh_reserved0 := if is_idr : bool then SREMFB_H264_FLAG_IDR else 0⟩
          ⟨fh_w := u16 w⟩⟨fh_h := u16 h⟩⟨fh_payload_len := u32 sz⟩ in
        let c := c⟨c_st_raw_bytes ::= Z.add (c_dirty_raw c)⟩ in
        frame_start c (frame_hdr_bytes hdr) nal
  | _, _ => c
  end.

Definition retry_cb (c : SremfbClient) : SremfbClient :=
  sremfb_xmit_kick c⟨c_out_retry_id := 0⟩.

Definition full_rect (g : sremfb_geom) : sremfb_rect :=
  mk_rect 0 0 (g_width g) (g_height g).

Definition build_next (c : SremfbClient) : bool * SremfbClient :=
  match c_grabbuf c with
  | None => (false, c)
  | Some _ =>
    if negb (bool_decide (c_state c = STREAMING)) || negb (c_sendbuf c)
    then (false, c)
    else
      match c_xmit_mode c with
      | XMIT_H264 =>
        if negb (c_dirty_all c) && (dirty_n c =? 0) then (false, c)
        else
          let '(skip, c) := sremfb_ctl_skip_encode c in
          if skip : bool then
            (false,
             if c_out_retry_id c =? 0
             then let (id, c) := g_source_new c in c⟨c_out_retry_id := id⟩
             else c)
          else
            let c := c⟨c_dirty_all := false⟩⟨c_dirty := []⟩⟨c_dirty_raw := 0⟩ in
            let c := build_h264_frame c in
            (c_out_active c, c)
      | XMIT_RAW =>
        if c_dirty_all c then
          let c := c⟨c_dirty_all := false⟩⟨c_dirty := []⟩⟨c_dirty_raw := 0⟩ in
          let c := build_raw_rect c (full_rect (c_geom c)) in
          (c_out_active c, c)
        else
          match c_dirty c with
          | r :: l =>
            let c := c⟨c_dirty := l⟩ in
            let c := match l with [] => c⟨c_dirty_raw := 0⟩ | _ => c end in
            let c := build_raw_rect c r in
            (c_out_active c, c)
          | [] => (false, c)
          end
      end
  end.

(** ** The drain *)
Inductive drain_res := DrainDone | DrainAgain | DrainFail.

(** 1. the frame in flight; [fuel] above the number of answers never runs
    out (drain_frame_fuel). *)
Fixpoint drain_frame (fuel : nat) (c : SremfbClient) (answers : list send_res)
    : drain_res * SremfbClient * list send_res :=
  let len0 := Z.of_nat (length (c_out_seg0 c)) in
  let total := len0 + Z.of_nat (length (c_out_seg1 c)) in
  if total <=? c_out_off c
  then (DrainDone, c⟨c_out_active := false⟩⟨c_out_off := 0⟩, answers)
  else
    match fuel with
    | O => (DrainAgain, c, answers)
    | S fuel =>
      let seg := if c_out_off c <? len0 then c_out_seg0 c else c_out_seg1 c in
      let off := if c_out_off c <? len0 then c_out_off c else c_out_off c - len0 in
      let '(n, answers) :=
        net_send_some (Z.of_nat (length seg) - off) answers in
      if n <? 0 then (DrainFail, c, answers)
      else if n =? 0 then (DrainAgain, c, answers)
      else
        let c := c⟨c_wire ::= (λ w, w ++ slice off n seg)⟩
          ⟨c_out_off ::= Z.add n⟩ in
        drain_frame fuel c answers
    end.

(** 2. the queued control messages, in order *)
Fixpoint drain_ctrl (q : list bytes) (c : SremfbClient) (answers : list send_res)
    : drain_res * SremfbClient * list send_res :=
  match q with
  | [] => (DrainDone, c, answers)
  | p :: q =>
    let len := Z.of_nat (length p) in
    let '(n, answers) := net_send_some (len - c_outq_off c) answers in
    if n <? 0 then (DrainFail, c, answers)
    else
      let c := c⟨c_wire ::= (λ w, w ++ slice (c_outq_off c) n p)⟩
        ⟨c_outq_off ::= Z.add n⟩ in
      if c_outq_off c <? len then (DrainAgain, c, answers)
      else drain_ctrl q c⟨c_outq := q⟩⟨c_outq_off := 0⟩ answers
  end.

Definition send_fail (c : SremfbClient) : bool * SremfbClient :=
  (false, xmit_fail c⟨c_out_watch_id := 0⟩).

(** TRUE is G_SOURCE_CONTINUE. *)
Definition on_out_ready (c : SremfbClient) (err_hup : bool)
    (answers : list send_res) : bool * SremfbClient :=
  if err_hup then send_fail c
  else
    let '(r, c, answers) :=
      if c_out_active c then drain_frame (S (length answers)) c answers
      else (DrainDone, c, answers) in
    match r with
    | DrainFail => send_fail c
    | DrainAgain => (true, c)
    | DrainDone =>
      let '(r, c, answers) := drain_ctrl (c_outq c) c answers in
      match r with
      | DrainFail => send_fail c
      | DrainAgain => (true, c)
      | DrainDone =>
        let '(started, c) := build_next c in
        if started then (true, c) else (false, c⟨c_out_watch_id := 0⟩)
      end
    end.

Definition sremfb_xmit_reset (c : SremfbClient) : SremfbClient :=
  c⟨c_out_watch_id := 0⟩⟨c_out_retry_id := 0⟩⟨c_outq := []⟩⟨c_outq_off := 0⟩
   ⟨c_out_active := false⟩⟨c_out_off := 0⟩⟨c_dirty := []⟩⟨c_dirty_all := false⟩
   ⟨c_dirty_raw := 0⟩⟨c_pings_outstanding := 0⟩.
End drain.
