(* ===== verification/XmitSpec.v ===== *)
(** * What the transmit path promises

    The interface between the pressure controller and the transmit queue:
    whatever control.c does to a client is a sequence of private updates
    and of the four queue operations it may call ([xstep]).  Every property
    of the queue is then proved for those operations once, and holds of
    every controller entry point.

    The abstract state: [stream], the byte sequence the client will have
    received once everything queued has left, and [in_dirty], the set of
    bytes of the frame the dirty region covers. *)
From S2P Require Import Prelude Binary64 Protocol Core Convert Encoder Net Xmit Control Drain.

Section spec.
Context `{X264} `{LZ4} `{Platform}.
Implicit Types c : SremfbClient.

Definition has_enc c : bool := match c_enc c with Some _ => true | None => false end.

(** The fields of the transmit path; the controller's own are left out,
    and of the encoder only whether it is open. *)
Definition vis c :=
  ((c_fd c, c_lost_id c, c_state c, c_hello c, c_geom c, c_grabbuf c,
    c_shadowbuf c, c_sendbuf c, c_lz4 c),
   (c_outq c, c_outq_off c, c_out_seg0 c, c_out_seg1 c, c_out_off c,
    c_out_active c, c_out_watch_id c, c_out_retry_id c),
   (c_dirty c, c_dirty_all c, c_xmit_mode c, c_wire c, c_recvbuf c,
    c_feedback c, c_h264_cap c, c_input c, has_enc c),
   (c_recv_garbage c, c_macstr c, c_peer c, c_usb_cap c, c_watch_id c)).

(** The messages queued on their own: PING from the controller, BLANK and
    UNBLANK from the frame source.  (H264_EOS only leaves with the switch
    back to RAW.) *)
Definition ctl_msg (m : bytes) : Prop :=
  (∃ t, 0 ≤ t < 2 ^ 64 ∧
     m = frame_hdr_bytes (frame_hdr_for SREMFB_ENC_PING)⟨fh_payload_len := 8⟩
           ++ le 8 t) ∨
  (∃ e, (e = SREMFB_ENC_BLANK ∨ e = SREMFB_ENC_UNBLANK) ∧
     m = frame_hdr_bytes (frame_hdr_for e)).

Inductive xstep : SremfbClient → SremfbClient → Prop :=
  | xs_quiet c c' : vis c' = vis c → xstep c c'
  | xs_trans c c1 c' : xstep c c1 → xstep c1 c' → xstep c c'
  | xs_ctrl c m : ctl_msg m → xstep c (sremfb_xmit_ctrl c m)
  | xs_mode c m : xstep c (sremfb_xmit_set_mode sremfb_ctl_initial_kbps c m)
  | xs_kick c : xstep c (sremfb_xmit_kick c)
  | xs_lost c : xstep c (sremfb_schedule_client_lost c).

#[export] Instance xstep_preorder : PreOrder xstep.
Proof.
  split; [intros c; by apply xs_quiet|intros c1 c2 c3; apply xs_trans].
Qed.

Lemma xs_quiet_l c c1 c' : vis c1 = vis c → xstep c1 c' → xstep c c'.
Proof. intros. by etrans; [apply xs_quiet|]. Qed.

Lemma xs_quiet_r c c1 c' : vis c' = vis c1 → xstep c c1 → xstep c c'.
Proof. intros. etrans; [done|by apply xs_quiet]. Qed.

(** ** The controller's entry points are [xstep]s *)
Lemma ctl_msg_ping t : 0 ≤ t < 2 ^ 64 →
  ctl_msg (frame_hdr_bytes (frame_hdr_for SREMFB_ENC_PING)⟨fh_payload_len := 8⟩
           ++ le 8 t).
Proof. left; eauto. Qed.

Lemma set_state_quiet c s : vis (ctl_set_state c s) = vis c.
Proof. unfold ctl_set_state. by case_match. Qed.

Lemma aimd_quiet c : vis (ctl_aimd c) = vis c.
Proof.
  unfold ctl_aimd, g_get_monotonic_time.
  destruct (bool_decide (c_xmit_mode c = XMIT_H264)); [|done].
  destruct (c_enc c) as [e|] eqn:He; [|done]. cbn [negb].
  repeat case_match; try done; unfold vis, has_enc; cbn; rewrite ?He; cbn;
    unfold sremfb_enc_set_bitrate; repeat case_match; simplify_eq; done.
Qed.

Lemma windows_quiet c now : vis (ctl_windows c now) = vis c.
Proof. unfold ctl_windows. repeat case_match; done. Qed.

Lemma eval_raw_xstep c now : xstep c (ctl_eval_raw c now).
Proof.
  unfold ctl_eval_raw.
  repeat case_match; try done; try (apply xs_quiet; apply set_state_quiet);
    (eapply xs_quiet_r; [|apply xs_mode]);
    rewrite set_state_quiet; done.
Qed.

Lemma eval_cooldown_xstep c now : xstep c (ctl_eval_cooldown c now).
Proof.
  unfold ctl_eval_cooldown.
  case_match; [apply xs_quiet, set_state_quiet|].
  set (c1 := if c_ctl_calm_us c =? 0 then _ else _).
  assert (Hq : vis c1 = vis c) by (subst c1; by case_match).
  clearbody c1. repeat case_match; try (by apply xs_quiet).
  eapply xs_quiet_l; [apply Hq|]. eapply xs_quiet_r; [|apply xs_mode].
  rewrite <- (set_state_quiet (sremfb_xmit_set_mode _ _ _) CTL_RAW_STEADY). done.
Qed.

Lemma evaluate_xstep c : xstep c (ctl_evaluate c).
Proof.
  unfold ctl_evaluate, g_get_monotonic_time.
  set (c1 := c⟨c_tick ::= S⟩). apply xs_quiet_l with c1; [done|].
  repeat case_match; try done; try apply eval_raw_xstep;
    try apply eval_cooldown_xstep.
  apply xs_quiet. rewrite <- (set_state_quiet c1 CTL_H264_COOLDOWN). done.
Qed.

Lemma skip_encode_quiet c : vis (sremfb_ctl_skip_encode c).2 = vis c.
Proof. unfold sremfb_ctl_skip_encode. by case_match. Qed.

Lemma on_pong_xstep c t : xstep c (sremfb_ctl_on_pong c t).
Proof.
  unfold sremfb_ctl_on_pong, g_get_monotonic_time.
  case_match; [by apply xs_quiet|].
  set (c1 := if c_pings_outstanding _ =? 0 then _ else _).
  assert (Hq : vis c1 = vis c) by (subst c1; by case_match).
  clearbody c1. case_match.
  - eapply xs_quiet_l; [exact Hq|apply evaluate_xstep].
  - eapply xs_quiet_l; [|apply evaluate_xstep]. by rewrite aimd_quiet.
Qed.

Lemma on_damage_xstep c n : xstep c (sremfb_ctl_on_damage c n).
Proof.
  unfold sremfb_ctl_on_damage, g_get_monotonic_time.
  eapply xs_quiet_l; [|apply evaluate_xstep].
  rewrite windows_quiet. by case_match.
Qed.

Lemma on_deliver_xstep c n : xstep c (sremfb_ctl_on_deliver c n).
Proof.
  unfold sremfb_ctl_on_deliver, g_get_monotonic_time.
  eapply xs_quiet_l; [|apply evaluate_xstep].
  rewrite windows_quiet. by repeat case_match.
Qed.

Lemma send_ping_xstep c : xstep c (send_ping c).
Proof.
  unfold send_ping, g_get_monotonic_time.
  set (t := u64 _). set (c1 := c⟨c_tick ::= S⟩).
  apply xs_quiet_l with c1; [done|].
  eapply xs_quiet_r; [|apply (xs_ctrl c1 _ (ctl_msg_ping t (u64_range _)))]. done.
Qed.

Lemma ping_tick_xstep c : xstep c (ping_tick c).
Proof.
  unfold ping_tick, g_get_monotonic_time.
  set (c1 := c⟨c_tick ::= S⟩).
  eapply xs_quiet_l with c1; [done|].
  repeat case_match; try reflexivity; try apply xs_lost; try apply send_ping_xstep;
    (eapply xs_quiet_l;
      [|etrans; [apply evaluate_xstep|try apply send_ping_xstep; done]]); done.
Qed.

Lemma damage_kick_xstep c raw :
  xstep c (sremfb_xmit_kick
             (if c_feedback c then sremfb_ctl_on_damage c raw else c)).
Proof.
  etrans; [|apply xs_kick]. case_match; [apply on_damage_xstep|done].
Qed.
End spec.
