(* ===== verification/Dirty.v ===== *)
(** * The dirty region covers every byte the client does not have yet

    [grabbuf] is the current frame, [shadowbuf] what the client was last
    sent.  [covered] says that every byte where they differ lies in the
    dirty region; [dirty_inv] adds the bounds of the region.  Every
    operation of the transmit path and of the controller keeps it, so a
    drained client shows the current frame. *)
From S2P Require Import Prelude Binary64 Protocol Core Convert Encoder Net Xmit Control Drain.
From S2P Require Import XmitSpec.

(** Byte [i] of a frame with [stride] bytes per row lies in the rect. *)
Definition in_rect (stride : Z) (r : sremfb_rect) (i : Z) : Prop :=
  y1 r ≤ i / stride < y2 r ∧ x1 r * 4 ≤ i mod stride < x2 r * 4.

(** Clamped and not empty: what damage_one() lets through. *)
Definition rect_ok (g : sremfb_geom) (r : sremfb_rect) : Prop :=
  0 ≤ x1 r < x2 r ∧ x2 r ≤ g_width g ∧ 0 ≤ y1 r < y2 r ∧ y2 r ≤ g_height g.

Definition geom_ok (g : sremfb_geom) : Prop :=
  0 < g_width g < 65536 ∧ 0 < g_height g < 65536.

(** Whether the frame may have changed without damage having been reported
    yet; a repaint of the whole frame is then due. *)
Class Stale := stale : Prop.
Definition fresh_frame : Stale := False.

Section dirty.
Context `{X264} `{LZ4} `{Platform} `{Stale}.
Implicit Types c : SremfbClient.

Definition stride_of c : Z := g_width (c_geom c) * 4.

Definition in_dirty c (i : Z) : Prop :=
  c_dirty_all c = true ∨ ∃ r, r ∈ c_dirty c ∧ in_rect (stride_of c) r i.

Definition frame_size c : Z := g_width (c_geom c) * g_height (c_geom c) * 4.

(** Byte [i] has to be sent. *)
Definition differs (grab shadow : bytes) (i : nat) : Prop :=
  ¬ stale ∧ grab !! i ≠ shadow !! i.

Definition covered c : Prop :=
  ∃ grab shadow, c_grabbuf c = Some grab ∧ c_shadowbuf c = Some shadow ∧
    Z.of_nat (length grab) = frame_size c ∧
    Z.of_nat (length shadow) = frame_size c ∧
    ∀ i : nat, differs grab shadow i → in_dirty c (Z.of_nat i).

Definition dirty_inv c : Prop :=
  geom_ok (c_geom c) ∧ (length (c_dirty c) ≤ 16)%nat ∧
  Forall (rect_ok (c_geom c)) (c_dirty c) ∧ covered c.

(** Operations that leave the frames alone and may only grow the dirty
    region. *)
Definition pix_le c c' : Prop :=
  c_grabbuf c' = c_grabbuf c ∧ c_shadowbuf c' = c_shadowbuf c ∧
  c_geom c' = c_geom c ∧ c_hello c' = c_hello c ∧
  (c_dirty c' = c_dirty c ∨ c_dirty c' = []) ∧
  ∀ i, in_dirty c i → in_dirty c' i.

#[export] Instance pix_le_preorder : PreOrder pix_le.
Proof.
  split.
  - intros c. unfold pix_le. tauto.
  - intros c1 c2 c3 (?&?&?&?&D1&?) (?&?&?&?&D2&?). unfold pix_le.
    split_and!; try congruence; [|auto].
    destruct D2 as [->|D2]; [done|by right].
Qed.

Lemma pix_le_same c c' :
  c_grabbuf c' = c_grabbuf c → c_shadowbuf c' = c_shadowbuf c →
  c_geom c' = c_geom c → c_hello c' = c_hello c →
  c_dirty c' = c_dirty c → c_dirty_all c' = c_dirty_all c → pix_le c c'.
Proof.
  unfold pix_le, in_dirty, stride_of. intros. split_and!; auto.
  intros i [?|(r&?&?)]; [left|right; exists r; split]; congruence.
Qed.

Lemma pix_le_quiet c c' : vis c' = vis c → pix_le c c'.
Proof.
  unfold vis. intros Hv. injection Hv as; apply pix_le_same; congruence.
Qed.

Lemma kick_quiet_or c :
  ∃ id n, sremfb_xmit_kick c = c ∨
          sremfb_xmit_kick c = c⟨c_next_source := n⟩⟨c_out_watch_id := id⟩.
Proof.
  exists (c_next_source c), (Z.succ (c_next_source c)).
  unfold sremfb_xmit_kick, g_source_new. repeat case_match; auto; simplify_eq; auto.
Qed.

Lemma pix_le_kick c : pix_le c (sremfb_xmit_kick c).
Proof. destruct (kick_quiet_or c) as (?&?&[->| ->]); [done|]. by apply pix_le_same. Qed.

Lemma pix_le_ctrl c m : pix_le c (sremfb_xmit_ctrl c m).
Proof.
  unfold sremfb_xmit_ctrl. case_match; [done|].
  etrans; [|apply pix_le_kick]. by apply pix_le_same.
Qed.

Lemma pix_le_lost c : pix_le c (sremfb_schedule_client_lost c).
Proof.
  unfold sremfb_schedule_client_lost, g_source_new. case_match; [|done].
  by apply pix_le_same.
Qed.

Lemma pix_le_all c c' :
  c_grabbuf c' = c_grabbuf c → c_shadowbuf c' = c_shadowbuf c →
  c_geom c' = c_geom c → c_hello c' = c_hello c →
  c_dirty c' = [] → c_dirty_all c' = true → pix_le c c'.
Proof. unfold pix_le, in_dirty. intros. split_and!; auto. Qed.

Lemma pix_le_mode c k m : pix_le c (sremfb_xmit_set_mode k c m).
Proof.
  unfold sremfb_xmit_set_mode. case_match; [done|]. destruct m.
  - etrans; [|apply pix_le_kick].
    destruct (pix_le_ctrl c⟨c_xmit_mode := XMIT_RAW⟩
      (frame_hdr_bytes (frame_hdr_for SREMFB_ENC_H264_EOS))) as (?&?&?&?&_).
    by apply pix_le_all.
  - repeat case_match; simplify_eq; try done;
      try (by apply pix_le_all); by apply pix_le_same.
Qed.

Lemma xstep_pix_le c c' : xstep c c' → pix_le c c'.
Proof.
  induction 1; eauto using pix_le_quiet, pix_le_kick, pix_le_ctrl, pix_le_lost,
    pix_le_mode. by etrans.
Qed.

Lemma pix_le_inv c c' : pix_le c c' → dirty_inv c → dirty_inv c'.
Proof.
  intros (Hg&Hs&Hgeom&Hh&Hd&Hin) (?&?&?&(g&s&?&?&?&?&Hcov)).
  unfold dirty_inv, covered, frame_size in *. rewrite Hgeom, Hg, Hs.
  split_and!; try done.
  - destruct Hd as [->| ->]; [done|simpl; lia].
  - destruct Hd as [->| ->]; [done|constructor].
  - exists g, s. split_and!; auto.
Qed.

Lemma xstep_dirty_inv c c' : xstep c c' → dirty_inv c → dirty_inv c'.
Proof. intros. eapply pix_le_inv; [by apply xstep_pix_le|done]. Qed.

(** ** Rectangles *)
Lemma in_rect_union_l s a b i : in_rect s a i → in_rect s (rect_union a b) i.
Proof. unfold in_rect, rect_union; simpl. lia. Qed.
Lemma in_rect_union_r s a b i : in_rect s b i → in_rect s (rect_union a b) i.
Proof. unfold in_rect, rect_union; simpl. lia. Qed.
Lemma rect_ok_union g a b : rect_ok g a → rect_ok g b → rect_ok g (rect_union a b).
Proof. unfold rect_ok, rect_union; simpl. lia. Qed.

Lemma rect_ok_fold g d l :
  rect_ok g d → Forall (rect_ok g) l → rect_ok g (foldl rect_union d l).
Proof.
  intros Hd Hl. revert d Hd. induction Hl; intros; simpl; auto using rect_ok_union.
Qed.

Lemma in_rect_fold s l d i :
  (in_rect s d i ∨ ∃ r, r ∈ l ∧ in_rect s r i) → in_rect s (foldl rect_union d l) i.
Proof.
  revert d. induction l as [|e l IH]; intros d Hi; simpl.
  - destruct Hi as [?|(r&Hr&_)]; [done|]. by apply not_elem_of_nil in Hr.
  - apply IH. destruct Hi as [?|(r&[->|Hr]%elem_of_cons&?)].
    + left. by apply in_rect_union_l.
    + left. by apply in_rect_union_r.
    + right; eauto.
Qed.

Lemma merge_touching_spec l r l' :
  merge_touching l r = Some l' →
  length l' = length l ∧
  (∀ g, rect_ok g r → Forall (rect_ok g) l → Forall (rect_ok g) l') ∧
  (∀ s i, in_rect s r i ∨ (∃ d, d ∈ l ∧ in_rect s d i) →
          ∃ d, d ∈ l' ∧ in_rect s d i).
Proof.
  revert l'. induction l as [|d l IH]; intros l' Heq; simpl in Heq; [done|].
  case_match; simplify_eq.
  - split_and!; [done| |].
    + intros g ? [??]%Forall_cons. constructor; auto using rect_ok_union.
    + intros s i [Hi|(e&[->|He]%elem_of_cons&Hi)].
      * exists (rect_union d r). split; [apply list_elem_of_here|by apply in_rect_union_r].
      * exists (rect_union d r). split; [apply list_elem_of_here|by apply in_rect_union_l].
      * exists e. split; [by apply list_elem_of_further|done].
  - apply bind_Some in Heq as (l1&Heq1&?); simplify_eq.
    destruct (IH _ Heq1) as (Hlen&Hok&Hin). split_and!; [simpl; lia| |].
    + intros g ? [??]%Forall_cons. constructor; auto.
    + intros s i Hi.
      assert ((in_rect s d i) ∨ ∃ e, e ∈ l1 ∧ in_rect s e i) as [?|(e&?&?)].
      { destruct Hi as [Hi|(e&[->|He]%elem_of_cons&Hi)];
          [right; eauto|left; done|right; eauto]. }
      * exists d. split; [apply list_elem_of_here|done].
      * exists e. split; [by apply list_elem_of_further|done].
Qed.

(** dirty_add() covers what was dirty and the new rect, and keeps the
    bounds of the array. *)
Lemma dirty_add_spec c r :
  rect_ok (c_geom c) r → (length (c_dirty c) ≤ 16)%nat →
  Forall (rect_ok (c_geom c)) (c_dirty c) →
  let c' := dirty_add c r in
  c_geom c' = c_geom c ∧ c_grabbuf c' = c_grabbuf c ∧
  c_shadowbuf c' = c_shadowbuf c ∧ c_hello c' = c_hello c ∧
  (length (c_dirty c') ≤ 16)%nat ∧ Forall (rect_ok (c_geom c)) (c_dirty c') ∧
  ∀ i, in_dirty c i ∨ in_rect (stride_of c) r i → in_dirty c' i.
Proof.
  intros Hr Hlen Hok. unfold dirty_add.
  destruct (c_dirty_all c) eqn:Hall; [by split_and!; auto; left|].
  destruct (merge_touching (c_dirty c) r) as [l|] eqn:Hm.
  - destruct (merge_touching_spec _ _ _ Hm) as (Hl&Hok'&Hin).
    cbn. split_and!; auto; [lia|].
    intros i Hi. right; cbn. apply Hin. unfold in_dirty in Hi.
    destruct Hi as [[?|?]|?]; [congruence|by right|by left].
  - case_match eqn:Hn; cbn.
    + unfold dirty_n, XMIT_DIRTY_MAX in Hn. split_and!; auto.
      * rewrite length_app; simpl. lia.
      * apply Forall_app; auto.
      * intros i Hi. right; cbn. unfold in_dirty in Hi.
        destruct Hi as [[?|(d&?&?)]|?]; [congruence|exists d|exists r];
          (split; [apply elem_of_app|done]); [by left|right; apply list_elem_of_here].
    + destruct (c_dirty c) as [|d l] eqn:Hd.
      { unfold dirty_n, XMIT_DIRTY_MAX in Hn. rewrite Hd in Hn. done. }
      apply Forall_cons in Hok as [??].
      cbn. split_and!; auto; [lia| |].
      * constructor; [|constructor]. auto using rect_ok_union, rect_ok_fold.
      * intros i Hi. right; cbn. eexists; split; [by apply list_elem_of_here|].
        unfold in_dirty in Hi. rewrite Hd in Hi.
        destruct Hi as [[?|(e&[->|He]%elem_of_cons&?)]|?]; [congruence| | |].
        -- apply in_rect_union_l, in_rect_fold; auto.
        -- apply in_rect_union_l, in_rect_fold; eauto.
        -- by apply in_rect_union_r.
Qed.
End dirty.
