(* ===== verification/Coverage.v ===== *)
(** * The client is never left with stale pixels

    The row trimming, the shadow update, the damage intake, the frame
    builds and the drain keep [dirty_inv] (Dirty.v): a byte of the frame
    the client does not have is in the dirty region. *)
From S2P Require Import Prelude Binary64 Protocol Core Convert Encoder Net Xmit Control.
From S2P Require Import Drain XmitSpec Dirty.

(** ** rect_trim() *)
Lemma trim_top_spec n same a b :
  a ≤ b → (Z.to_nat (b - a) ≤ n)%nat →
  let a' := trim_top n same a b in
  a ≤ a' ≤ b ∧ (∀ y, a ≤ y < a' → same y = true) ∧
  (a' < b → same a' = false).
Proof.
  revert a. induction n as [|n IH]; intros a Hab Hn; simpl.
  - split_and!; lia.
  - case_match eqn:Hc; [apply andb_true_iff in Hc as [Hlt Hs]|apply andb_false_iff in Hc].
    + destruct (IH (a + 1)) as (?&Hsame&?); [lia|lia|]. split_and!; try lia; auto.
      intros y Hy. destruct (decide (y = a)) as [->|]; [done|]. apply Hsame; lia.
    + split_and!; [lia|lia|lia|]. intros. destruct Hc; [lia|done].
Qed.

Lemma trim_bottom_spec n same a b :
  a ≤ b → (Z.to_nat (b - a) ≤ n)%nat →
  let b' := trim_bottom n same a b in
  a ≤ b' ≤ b ∧ (∀ y, b' ≤ y < b → same y = true) ∧
  (a < b' → same (b' - 1) = false).
Proof.
  revert b. induction n as [|n IH]; intros b Hab Hn; simpl.
  - split_and!; lia.
  - case_match eqn:Hc; [apply andb_true_iff in Hc as [Hlt Hs]|apply andb_false_iff in Hc].
    + destruct (IH (b - 1)) as (?&Hsame&?); [lia|lia|]. split_and!; try lia; auto.
      intros y Hy. destruct (decide (y = b - 1)) as [->|]; [done|]. apply Hsame; lia.
    + split_and!; [lia|lia|lia|]. intros. destruct Hc; [lia|done].
Qed.

Lemma row_same_lookup grab shadow stride x w (i : nat) :
  0 < stride → 0 ≤ x →
  row_same grab shadow stride x w (Z.of_nat i / stride) = true →
  x ≤ Z.of_nat i mod stride < x + w → grab !! i = shadow !! i.
Proof.
  intros ?? Hs%bool_decide_eq_true Hi.
  pose proof (Z.div_mod (Z.of_nat i) stride).
  assert (0 ≤ Z.of_nat i / stride) by (apply Z.div_pos; lia).
  eapply slice_eq_lookup; [exact Hs| |]; nia.
Qed.

Section coverage.
Context `{X264} `{LZ4} `{Platform} `{Stale}.
Implicit Types c : SremfbClient.

(** Everything rect_trim() drops is the same in both frames; it keeps a
    rect exactly when some row of it differs. *)
Lemma rect_trim_spec c r grab shadow r' d :
  geom_ok (c_geom c) → rect_ok (c_geom c) r →
  c_grabbuf c = Some grab → c_shadowbuf c = Some shadow →
  rect_trim c r = (r', d) →
  (d = true → rect_ok (c_geom c) r') ∧
  ∀ i : nat, grab !! i ≠ shadow !! i →
    in_rect (stride_of c) r (Z.of_nat i) →
    d = true ∧ in_rect (stride_of c) r' (Z.of_nat i).
Proof.
  intros Hg Hr Hgr Hsh. unfold rect_trim. rewrite Hgr, Hsh.
  set (same := row_same _ _ _ _ _). set (n := Z.to_nat _).
  unfold rect_ok, geom_ok, stride_of in *.
  destruct (trim_top_spec n same (y1 r) (y2 r)) as (?&Htop&_); [lia|lia|].
  set (a := trim_top _ _ _ _) in *.
  destruct (trim_bottom_spec n same a (y2 r)) as (?&Hbot&_); [lia|lia|].
  set (b := trim_bottom _ _ _ _) in *.
  intros Heq. injection Heq as <- <-. simpl. split; [lia|].
  intros i Hne [Hy Hx].
  assert (Hd : same (Z.of_nat i / (g_width (c_geom c) * 4)) = false).
  { apply not_true_is_false. intros Hs. apply Hne.
    eapply row_same_lookup; [| |exact Hs|]; lia. }
  unfold in_rect; simpl.
  destruct (decide (Z.of_nat i / (g_width (c_geom c) * 4) < a)).
  { rewrite Htop in Hd by lia. done. }
  destruct (decide (b ≤ Z.of_nat i / (g_width (c_geom c) * 4))).
  { rewrite Hbot in Hd by lia. done. }
  lia.
Qed.

(** ** shadow_update() *)
Definition rect_of (x y w h : Z) : sremfb_rect := mk_rect x y (x + w) (y + h).

#[export] Instance in_rect_dec s r i : Decision (in_rect s r i).
Proof. unfold in_rect. apply _. Defined.

Lemma copy_rows_spec gw x y w h (src dst : bytes) :
  0 < gw → 0 ≤ x → 0 ≤ w → x + w ≤ gw → 0 ≤ y → 0 ≤ h →
  (y + h) * (gw * 4) ≤ Z.of_nat (length src) → length src = length dst →
  let dst' := copy_rows (gw * 4) x y w h src dst in
  length dst' = length dst ∧
  ∀ i : nat, dst' !! i =
    if decide (in_rect (gw * 4) (rect_of x y w h) (Z.of_nat i))
    then src !! i else dst !! i.
Proof.
  intros. unfold copy_rows.
  pose (P (k : Z) (d : bytes) := length d = length dst ∧
    ∀ i : nat, d !! i = if decide (in_rect (gw * 4) (rect_of x y w k) (Z.of_nat i))
                       then src !! i else dst !! i).
  apply (for_ind0 P); [done| |].
  { split; [done|]. intros i. rewrite decide_False; [done|].
    unfold in_rect, rect_of; simpl. lia. }
  intros k d Hk [Hlen Hd]. set (off := (y + k) * (gw * 4) + x * 4).
  assert (Hend : off + w * 4 ≤ Z.of_nat (length src)) by (subst off; nia).
  assert (0 ≤ off) by (subst off; nia).
  assert (Hsl : length (slice off (w * 4) src) = Z.to_nat (w * 4))
    by (apply length_slice; lia).
  split; [rewrite length_blit; lia|]. intros i.
  rewrite lookup_blit, Hsl by lia.
  pose proof (Z.div_mod (Z.of_nat i) (gw * 4)) as Hdm.
  pose proof (Z.mod_pos_bound (Z.of_nat i) (gw * 4)).
  assert (Hrow : off ≤ Z.of_nat i < off + w * 4 ↔
    Z.of_nat i / (gw * 4) = y + k ∧ x * 4 ≤ Z.of_nat i mod (gw * 4) < (x + w) * 4).
  { subst off. split; [|nia]. intros Hi.
    assert (Z.of_nat i / (gw * 4) = y + k) by nia. nia. }
  clearbody off. case_bool_decide as Hb.
  - rewrite decide_True by (unfold in_rect, rect_of; simpl; lia).
    rewrite lookup_slice by lia. f_equal. lia.
  - rewrite Hd. apply decide_ext. unfold in_rect, rect_of; simpl. lia.
Qed.

(** The bytes the dirty region or one of [rs] must cover. *)
Definition pending_inv c (rs : list sremfb_rect) : Prop :=
  geom_ok (c_geom c) ∧ (length (c_dirty c) ≤ 16)%nat ∧
  Forall (rect_ok (c_geom c)) (c_dirty c) ∧
  ∃ grab shadow : bytes, c_grabbuf c = Some grab ∧ c_shadowbuf c = Some shadow ∧
    Z.of_nat (length grab) = frame_size c ∧
    Z.of_nat (length shadow) = frame_size c ∧
    ∀ i : nat, differs grab shadow i →
      in_dirty c (Z.of_nat i) ∨
      ∃ r, r ∈ rs ∧ in_rect (stride_of c) r (Z.of_nat i).

Lemma pending_inv_nil c : pending_inv c [] ↔ dirty_inv c.
Proof.
  unfold pending_inv, dirty_inv, covered. split.
  - intros (?&?&?&g&s&?&?&?&?&Hc). split_and!; auto. exists g, s. split_and!; auto.
    intros i Hi. destruct (Hc i Hi) as [?|(r&Hr&_)]; [done|].
    by apply not_elem_of_nil in Hr.
  - intros (?&?&?&g&s&?&?&?&?&Hc). split_and!; auto. exists g, s. split_and!; auto.
Qed.

Lemma pending_inv_le c c' rs : pix_le c c' → pending_inv c rs → pending_inv c' rs.
Proof.
  intros (Hg&Hs&Hgeom&Hh&Hd&Hin) (?&?&?&(g&s&?&?&?&?&Hcov)).
  unfold pending_inv, frame_size, stride_of in *. rewrite Hgeom, Hg, Hs.
  split_and!; try done.
  - destruct Hd as [->| ->]; [done|simpl; lia].
  - destruct Hd as [->| ->]; [done|constructor].
  - exists g, s. split_and!; auto. intros i Hi.
    destruct (Hcov i Hi); auto.
Qed.

(** What a byte of the frame satisfies. *)
Lemma in_frame c (l : bytes) (i : nat) b :
  geom_ok (c_geom c) → Z.of_nat (length l) = frame_size c → l !! i = Some b →
  0 ≤ Z.of_nat i / stride_of c < g_height (c_geom c) ∧
  0 ≤ Z.of_nat i mod stride_of c < stride_of c.
Proof.
  unfold geom_ok, frame_size, stride_of. intros Hg Hl Hi.
  apply lookup_lt_Some in Hi.
  split; [|apply Z.mod_pos_bound; lia].
  split; [apply Z.div_pos; lia|apply Z.div_lt_upper_bound; lia].
Qed.

Lemma differ_in_frame c (grab shadow : bytes) (i : nat) :
  geom_ok (c_geom c) → Z.of_nat (length grab) = frame_size c →
  Z.of_nat (length shadow) = frame_size c → grab !! i ≠ shadow !! i →
  0 ≤ Z.of_nat i / stride_of c < g_height (c_geom c) ∧
  0 ≤ Z.of_nat i mod stride_of c < stride_of c.
Proof.
  intros Hg Hl1 Hl2 Hne. destruct (grab !! i) eqn:Eg.
  - by apply (in_frame c grab i z).
  - destruct (shadow !! i) eqn:Es; [by apply (in_frame c shadow i z)|done].
Qed.

(** ** Damage intake *)
Lemma clamp_rect_bounds g r :
  geom_ok g → let r' := clamp_rect g r in
  0 ≤ x1 r' ≤ g_width g ∧ 0 ≤ x2 r' ≤ g_width g ∧
  0 ≤ y1 r' ≤ g_height g ∧ 0 ≤ y2 r' ≤ g_height g.
Proof.
  unfold geom_ok. intros. simpl.
  repeat match goal with |- context [CLAMP ?x ?a ?b] =>
    pose proof (CLAMP_range x a b); generalize dependent (CLAMP x a b) end.
  intros; lia.
Qed.

Lemma CLAMP_between x a b lo hi :
  lo ≤ x < hi → a ≤ lo → hi ≤ b → CLAMP x a b = x.
Proof. intros. apply CLAMP_id. lia. Qed.

Lemma in_rect_clamp c r i :
  geom_ok (c_geom c) → 0 ≤ i / stride_of c < g_height (c_geom c) →
  0 ≤ i mod stride_of c < stride_of c →
  in_rect (stride_of c) r i → in_rect (stride_of c) (clamp_rect (c_geom c) r) i.
Proof.
  unfold in_rect, geom_ok, clamp_rect, stride_of, CLAMP; simpl. intros.
  repeat case_match; lia.
Qed.

Lemma damage_one_inv bytespp c raw r rs :
  pending_inv c (r :: rs) → pending_inv (damage_one bytespp (c, raw) r).1 rs.
Proof.
  intros (Hg&Hlen&Hok&grab&shadow&Hgr&Hsh&Hl1&Hl2&Hcov).
  pose proof (clamp_rect_bounds (c_geom c) r Hg) as Hb. cbv zeta in Hb.
  unfold damage_one.
  set (cr := clamp_rect _ _) in *.
  assert (Hcr : ∀ i : nat, differs grab shadow i →
    in_rect (stride_of c) r (Z.of_nat i) → in_rect (stride_of c) cr (Z.of_nat i)).
  { intros i [_ Hi] Hin. destruct (differ_in_frame c grab shadow i); auto.
    by apply in_rect_clamp. }
  assert (Hdrop : (∀ i : nat, differs grab shadow i →
      ¬ in_rect (stride_of c) r (Z.of_nat i)) → pending_inv c rs).
  { intros Hno. split_and!; auto. exists grab, shadow. split_and!; auto.
    intros i Hi. destruct (Hcov i Hi) as [?|(q&[->|Hq]%elem_of_cons&?)]; eauto.
    by destruct (Hno i). }
  case_match eqn:He.
  { apply Hdrop. intros i Hi Hin%Hcr; [|done]. unfold in_rect in Hin. lia. }
  destruct (rect_trim c cr) as [r' d] eqn:Ht.
  destruct (rect_trim_spec c cr grab shadow r' d) as [Hok' Htrim]; auto.
  { unfold rect_ok. lia. }
  destruct d; simpl; [|apply Hdrop; intros i Hi Hin%Hcr; [|done];
                       by destruct (Htrim i (proj2 Hi) Hin)].
  specialize (Hok' eq_refl). case_bool_decide; simpl.
  - split_and!; auto. exists grab, shadow. split_and!; auto.
    intros i Hi. left. by left.
  - destruct (dirty_add_spec c r') as (E1&E2&E3&_&?&?&Hin); auto.
    unfold pending_inv, frame_size, stride_of in *. rewrite E1, E2, E3.
    split_and!; auto. exists grab, shadow. split_and!; auto.
    intros i Hi. destruct (Hcov i Hi) as [?|(q&[->|Hq]%elem_of_cons&Hq')]; eauto.
    left. apply Hin. right. by destruct (Htrim i (proj2 Hi) (Hcr i Hi Hq')).
Qed.

Lemma damage_fold_inv bytespp rs c raw :
  pending_inv c rs →
  pending_inv (foldl (damage_one bytespp) (c, raw) rs).1 [].
Proof.
  revert c raw. induction rs as [|r rs IH]; intros c raw Hc; cbn [foldl]; [done|].
  pose proof (damage_one_inv bytespp c raw r rs Hc).
  destruct (damage_one bytespp (c, raw) r) as [c1 raw1]. by apply IH.
Qed.

Lemma damage_dirty_inv c rects bytespp :
  pending_inv c rects → dirty_inv (sremfb_xmit_damage c rects bytespp).
Proof.
  intros Hp. apply (damage_fold_inv bytespp rects c 0), pending_inv_nil in Hp.
  unfold sremfb_xmit_damage. destruct (foldl _ _ _) as [c1 raw]. simpl in Hp.
  case_match; [done|].
  eapply xstep_dirty_inv; [apply damage_kick_xstep|].
  eapply pix_le_inv; [|exact Hp]. by apply pix_le_same.
Qed.
End coverage.

(** * The drain keeps the dirty region exact

    A build sends the current bytes of a rect and copies them into the
    shadow frame, so what it takes out of the dirty region is what the
    client is given. *)
Section builds.
Context `{X264} `{LZ4} `{Platform} `{Stale}.
Implicit Types c : SremfbClient.

(** H.264 mode is only entered with an open encoder. *)
Definition enc_inv c : Prop := c_xmit_mode c = XMIT_H264 → has_enc c = true.

Lemma enc_inv_vis c c' : vis c' = vis c → enc_inv c → enc_inv c'.
Proof. unfold vis, enc_inv. intros Hv Hc Hm. injection Hv as.
  enough (has_enc c = true) by congruence. apply Hc. congruence. Qed.

Lemma enc_inv_kick c : enc_inv c → enc_inv (sremfb_xmit_kick c).
Proof. by destruct (kick_quiet_or c) as (?&?&[->| ->]). Qed.

Lemma enc_inv_ctrl c m : enc_inv c → enc_inv (sremfb_xmit_ctrl c m).
Proof.
  unfold sremfb_xmit_ctrl. intros. case_match; [done|]. by apply enc_inv_kick.
Qed.

Lemma enc_inv_set_mode k c m : enc_inv c → enc_inv (sremfb_xmit_set_mode k c m).
Proof.
  unfold sremfb_xmit_set_mode. intros Hc. case_match; [done|]. destruct m.
  - apply enc_inv_kick.
    enough (Hx : enc_inv (sremfb_xmit_ctrl c⟨c_xmit_mode := XMIT_RAW⟩
              (frame_hdr_bytes (frame_hdr_for SREMFB_ENC_H264_EOS)))) by done.
    by apply enc_inv_ctrl.
  - unfold enc_inv, has_enc.
    destruct (c_enc c) as [e|] eqn:He; [case_match; cbn; by rewrite He|].
    destruct (sremfb_enc_open _ _ _); [|done].
    case_match; done.
Qed.

Lemma xstep_enc_inv c c' : xstep c c' → enc_inv c → enc_inv c'.
Proof.
  induction 1; eauto using enc_inv_vis, enc_inv_kick, enc_inv_ctrl, enc_inv_set_mode.
  unfold sremfb_schedule_client_lost, g_source_new. by case_match.
Qed.

Lemma frame_start_xstep c s0 s1 :
  ∃ c1, c_grabbuf c1 = c_grabbuf c ∧ c_shadowbuf c1 = c_shadowbuf c ∧
    c_geom c1 = c_geom c ∧ c_hello c1 = c_hello c ∧ c_dirty c1 = c_dirty c ∧
    c_dirty_all c1 = c_dirty_all c ∧ c_xmit_mode c1 = c_xmit_mode c ∧
    c_enc c1 = c_enc c ∧ xstep c1 (frame_start c s0 s1).
Proof.
  unfold frame_start. eexists. split_and!.
  9: { case_match; [apply on_deliver_xstep|reflexivity]. }
  all: done.
Qed.

Lemma frame_start_pix_le c s0 s1 : pix_le c (frame_start c s0 s1).
Proof.
  destruct (frame_start_xstep c s0 s1) as (c1&?&?&?&?&?&?&?&?&Hx%xstep_pix_le).
  etrans; [|exact Hx]. by apply pix_le_same.
Qed.

Lemma frame_start_enc_inv c s0 s1 : enc_inv c → enc_inv (frame_start c s0 s1).
Proof.
  destruct (frame_start_xstep c s0 s1) as (c1&?&?&?&?&?&?&Hm&He&Hx).
  intros Hc. eapply xstep_enc_inv; [exact Hx|].
  unfold enc_inv, has_enc in *. by rewrite Hm, He.
Qed.

(** What the shadow update takes out of the dirty region it makes equal. *)
Lemma shadow_update_inv c r :
  rect_ok (c_geom c) r → pending_inv c [r] →
  dirty_inv (shadow_update c (x1 r) (y1 r) (x2 r - x1 r) (y2 r - y1 r)).
Proof.
  intros Hr (Hg&?&?&grab&shadow&Hgr&Hsh&Hl1&Hl2&Hcov).
  unfold shadow_update. rewrite Hgr, Hsh.
  unfold geom_ok, rect_ok, frame_size in *.
  destruct (copy_rows_spec (g_width (c_geom c)) (x1 r) (y1 r) (x2 r - x1 r)
    (y2 r - y1 r) grab shadow) as [Hlen Hlk]; try lia; [nia|].
  set (sh' := copy_rows _ _ _ _ _ _ _) in *. clearbody sh'.
  split_and!; auto; try lia. exists grab, sh'.
  unfold frame_size; cbn. split_and!; auto; [lia|].
  intros i [Hst Hi]. rewrite Hlk in Hi. case_decide as Hin; [done|].
  destruct (Hcov i (conj Hst Hi)) as [?|(q&Hq&Hin')]; [done|].
  apply list_elem_of_singleton in Hq as ->. destruct Hin.
  revert Hin'. unfold in_rect, rect_of, stride_of; simpl. lia.
Qed.

Lemma u32_coord g r :
  geom_ok g → rect_ok g r →
  u32 (x1 r) = x1 r ∧ u32 (y1 r) = y1 r ∧
  u32 (x2 r - x1 r) = x2 r - x1 r ∧ u32 (y2 r - y1 r) = y2 r - y1 r.
Proof. unfold geom_ok, rect_ok. intros. rewrite !u32_small by lia. done. Qed.

Lemma shadow_update_other c x y w h :
  c_xmit_mode (shadow_update c x y w h) = c_xmit_mode c ∧
  c_enc (shadow_update c x y w h) = c_enc c.
Proof. unfold shadow_update. by repeat case_match. Qed.

Lemma build_raw_rect_inv c r :
  rect_ok (c_geom c) r → pending_inv c [r] → enc_inv c →
  dirty_inv (build_raw_rect c r) ∧ enc_inv (build_raw_rect c r).
Proof.
  intros Hr Hp He. pose proof Hp as (Hg&_&_&grab&_&Hgr&_).
  unfold build_raw_rect. rewrite Hgr. cbv zeta.
  destruct (u32_coord (c_geom c) r) as (->&->&->&->); auto.
  pose proof (shadow_update_inv c r Hr Hp) as Hs.
  destruct (shadow_update_other c (x1 r) (y1 r) (x2 r - x1 r) (y2 r - y1 r)) as [E1 E2].
  case_match. split.
  - eapply pix_le_inv; [apply frame_start_pix_le|].
    eapply pix_le_inv; [|exact Hs]. by apply pix_le_same.
  - apply frame_start_enc_inv. unfold enc_inv, has_enc in *. cbn. by rewrite E1, E2.
Qed.

Lemma full_rect_ok g : geom_ok g → rect_ok g (full_rect g).
Proof. unfold geom_ok, rect_ok; simpl. lia. Qed.

Lemma build_h264_inv c :
  pending_inv c [full_rect (c_geom c)] → has_enc c = true →
  dirty_inv (build_h264_frame c) ∧ enc_inv (build_h264_frame c).
Proof.
  intros Hp He. pose proof Hp as (Hg&_&_&grab&_&Hgr&_).
  pose proof (full_rect_ok _ Hg) as Hr.
  unfold has_enc in He. destruct (c_enc c) as [enc|] eqn:Henc; [|done].
  unfold build_h264_frame. rewrite Hgr, Henc. cbv zeta.
  destruct (u32_coord _ _ Hg Hr) as (_&_&Ew&Eh). simpl in Ew, Eh.
  rewrite !Z.sub_0_r in Ew, Eh. rewrite Ew, Eh.
  pose proof (shadow_update_inv c _ Hr Hp) as Hs. simpl in Hs.
  rewrite !Z.sub_0_r in Hs.
  set (cs := shadow_update c 0 0 _ _) in *. clearbody cs.
  destruct (sremfb_enc_encode _ _ _) as [enc' [[sz nal] idr]].
  unfold g_get_monotonic_time.
  assert (Hsame : ∀ c', vis c' = vis cs⟨c_enc := Some enc'⟩ → dirty_inv c' ∧ enc_inv c').
  { intros c' Hv. split.
    - eapply pix_le_inv; [by apply pix_le_quiet|].
      eapply pix_le_inv; [|exact Hs]. by apply pix_le_same.
    - eapply enc_inv_vis; [exact Hv|]. done. }
  destruct (sz <? 0); [|destruct (sz =? 0)].
  - split.
    + eapply pix_le_inv; [apply pix_le_mode|]. by apply Hsame.
    + apply enc_inv_set_mode. by apply Hsame.
  - by apply Hsame.
  - split.
    + eapply pix_le_inv; [apply frame_start_pix_le|]. by apply Hsame.
    + apply frame_start_enc_inv. by apply Hsame.
Qed.

Lemma take_all_inv c :
  dirty_inv c → pending_inv
    c⟨c_dirty_all := false⟩⟨c_dirty := []⟩⟨c_dirty_raw := 0⟩ [full_rect (c_geom c)].
Proof.
  intros (Hg&_&_&grab&shadow&Hgr&Hsh&Hl1&Hl2&_).
  split_and!; cbn; auto; [lia|]. exists grab, shadow. split_and!; auto.
  intros i [_ Hi]. right. eexists. split; [apply list_elem_of_here|].
  destruct (differ_in_frame c grab shadow i); auto.
  unfold in_rect, full_rect, stride_of in *; simpl. lia.
Qed.

Lemma take_head_inv c r l raw :
  dirty_inv c → c_dirty_all c = false → c_dirty c = r :: l →
  rect_ok (c_geom c) r ∧ pending_inv c⟨c_dirty := l⟩⟨c_dirty_raw := raw⟩ [r].
Proof.
  intros (Hg&Hlen&Hok&grab&shadow&Hgr&Hsh&Hl1&Hl2&Hcov) Hall Hd.
  rewrite Hd in Hlen, Hok. apply Forall_cons in Hok as [Hr Hl]. simpl in Hlen.
  split; [done|]. split_and!; cbn; auto; [lia|].
  exists grab, shadow. split_and!; auto.
  intros i Hi. destruct (Hcov i Hi) as [?|(q&Hq&?)]; [congruence|].
  rewrite Hd in Hq. apply elem_of_cons in Hq as [->|Hq].
  - right. eexists. by split; [apply list_elem_of_here|].
  - left. right. eauto.
Qed.

Lemma build_next_inv c :
  dirty_inv c → enc_inv c →
  dirty_inv (build_next c).2 ∧ enc_inv (build_next c).2.
Proof.
  intros Hd He. unfold build_next, g_source_new.
  destruct (c_grabbuf c) as [grab|]; [|done].
  case_match; [done|]. destruct (c_xmit_mode c) eqn:Hm.
  - destruct (c_dirty_all c) eqn:Hall.
    + cbn [snd]. apply build_raw_rect_inv; [apply full_rect_ok, Hd| |].
      * exact (take_all_inv c Hd).
      * unfold enc_inv in *. cbn. congruence.
    + destruct (c_dirty c) as [|r l] eqn:Hl; [done|].
      assert (Hb : ∀ raw, dirty_inv (build_raw_rect c⟨c_dirty := l⟩⟨c_dirty_raw := raw⟩ r) ∧
                        enc_inv (build_raw_rect c⟨c_dirty := l⟩⟨c_dirty_raw := raw⟩ r)).
      { intros raw. destruct (take_head_inv c r l raw) as [Hr Hp]; auto.
        apply build_raw_rect_inv; auto. }
      cbn [snd]. destruct l; [apply Hb|].
      apply (Hb (c_dirty_raw c)).
  - case_match; [done|].
    destruct (sremfb_ctl_skip_encode c) as [skip c1] eqn:Hs.
    assert (Hv : vis c1 = vis c) by (rewrite <- (skip_encode_quiet c), Hs; done).
    assert (Hd1 : dirty_inv c1) by (eapply pix_le_inv; [by apply pix_le_quiet|done]).
    assert (He1 : enc_inv c1) by (eapply enc_inv_vis; done).
    destruct skip; [case_match|]; cbn [snd].
    + split; [|done]. eapply pix_le_inv; [|exact Hd1]. by apply pix_le_same.
    + done.
    + apply build_h264_inv; [by apply (take_all_inv c1)|].
      apply He1. unfold vis in Hv. injection Hv as. congruence.
Qed.
End builds.
