(* ===== verification/ViewH264.v ===== *)
(** * view/h264.c: the viewer's H.264 decoder

    The wrapper around libavcodec (the parameter [AvCodec]) and the
    conversion of a decoded 4:2:0 picture to the wire format.  Lemmas: the
    sizes of what is written, and how far a flat colour moves on the way
    through the server's forward matrix (convert.c) and this inverse. *)
From S2P Require Import Prelude Protocol Core Convert.

(** What the decoder reads of an AVFrame. *)
Record av_frame := mk_av_frame {
  av_format : Z; av_decode_error_flags : Z; av_data : bytes * bytes * bytes;
  av_linesize : Z * Z * Z; av_width : Z; av_height : Z; av_key : bool }.

(** libavcodec.  [avcodec_open] is the sequence find_decoder / alloc /
    open2 ([None] when any of them fails); [av_pending] counts the pictures
    the decoder still holds. *)
Class AvCodec := {
  av_ctx : Type;
  AVERROR_EAGAIN : Z;
  AVERROR_EOF : Z;
  AV_PIX_FMT_YUV420P : Z;
  AV_PIX_FMT_YUVJ420P : Z;
  avcodec_open : option av_ctx;
  avcodec_send_packet : av_ctx → option bytes → av_ctx * Z;
  avcodec_receive_frame : av_ctx → av_ctx * Z * av_frame;
  avcodec_flush_buffers : av_ctx → av_ctx;
  av_pending : av_ctx → nat }.

(** A picture handed out is one picture less held back. *)
Class AvCodecLaws (A : AvCodec) := {
  av_receive_pending d d' rc f : avcodec_receive_frame d = (d', rc, f) →
    0 ≤ rc → (av_pending d' < av_pending d)%nat }.

Record view_h264_pic := mk_pic {
  p_plane : bytes * bytes * bytes; p_stride : Z * Z * Z; p_w : Z; p_h : Z;
  p_key : bool }.

Section decoder.
Context `{AvCodec}.

Definition view_h264_open : option av_ctx := avcodec_open.

Definition view_h264_send (d : av_ctx) (au : option bytes) : av_ctx * bool :=
  let '(d, rc) := avcodec_send_packet d au in (d, negb (rc <? 0)).

Inductive recv_pic := PicNone | PicSome (p : view_h264_pic) | PicError.

Definition view_h264_receive (d : av_ctx) : av_ctx * recv_pic :=
  let '(d, rc, f) := avcodec_receive_frame d in
  (d,
   if (rc =? AVERROR_EAGAIN) || (rc =? AVERROR_EOF) then PicNone
   else if rc <? 0 then PicError
   else if negb (av_format f =? AV_PIX_FMT_YUV420P) &&
           negb (av_format f =? AV_PIX_FMT_YUVJ420P) then PicError
   else if negb (av_decode_error_flags f =? 0) then PicError
   else PicSome (mk_pic (av_data f) (av_linesize f) (u32 (av_width f))
                   (u32 (av_height f)) (av_key f))).

Definition view_h264_flush (d : av_ctx) : av_ctx := avcodec_flush_buffers d.
End decoder.

(** ** Conversion *)

(** Reading outside the planes is the caller's fault; the model reads 0. *)
Definition byte_at (l : bytes) (i : Z) : Z := default 0 (l !! Z.to_nat i).

Definition yuv_r (y u v : Z) : Z :=
  clamp255 (Z.shiftr (298 * (y - 16) + 128 + 409 * (v - 128)) 8).
Definition yuv_g (y u v : Z) : Z :=
  clamp255 (Z.shiftr (298 * (y - 16) + 128 - 100 * (u - 128) - 208 * (v - 128)) 8).
Definition yuv_b (y u v : Z) : Z :=
  clamp255 (Z.shiftr (298 * (y - 16) + 128 + 516 * (u - 128)) 8).

Definition row_xrgb (yr ur vr : bytes) (w : Z) : bytes :=
  rows 0 w (λ x,
    let y := byte_at yr x in
    let u := byte_at ur (x / 2) in
    let v := byte_at vr (x / 2) in
    le 4 (Z.lor (Z.lor (Z.shiftl (yuv_r y u v) 16) (Z.shiftl (yuv_g y u v) 8))
                (yuv_b y u v))).

Definition row_rgb565 (yr ur vr : bytes) (w : Z) (brow : list Z) : bytes :=
  rows 0 w (λ x,
    let y := byte_at yr x in
    let u := byte_at ur (x / 2) in
    let v := byte_at vr (x / 2) in
    let t := nth (Z.to_nat (Z.land x 3)) brow 0 in
    let r := clamp255 (yuv_r y u v + Z.shiftr t 1 - 4) in
    let g := clamp255 (yuv_g y u v + Z.shiftr t 2 - 2) in
    let b := clamp255 (yuv_b y u v + Z.shiftr t 1 - 4) in
    le 2 (u16 (Z.lor (Z.lor (Z.shiftl (Z.shiftr r 3) 11)
                            (Z.shiftl (Z.shiftr g 2) 5)) (Z.shiftr b 3)))).

Definition drop_bytes (n : Z) (l : bytes) : bytes := drop (Z.to_nat n) l.

(** Row [y] of the converted picture: what is written at dst + y * dst_stride. *)
Definition view_h264_convert_row (p : view_h264_pic) (w y pixfmt : Z) : bytes :=
  let '(py, pu, pv) := p_plane p in
  let '(sy, su, sv) := p_stride p in
  let yr := drop_bytes (y * sy) py in
  let ur := drop_bytes (y / 2 * su) pu in
  let vr := drop_bytes (y / 2 * sv) pv in
  if pixfmt =? SREMFB_PIX_RGB565
  then row_rgb565 yr ur vr w (nth (Z.to_nat (Z.land y 3)) bayer [])
  else row_xrgb yr ur vr w.

(** The destination buffer after the conversion. *)
Definition view_h264_convert (p : view_h264_pic) (dst : bytes) (dst_stride w h pixfmt : Z)
    : bytes :=
  for_ 0 h (λ y dst, blit dst (y * dst_stride) (view_h264_convert_row p w y pixfmt)) dst.

Lemma clamp255_range v : 0 ≤ clamp255 v ≤ 255.
Proof. unfold clamp255. repeat case_match; lia. Qed.

Lemma length_view_convert_row p w y pixfmt :
  0 ≤ w → Z.of_nat (length (view_h264_convert_row p w y pixfmt)) =
          w * (if pixfmt =? SREMFB_PIX_RGB565 then 2 else 4).
Proof.
  intros. unfold view_h264_convert_row, row_rgb565, row_xrgb.
  destruct (p_plane p) as [[??]?], (p_stride p) as [[??]?].
  case_match.
  - rewrite (length_rows _ _ 2); [lia|]. intros. apply length_le.
  - rewrite (length_rows _ _ 4); [lia|]. intros. apply length_le.
Qed.

(** ** The colour round trip

    The pixel word with the given channels; a flat area of one colour has
    the same luma in every pixel and that colour as its chroma average. *)
Definition px_of (r g b : Z) : Z := b + 256 * g + 65536 * r.

Lemma px_of_channels r g b :
  0 ≤ r ≤ 255 → 0 ≤ g ≤ 255 → 0 ≤ b ≤ 255 →
  Z.land (Z.shiftr (px_of r g b) 16) 0xFF = r ∧
  Z.land (Z.shiftr (px_of r g b) 8) 0xFF = g ∧
  Z.land (px_of r g b) 0xFF = b.
Proof.
  intros. change 0xFF with (Z.ones 8).
  rewrite !Z.land_ones, !Z.shiftr_div_pow2 by lia.
  change (2 ^ 8) with 256. change (2 ^ 16) with 65536. unfold px_of.
  split_and!; dlia.
Qed.

Lemma clamp255_near v x d : 0 ≤ x ≤ 255 → - d ≤ v - x ≤ d → - d ≤ clamp255 v - x ≤ d.
Proof. unfold clamp255. intros. repeat case_match; lia. Qed.

Lemma yuv_roundtrip r g b :
  0 ≤ r ≤ 255 → 0 ≤ g ≤ 255 → 0 ≤ b ≤ 255 →
  let y := luma_of (px_of r g b) in
  let u := cb_of r g b in
  let v := cr_of r g b in
  -2 ≤ yuv_r y u v - r ≤ 2 ∧ -2 ≤ yuv_g y u v - g ≤ 2 ∧
  -3 ≤ yuv_b y u v - b ≤ 3.
Proof.
  intros Hr Hg Hb. cbv zeta. unfold luma_of, cb_of, cr_of, yuv_r, yuv_g, yuv_b.
  destruct (px_of_channels r g b) as (->&->&->); try done.
  rewrite !(Z.shiftr_div_pow2 _ 8) by lia. change (2 ^ 8) with 256.
  rewrite (u8_small (_ / 256)) by dlia. rewrite (u8_small ((-38 * r - _ + _ + _ + _) / 256)) by dlia.
  rewrite (u8_small ((112 * r - _ - _ + _ + _) / 256)) by dlia.
  assert (Hn : ∀ v x d, 0 ≤ x ≤ 255 → - d ≤ v - x ≤ d → - d ≤ clamp255 v - x ≤ d)
    by (intros; by apply clamp255_near).
  split; [apply (Hn _ _ 2)|split; [apply (Hn _ _ 2)|apply (Hn _ _ 3)]]; try done; dlia.
Qed.
