(* ===== verification/ViewNet.v ===== *)
(** * view/net.c: the viewer's network thread

    The byte reader over what recv(2) and poll(2) answer, the hello
    exchange, the shared framebuffer and its damage list, the heartbeat,
    the H.264 hand-off and the message loop.  One iteration of the loop is
    [stream_step]; [stream_loop] runs it until the connection drops.

    System calls answer from two places: [n_rx] lists the outcomes of the
    socket reads, and the class [ViewSys] gives the clock, the stop flag,
    FIONREAD, TCP_INFO and send(2), indexed by the number of calls made so
    far.  [n_tx] is the ghost record of the bytes sent upstream and
    [n_wakes] counts the wake-ups of the main thread. *)
From S2P Require Import Prelude Protocol Core Convert ViewH264.

Definition BATCH_MAX_NS : Z := 2000000.
Definition AU_CAP : Z := Z.shiftl 1 20.
Definition AU_SILENT_MAX : Z := 3.
Definition PROBE_TOLERANCE : Z := 48.
Definition VIEW_DAMAGE_MAX : Z := 32.

(** Outcomes of recv(2) and, after EAGAIN, of wait_fd(). *)
Inductive rx_ev :=
  | RData (b : bytes)      (* data; an empty block is end of file *)
  | RIntr                  (* EINTR *)
  | RReady                 (* EAGAIN, then readable *)
  | RTimeout               (* EAGAIN, then silence *)
  | RStop                  (* EAGAIN, then stopping or a poll error *)
  | RErr.                  (* any other errno *)

(** One send(2) of writen_locked(), with the wait after EAGAIN. *)
Inductive tx_ev := TSent (n : Z) | TIntr | TReady | TGone.

Class ViewSys := {
  v_now_ns : nat → Z;
  v_stop : nat → bool;
  v_fionread : nat → option Z;
  v_tcp_rtt : nat → option Z;
  v_send : nat → list tx_ev }.

Record view_rect := mk_view_rect { vr_x : Z; vr_y : Z; vr_w : Z; vr_h : Z }.

Record view_fb := mk_fb {
  fb_gen : Z; fb_connected : bool; fb_blanked : bool; fb_w : Z; fb_h : Z;
  fb_pixfmt : Z; fb_bytespp : Z; fb_stride : Z; fb_pixels : option bytes;
  fb_input : bool; fb_damage : list view_rect; fb_damage_all : bool;
  fb_batches : Z; fb_probe_armed : bool; fb_probe_x : Z; fb_probe_y : Z;
  fb_probe_base : Z; fb_probe_hit_ns : Z }.
#[export] Instance eta_fb : Eta view_fb := λ f,
  mk_fb (fb_gen f) (fb_connected f) (fb_blanked f) (fb_w f) (fb_h f)
    (fb_pixfmt f) (fb_bytespp f) (fb_stride f) (fb_pixels f) (fb_input f)
    (fb_damage f) (fb_damage_all f) (fb_batches f) (fb_probe_armed f)
    (fb_probe_x f) (fb_probe_y f) (fb_probe_base f) (fb_probe_hit_ns f).

(** The counters the network thread writes. *)
Record view_stats := mk_stats {
  rx_batches : Z; rx_rects : Z; rx_bytes : Z; decode_ns : Z; decode_n : Z;
  st_pings : Z; ping_queue_us : Z; tcp_rtt_us : Z; h264_active : bool;
  h264_aus : Z; h264_idrs : Z; h264_ns : Z; h264_episodes : Z }.
#[export] Instance eta_stats : Eta view_stats := λ s,
  mk_stats (rx_batches s) (rx_rects s) (rx_bytes s) (decode_ns s)
    (decode_n s) (st_pings s) (ping_queue_us s) (tcp_rtt_us s)
    (h264_active s) (h264_aus s) (h264_idrs s) (h264_ns s) (h264_episodes s).

Record view_opts := mk_opts {
  o_req_w : Z; o_req_h : Z; o_pixfmt : Z; o_no_lz4 : bool; o_no_h264 : bool;
  o_no_input : bool; o_no_audio : bool; o_mac : bytes; o_model : bytes }.

Record view_net := mk_net {
  n_o : view_opts; n_fb : view_fb; n_st : view_stats; n_fd : bool;
  n_srv_flags : Z; n_ping_min_off_us : Z; n_have_ping_off : bool;
  n_audio_token : Z; n_h264_offered : bool; n_h264_broken : bool;
  n_rx : list rx_ev; n_tx : bytes; n_tick : nat; n_wakes : Z }.
#[export] Instance eta_net : Eta view_net := λ n,
  mk_net (n_o n) (n_fb n) (n_st n) (n_fd n) (n_srv_flags n)
    (n_ping_min_off_us n) (n_have_ping_off n) (n_audio_token n)
    (n_h264_offered n) (n_h264_broken n) (n_rx n) (n_tx n) (n_tick n)
    (n_wakes n).

(** ** Reading *)

(** readn(): [len] bytes, or [None] when the connection must drop. *)
Fixpoint readn_ev (evs : list rx_ev) (len : Z) : option bytes * list rx_ev :=
  if len <=? 0 then (Some [], evs)
  else
    match evs with
    | [] => (None, [])
    | RData [] :: evs => (None, evs)
    | RData b :: evs =>
      let n := Z.of_nat (length b) in
      if len <? n
      then (Some (slice 0 len b), RData (slice len (n - len) b) :: evs)
      else
        let '(r, evs) := readn_ev evs (len - n) in
        (option_map (app b) r, evs)
    | (RIntr | RReady) :: evs => readn_ev evs len
    | (RTimeout | RStop | RErr) :: evs => (None, evs)
    end.

Definition readn (n : view_net) (len : Z) : option bytes * view_net :=
  let '(r, evs) := readn_ev (n_rx n) len in (r, n⟨n_rx := evs⟩).

(** The bytes the socket still delivers before it fails. *)
Fixpoint rx_data (evs : list rx_ev) : bytes :=
  match evs with
  | [] | RData [] :: _ | (RTimeout | RStop | RErr) :: _ => []
  | RData b :: evs => b ++ rx_data evs
  | (RIntr | RReady) :: evs => rx_data evs
  end.

(** ** Writing *)

(** writen_locked(): the bytes that left, and whether all of them did. *)
Fixpoint writen_ev (evs : list tx_ev) (buf : bytes) : bytes * bool :=
  match buf with
  | [] => ([], true)
  | _ =>
    match evs with
    | [] => ([], false)
    | TSent n :: evs =>
      if 0 <? n then
        let '(w, ok) := writen_ev evs (slice n (Z.of_nat (length buf) - n) buf) in
        (slice 0 n buf ++ w, ok)
      else ([], false)
    | (TIntr | TReady) :: evs => writen_ev evs buf
    | TGone :: _ => ([], false)
    end
  end.

Section view.
Context `{V : ViewSys} `{L : LZ4} `{A : AvCodec}.

Definition tick (n : view_net) : view_net := n⟨n_tick ::= S⟩.
Definition now_ns (n : view_net) : Z * view_net := (v_now_ns (n_tick n), tick n).

Definition writen_locked (n : view_net) (buf : bytes) : bool * view_net :=
  let '(w, ok) := writen_ev (v_send (n_tick n)) buf in
  (ok, (tick n)⟨n_tx ::= (λ t, t ++ w)⟩).

Definition view_net_send (n : view_net) (msg : bytes) : bool * view_net :=
  if n_fd n then writen_locked n msg else (false, n).

Definition set_flag (c : bool) (bit flags : Z) : Z :=
  if c then Z.lor flags bit else flags.

(** The client hello hello_exchange() fills in. *)
Definition hello_fill (o : view_opts) (h264_offered : bool) : sremfb_client_hello :=
  let flags := set_flag (negb (o_no_lz4 o)) SREMFB_HELLO_FLAG_LZ4 0 in
  let flags := Z.lor flags SREMFB_HELLO_FLAG_FEEDBACK in
  let flags := set_flag (negb (o_no_input o)) SREMFB_HELLO_FLAG_INPUT flags in
  let flags := set_flag (negb (o_no_audio o)) SREMFB_HELLO_FLAG_AUDIO flags in
  let flags := set_flag h264_offered SREMFB_HELLO_FLAG_H264 flags in
  if o_pixfmt o =? SREMFB_PIX_RGB565
  then mk_client_hello SREMFB_MAGIC SREMFB_PROTO_VER flags (u16 (o_req_w o))
         (u16 (o_req_h o)) 16 (o_pixfmt o) 11 5 5 6 0 5 (o_mac o) (o_model o)
         (replicate 9 0)
  else mk_client_hello SREMFB_MAGIC SREMFB_PROTO_VER flags (u16 (o_req_w o))
         (u16 (o_req_h o)) 32 (o_pixfmt o) 16 8 8 8 0 8 (o_mac o) (o_model o)
         (replicate 9 0).

(** hello_exchange(): the stream geometry, or [None]. *)
Definition hello_exchange (n : view_net) : option (Z * Z) * view_net :=
  let n := n⟨n_h264_offered := negb (o_no_h264 (n_o n)) && negb (n_h264_broken n)⟩ in
  let ch := hello_fill (n_o n) (n_h264_offered n) in
  let '(ok, n) := writen_locked n (client_hello_bytes ch) in
  if negb ok then (None, n)
  else
    let '(r, n) := readn n 16 in
    match r with
    | None => (None, n)
    | Some b =>
      let sh := server_hello_of b in
      if negb (sh_magic sh =? SREMFB_MAGIC) ||
         negb (sh_proto_ver sh =? SREMFB_PROTO_VER) then (None, n)
      else if negb (sh_status sh =? SREMFB_STATUS_OK) then (None, n)
      else if negb (sh_pixfmt sh =? o_pixfmt (n_o n)) then (None, n)
      else if (sh_width sh =? 0) || (sh_height sh =? 0) then (None, n)
      else (Some (sh_width sh, sh_height sh),
            n⟨n_srv_flags := sh_flags sh⟩⟨n_audio_token := sh_audio_token sh⟩)
    end.

(** ** The shared framebuffer *)
Definition fb_upd (n : view_net) (f : view_fb → view_fb) : view_net := n⟨n_fb ::= f⟩.
Definition st_upd (n : view_net) (f : view_stats → view_stats) : view_net :=
  n⟨n_st ::= f⟩.
Definition wake (n : view_net) : view_net := n⟨n_wakes ::= Z.succ⟩.

Definition fb_set_stream (n : view_net) (w h : Z) (pixels : option bytes) : view_net :=
  let up := bool_decide (is_Some pixels) in
  let bytespp := if o_pixfmt (n_o n) =? SREMFB_PIX_RGB565 then 2 else 4 in
  wake (fb_upd n (λ fb,
    fb⟨fb_pixels := pixels⟩⟨fb_w := w⟩⟨fb_h := h⟩⟨fb_pixfmt := o_pixfmt (n_o n)⟩
      ⟨fb_bytespp := bytespp⟩⟨fb_stride := w * bytespp⟩⟨fb_connected := up⟩
      ⟨fb_input := up && has_flag (n_srv_flags n) SREMFB_SRV_FLAG_INPUT⟩
      ⟨fb_probe_armed := false⟩⟨fb_blanked := false⟩⟨fb_damage := []⟩
      ⟨fb_damage_all := true⟩⟨fb_gen ::= (λ g, u32 (g + 1))⟩)).

(** The bounding box of what damage_add() collapses: its four corners. *)
Definition damage_box (l : list view_rect) (x y w h : Z) : Z * Z * Z * Z :=
  foldl (λ '(x0, y0, x1, y1) r,
    (Z.min x0 (vr_x r), Z.min y0 (vr_y r), Z.max x1 (vr_x r + vr_w r),
     Z.max y1 (vr_y r + vr_h r))) (x, y, x + w, y + h) l.

Definition damage_add (fb : view_fb) (x y w h : Z) : view_fb :=
  if fb_damage_all fb then fb
  else if Z.of_nat (length (fb_damage fb)) =? VIEW_DAMAGE_MAX then
    let '(x0, y0, x1, y1) := damage_box (fb_damage fb) x y w h in
    fb⟨fb_damage := [mk_view_rect (u16 x0) (u16 y0) (u16 (x1 - x0)) (u16 (y1 - y0))]⟩
  else
    fb⟨fb_damage ::= (λ l, l ++ [mk_view_rect (u16 x) (u16 y) (u16 w) (u16 h)])⟩.

(** view.h: the pixel under the probe *)
Definition view_fb_pixel (fb : view_fb) (x y : Z) : Z :=
  let p := default [] (fb_pixels fb) in
  let o := y * fb_stride fb + x * fb_bytespp fb in
  if fb_bytespp fb =? 2 then Z.lor (byte_at p o) (Z.shiftl (byte_at p (o + 1)) 8)
  else Z.lor (Z.lor (byte_at p o) (Z.shiftl (byte_at p (o + 1)) 8))
             (Z.shiftl (byte_at p (o + 2)) 16).

(** The memcpy of fb_put_rect(): whole rows at once when the rect is as
    wide as the stream. *)
Definition put_rect (stride bytespp x y w h : Z) (src dst : bytes) : bytes :=
  let row := w * bytespp in
  let off := y * stride + x * bytespp in
  if row =? stride then blit dst off (slice 0 (row * h) src)
  else for_ 0 h (λ k dst, blit dst (off + k * stride) (slice (k * row) row src)) dst.

Definition fb_put_rect (n : view_net) (hd : sremfb_frame_hdr) (src : bytes) : view_net :=
  let fb := n_fb n in
  let x := fh_x hd in let y := fh_y hd in
  let w := fh_w hd in let h := fh_h hd in
  let fb := fb⟨fb_pixels ::=
    option_map (put_rect (fb_stride fb) (fb_bytespp fb) x y w h src)⟩ in
  let fb := damage_add fb x y w h in
  if fb_probe_armed fb && (x <=? fb_probe_x fb) && (y <=? fb_probe_y fb) &&
     (fb_probe_x fb <? x + w) && (fb_probe_y fb <? y + h) &&
     negb (view_fb_pixel fb (fb_probe_x fb) (fb_probe_y fb) =? fb_probe_base fb)
  then
    let (t, n) := now_ns n in
    n⟨n_fb := fb⟨fb_probe_hit_ns := t⟩⟨fb_probe_armed := false⟩⟩
  else n⟨n_fb := fb⟩.

Definition publish (n : view_net) : view_net :=
  let n := st_upd n (λ s, s⟨rx_batches ::= Z.succ⟩) in
  wake (fb_upd n (λ fb, fb⟨fb_batches ::= (λ b, u32 (b + 1))⟩)).

Definition sample_tcp_rtt (n : view_net) : view_net :=
  match v_tcp_rtt (n_tick n) with
  | Some r => st_upd (tick n) (λ s, s⟨tcp_rtt_us := r⟩)
  | None => tick n
  end.

(** The open batch's start time, 0 for none, after the flush. *)
Definition batch_flush_unless (n : view_net) (batch_t0 need : Z) : view_net * Z :=
  if batch_t0 =? 0 then (n, batch_t0)
  else
    let avail := v_fionread (n_tick n) in
    let n := tick n in
    let '(flush, n) :=
      match avail with
      | None => (true, n)
      | Some a =>
        if a <? need then (true, n)
        else let (t, n) := now_ns n in (BATCH_MAX_NS <=? u64 (t - batch_t0), n)
      end in
    if flush : bool then (publish n, 0) else (n, batch_t0).

Definition on_ping (n : view_net) (t_srv_us : Z) : bool * view_net :=
  let pong := mk_client_msg SREMFB_MAGIC SREMFB_CMSG_PONG [0; 0; 0] t_srv_us in
  let '(ok, n) := view_net_send n (client_msg_bytes pong) in
  if negb ok then (false, n)
  else
    let (t, n) := now_ns n in
    let off := s64 (s64 (t / 1000) - s64 t_srv_us) in
    let n := if negb (n_have_ping_off n) || (off <? n_ping_min_off_us n)
             then n⟨n_ping_min_off_us := off⟩⟨n_have_ping_off := true⟩ else n in
    let n := st_upd n (λ s, s⟨st_pings ::= Z.succ⟩
      ⟨ping_queue_us ::= Z.add (u64 (off - n_ping_min_off_us n))⟩) in
    (true, sample_tcp_rtt n).

(** ** H.264 episodes *)
Definition pixel_rgb (fb : view_fb) (px : Z) : list Z :=
  if fb_bytespp fb =? 2
  then [Z.quot (Z.land (Z.shiftr px 11) 0x1F * 255) 31;
        Z.quot (Z.land (Z.shiftr px 5) 0x3F * 255) 63;
        Z.quot (Z.land px 0x1F * 255) 31]
  else [Z.land (Z.shiftr px 16) 0xFF; Z.land (Z.shiftr px 8) 0xFF; Z.land px 0xFF].

Definition pixel_moved (fb : view_fb) (a b : Z) : bool :=
  existsb (λ p, PROBE_TOLERANCE <? Z.abs (p.1 - p.2))
    (zip (pixel_rgb fb a) (pixel_rgb fb b)).

(** Per-connection H.264 state (aubuf is scratch and not kept). *)
Record h264_conn := mk_hc {
  hc_dec : option av_ctx; hc_aus : Z; hc_silent : Z; hc_warned_geom : bool }.
#[export] Instance eta_hc : Eta h264_conn := λ h,
  mk_hc (hc_dec h) (hc_aus h) (hc_silent h) (hc_warned_geom h).
Definition hc0 : h264_conn := mk_hc None 0 0 false.

(** The copy of the converted picture into the framebuffer. *)
Definition put_picture (fbw_stride row ch h : Z) (scratch dst : bytes) (stride : Z) : bytes :=
  if (row =? fbw_stride) && (ch =? h) then blit dst 0 (slice 0 (row * ch) scratch)
  else for_ 0 ch (λ y dst, blit dst (y * fbw_stride) (slice (y * stride) row scratch)) dst.

Definition h264_show (n : view_net) (hc : h264_conn) (p : view_h264_pic)
    (scratch : bytes) (w h : Z) : view_net * h264_conn * bytes :=
  let cw := if p_w p <? w then p_w p else w in
  let ch := if p_h p <? h then p_h p else h in
  let stride := w * (if o_pixfmt (n_o n) =? SREMFB_PIX_RGB565 then 2 else 4) in
  let hc := if (negb (p_w p =? w) || negb (p_h p =? h)) && negb (hc_warned_geom hc)
            then hc⟨hc_warned_geom := true⟩ else hc in
  let scratch := view_h264_convert p scratch stride cw ch (o_pixfmt (n_o n)) in
  let fb := n_fb n in
  let row := cw * fb_bytespp fb in
  let fb := fb⟨fb_pixels ::=
    option_map (λ d, put_picture (fb_stride fb) row ch h scratch d stride)⟩ in
  let fb := fb⟨fb_damage_all := true⟩⟨fb_damage := []⟩ in
  let n :=
    if fb_probe_armed fb && (fb_probe_x fb <? cw) && (fb_probe_y fb <? ch) &&
       pixel_moved fb (view_fb_pixel fb (fb_probe_x fb) (fb_probe_y fb))
         (fb_probe_base fb)
    then let (t, n) := now_ns n in
         n⟨n_fb := fb⟨fb_probe_hit_ns := t⟩⟨fb_probe_armed := false⟩⟩
    else n⟨n_fb := fb⟩ in
  (publish n, hc, scratch).

(** h264_pull(): how many pictures were shown, [None] on a decoder error.
    [fuel] above [av_pending] never runs out (h264_pull_total). *)
Fixpoint h264_pull (fuel : nat) (n : view_net) (hc : h264_conn) (d : av_ctx)
    (scratch : bytes) (w h : Z) (shown : Z)
    : option Z * (view_net * h264_conn * bytes) :=
  match fuel with
  | O => (None, (n, hc⟨hc_dec := Some d⟩, scratch))
  | S fuel =>
    let '(d, r) := view_h264_receive d in
    match r with
    | PicNone => (Some shown, (n, hc⟨hc_dec := Some d⟩, scratch))
    | PicError => (None, (n, hc⟨hc_dec := Some d⟩, scratch))
    | PicSome p =>
      let '(n, hc, scratch) := h264_show n hc p scratch w h in
      h264_pull fuel n hc d scratch w h (shown + 1)
    end
  end.

Definition h264_failed (n : view_net) : view_net := n⟨n_h264_broken := true⟩.

(** The state of stream_loop(): its locals beside the shared record. *)
Record loop_state := mk_stream {
  s_n : view_net; s_batch_t0 : Z; s_hc : h264_conn; s_scratch : bytes;
  s_w : Z; s_h : Z }.
#[export] Instance eta_stream : Eta loop_state := λ s,
  mk_stream (s_n s) (s_batch_t0 s) (s_hc s) (s_scratch s) (s_w s) (s_h s).

(** The access unit's decode, from the opened decoder on. *)
Definition h264_decode (s : loop_state) (d : av_ctx) (hd : sremfb_frame_hdr) (au : bytes)
    (t0 : Z) : bool * loop_state :=
  let n := s_n s in
  let hc := (s_hc s)⟨hc_dec := Some d⟩ in
  let '(n, hc) :=
    if h264_active (n_st n) then (n, hc)
    else (st_upd n (λ st, st⟨h264_active := true⟩), hc⟨hc_aus := 0⟩⟨hc_silent := 0⟩) in
  let '(d, ok) := view_h264_send d (Some au) in
  if negb ok then (false, s⟨s_n := h264_failed n⟩⟨s_hc := hc⟨hc_dec := Some d⟩⟩)
  else
    let '(r, (n, hc, scratch)) :=
      h264_pull (S (av_pending d)) n hc d (s_scratch s) (s_w s) (s_h s) 0 in
    let s := s⟨s_scratch := scratch⟩ in
    match r with
    | None => (false, s⟨s_n := h264_failed n⟩⟨s_hc := hc⟩)
    | Some shown =>
      let hc := hc⟨hc_silent ::= (λ k, if shown =? 0 then u32 (k + 1) else 0)⟩ in
      if AU_SILENT_MAX <=? hc_silent hc
      then (false, s⟨s_n := h264_failed n⟩⟨s_hc := hc⟩)
      else
        let hc := hc⟨hc_aus ::= (λ a, u64 (a + 1))⟩ in
        let (t, n) := now_ns n in
        let n := st_upd n (λ st, st⟨h264_ns ::= Z.add (u64 (t - t0))⟩
                                  ⟨h264_aus ::= Z.succ⟩) in
        let n := if has_flag (fh_reserved0 hd) SREMFB_H264_FLAG_IDR
                 then st_upd n (λ st, st⟨h264_idrs ::= Z.succ⟩) else n in
        (true, s⟨s_n := n⟩⟨s_hc := hc⟩)
    end.

Definition h264_au (s : loop_state) (hd : sremfb_frame_hdr) : bool * loop_state :=
  if negb (fh_x hd =? 0) || negb (fh_y hd =? 0) || negb (fh_w hd =? s_w s) ||
     negb (fh_h hd =? s_h s) then (false, s)
  else if (fh_payload_len hd =? 0) || (AU_CAP <? fh_payload_len hd) then (false, s)
  else
    let '(r, n) := readn (s_n s) (fh_payload_len hd) in
    match r with
    | None => (false, s⟨s_n := n⟩)
    | Some au =>
      let (t0, n) := now_ns n in
      match hc_dec (s_hc s) with
      | Some d => h264_decode s⟨s_n := n⟩ d hd au t0
      | None =>
        match view_h264_open with
        | None => (false, s⟨s_n := h264_failed n⟩)
        | Some d => h264_decode s⟨s_n := n⟩ d hd au t0
        end
      end
    end.

Definition h264_eos (s : loop_state) : bool * loop_state :=
  let fin (s : loop_state) :=
    (true, s⟨s_n ::= (λ n, st_upd n (λ st,
             st⟨h264_active := false⟩⟨h264_episodes ::= Z.succ⟩))⟩) in
  match hc_dec (s_hc s) with
  | None => fin s
  | Some d =>
    let '(d, ok) := view_h264_send d None in
    if negb ok
    then (false, s⟨s_n ::= h264_failed⟩⟨s_hc ::= (λ hc, hc⟨hc_dec := Some d⟩)⟩)
    else
      let '(r, (n, hc, scratch)) :=
        h264_pull (S (av_pending d)) (s_n s) (s_hc s) d (s_scratch s)
          (s_w s) (s_h s) 0 in
      let s := s⟨s_n := n⟩⟨s_scratch := scratch⟩ in
      match r with
      | None => (false, s⟨s_n := h264_failed n⟩⟨s_hc := hc⟩)
      | Some _ =>
        fin s⟨s_hc := hc⟨hc_dec ::= option_map view_h264_flush⟩⟩
      end
  end.

(** ** The message loop *)
Definition s_bytespp (s : loop_state) : Z :=
  if o_pixfmt (n_o (s_n s)) =? SREMFB_PIX_RGB565 then 2 else 4.
Definition frame_cap (s : loop_state) : Z := s_w s * s_h s * s_bytespp s.

Definition set_blanked (s : loop_state) (b : bool) : loop_state :=
  s⟨s_n ::= (λ n, wake (fb_upd n (λ fb, fb⟨fb_blanked := b⟩)))⟩.

(** The pixels of a RAW or LZ4 rect, or [None]: the connection drops. *)
Definition read_rect (n : view_net) (hd : sremfb_frame_hdr) (cap rect_bytes : Z)
    : option bytes * view_net :=
  if fh_encoding hd =? SREMFB_ENC_RAW then
    if negb (fh_payload_len hd =? rect_bytes) then (None, n)
    else readn n rect_bytes
  else if o_no_lz4 (n_o n) || (fh_payload_len hd =? 0) ||
          (u64 (LZ4_compressBound (s32 cap)) <? fh_payload_len hd) then (None, n)
  else
    let '(r, n) := readn n (fh_payload_len hd) in
    match r with
    | None => (None, n)
    | Some comp =>
      let (t0, n) := now_ns n in
      match LZ4_decompress_safe comp (s32 rect_bytes) with
      | Some d =>
        if Z.of_nat (length d) =? s32 rect_bytes then
          let (t, n) := now_ns n in
          (Some d, st_upd n (λ st, st⟨decode_ns ::= Z.add (u64 (t - t0))⟩
                                    ⟨decode_n ::= Z.succ⟩))
        else (None, n)
      | None => (None, n)
      end
    end.

Definition rect_msg (s : loop_state) (hd : sremfb_frame_hdr) : bool * loop_state :=
  if (fh_w hd =? 0) || (fh_h hd =? 0) || (s_w s <? fh_x hd + fh_w hd) ||
     (s_h s <? fh_y hd + fh_h hd) then (false, s)
  else
    let rect_bytes := fh_w hd * fh_h hd * s_bytespp s in
    let '(n, t0) := batch_flush_unless (s_n s) (s_batch_t0 s) (fh_payload_len hd) in
    let '(t0, n) := if t0 =? 0 then now_ns n else (t0, n) in
    let '(r, n) := read_rect n hd (frame_cap s) rect_bytes in
    let s := s⟨s_n := n⟩⟨s_batch_t0 := t0⟩ in
    match r with
    | None => (false, s)
    | Some px =>
      (true, s⟨s_n := st_upd (fb_put_rect n hd px) (λ st, st⟨rx_rects ::= Z.succ⟩)⟩
             ⟨s_scratch ::= (λ sc, blit sc 0 px)⟩)
    end.

(** The cases of the loop body: false is a [break]. *)
Definition stream_dispatch (s : loop_state) (hd : sremfb_frame_hdr) : bool * loop_state :=
  let enc := fh_encoding hd in
  if (enc =? SREMFB_ENC_BLANK) || (enc =? SREMFB_ENC_UNBLANK) then
    if negb (fh_payload_len hd =? 0) then (false, s)
    else (true, set_blanked s (enc =? SREMFB_ENC_BLANK))
  else if enc =? SREMFB_ENC_PING then
    if negb (fh_payload_len hd =? 8) then (false, s)
    else
      let '(r, n) := readn (s_n s) 8 in
      match r with
      | None => (false, s⟨s_n := n⟩)
      | Some b => let '(ok, n) := on_ping n (of_le b) in (ok, s⟨s_n := n⟩)
      end
  else if n_h264_offered (s_n s) && (enc =? SREMFB_ENC_H264) then h264_au s hd
  else if n_h264_offered (s_n s) && (enc =? SREMFB_ENC_H264_EOS) then
    if negb (fh_payload_len hd =? 0) then (false, s) else h264_eos s
  else if negb (enc =? SREMFB_ENC_RAW) && negb (enc =? SREMFB_ENC_LZ4)
  then (false, s)
  else rect_msg s hd.

(** One message whose header was read: a control message first publishes
    the open batch. *)
Definition stream_msg (s : loop_state) (hd : sremfb_frame_hdr) : bool * loop_state :=
  let enc := fh_encoding hd in
  if negb (fh_magic hd =? SREMFB_MAGIC) then (false, s)
  else
    let n := st_upd (s_n s) (λ st, st⟨rx_bytes ::= Z.add (20 + fh_payload_len hd)⟩) in
    stream_dispatch
      (if negb (enc =? SREMFB_ENC_RAW) && negb (enc =? SREMFB_ENC_LZ4) &&
          negb (s_batch_t0 s =? 0)
       then s⟨s_n := publish n⟩⟨s_batch_t0 := 0⟩ else s⟨s_n := n⟩) hd.

(** One iteration of the while loop. *)
Definition stream_step (s : loop_state) : bool * loop_state :=
  if v_stop (n_tick (s_n s)) then (false, s⟨s_n ::= tick⟩)
  else
    let '(n, t0) := batch_flush_unless (tick (s_n s)) (s_batch_t0 s) 20 in
    let s := s⟨s_batch_t0 := t0⟩ in
    let '(r, n) := readn n 20 in
    let s := s⟨s_n := n⟩ in
    match r with
    | None => (false, s)
    | Some b => stream_msg s (frame_hdr_of b)
    end.

(** [fuel] above the number of bytes the socket delivers never runs out
    (stream_loop_stops). *)
Fixpoint stream_run (fuel : nat) (s : loop_state) : bool * loop_state :=
  match fuel with
  | O => (true, s)
  | S fuel =>
    let '(go, s) := stream_step s in
    if go then stream_run fuel s else (false, s)
  end.

(** stream_loop() up to the loop (the malloc'd scratch is given as zeroes:
    it is written before it is read). *)
Definition stream_start (n : view_net) (w h : Z) : loop_state :=
  let bytespp := if o_pixfmt (n_o n) =? SREMFB_PIX_RGB565 then 2 else 4 in
  let cap := Z.to_nat (w * h * bytespp) in
  let n := n⟨n_have_ping_off := false⟩ in
  let n := fb_set_stream n w h (Some (replicate cap 0)) in
  let n := sample_tcp_rtt n⟨n_fd := true⟩ in
  mk_stream n 0 hc0 (replicate cap 0) w h.

Definition stream_loop (n : view_net) (w h : Z) : view_net :=
  let s := (stream_run (S (length (rx_data (n_rx n)))) (stream_start n w h)).2 in
  let n := st_upd (s_n s) (λ st, st⟨h264_active := false⟩) in
  fb_set_stream n⟨n_fd := false⟩ 0 0 None.
End view.
