(* ===== verification/Blit.v ===== *)
(** * Where the bytes of a rect land in a framebuffer

    The exact effect of a loop of row copies, and of fb_put_rect(). *)
From S2P Require Import Prelude Protocol Core Convert ViewH264 ViewNet.

(** Byte [j] of a framebuffer with [S] bytes per row lies in columns
    [a, b) (in bytes) of rows [y, y+h). *)
Definition in_block (S a b y h j : Z) : Prop :=
  y ≤ j / S < y + h ∧ a ≤ j mod S < b.
#[export] Instance in_block_dec S a b y h j : Decision (in_block S a b y h j).
Proof. unfold in_block. apply _. Defined.

(** A loop of row copies: [h] rows of [n] bytes from consecutive places of
    [src] to columns [a, a+n) of [dst]. *)
Lemma blit_rows_spec S a n y h (src dst : bytes) (f : Z → bytes) :
  0 ≤ a → 0 ≤ n → a + n ≤ S → 0 < S → 0 ≤ y → 0 ≤ h →
  (y + h) * S ≤ Z.of_nat (length dst) →
  (∀ k, 0 ≤ k < h → Z.of_nat (length (f k)) = n) →
  let dst' := for_ 0 h (λ k dst, blit dst ((y + k) * S + a) (f k)) dst in
  length dst' = length dst ∧
  ∀ j : nat, dst' !! j =
    if decide (in_block S a (a + n) y h (Z.of_nat j))
    then f (Z.of_nat j / S - y) !! Z.to_nat (Z.of_nat j mod S - a)
    else dst !! j.
Proof.
  intros ??????? Hf.
  pose (P (k : Z) (d : bytes) := length d = length dst ∧
    ∀ j : nat, d !! j = if decide (in_block S a (a + n) y k (Z.of_nat j))
      then f (Z.of_nat j / S - y) !! Z.to_nat (Z.of_nat j mod S - a) else dst !! j).
  apply (for_ind0 P); [done| |].
  { split; [done|]. intros j. rewrite decide_False; [done|]. unfold in_block. lia. }
  intros k d Hk [Hlen Hd]. specialize (Hf k Hk).
  set (off := (y + k) * S + a).
  assert (0 ≤ off ∧ off + n ≤ Z.of_nat (length dst)) by (subst off; nia).
  split; [rewrite length_blit; lia|]. intros j.
  rewrite lookup_blit, Hf by lia.
  pose proof (Z.div_mod (Z.of_nat j) S) as Hdm.
  pose proof (Z.mod_pos_bound (Z.of_nat j) S).
  assert (Hrow : off ≤ Z.of_nat j < off + n ↔
    Z.of_nat j / S = y + k ∧ a ≤ Z.of_nat j mod S < a + n).
  { subst off. split; [|nia]. intros Hi.
    assert (Z.of_nat j / S = y + k) by nia. nia. }
  case_bool_decide as Hb.
  - apply Hrow in Hb as [Hq Hr]. rewrite decide_True by (unfold in_block; lia).
    rewrite Hq. replace (y + k - y) with k by lia. f_equal. subst off. nia.
  - rewrite Hd. clearbody off.
    destruct (decide (in_block S a (a + n) y k (Z.of_nat j))) as [Hin|Hin];
      destruct (decide (in_block S a (a + n) y (k + 1) (Z.of_nat j))) as [Hin'|Hin'];
      try done; unfold in_block in *; lia.
Qed.

(** fb_put_rect()'s copy, whichever branch it takes. *)
Lemma put_rect_spec W bpp x y w h (src dst : bytes) :
  0 < bpp → 0 < W → 0 ≤ x → 0 ≤ w → x + w ≤ W → 0 ≤ y → 0 ≤ h →
  (y + h) * (W * bpp) ≤ Z.of_nat (length dst) →
  Z.of_nat (length src) = w * h * bpp →
  let dst' := put_rect (W * bpp) bpp x y w h src dst in
  length dst' = length dst ∧
  ∀ j : nat, dst' !! j =
    if decide (in_block (W * bpp) (x * bpp) ((x + w) * bpp) y h (Z.of_nat j))
    then src !! Z.to_nat ((Z.of_nat j / (W * bpp) - y) * (w * bpp) +
                          (Z.of_nat j mod (W * bpp) - x * bpp))
    else dst !! j.
Proof.
  intros. subst dst'. unfold put_rect. cbv zeta.
  destruct (w * bpp =? W * bpp) eqn:Hfull.
  - assert (w = W) as -> by nia. assert (x = 0) as -> by lia.
    rewrite slice_all by lia. set (S := W * bpp) in *. assert (0 < S) by (subst S; nia).
    replace (y * S + 0 * bpp) with (y * S) by lia.
    assert (Hsl : Z.of_nat (length src) = h * S) by (subst S; nia).
    split; [rewrite length_blit; lia|]. intros j. rewrite lookup_blit by lia.
    pose proof (Z.div_mod (Z.of_nat j) S) as Hdm.
    pose proof (Z.mod_pos_bound (Z.of_nat j) S).
    replace ((0 + W) * bpp) with S by (subst S; lia). rewrite Z.mul_0_l.
    clearbody S. case_bool_decide as Hb.
    + rewrite decide_True by (unfold in_block; nia). f_equal. nia.
    + rewrite decide_False; [done|]. unfold in_block. nia.
  - pose proof (blit_rows_spec (W * bpp) (x * bpp) (w * bpp) y h src dst
      (λ k, slice (k * (w * bpp)) (w * bpp) src)) as Hb.
    cbv zeta in Hb. destruct Hb as [Hlen Hlk]; try nia.
    { intros k Hk. rewrite length_slice; nia. }
    rewrite (for_ext _ _ _ (λ k dst, blit dst ((y + k) * (W * bpp) + x * bpp)
               (slice (k * (w * bpp)) (w * bpp) src))) by (intros; f_equal; lia).
    split; [done|]. intros j. rewrite Hlk.
    replace (x * bpp + w * bpp) with ((x + w) * bpp) by lia.
    case_decide as Hin; [|done]. unfold in_block in Hin.
    pose proof (Z.mod_pos_bound (Z.of_nat j) (W * bpp)).
    rewrite lookup_slice by lia. f_equal.
    symmetry. apply Z2Nat.inj_add; nia.
Qed.
