(* ===== verification/ViewRead.v ===== *)
(** * view/net.c: reading, and that the message loop ends

    readn() delivers exactly the next bytes of the connection however the
    kernel cuts them up, and every iteration of the message loop that goes
    on has consumed a header. *)
From S2P Require Import Prelude Protocol Core Convert ViewH264 ViewNet Blit.

(** readn() does not depend on how the data is fragmented or interrupted. *)
Lemma readn_ev_ok evs len :
  0 ≤ len ≤ Z.of_nat (length (rx_data evs)) →
  ∃ evs', readn_ev evs len = (Some (slice 0 len (rx_data evs)), evs') ∧
    rx_data evs' = drop (Z.to_nat len) (rx_data evs).
Proof.
  revert len. induction evs as [|e evs IH]; intros len Hlen.
  - simpl in *. assert (len = 0) as -> by lia. by exists [].
  - simpl readn_ev. destruct (len <=? 0) eqn:Hz.
    { assert (len = 0) as -> by lia. by exists (e :: evs). }
    assert (Hskip : ∀ l, l = rx_data evs → 0 ≤ len ≤ Z.of_nat (length l) →
      ∃ evs', readn_ev evs len = (Some (slice 0 len l), evs') ∧
        rx_data evs' = drop (Z.to_nat len) l) by (intros l -> ?; by apply IH).
    destruct e as [b| | | | |]; simpl in Hlen; try lia; try (by apply Hskip).
    destruct b as [|x b]; [simpl in Hlen; lia|]. set (blk := x :: b) in *.
    change (match blk with [] => _ | _ => _ end) with (blk ++ rx_data evs) in Hlen.
    rewrite length_app in Hlen. simpl rx_data. fold blk.
    change (x :: b ++ rx_data evs) with (blk ++ rx_data evs).
    destruct (len <? _) eqn:Hlt.
    + eexists. split; [do 2 f_equal|].
      * unfold slice. rewrite !drop_0, take_app_le by lia. done.
      * assert (Hne : slice len (Z.of_nat (length blk) - len) blk = drop (Z.to_nat len) blk).
        { unfold slice. apply take_ge. rewrite length_drop. lia. }
        rewrite Hne, drop_app_le by lia.
        destruct (drop (Z.to_nat len) blk) eqn:Hd; [|done].
        apply (f_equal length) in Hd. rewrite length_drop in Hd.
        change (length []) with 0%nat in Hd. lia.
    + destruct (IH (len - Z.of_nat (length blk))) as (evs'&->&Hr); [lia|].
      exists evs'. split; [cbn [option_map]; do 2 f_equal|].
      * unfold slice. rewrite !drop_0, take_app_ge by lia. do 2 f_equal. lia.
      * rewrite Hr, drop_app_ge by lia. f_equal. lia.
Qed.

(** What is left never grows, and a read that fails had too little. *)
Lemma readn_ev_short evs len :
  Z.of_nat (length (rx_data evs)) < len → (readn_ev evs len).1 = None.
Proof.
  revert len. induction evs as [|e evs IH]; intros len Hlen;
    (cbn [readn_ev]; destruct (len <=? 0) eqn:Hz; [lia|]); [done|].
  destruct e as [b| | | | |]; try done; try (by apply IH).
  destruct b as [|x b]; [done|]. set (blk := x :: b) in *.
  change (rx_data (RData blk :: evs)) with (blk ++ rx_data evs) in Hlen.
  rewrite length_app in Hlen. destruct (len <? _) eqn:Hlt; [lia|].
  specialize (IH (len - Z.of_nat (length blk))).
  destruct (readn_ev evs _) as [r evs']. cbn [fst] in *. rewrite IH; [done|lia].
Qed.


Section read.
Context `{V : ViewSys} `{L : LZ4} `{A : AvCodec}.

(** What the bookkeeping of the network thread (clock readings, counters,
    wake-ups, damage list, probe) leaves alone. *)
Definition nvis (n : view_net) :=
  (n_o n, n_fd n, n_rx n, n_srv_flags n, n_h264_offered n,
   (fb_pixels (n_fb n), fb_bytespp (n_fb n), fb_stride (n_fb n))).

Lemma readn_true n len b n' :
  readn n len = (Some b, n') →
  len ≤ Z.of_nat (length (rx_data (n_rx n))) ∧
  b = slice 0 len (rx_data (n_rx n)) ∧
  rx_data (n_rx n') = drop (Z.to_nat len) (rx_data (n_rx n)) ∧
  n' = n⟨n_rx := n_rx n'⟩.
Proof.
  unfold readn. intros Heq.
  destruct (decide (len < 0)) as [Hneg|].
  { assert (Hr : readn_ev (n_rx n) len = (Some [], n_rx n))
      by (destruct (n_rx n); simpl; destruct (len <=? 0) eqn:?; done || lia).
    rewrite Hr in Heq. simplify_eq. unfold slice. rewrite !Z2Nat.nonpos by lia.
    split_and!; [lia|done|done|done]. }
  destruct (decide (len ≤ Z.of_nat (length (rx_data (n_rx n))))) as [Hle|Hgt].
  - destruct (readn_ev_ok (n_rx n) len) as (evs&Hr&Hd); [lia|].
    rewrite Hr in Heq. simplify_eq. split_and!; auto.
  - pose proof (readn_ev_short (n_rx n) len). destruct (readn_ev _ _) as [r evs].
    simpl in *. simplify_eq. discriminate H. lia.
Qed.

Lemma readn_ok n len :
  0 ≤ len ≤ Z.of_nat (length (rx_data (n_rx n))) →
  ∃ evs, readn n len = (Some (slice 0 len (rx_data (n_rx n))), n⟨n_rx := evs⟩) ∧
    rx_data evs = drop (Z.to_nat len) (rx_data (n_rx n)).
Proof.
  intros Hlen. destruct (readn_ev_ok (n_rx n) len Hlen) as (evs&Hr&Hd).
  exists evs. unfold readn. by rewrite Hr.
Qed.

Lemma publish_nvis n : nvis (publish n) = nvis n.
Proof. done. Qed.
Lemma tcp_rtt_nvis n : nvis (sample_tcp_rtt n) = nvis n.
Proof. unfold sample_tcp_rtt. by case_match. Qed.

Lemma batch_nvis n t0 need n' t0' :
  batch_flush_unless n t0 need = (n', t0') → nvis n' = nvis n.
Proof.
  unfold batch_flush_unless, now_ns. case_match; [congruence|].
  destruct (v_fionread _) as [a|]; [destruct (a <? need)|];
    try (intros; by simplify_eq).
  case_match; intros; by simplify_eq.
Qed.

Lemma damage_add_px fb x y w h :
  fb_pixels (damage_add fb x y w h) = fb_pixels fb ∧
  fb_bytespp (damage_add fb x y w h) = fb_bytespp fb ∧
  fb_stride (damage_add fb x y w h) = fb_stride fb.
Proof.
  unfold damage_add. destruct (fb_damage_all fb); [done|].
  destruct (_ =? _); [|done]. by destruct (damage_box _ _ _ _ _) as [[[??]?]?].
Qed.

Lemma fb_put_rect_nvis n hd src :
  nvis (fb_put_rect n hd src) =
  (n_o n, n_fd n, n_rx n, n_srv_flags n, n_h264_offered n,
   (option_map (put_rect (fb_stride (n_fb n)) (fb_bytespp (n_fb n)) (fh_x hd) (fh_y hd)
      (fh_w hd) (fh_h hd) src) (fb_pixels (n_fb n)),
    fb_bytespp (n_fb n), fb_stride (n_fb n))).
Proof.
  unfold fb_put_rect, now_ns. cbv zeta.
  match goal with |- context [damage_add ?f ?x ?y ?w ?h] =>
    destruct (damage_add_px f x y w h) as (E1&E2&E3);
    set (fb' := damage_add f x y w h) in * end.
  clearbody fb'. destruct (_ && _); unfold nvis; cbn; by rewrite E1, E2, E3.
Qed.

Lemma on_ping_nvis n t b n' :
  on_ping n t = (b, n') → nvis n' = nvis n.
Proof.
  unfold on_ping, view_net_send, writen_locked, now_ns.
  destruct (n_fd n) eqn:Hfd.
  - destruct (writen_ev _ _) as [w ok]. destruct ok; cbn [negb].
    2:{ intros Heq. by injection Heq as <- <-. }
    cbv zeta. match goal with |- context [if ?b then _ else _] => destruct b end;
      intros Heq; injection Heq as <- <-; by rewrite tcp_rtt_nvis.
  - cbn [negb]. intros; by simplify_eq.
Qed.
End read.

(** * view/net.c: an H.264 episode keeps the framebuffer's shape

    The copy of a decoded picture stays inside the framebuffer whatever
    size the decoder announces, and the pull loop ends. *)
(** A loop of in-bounds row writes keeps the length. *)
Lemma for_blit_length h S (f : Z → bytes) (dst : bytes) n :
  0 ≤ h → 0 ≤ n ≤ S → h * S ≤ Z.of_nat (length dst) →
  (∀ y, 0 ≤ y < h → Z.of_nat (length (f y)) = n) →
  length (for_ 0 h (λ y d, blit d (y * S) (f y)) dst) = length dst.
Proof.
  intros Hh Hn HS Hf. apply (for_ind0 (λ _ d, length d = length dst)); [done|done|].
  intros y d Hy Hd. rewrite length_blit; [done|nia|]. rewrite Hf by done. nia.
Qed.

Section episode.
Context `{V : ViewSys} `{L : LZ4} `{A : AvCodec}.

Definition bpp_view (n : view_net) : Z :=
  if o_pixfmt (n_o n) =? SREMFB_PIX_RGB565 then 2 else 4.

(** The framebuffer and the conversion buffer have the stream's size. *)
Definition shaped (n : view_net) (scratch : bytes) (w h : Z) : Prop :=
  0 < w ∧ 0 < h ∧ fb_bytespp (n_fb n) = bpp_view n ∧
  fb_stride (n_fb n) = w * bpp_view n ∧
  Z.of_nat (length scratch) = w * h * bpp_view n ∧
  w * h * bpp_view n < 2 ^ 31 ∧
  ∃ px, fb_pixels (n_fb n) = Some px ∧ Z.of_nat (length px) = w * h * bpp_view n.

(** What an episode may not touch. *)
Definition link (n : view_net) :=
  (n_o n, n_fd n, n_rx n, n_srv_flags n, n_h264_offered n).

Lemma bpp_view_pos n : 2 ≤ bpp_view n ≤ 4.
Proof. unfold bpp_view. case_match; lia. Qed.

Lemma shaped_nvis n n' sc w h : nvis n' = nvis n → shaped n sc w h → shaped n' sc w h.
Proof.
  unfold nvis, shaped, bpp_view. intros Hv. injection Hv as E1 _ _ _ _ E2 E3 E4.
  by rewrite E1, E2, E3, E4.
Qed.

Lemma length_picture_scratch p sc w h cw ch pixfmt (bpp : Z) :
  bpp = (if pixfmt =? SREMFB_PIX_RGB565 then 2 else 4) →
  0 ≤ cw ≤ w → 0 ≤ ch ≤ h → Z.of_nat (length sc) = w * h * bpp →
  length (view_h264_convert p sc (w * bpp) cw ch pixfmt) = length sc.
Proof.
  intros Hb Hcw Hch Hsc. unfold view_h264_convert.
  assert (0 < bpp) by (subst bpp; case_match; lia).
  assert (ch * (w * bpp) ≤ h * (w * bpp)) by (apply Z.mul_le_mono_nonneg_r; nia).
  apply (for_blit_length ch (w * bpp) _ sc (cw * bpp)); [lia|nia|lia|].
  intros y Hy. rewrite length_view_convert_row by lia. by subst bpp.
Qed.

Lemma length_put_picture w h cw ch bpp sc dst :
  0 < bpp → 0 ≤ cw ≤ w → 0 ≤ ch ≤ h →
  Z.of_nat (length sc) = w * h * bpp → Z.of_nat (length dst) = w * h * bpp →
  length (put_picture (w * bpp) (cw * bpp) ch h sc dst (w * bpp)) = length dst.
Proof.
  intros Hb Hcw Hch Hsc Hdst. unfold put_picture. destruct (_ && _) eqn:Hfull.
  - assert (cw = w) as -> by nia. assert (ch = h) as -> by lia.
    rewrite length_blit; [done|lia|]. rewrite length_slice; nia.
  - assert (ch * (w * bpp) ≤ h * (w * bpp)) by (apply Z.mul_le_mono_nonneg_r; nia).
    apply (for_blit_length ch (w * bpp) (λ y, slice (y * (w * bpp)) (cw * bpp) sc) dst
      (cw * bpp)); [lia|nia|lia|].
    intros y Hy. assert ((y + 1) * (w * bpp) ≤ h * (w * bpp))
      by (apply Z.mul_le_mono_nonneg_r; nia).
    rewrite length_slice; nia.
Qed.

Lemma h264_show_shaped n hc p sc w h n' hc' sc' :
  shaped n sc w h → 0 ≤ p_w p → 0 ≤ p_h p →
  h264_show n hc p sc w h = (n', hc', sc') →
  shaped n' sc' w h ∧ link n' = link n ∧ hc_dec hc' = hc_dec hc.
Proof.
  intros (Hw&Hh&Hb&Hs&Hsc&Hsm&px&Hpx&Hlen) Hpw Hph. unfold h264_show. cbv zeta.
  pose proof (bpp_view_pos n) as Hbp.
  set (cw := if p_w p <? w then _ else _). set (ch := if p_h p <? h then _ else _).
  assert (0 ≤ cw ≤ w) by (subst cw; destruct (p_w p <? w) eqn:?; lia).
  assert (0 ≤ ch ≤ h) by (subst ch; destruct (p_h p <? h) eqn:?; lia).
  fold (bpp_view n). set (hc1 := if _ && _ then _ else hc).
  assert (hc_dec hc1 = hc_dec hc) by (subst hc1; by destruct (_ && _)).
  clearbody hc1 cw ch.
  assert (Hc : length (view_h264_convert p sc (w * bpp_view n) cw ch (o_pixfmt (n_o n)))
    = length sc) by (by apply (length_picture_scratch _ _ w h)).
  set (sc1 := view_h264_convert _ _ _ _ _ _) in *. clearbody sc1.
  rewrite Hb, Hs.
  assert (Hp : length (put_picture (w * bpp_view n) (cw * bpp_view n) ch h sc1 px
    (w * bpp_view n)) = length px) by (apply length_put_picture; lia).
  destruct (_ && _); unfold now_ns; intros Heq; injection Heq as <- <- <-;
    (split; [|done]);
    unfold shaped, bpp_view in *; cbn; rewrite Hpx; cbn;
    (split_and!; [lia..|eexists; split; [done|lia]]).
Qed.

Lemma receive_dims d d' p :
  view_h264_receive d = (d', PicSome p) → 0 ≤ p_w p ∧ 0 ≤ p_h p.
Proof.
  unfold view_h264_receive. destruct (avcodec_receive_frame d) as [[d1 rc] f].
  repeat (case_match; try discriminate). intros Heq. injection Heq as _ <-. simpl.
  pose proof (u32_range (av_width f)). pose proof (u32_range (av_height f)). lia.
Qed.

Lemma h264_pull_shaped fuel n hc d sc w h k r n' hc' sc' :
  shaped n sc w h → h264_pull fuel n hc d sc w h k = (r, (n', hc', sc')) →
  shaped n' sc' w h ∧ link n' = link n.
Proof.
  revert n hc d sc k. induction fuel as [|fuel IH]; intros n hc d sc k Hs; cbn [h264_pull].
  { intros; by simplify_eq. }
  destruct (view_h264_receive d) as [d1 []] eqn:Hr; [intros; by simplify_eq| |intros; by simplify_eq].
  destruct (h264_show n hc p sc w h) as [[n1 hc1] sc1] eqn:Hshow.
  destruct (receive_dims _ _ _ Hr).
  apply h264_show_shaped in Hshow as (Hs1&Hl1&_); [|done..].
  intros Heq. apply IH in Heq as [? Hl]; [|done]. split; [done|]. by rewrite Hl.
Qed.

(** With more fuel than pictures pending the loop always reaches the
    decoder's own end: more fuel changes nothing. *)
Lemma h264_pull_total `{!AvCodecLaws A} f1 f2 n hc d sc w h k :
  (av_pending d < f1)%nat → (av_pending d < f2)%nat →
  h264_pull f1 n hc d sc w h k = h264_pull f2 n hc d sc w h k.
Proof.
  revert f2 n hc d sc k. induction f1 as [|f1 IH]; intros f2 n hc d sc k H1 H2; [lia|].
  destruct f2 as [|f2]; [lia|]. cbn [h264_pull].
  destruct (view_h264_receive d) as [d1 r] eqn:Hr. destruct r; try done.
  destruct (h264_show n hc p sc w h) as [[n1 hc1] sc1].
  assert (av_pending d1 < av_pending d)%nat.
  { unfold view_h264_receive in Hr.
    destruct (avcodec_receive_frame d) as [[d2 rc] f] eqn:Hf.
    repeat (case_match; try discriminate). simplify_eq.
    eapply av_receive_pending; [exact Hf|lia]. }
  apply IH; lia.
Qed.

Definition s_shaped (s : loop_state) : Prop := shaped (s_n s) (s_scratch s) (s_w s) (s_h s).

(** What a message handler may do to the loop's state: the framebuffer
    keeps its shape, the connection's parameters do not change. *)
Definition s_link (n : view_net) :=
  (n_o n, n_fd n, n_srv_flags n, n_h264_offered n).
Definition keeps (s s' : loop_state) : Prop :=
  (s_shaped s → s_shaped s') ∧ s_link (s_n s') = s_link (s_n s) ∧
  s_w s' = s_w s ∧ s_h s' = s_h s.

Lemma keeps_refl s : keeps s s.
Proof. by split_and!. Qed.
Lemma keeps_trans s1 s2 s3 : keeps s1 s2 → keeps s2 s3 → keeps s1 s3.
Proof. intros (?&?&?&?) (?&?&?&?). split_and!; [auto|congruence..]. Qed.

Lemma keeps_link s s' :
  (s_shaped s → s_shaped s') → link (s_n s') = link (s_n s) →
  s_w s' = s_w s → s_h s' = s_h s → keeps s s' ∧ n_rx (s_n s') = n_rx (s_n s).
Proof.
  intros ? Hl ??. unfold link in Hl. injection Hl as ?????.
  split; [|done]. unfold keeps, s_link. split_and!; [done|congruence..].
Qed.

Lemma h264_decode_keeps s d hd au t0 b s' :
  s_shaped s → h264_decode s d hd au t0 = (b, s') →
  keeps s s' ∧ n_rx (s_n s') = n_rx (s_n s).
Proof.
  intros Hs. unfold h264_decode. cbv zeta.
  set (nh := if h264_active _ then _ else _).
  assert (Hn : nvis nh.1 = nvis (s_n s))
    by (subst nh; destruct (h264_active (n_st (s_n s))); done).
  assert (Hsh : shaped nh.1 (s_scratch s) (s_w s) (s_h s)) by (by eapply shaped_nvis).
  assert (Hlk : link nh.1 = link (s_n s)).
  { unfold nvis in Hn. injection Hn as. unfold link. congruence. }
  destruct nh as [n1 hc1]. cbn [fst] in *.
  destruct (view_h264_send d (Some au)) as [d1 []]; cbn [negb].
  2:{ intros Heq; injection Heq as <- <-. apply keeps_link; [intros _; exact Hsh|exact Hlk|done|done]. }
  destruct (h264_pull _ _ _ _ _ _ _ _) as [r [[n2 hc2] sc2]] eqn:Hp.
  apply h264_pull_shaped in Hp as [Hs2 Hl2]; [|done]. rewrite Hlk in Hl2.
  destruct r as [shown|].
  2:{ intros Heq; injection Heq as <- <-. apply keeps_link; [intros _; exact Hs2|exact Hl2|done|done]. }
  destruct (AU_SILENT_MAX <=? _).
  { intros Heq; injection Heq as <- <-. apply keeps_link; [intros _; exact Hs2|exact Hl2|done|done]. }
  unfold now_ns. destruct (has_flag _ _); intros Heq; injection Heq as <- <-;
    (apply keeps_link; [intros _; exact Hs2|exact Hl2|done|done]).
Qed.

Lemma link_nvis n n' : nvis n' = nvis n → link n' = link n.
Proof. unfold nvis, link. intros Hv. injection Hv as. congruence. Qed.

Lemma shaped_rx n evs sc w h : shaped n sc w h → shaped n⟨n_rx := evs⟩ sc w h.
Proof. done. Qed.

(** A handler that goes on has read its payload and nothing else. *)
Definition consumed (s s' : loop_state) (k : Z) : Prop :=
  k ≤ Z.of_nat (length (rx_data (n_rx (s_n s)))) ∧
  rx_data (n_rx (s_n s')) = drop (Z.to_nat k) (rx_data (n_rx (s_n s))).

Lemma h264_au_true s hd s' :
  s_shaped s → h264_au s hd = (true, s') →
  keeps s s' ∧ consumed s s' (fh_payload_len hd).
Proof.
  intros Hs. unfold h264_au. do 2 (destruct (_ || _); [discriminate|]).
  destruct (readn (s_n s) _) as [[au|] n1] eqn:Hr; [|discriminate].
  apply readn_true in Hr as (Hle&_&Hd&Hn1).
  unfold now_ns. set (s1 := s⟨s_n := tick n1⟩).
  assert (Hs1 : s_shaped s1) by (unfold s1, s_shaped; cbn; rewrite Hn1; exact Hs).
  assert (Hk1 : keeps s s1).
  { split_and!; [by intros _| |done|done]. unfold s1, s_link; cbn. by rewrite Hn1. }
  assert (Hend : ∀ d, h264_decode s1 d hd au (v_now_ns (n_tick n1)) = (true, s') →
    keeps s s' ∧ consumed s s' (fh_payload_len hd)).
  { intros d Hdec. apply h264_decode_keeps in Hdec as [Hk Hrx]; [|done].
    split; [by eapply keeps_trans|]. split; [done|]. by rewrite Hrx. }
  destruct (hc_dec (s_hc s)); [apply Hend|].
  destruct view_h264_open; [apply Hend|discriminate].
Qed.

Lemma h264_eos_true s s' :
  s_shaped s → h264_eos s = (true, s') → keeps s s' ∧ n_rx (s_n s') = n_rx (s_n s).
Proof.
  intros Hs. unfold h264_eos. cbv zeta. destruct (hc_dec (s_hc s)) as [d|].
  2:{ intros Heq; injection Heq as <-. by apply keeps_link. }
  destruct (view_h264_send d None) as [d1 []]; [|discriminate]. cbn [negb].
  destruct (h264_pull _ _ _ _ _ _ _ _) as [r [[n2 hc2] sc2]] eqn:Hp.
  apply h264_pull_shaped in Hp as [Hs2 Hl2]; [|done].
  destruct r as [shown|]; [|discriminate].
  intros Heq; injection Heq as <-.
  apply keeps_link; [intros _; exact Hs2|exact Hl2|done|done].
Qed.

Lemma read_rect_true n hd cap rb px n' :
  0 ≤ rb < 2 ^ 31 → read_rect n hd cap rb = (Some px, n') →
  Z.of_nat (length px) = rb ∧
  ∃ k, k ≤ Z.of_nat (length (rx_data (n_rx n))) ∧
    rx_data (n_rx n') = drop (Z.to_nat k) (rx_data (n_rx n)) ∧
    s_link n' = s_link n ∧ n_fb n' = n_fb n.
Proof.
  intros Hrb. unfold read_rect. destruct (_ =? SREMFB_ENC_RAW).
  - destruct (negb _); [discriminate|].
    intros (?&->&?&->)%readn_true. split; [rewrite length_slice; lia|]. by exists rb.
  - destruct (_ || _); [discriminate|].
    destruct (readn n _) as [[comp|] n1] eqn:Hr; [|discriminate].
    apply readn_true in Hr as (?&_&Hd&->). unfold now_ns.
    rewrite s32_small by (change (2 ^ 31) with 2147483648 in Hrb; lia).
    destruct (LZ4_decompress_safe _ _) as [d|]; [|discriminate].
    destruct (_ =? rb) eqn:Hlen; [|discriminate].
    intros Heq; injection Heq as <- <-. split; [lia|].
    by exists (fh_payload_len hd).
Qed.

Definition hdr_pos (hd : sremfb_frame_hdr) : Prop :=
  0 ≤ fh_x hd ∧ 0 ≤ fh_y hd ∧ 0 ≤ fh_w hd ∧ 0 ≤ fh_h hd.

Lemma get_pos n off b : bytes_ok b → 0 ≤ get n off b.
Proof. intros. unfold get. apply of_le_range. auto with srem. Qed.

Lemma frame_hdr_pos b : bytes_ok b → hdr_pos (frame_hdr_of b).
Proof. intros. unfold hdr_pos, frame_hdr_of; cbn. auto using get_pos. Qed.

Lemma rect_msg_true s hd s' :
  s_shaped s → hdr_pos hd → rect_msg s hd = (true, s') →
  keeps s s' ∧ ∃ k, consumed s s' k.
Proof.
  intros Hs (Hx&Hy&Hw&Hh). unfold rect_msg.
  destruct (_ || _) eqn:Hguard; [discriminate|]. cbv zeta.
  destruct (batch_flush_unless _ _ _) as [n1 t1] eqn:Hb. apply batch_nvis in Hb.
  destruct (if t1 =? 0 then _ else _) as [t2 n2] eqn:Ht.
  assert (Hn2 : nvis n2 = nvis (s_n s)).
  { rewrite <- Hb. unfold now_ns in Ht. case_match; by simplify_eq. }
  pose proof (shaped_nvis _ _ _ _ _ Hn2 Hs) as Hs2.
  pose proof (link_nvis _ _ Hn2) as Hl2.
  assert (Hbpp : s_bytespp s = bpp_view n2).
  { unfold s_bytespp, bpp_view. unfold link in Hl2. injection Hl2 as E _ _ _ _.
    by rewrite E. }
  assert (Hrx2 : n_rx n2 = n_rx (s_n s)) by (unfold link in Hl2; injection Hl2 as; done).
  rewrite Hbpp. destruct Hs2 as (Hsw&Hsh&Hfb&Hst&Hsc&Hsm&px0&Hpx0&Hlen0).
  pose proof (bpp_view_pos n2) as Hbp.
  destruct (read_rect n2 hd _ _) as [[px|] n3] eqn:Hr; [|discriminate].
  assert (Hle : fh_w hd * fh_h hd * bpp_view n2 ≤ s_w s * s_h s * bpp_view n2).
  { apply Z.mul_le_mono_nonneg_r; [lia|]. apply Z.mul_le_mono_nonneg; lia. }
  assert (0 ≤ fh_w hd * fh_h hd * bpp_view n2) by nia.
  apply read_rect_true in Hr as (Hpx&k&Hk&Hd&Hl3&Hf3); [|lia].
  intros Heq; injection Heq as <-.
  assert (Hv := fb_put_rect_nvis n3 hd px). unfold nvis in Hv.
  injection Hv as E1 E2 E3 E4 E5 E6 E7 E8.
  unfold s_link in Hl3. injection Hl3 as L1 L2 L3 L4.
  unfold link in Hl2. injection Hl2 as M1 M2 M3 M4 M5.
  split.
  - split_and!; [intros _| |done|done].
    + rewrite Hf3, Hst, Hfb, Hpx0 in E6. cbn [option_map] in E6.
      unfold s_shaped, shaped, bpp_view in *. cbn.
      rewrite E1, E6, E7, E8, L1, Hf3. split_and!; [lia|lia|done|done| |done|].
      * rewrite length_blit; lia.
      * eexists. split; [done|].
        destruct (put_rect_spec (s_w s) (if o_pixfmt (n_o n2) =? SREMFB_PIX_RGB565 then 2 else 4)
          (fh_x hd) (fh_y hd) (fh_w hd) (fh_h hd) px px0) as [-> _]; try lia; nia.
    + unfold s_link. cbn. by rewrite E1, E2, E4, E5, L1, L2, L3, L4, M1, M2, M4, M5.
  - exists k. rewrite Hrx2 in *. split; [done|]. cbn. by rewrite E3.
Qed.
End episode.

(** * view/net.c: the message loop

    Every iteration that goes on consumed a header, so the loop stops; the
    framebuffer keeps its shape through every message. *)
Section loop.
Context `{V : ViewSys} `{L : LZ4} `{A : AvCodec}.

Definition rx_of (s : loop_state) : bytes := rx_data (n_rx (s_n s)).

Lemma consumed_rx s s1 s' k :
  rx_of s1 = rx_of s → consumed s1 s' k → consumed s s' k.
Proof. unfold consumed, rx_of. by intros ->. Qed.

Lemma nvis_keeps s n t0 :
  nvis n = nvis (s_n s) →
  keeps s s⟨s_n := n⟩⟨s_batch_t0 := t0⟩ ∧ rx_of s⟨s_n := n⟩⟨s_batch_t0 := t0⟩ = rx_of s.
Proof.
  intros Hn. pose proof (link_nvis _ _ Hn) as Hl.
  destruct (keeps_link s s⟨s_n := n⟩⟨s_batch_t0 := t0⟩) as [Hk Hr]; try done.
  - intros Hs. by eapply shaped_nvis.
  - split; [exact Hk|]. unfold rx_of. by rewrite Hr.
Qed.

Lemma stream_dispatch_true s1 hd s' :
  s_shaped s1 → hdr_pos hd → stream_dispatch s1 hd = (true, s') →
  keeps s1 s' ∧ ∃ k, consumed s1 s' k.
Proof.
  intros Hs1 Hpos. unfold stream_dispatch.
  assert (Hend0 : keeps s1 s' ∧ n_rx (s_n s') = n_rx (s_n s1) →
    keeps s1 s' ∧ ∃ k, consumed s1 s' k).
  { intros [Hk Hc]. split; [done|]. exists 0. split; [lia|]. by rewrite Hc. }
  destruct (_ || _).
  { destruct (negb _); [discriminate|]. intros Heq; injection Heq as <-.
    apply Hend0. by apply keeps_link. }
  destruct (_ =? SREMFB_ENC_PING).
  { destruct (negb _); [discriminate|].
    destruct (readn _ 8) as [[b|] n] eqn:Hr; [|discriminate].
    apply readn_true in Hr as (Hle&_&Hd&Hn).
    destruct (on_ping n (of_le b)) as [ok n'] eqn:Hp. apply on_ping_nvis in Hp.
    intros Heq; injection Heq as _ <-.
    destruct (keeps_link s1⟨s_n := n⟩ s1⟨s_n := n'⟩) as [Hk Hrx]; try done.
    { intros Hsh. by eapply shaped_nvis. }
    { by apply (link_nvis n n'). }
    split.
    - eapply keeps_trans; [|exact Hk]. rewrite Hn. by split_and!.
    - exists 8. split; [done|]. rewrite Hrx. exact Hd. }
  destruct (_ && (_ =? SREMFB_ENC_H264)).
  { intros Hau. apply h264_au_true in Hau as [Hk Hc]; [|done]. eauto. }
  destruct (_ && _).
  { destruct (negb _); [discriminate|]. intros He. apply Hend0. by apply h264_eos_true. }
  destruct (_ && _); [discriminate|].
  intros Hrm. by apply rect_msg_true in Hrm.
Qed.

(** Before the dispatch only counters move. *)
Lemma stream_msg_pre s hd :
  fh_magic hd = SREMFB_MAGIC → ∃ n t0, nvis n = nvis (s_n s) ∧
    stream_msg s hd = stream_dispatch s⟨s_n := n⟩⟨s_batch_t0 := t0⟩ hd.
Proof.
  intros Hm. unfold stream_msg. rewrite Hm. cbn [negb Z.eqb]. cbv zeta.
  set (n := st_upd _ _). rewrite Z.eqb_refl. cbn [negb].
  destruct (_ && _).
  - by exists (publish n), 0.
  - exists n, (s_batch_t0 s). done.
Qed.

Lemma stream_msg_true s hd s' :
  s_shaped s → hdr_pos hd → stream_msg s hd = (true, s') →
  keeps s s' ∧ ∃ k, consumed s s' k.
Proof.
  intros Hs Hpos Hmsg. assert (fh_magic hd = SREMFB_MAGIC) as Hm.
  { unfold stream_msg in Hmsg. destruct (fh_magic hd =? SREMFB_MAGIC) eqn:?; [lia|done]. }
  destruct (stream_msg_pre s hd Hm) as (n&t0&Hn&Heq). rewrite Heq in Hmsg.
  destruct (nvis_keeps s n t0 Hn) as [Hk1 Hr1].
  apply stream_dispatch_true in Hmsg as [Hk (k&Hc)]; [|by apply Hk1|done].
  split; [by eapply keeps_trans|]. exists k. by eapply consumed_rx.
Qed.

Lemma stream_step_true s s' :
  s_shaped s → bytes_ok (rx_of s) → stream_step s = (true, s') →
  keeps s s' ∧ bytes_ok (rx_of s') ∧ (length (rx_of s') + 20 ≤ length (rx_of s))%nat.
Proof.
  intros Hs Hok. unfold stream_step. destruct (v_stop _); [discriminate|].
  destruct (batch_flush_unless _ _ _) as [n1 t1] eqn:Hb.
  apply batch_nvis in Hb.
  destruct (nvis_keeps s n1 t1) as [Hk1 Hr1]; [exact Hb|].
  destruct (readn n1 20) as [[b|] n2] eqn:Hr; [|discriminate].
  apply readn_true in Hr as (Hle&Hbb&Hd&Hn2).
  set (s2 := s⟨s_batch_t0 := t1⟩⟨s_n := n2⟩).
  assert (Hrx1 : rx_data (n_rx n1) = rx_of s) by exact Hr1.
  assert (Hk2 : keeps s s2).
  { eapply keeps_trans; [exact Hk1|]. subst s2. rewrite Hn2. by split_and!. }
  assert (Hpos : hdr_pos (frame_hdr_of b)).
  { apply frame_hdr_pos. subst b. rewrite Hrx1. auto with srem. }
  intros Hmsg. apply stream_msg_true in Hmsg as [Hk (k&Hc1&Hc2)]; [|by apply Hk2|done].
  assert (Hrx2 : rx_of s2 = drop 20 (rx_of s)) by (rewrite <- Hrx1; exact Hd).
  split_and!; [by eapply keeps_trans| |].
  - unfold rx_of. rewrite Hc2. fold (rx_of s2). rewrite Hrx2. by do 2 apply Forall_drop.
  - unfold rx_of. rewrite Hc2, length_drop. fold (rx_of s2) (rx_of s).
    rewrite Hrx2, length_drop. rewrite Hrx1 in Hle. lia.
Qed.

Lemma stream_run_stops fuel s :
  s_shaped s → bytes_ok (rx_of s) → (length (rx_of s) < fuel)%nat →
  (stream_run fuel s).1 = false.
Proof.
  revert s. induction fuel as [|fuel IH]; intros s Hs Hok Hf; [lia|]. cbn [stream_run].
  destruct (stream_step s) as [[] s'] eqn:Hst; [|done].
  apply stream_step_true in Hst as (Hk&Hok'&Hlen); [|done|done].
  apply IH; [by apply Hk|done|lia].
Qed.

Lemma stream_start_shaped n w h :
  0 < w → 0 < h →
  w * h * (if o_pixfmt (n_o n) =? SREMFB_PIX_RGB565 then 2 else 4) < 2 ^ 31 →
  s_shaped (stream_start n w h) ∧ rx_of (stream_start n w h) = rx_data (n_rx n).
Proof.
  intros Hw Hh Hsm. unfold stream_start.
  set (n1 := _⟨n_fd := true⟩).
  assert (Hv := tcp_rtt_nvis n1).
  assert (0 ≤ w * h * (if o_pixfmt (n_o n) =? SREMFB_PIX_RGB565 then 2 else 4))
    by (case_match; nia).
  split.
  - unfold s_shaped. cbn [s_n s_scratch s_w s_h]. eapply shaped_nvis; [exact Hv|].
    unfold shaped, bpp_view; cbn. split_and!; try done.
    + rewrite length_replicate. lia.
    + eexists. split; [done|]. rewrite length_replicate. lia.
  - unfold rx_of; cbn [s_n]. unfold nvis in Hv. injection Hv as _ _ -> _ _ _ _ _. done.
Qed.
End loop.
