(* ===== verification/Paint.v ===== *)
(** * What the viewer paints is what the server last sent

    Painting a converted rect over the converted shadow frame gives the
    converted frame of the updated shadow ([paint_rect]). *)
From S2P Require Import Prelude Binary64 Protocol Core Convert Encoder Net Xmit Control.
From S2P Require Import Drain XmitSpec Dirty Coverage ViewH264 ViewNet Blit.

(** ** The converted frame *)
Section paint.
Context `{Platform}.

(** The wire-format image of a BGRx frame of width [gw] and height [gh]. *)
Definition conv_frame (gw gh pixfmt : Z) (frame : bytes) : bytes :=
  rect_pixels frame gw pixfmt 0 0 gw gh.

(** Row [y] of the frame and its conversion from column [x] on. *)
Definition row_px (gw pixfmt : Z) (frame : bytes) (x w y : Z) : bytes :=
  sremfb_convert_bgrx_row (slice ((y * gw + x) * 4) (w * 4) frame) w pixfmt x y.

Lemma length_row_px gw gh pixfmt frame x w y :
  0 < gw → Z.of_nat (length frame) = gw * gh * 4 →
  0 ≤ x → 0 ≤ w → x + w ≤ gw → 0 ≤ y < gh →
  Z.of_nat (length (row_px gw pixfmt frame x w y)) = w * bytespp_of pixfmt.
Proof.
  intros. unfold row_px. apply length_convert_row; [done|].
  rewrite length_slice; nia.
Qed.

(** Part of a converted row is the conversion of that part of the row. *)
Lemma row_px_slice gw gh pixfmt frame x w y :
  0 < gw → Z.of_nat (length frame) = gw * gh * 4 →
  0 ≤ x → 0 ≤ w → x + w ≤ gw → 0 ≤ y < gh →
  slice (x * bytespp_of pixfmt) (w * bytespp_of pixfmt)
    (row_px gw pixfmt frame 0 gw y) = row_px gw pixfmt frame x w y.
Proof.
  intros. unfold row_px. rewrite convert_row_slice; try lia.
  2:{ rewrite length_slice; nia. }
  rewrite slice_slice by nia. do 2 f_equal; lia.
Qed.

Lemma bytespp_pos pixfmt : 0 < bytespp_of pixfmt.
Proof. unfold bytespp_of. case_match; lia. Qed.

Lemma bytespp_range pixfmt : 2 ≤ bytespp_of pixfmt ≤ 4.
Proof. unfold bytespp_of. case_match; lia. Qed.

Lemma length_rect_pixels gw gh pixfmt frame x y w h :
  0 < gw → Z.of_nat (length frame) = gw * gh * 4 →
  0 ≤ x → 0 ≤ w → x + w ≤ gw → 0 ≤ y → 0 ≤ h → y + h ≤ gh →
  Z.of_nat (length (rect_pixels frame gw pixfmt x y w h)) = w * h * bytespp_of pixfmt.
Proof.
  intros. unfold rect_pixels. pose proof (bytespp_pos pixfmt).
  rewrite (length_rows _ _ (Z.to_nat (w * bytespp_of pixfmt))); [nia|].
  intros k Hk. apply Nat2Z.inj. rewrite Z2Nat.id by nia.
  apply (length_row_px gw gh); lia.
Qed.

(** Byte [k] of row [i] of a converted rect. *)
Lemma lookup_rect_pixels gw gh pixfmt frame x y w h (i k : Z) :
  0 < gw → Z.of_nat (length frame) = gw * gh * 4 →
  0 ≤ x → 0 < w → x + w ≤ gw → 0 ≤ y → y + h ≤ gh →
  0 ≤ i < h → 0 ≤ k < w * bytespp_of pixfmt →
  rect_pixels frame gw pixfmt x y w h !! Z.to_nat (i * (w * bytespp_of pixfmt) + k) =
  row_px gw pixfmt frame x w (y + i) !! Z.to_nat k.
Proof.
  intros. unfold rect_pixels. pose proof (bytespp_pos pixfmt).
  set (n := w * bytespp_of pixfmt) in *. assert (0 < n) by (subst n; nia).
  rewrite (rows_lookup _ _ n).
  - rewrite Z2Nat.id by nia.
    rewrite Z.div_add_l, Z.div_small by lia.
    rewrite Z.add_comm, (Z.mul_comm i), Z.mul_comm, Z.mod_add, Z.mod_small by lia.
    rewrite Z.add_0_r, Z.add_0_l. done.
  - intros j Hj. apply (length_row_px gw gh); lia.
  - done.
  - rewrite Z2Nat.id by nia. nia.
Qed.

Lemma row_px_part gw gh pixfmt frame a n q r :
  0 < gw → Z.of_nat (length frame) = gw * gh * 4 →
  0 ≤ a → 0 ≤ n → a + n ≤ gw → 0 ≤ q < gh →
  a * bytespp_of pixfmt ≤ r < (a + n) * bytespp_of pixfmt →
  row_px gw pixfmt frame 0 gw q !! Z.to_nat r =
  row_px gw pixfmt frame a n q !! Z.to_nat (r - a * bytespp_of pixfmt).
Proof.
  intros. pose proof (bytespp_pos pixfmt).
  rewrite <- (row_px_slice gw gh pixfmt frame a n q) by lia.
  rewrite lookup_slice by lia. f_equal. rewrite <- Z2Nat.inj_add by nia. f_equal. lia.
Qed.

(** A converted row only depends on the pixels it covers. *)
Lemma row_px_ext gw pixfmt (f g : bytes) x w y :
  0 < gw → 0 ≤ x → 0 ≤ w → x + w ≤ gw → 0 ≤ y →
  (∀ i : nat, Z.of_nat i / (gw * 4) = y →
     x * 4 ≤ Z.of_nat i mod (gw * 4) < (x + w) * 4 → f !! i = g !! i) →
  row_px gw pixfmt f x w y = row_px gw pixfmt g x w y.
Proof.
  intros ????? Hfg. unfold row_px. f_equal. apply list_eq. intros k.
  destruct (decide (Z.of_nat k < w * 4)).
  2:{ unfold slice. rewrite !lookup_take_ge by lia. done. }
  rewrite !lookup_slice by lia.
  assert (Hi : Z.of_nat (Z.to_nat ((y * gw + x) * 4) + k) =
               y * (gw * 4) + (x * 4 + Z.of_nat k)) by nia.
  apply Hfg; rewrite Hi.
  - rewrite Z.div_add_l, Z.div_small by lia. lia.
  - rewrite Z.add_comm, Z.mod_add, Z.mod_small by lia. lia.
Qed.

Lemma lookup_conv_frame gw gh pixfmt frame (j : nat) :
  0 < gw → Z.of_nat (length frame) = gw * gh * 4 →
  Z.of_nat j < gw * gh * bytespp_of pixfmt →
  conv_frame gw gh pixfmt frame !! j =
  row_px gw pixfmt frame 0 gw (Z.of_nat j / (gw * bytespp_of pixfmt))
    !! Z.to_nat (Z.of_nat j mod (gw * bytespp_of pixfmt)).
Proof.
  intros. unfold conv_frame. pose proof (bytespp_pos pixfmt).
  set (S := gw * bytespp_of pixfmt) in *.
  pose proof (Z.div_mod (Z.of_nat j) S) as Hdm.
  pose proof (Z.mod_pos_bound (Z.of_nat j) S) as Hr.
  assert (0 < S) by (subst S; nia).
  assert (0 ≤ Z.of_nat j / S < gh).
  { split; [apply Z.div_pos; lia|apply Z.div_lt_upper_bound; [lia|subst S; nia]]. }
  rewrite <- (Z.add_0_l (Z.of_nat j / S)).
  rewrite <- (lookup_rect_pixels gw gh pixfmt frame 0 0 gw gh) by lia.
  f_equal. fold S. nia.
Qed.

(** Painting the conversion of a rect of [grab] over a framebuffer that
    shows [shadow] outside the rect gives the conversion of the frame that
    is [grab] inside the rect and [shadow] outside. *)
Lemma paint_rect gw gh pixfmt (grab shadow shadow' fb : bytes) x y w h :
  0 < gw → 0 < gh → 0 ≤ x → 0 < w → x + w ≤ gw → 0 ≤ y → 0 < h → y + h ≤ gh →
  Z.of_nat (length grab) = gw * gh * 4 → Z.of_nat (length shadow) = gw * gh * 4 →
  length shadow' = length shadow →
  (∀ i : nat, shadow' !! i =
     if decide (in_rect (gw * 4) (rect_of x y w h) (Z.of_nat i))
     then grab !! i else shadow !! i) →
  let bpp := bytespp_of pixfmt in
  Z.of_nat (length fb) = gw * gh * bpp →
  (∀ j : nat, ¬ in_block (gw * bpp) (x * bpp) ((x + w) * bpp) y h (Z.of_nat j) →
     fb !! j = conv_frame gw gh pixfmt shadow !! j) →
  put_rect (gw * bpp) bpp x y w h (rect_pixels grab gw pixfmt x y w h) fb =
  conv_frame gw gh pixfmt shadow'.
Proof.
  intros ???????? Hg Hs Hs' Hlk bpp Hfb Hout.
  pose proof (bytespp_pos pixfmt) as Hbpp. fold bpp in Hbpp.
  assert (Hsrc : Z.of_nat (length (rect_pixels grab gw pixfmt x y w h)) = w * h * bpp)
    by (apply (length_rect_pixels gw gh); lia).
  destruct (put_rect_spec gw bpp x y w h (rect_pixels grab gw pixfmt x y w h) fb)
    as [Hlen Hput]; try lia; [nia|].
  assert (Hcf : ∀ f, Z.of_nat (length f) = gw * gh * 4 →
    Z.of_nat (length (conv_frame gw gh pixfmt f)) = gw * gh * bpp)
    by (intros; apply (length_rect_pixels gw gh); lia).
  apply list_eq. intros j.
  destruct (decide (Z.of_nat j < gw * gh * bpp)) as [Hj|Hj].
  2:{ rewrite !lookup_ge_None_2; [done| |rewrite Hlen; lia].
      specialize (Hcf shadow'). lia. }
  rewrite Hput. set (S := gw * bpp) in *. assert (0 < S) by (subst S; nia).
  rewrite (lookup_conv_frame gw gh pixfmt shadow') by lia. fold bpp. fold S.
  pose proof (Z.div_mod (Z.of_nat j) S) as Hdm.
  pose proof (Z.mod_pos_bound (Z.of_nat j) S) as Hr.
  set (q := Z.of_nat j / S) in *. set (r := Z.of_nat j mod S) in *.
  assert (0 ≤ q < gh) by (subst S; nia).
  destruct (decide (in_block S (x * bpp) ((x + w) * bpp) y h (Z.of_nat j))) as [Hin|Hin].
  - unfold in_block in Hin. fold q r in Hin.
    etrans; [apply (lookup_rect_pixels gw gh); try lia; fold bpp; lia|].
    replace (y + (q - y)) with q by lia.
    rewrite (row_px_part gw gh pixfmt shadow' x w) by (fold bpp; lia).
    fold bpp. f_equal. apply row_px_ext; try lia.
    intros i Hq Hc. rewrite Hlk, decide_True; [done|].
    unfold in_rect, rect_of; simpl. lia.
  - rewrite (Hout j Hin), (lookup_conv_frame gw gh) by lia. fold bpp. fold S q r.
    assert (Hpart : ∀ a n, 0 ≤ a → 0 ≤ n → a + n ≤ gw →
      a * bpp ≤ r < (a + n) * bpp →
      (y ≤ q < y + h → a + n ≤ x ∨ x + w ≤ a) →
      row_px gw pixfmt shadow 0 gw q !! Z.to_nat r =
      row_px gw pixfmt shadow' 0 gw q !! Z.to_nat r).
    { intros a n ??? Hra Hoff.
      rewrite !(row_px_part gw gh pixfmt _ a n) by (fold bpp; lia).
      f_equal. apply row_px_ext; try lia.
      intros i Hq Hc. rewrite Hlk, decide_False; [done|].
      unfold in_rect, rect_of; simpl. rewrite Hq. lia. }
    unfold in_block in Hin. fold q r in Hin.
    destruct (decide (y ≤ q < y + h)) as [Hy|Hy].
    + destruct (decide (r < x * bpp)); [apply (Hpart 0 x); lia|].
      apply (Hpart (x + w) (gw - (x + w))); nia.
    + apply (Hpart 0 gw); lia.
Qed.
End paint.

(** * The server's byte stream is a sequence of whole messages

    [sent] is a message of the stream and [sent_bytes] its wire image.
    [stream] is what the client will have received once everything queued
    has left: the bytes already taken by the kernel, the rest of the frame
    in flight, the rest of the queue.  Every operation of the transmit path
    appends whole messages to it ([ext]), and painting the rects among them
    keeps the viewer's framebuffer equal to the converted shadow frame
    ([mirror]). *)
Inductive sent :=
  | SPing (t : Z)
  | SCtl (enc : Z)
  | SRect (lz4 : bool) (r : sremfb_rect) (px : bytes)
  | SAu (idr : bool) (w h : Z) (nal : bytes).

Section frames.
Context `{X : X264} `{L : LZ4} `{P : Platform}.
Implicit Types c : SremfbClient.

Definition rect_hdr (enc : Z) (r : sremfb_rect) (len : Z) : sremfb_frame_hdr :=
  mk_frame_hdr SREMFB_MAGIC enc 0 0 (x1 r) (y1 r) (x2 r - x1 r) (y2 r - y1 r) len.

Definition lz4_block (px : bytes) : bytes :=
  LZ4_compress_fast px (Z.of_nat (length px))
    (LZ4_compressBound (Z.of_nat (length px))) 1.

Definition au_hdr (idr : bool) (w h len : Z) : sremfb_frame_hdr :=
  mk_frame_hdr SREMFB_MAGIC SREMFB_ENC_H264 (if idr then SREMFB_H264_FLAG_IDR else 0)
    0 0 0 w h len.

Definition sent_bytes (s : sent) : bytes :=
  match s with
  | SPing t =>
    frame_hdr_bytes (frame_hdr_for SREMFB_ENC_PING)⟨fh_payload_len := 8⟩ ++ le 8 t
  | SCtl enc => frame_hdr_bytes (frame_hdr_for enc)
  | SRect true r px =>
    frame_hdr_bytes (rect_hdr SREMFB_ENC_LZ4 r (Z.of_nat (length (lz4_block px))))
      ++ lz4_block px
  | SRect false r px =>
    frame_hdr_bytes (rect_hdr SREMFB_ENC_RAW r (Z.of_nat (length px))) ++ px
  | SAu idr w h nal =>
    frame_hdr_bytes (au_hdr idr w h (Z.of_nat (length nal))) ++ nal
  end.

Definition is_ctl (s : sent) : Prop :=
  match s with
  | SPing t => 0 ≤ t < 2 ^ 64
  | SCtl e => e = SREMFB_ENC_H264_EOS ∨ e = SREMFB_ENC_BLANK ∨ e = SREMFB_ENC_UNBLANK
  | _ => False
  end.

(** What the session [c] may put on the wire. *)
Definition sent_ok (g : sremfb_geom) (bpp : Z) (lz4 : bool) (s : sent) : Prop :=
  match s with
  | SRect z r px =>
    rect_ok g r ∧ Z.of_nat (length px) = (x2 r - x1 r) * (y2 r - y1 r) * bpp ∧
    (z = true → lz4 = true ∧ 0 < Z.of_nat (length (lz4_block px)) < Z.of_nat (length px))
  | SAu _ w h nal =>
    w = g_width g ∧ h = g_height g ∧ 0 < Z.of_nat (length nal) < 2 ^ 31
  | _ => is_ctl s
  end.

Definition in_flight c : bytes :=
  if c_out_active c then drop (Z.to_nat (c_out_off c)) (c_out_seg0 c ++ c_out_seg1 c)
  else [].
Definition queued_of (q : list bytes) (off : Z) : bytes :=
  drop (Z.to_nat off) (mjoin q).
Definition queued c : bytes := queued_of (c_outq c) (c_outq_off c).
Definition stream c : bytes := c_wire c ++ in_flight c ++ queued c.

(** The offsets point into what they count, and a half-sent queue entry
    is never interrupted by a frame. *)
Definition stream_inv c : Prop :=
  0 ≤ c_outq_off c ∧
  match c_outq c with
  | [] => c_outq_off c = 0
  | m :: _ => c_outq_off c ≤ Z.of_nat (length m)
  end ∧
  (c_out_active c = true →
     c_outq_off c = 0 ∧
     0 ≤ c_out_off c ≤ Z.of_nat (length (c_out_seg0 c) + length (c_out_seg1 c))).

Definition same_session c c' : Prop :=
  c_geom c' = c_geom c ∧ c_hello c' = c_hello c ∧ c_lz4 c' = c_lz4 c.

(** [c'] extends the stream of [c] by the messages [ss]. *)
Definition emits c c' (ss : list sent) : Prop :=
  stream_inv c' ∧ same_session c c' ∧
  stream c' = stream c ++ mjoin (sent_bytes <$> ss).

Lemma emits_nil c c' :
  stream_inv c' → same_session c c' → stream c' = stream c → emits c c' [].
Proof. intros ?? Hs. split_and!; auto. by rewrite Hs, app_nil_r. Qed.

Lemma emits_refl c : stream_inv c → emits c c [].
Proof. intros. by apply emits_nil. Qed.

Lemma emits_trans c1 c2 c3 s1 s2 :
  emits c1 c2 s1 → emits c2 c3 s2 → emits c1 c3 (s1 ++ s2).
Proof.
  intros (?&(?&?&?)&E1) (?&(?&?&?)&E2). split_and!; auto; [split_and!; congruence|].
  by rewrite E2, E1, fmap_app, join_app, app_assoc.
Qed.

Lemma stream_vis c c' : vis c' = vis c → stream c' = stream c ∧
  (stream_inv c → stream_inv c') ∧ same_session c c'.
Proof.
  unfold vis. intros Hv. injection Hv as.
  unfold stream, stream_inv, in_flight, queued, same_session.
  repeat match goal with E : _ c' = _ c |- _ => rewrite E; clear E end. auto.
Qed.

Lemma emits_vis c c' : vis c' = vis c → stream_inv c → emits c c' [].
Proof. intros (?&?&?)%stream_vis ?. apply emits_nil; auto. Qed.

(** ** The queue operations *)
(** Messages that leave the picture alone. *)
Definition is_plain (s : sent) : Prop :=
  is_ctl s ∧ s ≠ SCtl SREMFB_ENC_H264_EOS.

Lemma ctl_msg_sent m : ctl_msg m → ∃ s, is_plain s ∧ m = sent_bytes s.
Proof.
  intros [(t&?&->)|(e&He&->)]; [by exists (SPing t)|].
  exists (SCtl e). split; [|done]. split; [by right|].
  intros ?; simplify_eq. by destruct He.
Qed.

Lemma emits_kick c : stream_inv c → emits c (sremfb_xmit_kick c) [].
Proof.
  intros. destruct (kick_quiet_or c) as (id&n&[->| ->]); by apply emits_nil.
Qed.

Lemma queued_app q off m :
  (Z.to_nat off ≤ length (mjoin q))%nat →
  queued_of (q ++ [m]) off = queued_of q off ++ m.
Proof.
  intros. unfold queued_of. rewrite join_app. simpl. rewrite app_nil_r.
  by rewrite drop_app_le.
Qed.

Lemma stream_inv_off c : stream_inv c →
  (Z.to_nat (c_outq_off c) ≤ length (mjoin (c_outq c)))%nat.
Proof.
  intros (?&Hq&_). destruct (c_outq c); simpl; [lia|]. rewrite length_app. lia.
Qed.

(** A queued message is the new end of the stream. *)
Lemma ctrl_stream c m :
  stream_inv c →
  let c' := sremfb_xmit_ctrl c m in
  stream_inv c' ∧ same_session c c' ∧
  (stream c' = stream c ++ m ∨
   (c_fd c < 0 ∨ c_lost_id c ≠ 0) ∧ c' = c).
Proof.
  intros Hi. unfold sremfb_xmit_ctrl. destruct (_ || _) eqn:Hg.
  { cbv zeta. split_and!; try done; try apply Hi. right. split; [lia|done]. }
  cbv zeta. match goal with |- context [sremfb_xmit_kick ?c1] => set (c' := c1) end.
  assert (Hi' : stream_inv c').
  { destruct Hi as (?&Hq&Ha). split_and!; [done| |exact Ha].
    cbn. destruct (c_outq c); simpl; [|done]. rewrite Hq. lia. }
  destruct (emits_kick c' Hi') as (Hik&Hss&Hst). rewrite app_nil_r in Hst.
  split; [exact Hik|]. split; [exact Hss|]. left. rewrite Hst.
  unfold stream, queued. cbn. rewrite queued_app by (by apply stream_inv_off).
  unfold in_flight; cbn. by rewrite !app_assoc.
Qed.

Lemma emits_ctrl c s :
  stream_inv c → is_ctl s →
  ∃ ss, emits c (sremfb_xmit_ctrl c (sent_bytes s)) ss ∧
    (ss = [] ∧ (c_fd c < 0 ∨ c_lost_id c ≠ 0) ∨ ss = [s]).
Proof.
  intros Hi Hs. destruct (ctrl_stream c (sent_bytes s) Hi) as (Hi'&Hss&[Hst|[Hdead Heq]]).
  - exists [s]. split; [|by right]. split_and!; [done|apply Hss..|].
    rewrite Hst. cbn. by rewrite app_nil_r.
  - exists []. split; [|by left]. rewrite Heq. by apply emits_refl.
Qed.

Lemma emits_lost c : stream_inv c → emits c (sremfb_schedule_client_lost c) [].
Proof.
  intros. unfold sremfb_schedule_client_lost, g_source_new.
  case_match; by apply emits_nil.
Qed.

(** ** Frame builds *)
Definition drained c : Prop :=
  c_out_active c = false ∧ c_outq c = [] ∧ c_outq_off c = 0.

Lemma drained_stream c : drained c → stream c = c_wire c ∧ stream_inv c.
Proof.
  intros (Ha&Hq&Ho). unfold stream, in_flight, queued, queued_of, stream_inv.
  rewrite Ha, Hq, Ho. simpl. rewrite app_nil_r. split_and!; [done|lia|done|done].
Qed.
End frames.
