(* ===== verification/Stream.v ===== *)
(** * Builds and the drain: what leaves the server and what it paints *)
From S2P Require Import Prelude Binary64 Protocol Core Convert Encoder Net Xmit Control Drain.
From S2P Require Import XmitSpec Dirty Coverage ViewH264 ViewNet Blit Paint.

Section stream.
Context `{X : X264} `{L : LZ4} `{P : Platform}.
Implicit Types c : SremfbClient.

(** What the hello and the mode set guarantee: a known pixel format and a
    frame LZ4 can take. *)
Definition session_ok c : Prop :=
  geom_ok (c_geom c) ∧
  g_width (c_geom c) * g_height (c_geom c) * 4 ≤ LZ4_MAX_INPUT_SIZE ∧
  (ch_pixfmt (c_hello c) = SREMFB_PIX_XRGB8888 ∨
   ch_pixfmt (c_hello c) = SREMFB_PIX_RGB565).

Definition pixfmt_of c : Z := ch_pixfmt (c_hello c).
Definition bpp_of c : Z := bytespp_of (pixfmt_of c).

Lemma client_bytespp_eq c : session_ok c → client_bytespp c = bpp_of c.
Proof.
  intros (_&_&Hp). unfold client_bytespp, bpp_of, bytespp_of, pixfmt_of.
  by destruct Hp as [->| ->].
Qed.

Lemma bpp_range c : 2 ≤ bpp_of c ≤ 4.
Proof. unfold bpp_of, bytespp_of. case_match; lia. Qed.

(** The two frames exist and have the size of the mode. *)
Definition frames_ok c (grab shadow : bytes) : Prop :=
  c_grabbuf c = Some grab ∧ c_shadowbuf c = Some shadow ∧
  Z.of_nat (length grab) = frame_size c ∧ Z.of_nat (length shadow) = frame_size c.

(** What a message may do to the client's framebuffer: a rect paints it,
    the messages of an H.264 episode leave some picture there. *)
Definition paint (W bpp : Z) (s : sent) (fb fb' : bytes) : Prop :=
  match s with
  | SRect _ r px =>
    fb' = put_rect (W * bpp) bpp (x1 r) (y1 r) (x2 r - x1 r) (y2 r - y1 r) px fb
  | SAu _ _ _ _ => length fb' = length fb
  | SCtl e => if e =? SREMFB_ENC_H264_EOS then length fb' = length fb else fb' = fb
  | SPing _ => fb' = fb
  end.
Fixpoint paint_all (W bpp : Z) (ss : list sent) (fb fb' : bytes) : Prop :=
  match ss with
  | [] => fb' = fb
  | s :: ss => ∃ fb1, paint W bpp s fb fb1 ∧ paint_all W bpp ss fb1 fb'
  end.
Definition paints c : list sent → bytes → bytes → Prop :=
  paint_all (g_width (c_geom c)) (bpp_of c).

(** In RAW mode, outside a pending snapshot, the framebuffer is the
    converted shadow frame. *)
Definition mirror c (fb : bytes) : Prop :=
  ∃ shadow, c_shadowbuf c = Some shadow ∧
    Z.of_nat (length fb) = g_width (c_geom c) * g_height (c_geom c) * bpp_of c ∧
    (c_xmit_mode c = XMIT_RAW → c_dirty_all c = false →
     fb = conv_frame (g_width (c_geom c)) (g_height (c_geom c)) (pixfmt_of c) shadow).

Lemma paint_all_app W bpp s1 s2 fb fb' :
  paint_all W bpp (s1 ++ s2) fb fb' ↔
  ∃ fb1, paint_all W bpp s1 fb fb1 ∧ paint_all W bpp s2 fb1 fb'.
Proof.
  revert fb. induction s1 as [|s s1 IH]; intros fb; simpl.
  - split; [by exists fb|]. by intros (?&->&?).
  - split.
    + intros (fb1&?&(fb2&?&?)%IH). eauto 6.
    + intros (fb2&(fb1&?&?)&?). exists fb1. split; [done|]. apply IH. eauto.
Qed.

Lemma paint_plain W bpp s fb fb' : is_plain s → paint W bpp s fb fb' → fb' = fb.
Proof.
  intros [Hc Hne]. destruct s as [t|e| |]; try done. simpl.
  case_match; [|done]. destruct Hne. f_equal. lia.
Qed.

Lemma mirror_fields c c' fb :
  c_shadowbuf c' = c_shadowbuf c → c_geom c' = c_geom c → c_hello c' = c_hello c →
  (c_xmit_mode c' = XMIT_RAW → c_dirty_all c' = false →
   c_xmit_mode c = XMIT_RAW ∧ c_dirty_all c = false) →
  mirror c fb → mirror c' fb.
Proof.
  intros Es Eg Eh Hm (sh&Hsh&Hl&Hfb). exists sh.
  unfold bpp_of, pixfmt_of in *. rewrite Es, Eg, Eh. split_and!; auto.
  intros H1 H2. destruct (Hm H1 H2). auto.
Qed.

Lemma kick_fields c :
  c_shadowbuf (sremfb_xmit_kick c) = c_shadowbuf c ∧
  c_geom (sremfb_xmit_kick c) = c_geom c ∧
  c_hello (sremfb_xmit_kick c) = c_hello c ∧
  c_xmit_mode (sremfb_xmit_kick c) = c_xmit_mode c ∧
  c_dirty_all (sremfb_xmit_kick c) = c_dirty_all c.
Proof. by destruct (kick_quiet_or c) as (?&?&[->| ->]). Qed.

Lemma ctrl_fields c m :
  c_shadowbuf (sremfb_xmit_ctrl c m) = c_shadowbuf c ∧
  c_geom (sremfb_xmit_ctrl c m) = c_geom c ∧
  c_hello (sremfb_xmit_ctrl c m) = c_hello c ∧
  c_xmit_mode (sremfb_xmit_ctrl c m) = c_xmit_mode c ∧
  c_dirty_all (sremfb_xmit_ctrl c m) = c_dirty_all c.
Proof.
  unfold sremfb_xmit_ctrl. case_match; [done|]. cbv zeta.
  match goal with |- context [sremfb_xmit_kick ?c1] =>
    destruct (kick_fields c1) as (?&?&?&?&?) end. done.
Qed.

Lemma ctl_ok g bpp lz ss : Forall is_ctl ss → Forall (sent_ok g bpp lz) ss.
Proof. intros Hss. eapply Forall_impl; [exact Hss|]. by intros []. Qed.

Lemma mirror_vacuous c c' fb fb' :
  c_shadowbuf c' = c_shadowbuf c → c_geom c' = c_geom c → c_hello c' = c_hello c →
  length fb' = length fb → c_dirty_all c' = true →
  mirror c fb → mirror c' fb'.
Proof.
  intros Es Eg Eh El Hd (sh&Hsh&Hl&_). exists sh.
  unfold bpp_of, pixfmt_of in *. rewrite Es, Eg, Eh, El. split_and!; congruence.
Qed.

(** ** The order of an episode's messages

    Between the first access unit and the end-of-stream mark no rect is
    sent, as long as the connection is not being dropped (nothing is queued
    any more then, the mark included). *)
Fixpoint brackets (open : bool) (ss : list sent) (open' : bool) : Prop :=
  match ss with
  | [] => open = true → open' = true
  | SAu _ _ _ _ :: ss => brackets true ss open'
  | SRect _ _ _ :: ss => open = false ∧ brackets false ss open'
  | SCtl e :: ss => brackets (if e =? SREMFB_ENC_H264_EOS then false else open) ss open'
  | SPing _ :: ss => brackets open ss open'
  end.

Definition in_h264 c : bool := bool_decide (c_xmit_mode c = XMIT_H264).
Definition alive c : Prop := 0 ≤ c_fd c ∧ c_lost_id c = 0.
Definition orderly c c' (ss : list sent) : Prop :=
  alive c' → alive c ∧ brackets (in_h264 c) ss (in_h264 c').

Lemma brackets_weaken ss b' : brackets true ss b' → brackets false ss b'.
Proof.
  induction ss as [|[t|e|z r px|i w h n] ss IH]; cbn [brackets]; try done.
  - by case_match.
  - by intros [].
Qed.

Lemma brackets_app s1 s2 b1 b2 b3 :
  brackets b1 s1 b2 → brackets b2 s2 b3 → brackets b1 (s1 ++ s2) b3.
Proof.
  revert b1. induction s1 as [|[t|e|z r px|i w h n] s1 IH]; intros b1; cbn [brackets app]; eauto.
  - intros Hb H2. destruct b1, b2; try done; [by specialize (Hb eq_refl)|].
    by apply brackets_weaken.
  - intros [-> H1] H2. eauto.
Qed.

Lemma orderly_trans c1 c2 c3 s1 s2 :
  orderly c1 c2 s1 → orderly c2 c3 s2 → orderly c1 c3 (s1 ++ s2).
Proof.
  intros H1 H2 Ha. destruct (H2 Ha) as [Ha2 Hb2]. destruct (H1 Ha2) as [Ha1 Hb1].
  split; [done|]. by eapply brackets_app.
Qed.

Lemma orderly_nil c c' :
  c_fd c' = c_fd c → (c_lost_id c' = 0 → c_lost_id c = 0) →
  c_xmit_mode c' = c_xmit_mode c → orderly c c' [].
Proof.
  unfold orderly, alive, in_h264. intros -> Hl -> [? ?]. split_and!; [done|auto|by cbn].
Qed.

(** ** Messages of the session, and what they do to the framebuffer *)
Definition sends c c' (ss : list sent) : Prop :=
  emits c c' ss ∧ Forall (sent_ok (c_geom c) (bpp_of c) (c_lz4 c)) ss ∧
  (∀ fb fb', mirror c fb → paints c ss fb fb' → mirror c' fb') ∧ orderly c c' ss.

Lemma sends_nil c c' :
  stream_inv c' → same_session c c' → stream c' = stream c →
  (∀ fb, mirror c fb → mirror c' fb) → orderly c c' [] → sends c c' [].
Proof.
  intros ??? Hm Ho. split_and!; [by apply emits_nil|constructor| |done].
  intros fb fb' Hfb Hp. cbn in Hp. subst fb'. by apply Hm.
Qed.

Lemma sends_trans c1 c2 c3 s1 s2 :
  sends c1 c2 s1 → sends c2 c3 s2 → sends c1 c3 (s1 ++ s2).
Proof.
  intros (E1&F1&M1&O1) (E2&F2&M2&O2). pose proof E1 as (_&(G&Hh&Hl)&_).
  assert (Hb : bpp_of c2 = bpp_of c1) by (unfold bpp_of, pixfmt_of; by rewrite Hh).
  rewrite G, Hb, Hl in F2.
  split; [by eapply emits_trans|]. split; [by apply Forall_app|].
  split; [|by eapply orderly_trans].
  intros fb fb' Hfb (fb1&H1&H2)%paint_all_app. apply (M2 fb1); [by apply (M1 fb)|].
  unfold paints. by rewrite G, Hb.
Qed.

Lemma sends_vis c c' : vis c' = vis c → stream_inv c → sends c c' [].
Proof.
  intros Hv Hi. pose proof (stream_vis c c' Hv) as (Hs&Hi'&Hss).
  unfold vis in Hv. injection Hv as. apply sends_nil; auto.
  - intros fb. apply mirror_fields; auto. intros; split; congruence.
  - apply orderly_nil; congruence.
Qed.

Lemma kick_alive c :
  c_fd (sremfb_xmit_kick c) = c_fd c ∧ c_lost_id (sremfb_xmit_kick c) = c_lost_id c.
Proof. by destruct (kick_quiet_or c) as (?&?&[->| ->]). Qed.

Lemma ctrl_alive c m :
  c_fd (sremfb_xmit_ctrl c m) = c_fd c ∧ c_lost_id (sremfb_xmit_ctrl c m) = c_lost_id c.
Proof.
  unfold sremfb_xmit_ctrl. case_match; [done|]. cbv zeta.
  match goal with |- context [sremfb_xmit_kick ?c1] => destruct (kick_alive c1) end. done.
Qed.

Lemma sends_kick c : stream_inv c → sends c (sremfb_xmit_kick c) [].
Proof.
  intros Hi. destruct (emits_kick c Hi) as (?&?&Hst). rewrite app_nil_r in Hst.
  destruct (kick_fields c) as (?&?&?&?&?), (kick_alive c) as [? El].
  apply sends_nil; [done..| |by apply orderly_nil; rewrite ?El].
  intros fb. apply mirror_fields; auto. intros; split; congruence.
Qed.

Lemma sends_ctrl c s :
  stream_inv c → is_plain s → ∃ ss, sends c (sremfb_xmit_ctrl c (sent_bytes s)) ss.
Proof.
  intros Hi Hs. destruct (emits_ctrl c s Hi (proj1 Hs)) as (ss&He&Hss). exists ss.
  destruct (ctrl_fields c (sent_bytes s)) as (?&?&?&Em&?).
  destruct (ctrl_alive c (sent_bytes s)) as [Ef El].
  split_and!; [done| | |].
  - apply ctl_ok. destruct Hss as [[-> _]| ->]; [constructor|constructor; [apply Hs|constructor]].
  - intros fb fb' Hfb Hp. assert (fb' = fb) as ->.
    { destruct Hss as [[-> _]| ->]; [done|]. destruct Hp as (fb1&Hp1&->).
      by eapply paint_plain. }
    revert Hfb. apply mirror_fields; auto. intros; split; congruence.
  - unfold orderly, alive, in_h264. rewrite Ef, El, Em. intros Ha. split; [done|].
    destruct Hss as [[-> _]| ->]; [by cbn|]. destruct Hs as [Hc Hne].
    destruct s as [t|e| |]; [by cbn| |done|done]. cbn [brackets]. case_match; [|done].
    destruct Hne. f_equal. lia.
Qed.

(** The switch back to RAW: the end-of-stream mark, and a snapshot due. *)
Lemma sends_set_mode k c m :
  stream_inv c → ∃ ss, sends c (sremfb_xmit_set_mode k c m) ss.
Proof.
  intros Hi. unfold sremfb_xmit_set_mode.
  destruct (_ || _) eqn:Hg; [exists []; by apply sends_vis|].
  assert (Hr : m = XMIT_H264 → in_h264 c = false).
  { intros ->. unfold in_h264. by apply orb_false_elim in Hg as []. }
  destruct m; cbv zeta.
  - set (eos := SCtl SREMFB_ENC_H264_EOS). change (frame_hdr_bytes _) with (sent_bytes eos).
    destruct (emits_ctrl c⟨c_xmit_mode := XMIT_RAW⟩ eos) as (ss&He&Hss); [done|by left|].
    destruct (ctrl_fields c⟨c_xmit_mode := XMIT_RAW⟩ (sent_bytes eos)) as (F1&F2&F3&F4&_).
    destruct (ctrl_alive c⟨c_xmit_mode := XMIT_RAW⟩ (sent_bytes eos)) as [Ef El].
    set (c1 := sremfb_xmit_ctrl _ _) in *. set (c2 := c1⟨_ := _⟩⟨_ := _⟩).
    exists ss. rewrite <- (app_nil_r ss). pose proof He as (Hi1&_&_).
    apply (sends_trans c c2); [|by apply sends_kick].
    split_and!; [done| | |].
    + apply ctl_ok. destruct Hss as [[-> _]| ->]; repeat constructor.
    + intros fb fb' Hfb Hp. apply (mirror_vacuous c c2 fb fb'); try done.
      destruct Hss as [[-> _]| ->]; [by rewrite Hp|]. by destruct Hp as (fb1&Hp1&->).
    + assert (Ha2 : alive c2 ↔ alive c) by (unfold alive, c2; cbn; by rewrite Ef, El).
      assert (Hm2 : in_h264 c2 = false) by (unfold in_h264, c2; cbn; by rewrite F4).
      intros Ha%Ha2. split; [done|]. rewrite Hm2. destruct Ha.
      destruct Hss as [[-> [?|?]]| ->]; [cbn in *; lia|done|by cbn].
  - exists [].
    destruct (c_enc c); [|destruct (sremfb_enc_open _ _ _)]; cbv zeta;
      try case_match; (apply sends_nil; [done|done|done|intros fb; by apply mirror_fields|];
        intros Ha; split; [exact Ha|by rewrite Hr by done]).
Qed.

Lemma xstep_sends c c' : xstep c c' → stream_inv c → ∃ ss, sends c c' ss.
Proof.
  induction 1 as [c c' Hv|c c1 c' _ IH1 _ IH2|c m Hm|c m|c|c]; intros Hi.
  - exists []. by apply sends_vis.
  - destruct (IH1 Hi) as (s1&Hs1). pose proof Hs1 as ((Hi1&_)&_).
    destruct (IH2 Hi1) as (s2&Hs2). exists (s1 ++ s2). by eapply sends_trans.
  - destruct (ctl_msg_sent m Hm) as (s&?&->). by apply sends_ctrl.
  - by apply sends_set_mode.
  - exists []. by apply sends_kick.
  - exists []. destruct (emits_lost c Hi) as (?&?&Hst). rewrite app_nil_r in Hst.
    apply sends_nil; [done..| |].
    + intros fb. unfold sremfb_schedule_client_lost, g_source_new. case_match; [|done].
      by apply mirror_fields.
    + unfold sremfb_schedule_client_lost, g_source_new. case_match; (apply orderly_nil; try done); lia.
Qed.

(** ** One build *)
Definition px_of_rect c (grab : bytes) (r : sremfb_rect) : bytes :=
  rect_pixels grab (g_width (c_geom c)) (pixfmt_of c) (x1 r) (y1 r)
    (x2 r - x1 r) (y2 r - y1 r).

Lemma length_px_of_rect c grab r :
  geom_ok (c_geom c) → rect_ok (c_geom c) r → Z.of_nat (length grab) = frame_size c →
  Z.of_nat (length (px_of_rect c grab r)) =
    (x2 r - x1 r) * (y2 r - y1 r) * bpp_of c.
Proof.
  unfold geom_ok, rect_ok, frame_size. intros.
  apply (length_rect_pixels _ (g_height (c_geom c))); lia.
Qed.

Lemma rect_size_small c r :
  session_ok c → rect_ok (c_geom c) r →
  0 < (x2 r - x1 r) * (y2 r - y1 r) * bpp_of c ≤ LZ4_MAX_INPUT_SIZE.
Proof.
  unfold session_ok, geom_ok, rect_ok. intros (?&Hs&_) ?.
  pose proof (bpp_range c).
  set (w := x2 r - x1 r). set (h := y2 r - y1 r).
  assert (0 < w ≤ g_width (c_geom c) ∧ 0 < h ≤ g_height (c_geom c)) by (subst w h; lia).
  assert (w * h ≤ g_width (c_geom c) * g_height (c_geom c)) by nia.
  split; [nia|]. unfold LZ4_MAX_INPUT_SIZE in *. nia.
Qed.

(** The message one RAW/LZ4 build puts in flight. *)
Lemma build_raw_eq c r grab shadow :
  session_ok c → frames_ok c grab shadow → rect_ok (c_geom c) r →
  ∃ z s0 n,
    build_raw_rect c r =
      frame_start c⟨c_shadowbuf := Some (copy_rows (g_width (c_geom c) * 4)
          (x1 r) (y1 r) (x2 r - x1 r) (y2 r - y1 r) grab shadow)⟩⟨c_st_raw_bytes := n⟩
        s0 [] ∧
    s0 = sent_bytes (SRect z r (px_of_rect c grab r)) ∧
    sent_ok (c_geom c) (bpp_of c) (c_lz4 c) (SRect z r (px_of_rect c grab r)).
Proof.
  intros Hok (Hgr&Hsh&Hl1&Hl2) Hr.
  pose proof (rect_size_small c r Hok Hr) as Hsz.
  pose proof Hok as (Hg&_&_).
  pose proof (length_px_of_rect c grab r Hg Hr Hl1) as Hpx.
  unfold LZ4_MAX_INPUT_SIZE in Hsz.
  unfold build_raw_rect. rewrite Hgr, client_bytespp_eq by done. cbv zeta.
  destruct (u32_coord (c_geom c) r) as (->&->&->&->); auto.
  fold (pixfmt_of c). fold (px_of_rect c grab r).
  rewrite <- Hpx in *. set (px := px_of_rect c grab r) in *.
  rewrite s32_small by lia. fold (lz4_block px).
  unfold shadow_update. rewrite Hgr, Hsh.
  assert (Hhdr : ∀ e len, 0 ≤ len < 4294967296 →
    (frame_hdr_for SREMFB_ENC_RAW)⟨fh_x := u16 (x1 r)⟩⟨fh_y := u16 (y1 r)⟩
      ⟨fh_w := u16 (x2 r - x1 r)⟩⟨fh_h := u16 (y2 r - y1 r)⟩
      ⟨fh_encoding := e⟩⟨fh_payload_len := u32 len⟩ = rect_hdr e r len).
  { intros e len Hlen. unfold rect_ok, geom_ok in *.
    rewrite !u16_small, u32_small by lia. done. }
  assert (Hend : ∀ z s0, s0 = sent_bytes (SRect z r px) →
    sent_ok (c_geom c) (bpp_of c) (c_lz4 c) (SRect z r px) →
    ∃ z' s0' n, frame_start c⟨c_shadowbuf := Some (copy_rows (g_width (c_geom c) * 4)
          (x1 r) (y1 r) (x2 r - x1 r) (y2 r - y1 r) grab shadow)⟩
          ⟨c_st_raw_bytes ::= Z.add (Z.of_nat (length px))⟩ s0 [] =
        frame_start c⟨c_shadowbuf := Some (copy_rows (g_width (c_geom c) * 4)
          (x1 r) (y1 r) (x2 r - x1 r) (y2 r - y1 r) grab shadow)⟩
          ⟨c_st_raw_bytes := n⟩ s0' [] ∧ s0' = sent_bytes (SRect z' r px) ∧
        sent_ok (c_geom c) (bpp_of c) (c_lz4 c) (SRect z' r px)).
  { intros z s0 -> Hs. exists z. eexists _, _. split; [|by split].
    instantiate (1 := Z.of_nat (length px) + c_st_raw_bytes c). done. }
  match goal with |- context [if c_lz4 ?c1 then lz4_block px else []] =>
    change (c_lz4 c1) with (c_lz4 c) end.
  destruct (c_lz4 c) eqn:Hlz; [destruct (_ && _) eqn:Hc|].
  - apply (Hend true); [cbn [sent_bytes]; rewrite <- Hhdr by lia; done|].
    split_and!; [done|done|]. intros _. split; [done|]. lia.
  - apply (Hend false); [cbn [sent_bytes]; rewrite <- Hhdr by lia; done|]. by split_and!.
  - apply (Hend false); [cbn [sent_bytes]; rewrite <- Hhdr by lia; done|]. by split_and!.
Qed.

Lemma drained_fields c c' :
  c_out_active c' = c_out_active c → c_outq c' = c_outq c →
  c_outq_off c' = c_outq_off c → drained c → drained c'.
Proof. unfold drained. by intros -> -> ->. Qed.

Lemma emits_fields c c1 c' ss :
  stream c1 = stream c → same_session c c1 → emits c1 c' ss → emits c c' ss.
Proof.
  intros Hs (?&?&?) (?&(?&?&?)&Hst). split_and!; auto; [split_and!; congruence|].
  by rewrite Hst, Hs.
Qed.

(** A started frame is in flight, ahead of what the controller queues. *)
Lemma frame_start_sends c s0 s1 s :
  drained c → s0 ++ s1 = sent_bytes s → sent_ok (c_geom c) (bpp_of c) (c_lz4 c) s →
  brackets (in_h264 c) [s] (in_h264 c) →
  ∃ ss, emits c (frame_start c s0 s1) ss ∧
    Forall (sent_ok (c_geom c) (bpp_of c) (c_lz4 c)) ss ∧
    (∀ fb fb', (∀ fb1, paint (g_width (c_geom c)) (bpp_of c) s fb fb1 → mirror c fb1) →
      paints c ss fb fb' → mirror (frame_start c s0 s1) fb') ∧
    orderly c (frame_start c s0 s1) ss.
Proof.
  intros Hd Hs Hok Hbr. pose proof (drained_stream c Hd) as [Hst _].
  destruct Hd as (Ha&Hq&Ho). unfold frame_start. cbv zeta.
  match goal with |- context [if c_feedback ?c1 then _ else _] => set (cf := c1) end.
  assert (He : emits c cf [s]).
  { split; [|split; [done|]].
    - unfold stream_inv; cbn. rewrite Hq, Ho. split_and!; [lia|done|]. intros _. lia.
    - rewrite Hst. unfold stream, in_flight, queued, queued_of. cbn.
      rewrite Hq, Ho. cbn. by rewrite Hs. }
  destruct (xstep_sends cf
    (if c_feedback cf
     then sremfb_ctl_on_deliver cf (Z.of_nat (length s0) + Z.of_nat (length s1))
     else cf)) as (ss&He'&Hss&Hm&Hord).
  - case_match; [apply on_deliver_xstep|reflexivity].
  - apply He.
  - exists (s :: ss). split_and!.
    + exact (emits_trans _ _ _ [s] ss He He').
    + by constructor.
    + intros fb fb' Hfb (fb1&H1&H2). apply (Hm fb1); [|done].
      specialize (Hfb fb1 H1). revert Hfb. by apply mirror_fields.
    + intros Hal. destruct (Hord Hal) as [Ha1 Hb]. split; [exact Ha1|].
      exact (brackets_app [s] ss _ _ _ Hbr Hb).
Qed.

Definition outside_rect c (r : sremfb_rect) (fb frame : bytes) : Prop :=
  ∀ j : nat, ¬ in_block (g_width (c_geom c) * bpp_of c) (x1 r * bpp_of c)
      (x2 r * bpp_of c) (y1 r) (y2 r - y1 r) (Z.of_nat j) → fb !! j = frame !! j.

Definition fb_size c : Z := g_width (c_geom c) * g_height (c_geom c) * bpp_of c.

Lemma build_raw_sends c r grab shadow :
  session_ok c → drained c → frames_ok c grab shadow → rect_ok (c_geom c) r →
  c_xmit_mode c = XMIT_RAW →
  ∃ ss, emits c (build_raw_rect c r) ss ∧
    Forall (sent_ok (c_geom c) (bpp_of c) (c_lz4 c)) ss ∧
    (∀ fb fb', Z.of_nat (length fb) = fb_size c →
      outside_rect c r fb
        (conv_frame (g_width (c_geom c)) (g_height (c_geom c)) (pixfmt_of c) shadow) →
      paints c ss fb fb' → mirror (build_raw_rect c r) fb') ∧
    orderly c (build_raw_rect c r) ss.
Proof.
  intros Hok Hd Hf Hr Hraw.
  destruct (build_raw_eq c r grab shadow Hok Hf Hr) as (z&s0&n&->&->&Hs).
  set (sh' := copy_rows _ _ _ _ _ _ _). set (c1 := c⟨_ := _⟩⟨_ := _⟩).
  destruct (frame_start_sends c1 (sent_bytes (SRect z r (px_of_rect c grab r))) []
    (SRect z r (px_of_rect c grab r))) as (ss&He&Hss&Hm&Ho); auto.
  { by rewrite app_nil_r. }
  { unfold in_h264. change (c_xmit_mode c1) with (c_xmit_mode c). by rewrite Hraw. }
  exists ss. split_and!; [by eapply emits_fields|done| |exact Ho].
  intros fb fb' Hfb Hout. apply Hm. intros fb1 ->.
  destruct Hf as (Hgr&Hsh&Hl1&Hl2). pose proof Hok as (Hg&_&_).
  unfold geom_ok, rect_ok, frame_size in *.
  destruct (copy_rows_spec (g_width (c_geom c)) (x1 r) (y1 r) (x2 r - x1 r)
    (y2 r - y1 r) grab shadow) as [Hlen Hlk]; try lia; [nia|].
  fold sh' in Hlen, Hlk. exists sh'. split_and!; [done| |].
  - change (Z.of_nat (length (put_rect (g_width (c_geom c) * bpp_of c) (bpp_of c) (x1 r)
      (y1 r) (x2 r - x1 r) (y2 r - y1 r) (px_of_rect c grab r) fb)) = fb_size c).
    rewrite <- Hfb. f_equal.
    assert (Hpx := length_px_of_rect c grab r). unfold geom_ok, rect_ok, frame_size in Hpx.
    destruct (put_rect_spec (g_width (c_geom c)) (bpp_of c) (x1 r) (y1 r) (x2 r - x1 r)
      (y2 r - y1 r) (px_of_rect c grab r) fb) as [Hpl _]; try lia.
    + pose proof (bpp_range c). lia.
    + unfold fb_size in Hfb. pose proof (bpp_range c). nia.
  - intros _ _. change (bpp_of c1) with (bytespp_of (pixfmt_of c)).
    unfold px_of_rect. cbn.
    apply (paint_rect (g_width (c_geom c)) (g_height (c_geom c)) (pixfmt_of c) grab shadow);
      try lia; [done|done|].
    intros j Hj. apply Hout. unfold bpp_of.
    by replace (x2 r) with (x1 r + (x2 r - x1 r)) by lia.
Qed.

Lemma enc_encode_size `{!X264Laws X} e yuv f e' sz nal idr :
  sremfb_enc_encode e yuv f = (e', (sz, nal, idr)) →
  sz < 2 ^ 31 ∧ (0 < sz → Z.of_nat (length nal) = sz).
Proof.
  unfold sremfb_enc_encode. destruct (x264_encoder_encode _ _) as [h out] eqn:Hx.
  apply x264_encode_size in Hx as [Hs Hn]. case_match; intros; simplify_eq/=.
  - case_match; lia.
  - split; [done|]. intros Hp. specialize (Hn Hp). rewrite length_slice; lia.
Qed.

Lemma build_h264_sends `{!X264Laws X} c grab shadow :
  session_ok c → drained c → frames_ok c grab shadow →
  c_xmit_mode c = XMIT_H264 →
  ∃ ss, emits c (build_h264_frame c) ss ∧
    Forall (sent_ok (c_geom c) (bpp_of c) (c_lz4 c)) ss ∧
    (∀ fb fb', Z.of_nat (length fb) = fb_size c →
      paints c ss fb fb' → mirror (build_h264_frame c) fb') ∧
    orderly c (build_h264_frame c) ss.
Proof.
  intros Hok Hd (Hgr&Hsh&_&_) Hmode. pose proof Hok as (Hg&_&_).
  unfold build_h264_frame. rewrite Hgr.
  destruct (c_enc c) as [enc|] eqn:He.
  2:{ exists []. split_and!; [by apply emits_refl, drained_stream|constructor| |
        by apply orderly_nil].
      intros fb fb' Hfb ->. exists shadow. split_and!; [done|done|congruence]. }
  cbv zeta. unfold shadow_update. rewrite Hgr, Hsh.
  set (sh' := copy_rows _ _ _ _ _ _ _).
  destruct (sremfb_enc_encode _ _ _) as [enc' [[sz nal] idr]] eqn:Henc.
  apply enc_encode_size in Henc as [Hs1 Hs2].
  unfold g_get_monotonic_time.
  set (c1 := c⟨c_shadowbuf := Some sh'⟩⟨c_enc := Some enc'⟩⟨c_force_idr := false⟩).
  assert (Hm1 : ∀ c2 fb, c_shadowbuf c2 = Some sh' → c_geom c2 = c_geom c →
    c_hello c2 = c_hello c → c_xmit_mode c2 = XMIT_H264 →
    Z.of_nat (length fb) = fb_size c → mirror c2 fb).
  { intros c2 fb E1 E2 E3 E4 E5. exists sh'. unfold bpp_of, pixfmt_of in *.
    rewrite E2, E3. split_and!; [done|done|congruence]. }
  destruct (sz <? 0) eqn:Hneg; [|destruct (sz =? 0) eqn:Hz].
  - destruct (sends_set_mode sremfb_ctl_initial_kbps c1⟨c_h264_failed := true⟩ XMIT_RAW)
      as (ss&He'&Hss&Hm&Ho); [by apply drained_stream|].
    exists ss. split_and!; [by eapply emits_fields|done| |exact Ho].
    intros fb fb' Hfb. apply Hm. by apply Hm1.
  - exists []. split_and!; [|constructor|intros fb fb' Hfb ->; by apply Hm1|by apply orderly_nil].
    apply emits_nil; [|done|done]. by apply drained_stream.
  - set (c2 := _⟨c_st_raw_bytes ::= _⟩).
    destruct (frame_start_sends c2
      (frame_hdr_bytes ((frame_hdr_for SREMFB_ENC_H264)
          ⟨fh_reserved0 := if idr then SREMFB_H264_FLAG_IDR else 0⟩
          ⟨fh_w := u16 (u32 (g_width (c_geom c)))⟩
          ⟨fh_h := u16 (u32 (g_height (c_geom c)))⟩⟨fh_payload_len := u32 sz⟩)) nal
      (SAu idr (g_width (c_geom c)) (g_height (c_geom c)) nal)) as (ss&He'&Hss&Hm&Ho).
    + done.
    + cbn [sent_bytes]. unfold geom_ok in Hg. rewrite Hs2 by lia.
      do 2 f_equal. unfold au_hdr.
      rewrite !u32_small, !u16_small by lia. done.
    + cbn. rewrite Hs2 by lia. split_and!; [done|done|lia..].
    + unfold in_h264. change (c_xmit_mode c2) with (c_xmit_mode c). by rewrite Hmode.
    + exists ss. split_and!; [by eapply emits_fields|done| |exact Ho].
      intros fb fb' Hfb. apply Hm. intros fb1 Hp. apply Hm1; try done.
      by rewrite Hp.
Qed.
End stream.
