(* ===== verification/OutReady.v ===== *)
(** * One dispatch of the G_IO_OUT watch

    Whatever send(2) answers - short writes, EAGAIN, errors - the drain
    only moves bytes from the stream's unsent part to the wire, and the
    frame it builds at the end is one more whole message. *)
From S2P Require Import Prelude Binary64 Protocol Core Convert Encoder Net Xmit Control Drain.
From S2P Require Import XmitSpec Dirty Coverage ViewH264 ViewNet Blit Paint.
From S2P Require Import Stream.
Import Net.

Lemma send_some_spec len answers n rest :
  net_send_some len answers = (n, rest) → 0 ≤ len →
  (n = -1 ∨ 0 ≤ n ≤ len) ∧ (length rest ≤ length answers)%nat ∧
  (0 < n → (length rest < length answers)%nat).
Proof.
  revert n rest. induction answers as [|a answers IH]; intros n rest Heq Hlen; simpl in *.
  { simplify_eq. simpl. lia. }
  destruct a; simplify_eq; [lia| |lia|lia].
  destruct (IH n rest Heq Hlen) as (?&?&?). lia.
Qed.

Lemma take_seg (s0 s1 : bytes) off n :
  0 ≤ off → 0 ≤ n → off + n ≤ Z.of_nat (length s0) →
  drop (Z.to_nat off) (s0 ++ s1) =
  slice off n s0 ++ drop (Z.to_nat (off + n)) (s0 ++ s1).
Proof.
  intros. unfold slice. rewrite Z2Nat.inj_add by lia.
  rewrite !drop_app_le by lia.
  rewrite <- drop_drop, app_assoc, take_drop. done.
Qed.

Lemma take_seg1 (s0 s1 : bytes) off n :
  Z.of_nat (length s0) ≤ off → 0 ≤ n →
  off + n ≤ Z.of_nat (length s0 + length s1) →
  drop (Z.to_nat off) (s0 ++ s1) =
  slice (off - Z.of_nat (length s0)) n s1 ++ drop (Z.to_nat (off + n)) (s0 ++ s1).
Proof.
  intros. rewrite !drop_app_ge by lia.
  pose proof (take_seg s1 [] (off - Z.of_nat (length s0)) n) as Ht.
  rewrite app_nil_r in Ht.
  replace (Z.to_nat off - length s0)%nat with (Z.to_nat (off - Z.of_nat (length s0))) by lia.
  rewrite Ht by lia. do 2 f_equal. lia.
Qed.

Section out_ready.
Context `{X : X264} `{L : LZ4} `{P : Platform} {U : Stale}.
Implicit Types c : SremfbClient.

Lemma frame_upd_id c :
  c = c⟨c_wire := c_wire c⟩⟨c_out_off := c_out_off c⟩⟨c_out_active := c_out_active c⟩.
Proof. by destruct c. Qed.

(** The in-flight frame: bytes only move, and the result says how far. *)
Lemma drain_frame_spec fuel c answers r c' rest :
  drain_frame fuel c answers = (r, c', rest) →
  stream_inv c → c_out_active c = true →
  (∃ w o a, c' = c⟨c_wire := w⟩⟨c_out_off := o⟩⟨c_out_active := a⟩) ∧
  stream c' = stream c ∧ stream_inv c' ∧
  (r = DrainDone → c_out_active c' = false).
Proof.
  revert c answers. induction fuel as [|fuel IH]; intros c answers Heq Hi Ha;
    cbn [drain_frame] in Heq; pose proof Hi as (Hq0&Hq&Hact);
    destruct (Hact Ha) as [Ho Hoff];
    (destruct (_ <=? c_out_off c) eqn:Hdone;
      [simplify_eq; split_and!; [by eexists _, _, _|  |  |done];
       [unfold stream, in_flight, queued; cbn; rewrite Ha, drop_ge;
          [done|rewrite length_app; lia]
       |unfold stream_inv; cbn; by rewrite Ho in *]|]).
  { simplify_eq. split_and!; [|done|done|done]. eexists _, _, _. apply frame_upd_id. }
  set (seg := if _ <? _ then _ else _) in Heq.
  set (off := if _ <? _ then _ else _) in Heq.
  destruct (net_send_some _ _) as [n rest'] eqn:Hn.
  assert (Hseg : 0 ≤ Z.of_nat (length seg) - off).
  { subst seg off; destruct (c_out_off c <? _) eqn:?; lia. }
  destruct (send_some_spec _ _ _ _ Hn Hseg) as (Hr&_&_).
  destruct (n <? 0) eqn:Hneg.
  { simplify_eq. split_and!; [|done|done|done]. eexists _, _, _. apply frame_upd_id. }
  destruct (n =? 0) eqn:Hz.
  { simplify_eq. split_and!; [|done|done|done]. eexists _, _, _. apply frame_upd_id. }
  cbv zeta in Heq.
  apply IH in Heq as ((w&o&a&->)&Hs&Hi'&Hd); [| |done].
  - split_and!; [by eexists _, _, _| |exact Hi'|exact Hd].
    rewrite Hs. unfold stream, in_flight, queued; cbn. rewrite Ha.
    rewrite <- !app_assoc. f_equal. rewrite (Z.add_comm n).
    subst seg off; destruct (c_out_off c <? _) eqn:?.
    + rewrite (take_seg _ _ (c_out_off c) n), app_assoc by lia. done.
    + rewrite (take_seg1 _ _ (c_out_off c) n), app_assoc by lia. done.
  - unfold stream_inv; cbn. split_and!; [done|done|]. intros _. split; [done|].
    subst seg off; destruct (c_out_off c <? _) eqn:?; lia.
Qed.

(** More fuel than send(2) answers is never used up. *)
Lemma drain_frame_fuel f1 f2 c answers :
  (length answers < f1)%nat → (length answers < f2)%nat →
  stream_inv c → c_out_active c = true →
  drain_frame f1 c answers = drain_frame f2 c answers.
Proof.
  revert f2 c answers. induction f1 as [|f1 IH]; intros f2 c answers H1 H2 Hi Ha; [lia|].
  destruct f2 as [|f2]; [lia|]. cbn [drain_frame]. cbv zeta.
  pose proof Hi as (Hq0&Hq&Hact). destruct (Hact Ha) as [Ho Hoff].
  destruct (_ <=? c_out_off c) eqn:Hdone; [done|].
  set (seg := if _ <? _ then _ else _). set (off := if _ <? _ then _ else _).
  destruct (net_send_some _ _) as [n rest'] eqn:Hn.
  assert (Hseg : 0 ≤ Z.of_nat (length seg) - off) by (subst seg off; destruct (c_out_off c <? _) eqn:?; lia).
  destruct (send_some_spec _ _ _ _ Hn Hseg) as (Hr&?&?).
  destruct (n <? 0) eqn:?; [done|]. destruct (n =? 0) eqn:?; [done|].
  apply IH; [lia|lia| |done].
  unfold stream_inv; cbn. split_and!; [done|done|]. intros _. split; [done|].
  subst seg off; destruct (c_out_off c <? _) eqn:?; lia.
Qed.

Lemma queue_upd_id c :
  c = c⟨c_wire := c_wire c⟩⟨c_outq := c_outq c⟩⟨c_outq_off := c_outq_off c⟩.
Proof. by destruct c. Qed.

(** The control queue, once no frame is in flight. *)
Lemma drain_ctrl_spec q c answers r c' rest :
  drain_ctrl q c answers = (r, c', rest) → q = c_outq c →
  stream_inv c → c_out_active c = false →
  (∃ w l o, c' = c⟨c_wire := w⟩⟨c_outq := l⟩⟨c_outq_off := o⟩) ∧
  stream c' = stream c ∧ stream_inv c' ∧
  (r = DrainDone → drained c').
Proof.
  revert c answers. induction q as [|p q IH]; intros c answers Heq Hq0 Hi Ha;
    cbn [drain_ctrl] in Heq; pose proof Hi as (Ho&Hq&_); rewrite <- Hq0 in Hq.
  { simplify_eq. split_and!; [|done|done|intros _; by split_and!].
    eexists _, _, _. apply queue_upd_id. }
  destruct (net_send_some _ _) as [n rest'] eqn:Hn.
  destruct (send_some_spec _ _ _ _ Hn) as (Hr&_&_); [lia|].
  destruct (n <? 0) eqn:Hneg.
  { simplify_eq. split_and!; [|done|done|done].
    eexists _, _, _. apply queue_upd_id. }
  assert (Hmove : ∀ c2, c_wire c2 = c_wire c ++ slice (c_outq_off c) n p →
    in_flight c2 = [] → queued c2 = queued_of (p :: q) (n + c_outq_off c) →
    stream c2 = stream c).
  { intros c2 E1 E2 E3. unfold stream. rewrite E1, E2, E3.
    unfold in_flight, queued, queued_of. rewrite Ha, <- Hq0, Z.add_comm. simpl.
    rewrite (take_seg p (mjoin q) (c_outq_off c) n), app_assoc by lia. done. }
  cbv zeta in Heq. destruct (_ <? Z.of_nat (length p)) eqn:Hlt.
  - simplify_eq. split_and!; [| | |done].
    + eexists _, (c_outq c), _. done.
    + apply Hmove; [done| |].
      * unfold in_flight; cbn. by rewrite Ha.
      * unfold queued; cbn. by rewrite <- Hq0.
    + unfold stream_inv. cbn in *. rewrite <- Hq0. split_and!; [lia|lia|congruence].
  - cbn in Hlt. apply IH in Heq as ((w&l&o&->)&Hs&Hi'&Hd); [|done| |done].
    + split_and!; [by eexists _, _, _| |done|done].
      rewrite Hs. apply Hmove; [done| |].
      * unfold in_flight; cbn. by rewrite Ha.
      * unfold queued, queued_of; cbn. rewrite drop_app_ge by lia. f_equal. lia.
    + unfold stream_inv; cbn. split_and!; [lia| |congruence].
      destruct q; lia.
Qed.

Lemma full_in_block g bpp (j : nat) :
  geom_ok g → 0 < bpp → Z.of_nat j < g_width g * g_height g * bpp →
  in_block (g_width g * bpp) (0 * bpp) (g_width g * bpp) 0 (g_height g - 0) (Z.of_nat j).
Proof.
  unfold geom_ok, in_block. intros.
  pose proof (Z.mod_pos_bound (Z.of_nat j) (g_width g * bpp)).
  split; [|nia]. split; [apply Z.div_pos; nia|].
  rewrite Z.add_0_l. apply Z.div_lt_upper_bound; nia.
Qed.

Lemma outside_full c fb frame :
  geom_ok (c_geom c) → Z.of_nat (length fb) = fb_size c →
  Z.of_nat (length frame) = fb_size c →
  outside_rect c (full_rect (c_geom c)) fb frame.
Proof.
  intros Hg H1 H2 j Hj. pose proof (bpp_range c).
  destruct (decide (Z.of_nat j < fb_size c)).
  - destruct Hj. apply full_in_block; [done|lia|done].
  - rewrite !lookup_ge_None_2 by lia. done.
Qed.

Lemma length_conv c frame :
  geom_ok (c_geom c) → Z.of_nat (length frame) = frame_size c →
  Z.of_nat (length (conv_frame (g_width (c_geom c)) (g_height (c_geom c))
                      (pixfmt_of c) frame)) = fb_size c.
Proof.
  unfold geom_ok, frame_size, fb_size. intros.
  apply (length_rect_pixels _ (g_height (c_geom c))); lia.
Qed.

(** One build, from a drained queue. *)
Lemma build_next_sends `{!X264Laws X} c :
  session_ok c → drained c → dirty_inv c → ∃ ss, sends c (build_next c).2 ss.
Proof.
  intros Hok Hd Hdi. pose proof (drained_stream c Hd) as [_ Hi].
  pose proof Hdi as (Hg&Hlen&Hrok&grab&shadow&Hgr&Hsh&Hl1&Hl2&_).
  assert (Hf : frames_ok c grab shadow) by done.
  assert (Hid : ∃ ss, sends c c ss) by (exists []; by apply sends_vis).
  unfold build_next, g_source_new. rewrite Hgr. case_match; [exact Hid|].
  destruct (c_xmit_mode c) eqn:Hm.
  - destruct (c_dirty_all c) eqn:Hall; [|destruct (c_dirty c) as [|r l] eqn:Hdl].
    + cbn [snd]. set (c1 := c⟨_ := _⟩⟨_ := _⟩⟨_ := _⟩).
      destruct (build_raw_sends c1 (full_rect (c_geom c)) grab shadow)
        as (ss&He&Hss&Hmir&Ho); [done..|by apply full_rect_ok|done|].
      exists ss. split_and!; [by eapply emits_fields|done| |exact Ho].
      intros fb fb' (sh&Hsh'&Hfl&_). apply Hmir; [done|].
      apply (outside_full c1); [done|done|]. by apply (length_conv c1).
    + exact Hid.
    + inversion Hrok; subst.
      assert (Hb : ∀ k, ∃ ss,
        sends c (build_raw_rect c⟨c_dirty := l⟩⟨c_dirty_raw := k⟩ r) ss).
      { intros k. set (c1 := c⟨_ := _⟩⟨_ := _⟩).
        destruct (build_raw_sends c1 r grab shadow) as (ss&He&Hss&Hmir&Ho); [done..|].
        exists ss. split_and!; [by eapply emits_fields|done| |exact Ho].
        intros fb fb' (sh&Hsh'&Hfl&Hfb). apply Hmir; [done|].
        rewrite Hsh in Hsh'. simplify_eq. rewrite (Hfb Hm Hall). by intros j _. }
      cbn [snd]. destruct l; [apply Hb|]. exact (Hb (c_dirty_raw c)).
  - case_match; [exact Hid|].
    destruct (sremfb_ctl_skip_encode c) as [skip c1] eqn:Hs.
    assert (Hv : vis c1 = vis c) by (rewrite <- (skip_encode_quiet c), Hs; done).
    pose proof (sends_vis c c1 Hv Hi) as Hs1.
    destruct skip; cbn [snd].
    + exists []. destruct (c_out_retry_id c1 =? 0); [|done].
      apply (sends_trans c c1 _ [] []); [done|].
      apply sends_nil; [apply Hs1|done|done| |by apply orderly_nil]. intros fb. by apply mirror_fields.
    + pose proof Hv as Hv'. unfold vis in Hv'. injection Hv' as.
      set (c2 := c1⟨_ := _⟩⟨_ := _⟩⟨_ := _⟩).
      assert (E : c_geom c1 = c_geom c ∧ c_hello c1 = c_hello c ∧
        c_out_active c1 = c_out_active c ∧ c_outq c1 = c_outq c ∧
        c_outq_off c1 = c_outq_off c ∧ c_grabbuf c1 = c_grabbuf c ∧
        c_shadowbuf c1 = c_shadowbuf c ∧ c_xmit_mode c1 = c_xmit_mode c)
        by (split_and!; assumption).
      destruct E as (E1&E2&E3&E4&E5&E6&E7&E8).
      destruct (build_h264_sends c2 grab shadow) as (ss&He&Hss&Hmir&Ho).
      * unfold session_ok. cbn. by rewrite E1, E2.
      * unfold drained. cbn. by rewrite E3, E4, E5.
      * unfold frames_ok, frame_size. cbn. by rewrite E1, E6, E7.
      * cbn. by rewrite E8.
      * exists ss. apply (sends_trans c c1 _ [] ss); [done|].
        split_and!; [by eapply emits_fields|done| |exact Ho].
        intros fb fb' (sh&_&Hfl&_). by apply Hmir.
Qed.

(** The whole dispatch. *)
Lemma out_ready_sends `{!X264Laws X} c err answers :
  session_ok c → stream_inv c → dirty_inv c →
  ∃ ss, sends c (on_out_ready c err answers).2 ss.
Proof.
  intros Hok Hi Hdi. unfold on_out_ready, send_fail, xmit_fail.
  assert (Hlost : ∀ c1, stream_inv c1 → ∃ ss, sends c1
    (sremfb_schedule_client_lost c1⟨c_out_watch_id := 0⟩) ss).
  { intros c1 Hi1. destruct (xstep_sends c1⟨c_out_watch_id := 0⟩
      (sremfb_schedule_client_lost c1⟨c_out_watch_id := 0⟩)) as (ss&Hss);
      [apply xs_lost|done|by exists ss]. }
  destruct err; [by apply Hlost|].
  assert (Hstep : ∀ c1 c2, same_session c c1 → sends c c1 [] →
    (∃ ss, sends c1 c2 ss) → ∃ ss, sends c c2 ss).
  { intros c1 c2 _ H1 (ss&H2). exists ss. apply (sends_trans c c1 c2 [] ss H1 H2). }
  destruct (if c_out_active c then _ else _) as [[r c1] answers1] eqn:Hf.
  assert (H1 : sends c c1 [] ∧ (∃ w o a, c1 = c⟨c_wire := w⟩⟨c_out_off := o⟩⟨c_out_active := a⟩)
    ∧ (r = DrainDone → c_out_active c1 = false)).
  { destruct (c_out_active c) eqn:Ha.
    - apply drain_frame_spec in Hf as ((w&o&a&->)&Hs&Hi'&Hd); [|done|done].
      split_and!; [|by eexists _, _, _|done].
      apply sends_nil; [done|done|done| |by apply orderly_nil]. intros fb. by apply mirror_fields.
    - simplify_eq. split_and!; [by apply sends_vis| |done].
      eexists _, _, _. apply frame_upd_id. }
  destruct H1 as (Hs1&(w&o&a&Hc1)&Ha1). pose proof Hs1 as ((Hi1&Hss1&_)&_).
  destruct r; [|by exists []|by apply (Hstep c1); [..|apply Hlost]].
  specialize (Ha1 eq_refl).
  destruct (drain_ctrl (c_outq c1) c1 answers1) as [[r c2] answers2] eqn:Hc.
  apply drain_ctrl_spec in Hc as ((w'&l&o'&Hc2)&Hs2&Hi2&Hd2); [|done|done|done].
  assert (Hs12 : sends c c2 []).
  { apply (sends_trans c c1 c2 [] []); [done|].
    apply sends_nil; [done| |done| |]; subst c2; [done| |by apply orderly_nil]. intros fb. by apply mirror_fields. }
  assert (Hss2 : same_session c c2) by (by destruct Hs12 as ((_&?&_)&_)).
  destruct r; [|by exists []|by apply (Hstep c2); [..|apply Hlost]].
  destruct (build_next_sends c2) as (ss&Hb).
  - subst c2 c1. exact Hok.
  - by apply Hd2.
  - subst c2 c1. eapply pix_le_inv; [|exact Hdi]. by apply pix_le_same.
  - destruct (build_next c2) as [started c3] eqn:Hb'. cbn [snd] in Hb.
    destruct started; cbn [snd]; [by apply (Hstep c2); [..|exists ss]|].
    exists ss. rewrite <- (app_nil_r ss). eapply sends_trans; [apply (sends_trans c c2 c3 [] ss); done|].
    pose proof Hb as ((Hi3&_)&_).
    apply sends_nil; [done|done|done| |by apply orderly_nil]. intros fb. by apply mirror_fields.
Qed.

Lemma enc_inv_fields c c' :
  c_xmit_mode c' = c_xmit_mode c → c_enc c' = c_enc c → enc_inv c → enc_inv c'.
Proof. unfold enc_inv, has_enc. by intros -> ->. Qed.

Lemma lost_inv c :
  dirty_inv c → enc_inv c →
  dirty_inv (sremfb_schedule_client_lost c⟨c_out_watch_id := 0⟩) ∧
  enc_inv (sremfb_schedule_client_lost c⟨c_out_watch_id := 0⟩).
Proof.
  intros Hd He. assert (Hx := xs_lost c⟨c_out_watch_id := 0⟩). split.
  - eapply xstep_dirty_inv; [exact Hx|]. eapply pix_le_inv; [|exact Hd]. by apply pix_le_same.
  - eapply xstep_enc_inv; [exact Hx|done].
Qed.

(** The dispatch keeps the dirty region exact. *)
Lemma out_ready_inv c err answers :
  stream_inv c → dirty_inv c → enc_inv c →
  dirty_inv (on_out_ready c err answers).2 ∧ enc_inv (on_out_ready c err answers).2.
Proof.
  intros Hi Hd He. unfold on_out_ready, send_fail, xmit_fail.
  destruct err; [by apply lost_inv|].
  destruct (if c_out_active c then _ else _) as [[r c1] answers1] eqn:Hf.
  assert (H1 : stream_inv c1 ∧ (r = DrainDone → c_out_active c1 = false) ∧
    ∃ w o a, c1 = c⟨c_wire := w⟩⟨c_out_off := o⟩⟨c_out_active := a⟩).
  { destruct (c_out_active c) eqn:Ha.
    - apply drain_frame_spec in Hf as (?&_&?&?); done.
    - simplify_eq. split_and!; [done|done|]. eexists _, _, _. apply frame_upd_id. }
  destruct H1 as (Hi1&Ha1&w&o&a&Hc1).
  assert (dirty_inv c1 ∧ enc_inv c1) as [Hd1 He1].
  { subst c1. split; [eapply pix_le_inv; [|exact Hd]; by apply pix_le_same|done]. }
  destruct r; [|done|by apply lost_inv]. specialize (Ha1 eq_refl).
  destruct (drain_ctrl (c_outq c1) c1 answers1) as [[r c2] answers2] eqn:Hc.
  apply drain_ctrl_spec in Hc as ((w'&l&o'&Hc2)&_&_&_); [|done|done|done].
  assert (dirty_inv c2 ∧ enc_inv c2) as [Hd2 He2].
  { subst c2. split; [eapply pix_le_inv; [|exact Hd1]; by apply pix_le_same|done]. }
  destruct r; [|done|by apply lost_inv].
  destruct (build_next_inv c2 Hd2 He2) as [Hd3 He3].
  destruct (build_next c2) as [[] c3]; [done|]. cbn [snd] in *.
  split; [eapply pix_le_inv; [|exact Hd3]; by apply pix_le_same|done].
Qed.
End out_ready.
