(* ===== verification/Link.v ===== *)
(** * A streaming client as a transition system

    [tx_step] is what can happen to a client that streams: the frame source
    changes the frame and reports the damage, the watch dispatches, the
    retry timer fires, a PONG arrives, the heartbeat ticks, a blank or an
    unblank is forwarded, the connection is dropped, statistics and the
    session's state change.  [link_inv] holds in every reachable state.
    [tx_any] adds the ways a frame source has to replace the frame outside
    of the damage it reports: silently, which leaves the client stale, with
    the whole frame marked dirty, and with damage that covers all of it. *)
From S2P Require Import Prelude Binary64 Protocol Core Convert Encoder Net Xmit Control Drain.
From S2P Require Import XmitSpec Dirty Coverage ViewH264 ViewNet Blit Paint.
From S2P Require Import Stream OutReady.
From stdpp Require Import relations.
#[local] Open Scope Z_scope.

Section link.
Context `{X : X264} `{L : LZ4} `{P : Platform} {U : Stale}.
Implicit Types c : SremfbClient.

(** The frame source's contract: the new frame has the size of the mode,
    and every byte it changed lies in a reported rect. *)
Definition grab_change c (grab : bytes) (rects : list sremfb_rect) : Prop :=
  Z.of_nat (length grab) = frame_size c ∧
  ∀ old, c_grabbuf c = Some old → ∀ i : nat, grab !! i ≠ old !! i →
    ∃ r, r ∈ rects ∧ in_rect (stride_of c) r (Z.of_nat i).

Inductive tx_step : SremfbClient → SremfbClient → Prop :=
  | tx_damage c grab rects : grab_change c grab rects →
      tx_step c (sremfb_xmit_damage c⟨c_grabbuf := Some grab⟩ rects (client_bytespp c))
  | tx_out_ready c err answers : tx_step c (on_out_ready c err answers).2
  | tx_retry c : tx_step c (retry_cb c)
  | tx_pong c t : tx_step c (sremfb_ctl_on_pong c t)
  | tx_ping c : tx_step c (ping_tick c)
  | tx_blank c (on : bool) :
      tx_step c (sremfb_xmit_ctrl c (frame_hdr_bytes (frame_hdr_for
        (if on then SREMFB_ENC_BLANK else SREMFB_ENC_UNBLANK))))
  | tx_lost c : tx_step c (sremfb_schedule_client_lost c)
  | tx_quiet c c' : vis c' = vis c⟨c_state := c_state c'⟩ → tx_step c c'.

Definition link_inv c : Prop :=
  session_ok c ∧ stream_inv c ∧ dirty_inv c ∧ enc_inv c.

Lemma session_ok_same c c' : same_session c c' → session_ok c → session_ok c'.
Proof. intros (E1&E2&_). unfold session_ok. by rewrite E1, E2. Qed.

Lemma xstep_link c c' :
  xstep c c' → link_inv c → link_inv c' ∧ ∃ ss, sends c c' ss.
Proof.
  intros Hx (Hok&Hi&Hd&He). destruct (xstep_sends c c' Hx Hi) as (ss&Hs).
  pose proof Hs as ((Hi'&Hss&_)&_). split; [|by exists ss]. split_and!.
  - by eapply session_ok_same.
  - done.
  - by eapply xstep_dirty_inv.
  - by eapply xstep_enc_inv.
Qed.

(** Damage leaves the stream alone: it only grows the dirty region. *)
Lemma damage_one_fields bpp c raw r :
  let c' := (damage_one bpp (c, raw) r).1 in
  stream c' = stream c ∧ (stream_inv c → stream_inv c') ∧ same_session c c' ∧
  (enc_inv c → enc_inv c') ∧ (∀ fb, mirror c fb → mirror c' fb) ∧ orderly c c' [].
Proof.
  unfold damage_one, dirty_add.
  assert (Hid : stream c = stream c ∧ (stream_inv c → stream_inv c) ∧ same_session c c
    ∧ (enc_inv c → enc_inv c) ∧ (∀ fb, mirror c fb → mirror c fb) ∧ orderly c c [])
    by (split_and!; try done; by apply orderly_nil).
  destruct (_ || _); [done|]. destruct (rect_trim c _) as [r' d].
  destruct (negb d); [done|]. case_bool_decide as Hm; cbn [fst].
  - split_and!; try done; first [by apply orderly_nil|intros fb; by apply mirror_fields].
  - destruct (c_dirty_all c) eqn:Hall; [done|].
    destruct (merge_touching _ _); [|destruct (_ <? _); [|destruct (c_dirty c); [done|]]];
      (split_and!; try done; first [by apply orderly_nil|intros fb; by apply mirror_fields]).
Qed.

Lemma damage_fold_fields bpp rects c raw :
  let c' := (foldl (damage_one bpp) (c, raw) rects).1 in
  stream c' = stream c ∧ (stream_inv c → stream_inv c') ∧ same_session c c' ∧
  (enc_inv c → enc_inv c') ∧ (∀ fb, mirror c fb → mirror c' fb) ∧ orderly c c' [].
Proof.
  revert c raw. induction rects as [|r rects IH]; intros c raw; cbn [foldl].
  { split_and!; try done. by apply orderly_nil. }
  destruct (damage_one_fields bpp c raw r) as (S1&I1&(G1&H1&L1)&E1&M1&O1).
  destruct (damage_one bpp (c, raw) r) as [c1 raw1]. cbn [fst] in *.
  destruct (IH c1 raw1) as (S2&I2&(G2&H2&L2)&E2&M2&O2).
  split_and!; [congruence|auto|split_and!; congruence|auto|auto|].
  by apply (orderly_trans c c1 _ [] []).
Qed.

Lemma damage_link c grab rects bpp :
  link_inv c → grab_change c grab rects →
  let c' := sremfb_xmit_damage c⟨c_grabbuf := Some grab⟩ rects bpp in
  link_inv c' ∧ ∃ ss, sends c c' ss.
Proof.
  intros (Hok&Hi&Hd&He) [Hlen Hch]. cbv zeta.
  assert (Hd' : dirty_inv (sremfb_xmit_damage c⟨c_grabbuf := Some grab⟩ rects bpp)).
  { apply damage_dirty_inv. destruct Hd as (Hg&Hl&Hr&old&sh&Hgr&Hsh&Hl1&Hl2&Hcov).
    split_and!; [done..|]. exists grab, sh. split_and!; [done..|].
    intros i [Hst Hne]. destruct (decide (old !! i = grab !! i)) as [Heq|Hne'].
    - left. apply Hcov. split; [done|by rewrite Heq].
    - right. apply (Hch old Hgr). congruence. }
  unfold sremfb_xmit_damage in *.
  destruct (damage_fold_fields bpp rects c⟨c_grabbuf := Some grab⟩ 0)
    as (S1&I1&Hss1&E1&M1&O1).
  destruct (foldl _ _ _) as [c1 raw]. cbn [fst] in *.
  assert (Hs1 : sends c c1 []).
  { apply sends_nil; [by apply I1|exact Hss1|exact S1| |exact O1].
    intros fb Hfb. apply M1. revert Hfb. by apply mirror_fields. }
  destruct (raw =? 0).
  { split; [|by exists []]. split_and!; [by eapply session_ok_same|by apply I1|done|by apply E1]. }
  set (c2 := c1⟨c_dirty_raw ::= Z.add raw⟩) in *.
  assert (Hx := damage_kick_xstep c2 raw).
  destruct (xstep_sends c2 _ Hx) as (ss&Hss); [by apply I1|].
  pose proof Hss as ((Hi3&Hss3&_)&_).
  split.
  - split_and!; [|exact Hi3|exact Hd'|eapply xstep_enc_inv; [exact Hx|by apply E1]].
    eapply session_ok_same; [exact Hss3|]. eapply session_ok_same; [exact Hss1|done].
  - exists ss. apply (sends_trans c c1 _ [] ss); [done|].
    apply (sends_trans c1 c2 _ [] ss); [|done].
    apply sends_nil; [by apply I1|done|done| |by apply orderly_nil]. intros fb. by apply mirror_fields.
Qed.

Lemma retry_link c :
  link_inv c → link_inv (retry_cb c) ∧ ∃ ss, sends c (retry_cb c) ss.
Proof.
  intros (Hok&Hi&Hd&He). unfold retry_cb. set (c1 := c⟨_ := _⟩).
  destruct (xstep_link c1 _ (xs_kick c1)) as (Hl&ss&Hs).
  { split_and!; [done|done| |done]. eapply pix_le_inv; [|exact Hd]. by apply pix_le_same. }
  split; [done|]. exists ss. apply (sends_trans c c1 _ [] ss); [|done].
  apply sends_nil; [done|done|done| |by apply orderly_nil]. intros fb. by apply mirror_fields.
Qed.

Lemma quiet_link c c' :
  vis c' = vis c⟨c_state := c_state c'⟩ → link_inv c → link_inv c' ∧ ∃ ss, sends c c' ss.
Proof.
  intros Hv (Hok&Hi&Hd&He). set (c1 := c⟨c_state := c_state c'⟩) in *.
  destruct (xstep_link c1 c' (xs_quiet _ _ Hv)) as (Hl&ss&Hs).
  { split_and!; [done|done| |done]. eapply pix_le_inv; [|exact Hd]. by apply pix_le_same. }
  split; [done|]. exists ss. apply (sends_trans c c1 _ [] ss); [|done].
  apply sends_nil; [done|done|done| |by apply orderly_nil]. intros fb. by apply mirror_fields.
Qed.

Lemma tx_step_link `{!X264Laws X} c c' :
  tx_step c c' → link_inv c → link_inv c' ∧ ∃ ss, sends c c' ss.
Proof.
  destruct 1 as [c grab rects Hch|c err answers|c|c t|c|c on|c|c c' Hv]; intros Hl.
  - by apply damage_link.
  - destruct Hl as (Hok&Hi&Hd&He).
    destruct (out_ready_sends c err answers Hok Hi Hd) as (ss&Hs).
    destruct (out_ready_inv c err answers Hi Hd He) as [Hd' He'].
    pose proof Hs as ((Hi'&Hss&_)&_).
    split; [|by exists ss]. split_and!; [by eapply session_ok_same|done..].
  - by apply retry_link.
  - apply xstep_link; [apply on_pong_xstep|done].
  - apply xstep_link; [apply ping_tick_xstep|done].
  - apply xstep_link; [|done]. apply xs_ctrl. right. destruct on; eauto.
  - apply xstep_link; [apply xs_lost|done].
  - by apply quiet_link.
Qed.

(** ** Runs *)
Lemma sends_run `{!X264Laws X} c c' :
  rtc tx_step c c' → link_inv c → link_inv c' ∧ ∃ ss, sends c c' ss.
Proof.
  induction 1 as [c|c c1 c' Hs _ IH]; intros Hl.
  - split; [done|]. exists []. apply sends_vis; [done|apply Hl].
  - destruct (tx_step_link c c1 Hs Hl) as (Hl1&s1&Hs1).
    destruct (IH Hl1) as (Hl'&s2&Hs2). split; [done|].
    exists (s1 ++ s2). by eapply sends_trans.
Qed.

(** An idle client has nothing in flight and the shadow is the frame. *)
Lemma idle_synced c :
  ¬ stale → dirty_inv c → stream_inv c → xmit_idle c = true →
  c_shadowbuf c = c_grabbuf c ∧ stream c = c_wire c ∧ c_dirty_all c = false.
Proof.
  intros Hst (_&_&_&grab&sh&Hgr&Hsh&Hl1&Hl2&Hcov) (_&Hq&_) Hidle.
  unfold xmit_idle, dirty_n in Hidle.
  destruct (c_out_active c) eqn:Ha, (c_outq c) eqn:Hoq, (c_dirty_all c) eqn:Hall,
    (c_dirty c) eqn:Hd; try done.
  split_and!; [|unfold stream, in_flight, queued, queued_of; rewrite Ha, Hoq, Hq; simpl; by rewrite !app_nil_r|done].
  rewrite Hgr, Hsh. f_equal. symmetry. apply list_eq. intros i.
  destruct (decide (grab !! i = sh !! i)) as [|Hne]; [done|].
  destruct (Hcov i (conj Hst Hne)) as [?|(r&Hr&_)]; [congruence|].
  rewrite Hd in Hr. by apply not_elem_of_nil in Hr.
Qed.
End link.

(** ** Frames replaced without damage *)
Section stale.
Context `{X : X264} `{L : LZ4} `{P : Platform}.
Implicit Types c : SremfbClient.

(** A new frame with damage that covers all of it. *)
Definition full_change c (grab : bytes) (rects : list sremfb_rect) : Prop :=
  Z.of_nat (length grab) = frame_size c ∧
  ∀ i : nat, (i < length grab)%nat → ∃ r, r ∈ rects ∧ in_rect (stride_of c) r (Z.of_nat i).

(** The client and whether it is stale. *)
Inductive tx_any : SremfbClient * bool → SremfbClient * bool → Prop :=
  | ta_step c c' b : tx_step c c' → tx_any (c, b) (c', b)
  | ta_silent c b grab : Z.of_nat (length grab) = frame_size c →
      tx_any (c, b) (c⟨c_grabbuf := Some grab⟩, true)
  | ta_repaint c b grab : Z.of_nat (length grab) = frame_size c →
      tx_any (c, b)
        (sremfb_xmit_kick c⟨c_grabbuf := Some grab⟩⟨c_dirty_all := true⟩, false)
  | ta_full c b grab rects : full_change c grab rects →
      tx_any (c, b)
        (sremfb_xmit_damage c⟨c_grabbuf := Some grab⟩ rects (client_bytespp c), false).

Definition link_any (s : SremfbClient * bool) : Prop :=
  link_inv (U := (s.2 = true : Stale)) s.1.

Lemma link_frame (U U' : Stale) c grab :
  link_inv (U := U) c → Z.of_nat (length grab) = frame_size c → (U' ∨ c_dirty_all c = true) →
  link_inv (U := U') c⟨c_grabbuf := Some grab⟩.
Proof.
  intros (Hok&Hi&(Hg&Hl&Hr&old&sh&Hgr&Hsh&Hl1&Hl2&_)&He) Hlen Hu.
  split_and!; [done|done| |done]. split_and!; [done..|]. exists grab, sh.
  split_and!; [done..|]. intros i [Hst _]. left. destruct Hu; [done|done].
Qed.

(** With the frame the client has, nothing is dirty. *)
Lemma link_shadow (U U' : Stale) c :
  link_inv (U := U) c → ∃ sh, c_shadowbuf c = Some sh ∧ Z.of_nat (length sh) = frame_size c ∧
    link_inv (U := U') c⟨c_grabbuf := Some sh⟩.
Proof.
  intros (Hok&Hi&(Hg&Hl&Hr&old&sh&Hgr&Hsh&Hl1&Hl2&_)&He). exists sh. split; [done|].
  assert (Ls : Z.of_nat (length sh) = frame_size c) by lia. split; [done|].
  split_and!; [done|done| |done]. split_and!; [done..|]. exists sh, sh.
  split_and!; [done|done|exact Ls|exact Ls|]. intros i [_ Hd]. by destruct Hd.
Qed.

Lemma full_link `{!X264Laws X} c b grab rects :
  full_change c grab rects → link_any (c, b) →
  let c' := sremfb_xmit_damage c⟨c_grabbuf := Some grab⟩ rects (client_bytespp c) in
  link_any (c', false) ∧ ∃ ss, sends c c' ss.
Proof.
  intros [Hlen Hf] Hl. cbv zeta. unfold link_any in *. cbn [fst snd] in *.
  destruct (link_shadow (b = true) (false = true : Stale) c Hl) as (sh&Hsh&Hls&Hl1).
  set (c1 := c⟨c_grabbuf := Some sh⟩) in *.
  assert (Hc : grab_change c1 grab rects).
  { split; [exact Hlen|]. intros old Hold i Hne. apply Hf. change (Some sh = Some old) in Hold.
    injection Hold as <-. destruct (decide (i < length grab)%nat); [done|]. destruct Hne.
    rewrite !lookup_ge_None_2; [done|lia|lia]. }
  destruct (tx_step_link (U := (false = true : Stale)) c1 _ (tx_damage c1 grab rects Hc) Hl1)
    as (Hl'&ss&Hs).
  split; [exact Hl'|]. exists ss. apply (sends_trans c c1 _ [] ss); [|exact Hs].
  destruct Hl1 as (_&Hi&_). apply sends_nil; [done|done|done| |by apply orderly_nil]. intros fb. by apply mirror_fields.
Qed.

Lemma tx_any_link `{!X264Laws X} s s' :
  tx_any s s' → link_any s → link_any s' ∧ ∃ ss, sends s.1 s'.1 ss.
Proof.
  unfold link_any. intros Ht. destruct Ht as [c c' b Hs|c b grab Hlen|c b grab Hlen|c b grab rects Hf];
    cbn [fst snd]; intros Hl.
  - by apply tx_step_link.
  - split; [eapply link_frame; [done|done|by left]|]. exists [].
    destruct Hl as (_&Hi&_). apply sends_nil; [done|done|done| |by apply orderly_nil]. intros fb. by apply mirror_fields.
  - set (c1 := c⟨c_grabbuf := Some grab⟩⟨c_dirty_all := true⟩).
    assert (Hl1 : link_inv (U := (false = true : Stale)) c1).
    { assert (Ec : c1 = c⟨c_dirty_all := true⟩⟨c_grabbuf := Some grab⟩) by reflexivity.
      rewrite Ec. apply (link_frame (b = true) _ c⟨c_dirty_all := true⟩ grab);
        [|done|by right]. destruct Hl as (Hok&Hi&(Hg&Hl&Hr&old&sh&Hgr&Hsh&L1&L2&_)&He).
      split_and!; [done|done| |done]. split_and!; [done..|]. exists old, sh.
      split_and!; [done..|]. intros i _. by left. }
    destruct (xstep_link c1 _ (xs_kick c1) Hl1) as (Hl'&ss&Hs).
    split; [done|]. exists ss. apply (sends_trans c c1 _ [] ss); [|done].
    destruct Hl1 as (_&Hi&_). apply sends_nil; [done|done|done| |by apply orderly_nil]. intros fb. by apply mirror_fields.
  - by apply (full_link c b).
Qed.

Lemma any_run `{!X264Laws X} s s' :
  rtc tx_any s s' → link_any s → link_any s' ∧ ∃ ss, sends s.1 s'.1 ss.
Proof.
  induction 1 as [s|s s1 s' Hs _ IH]; intros Hl.
  - split; [done|]. exists []. apply sends_vis; [done|apply Hl].
  - destruct (tx_any_link s s1 Hs Hl) as (Hl1&s1'&Hs1).
    destruct (IH Hl1) as (Hl'&s2&Hs2). split; [done|].
    exists (s1' ++ s2). by eapply sends_trans.
Qed.

Lemma steps_any c c' b : rtc tx_step c c' → rtc tx_any (c, b) (c', b).
Proof. intros Hr. induction Hr; [done|]. eapply rtc_l; [by apply ta_step|done]. Qed.

Lemma run_any `{!X264Laws X} c c' :
  rtc tx_step c c' → link_any (c, false) → link_any (c', false).
Proof. intros Hr Hl. by destruct (any_run _ _ (steps_any c c' false Hr) Hl). Qed.
End stale.
