(* ===== verification/Mirror.v ===== *)
(** * End to end: the viewer shows what the server captured

    The viewer's message loop, fed the bytes of the server's messages,
    takes them one message at a time and does to its framebuffer what
    [paint] says (Stream.v). *)
From S2P Require Import Prelude Binary64 Protocol Core Convert Encoder Net Xmit Control Drain.
From S2P Require Import XmitSpec Dirty Coverage ViewH264 ViewNet Blit Paint.
From S2P Require Import Stream OutReady Link ViewRead.

(** Unfolds the constants of a header for [lia]. *)
Ltac hdr_consts :=
  unfold frame_hdr_wf, SREMFB_MAGIC, SREMFB_ENC_RAW, SREMFB_ENC_LZ4, SREMFB_ENC_BLANK,
    SREMFB_ENC_UNBLANK, SREMFB_ENC_PING, SREMFB_ENC_H264, SREMFB_ENC_H264_EOS,
    SREMFB_H264_FLAG_IDR; cbn;
  unfold SREMFB_MAGIC, SREMFB_ENC_RAW, SREMFB_ENC_LZ4, SREMFB_ENC_BLANK,
    SREMFB_ENC_UNBLANK, SREMFB_ENC_PING, SREMFB_ENC_H264, SREMFB_ENC_H264_EOS,
    SREMFB_H264_FLAG_IDR; cbn; change (Z.shiftl 1 0) with 1.

Section mirror.
Context `{X : X264} `{L : LZ4} `{P : Platform} `{V : ViewSys} `{A : AvCodec}.

Definition sent_hdr (m : sent) : sremfb_frame_hdr :=
  match m with
  | SPing t => (frame_hdr_for SREMFB_ENC_PING)⟨fh_payload_len := 8⟩
  | SCtl enc => frame_hdr_for enc
  | SRect true r px => rect_hdr SREMFB_ENC_LZ4 r (Z.of_nat (length (lz4_block px)))
  | SRect false r px => rect_hdr SREMFB_ENC_RAW r (Z.of_nat (length px))
  | SAu idr w h nal => au_hdr idr w h (Z.of_nat (length nal))
  end.
Definition sent_payload (m : sent) : bytes :=
  match m with
  | SPing t => le 8 t
  | SCtl _ => []
  | SRect true _ px => lz4_block px
  | SRect false _ px => px
  | SAu _ _ _ nal => nal
  end.

Lemma sent_bytes_split m : sent_bytes m = frame_hdr_bytes (sent_hdr m) ++ sent_payload m.
Proof. destruct m as [|?|[]|]; simpl; by rewrite ?app_nil_r. Qed.

Definition pixfmt_ok (pf : Z) : Prop :=
  pf = SREMFB_PIX_XRGB8888 ∨ pf = SREMFB_PIX_RGB565.
Definition small_geom (g : sremfb_geom) : Prop :=
  geom_ok g ∧ g_width g * g_height g * 4 ≤ LZ4_MAX_INPUT_SIZE.

Lemma rect_small g pf r :
  small_geom g → rect_ok g r →
  (x2 r - x1 r) * (y2 r - y1 r) * bytespp_of pf ≤ g_width g * g_height g * bytespp_of pf ∧
  g_width g * g_height g * bytespp_of pf ≤ LZ4_MAX_INPUT_SIZE.
Proof.
  unfold small_geom, geom_ok, rect_ok. intros [Hg Hs] Hr.
  pose proof (bytespp_range pf).
  split.
  - apply Z.mul_le_mono_nonneg_r; [lia|]. apply Z.mul_le_mono_nonneg; lia.
  - unfold LZ4_MAX_INPUT_SIZE in *. assert (0 ≤ g_width g * g_height g) by nia.
    set (p := g_width g * g_height g) in *. clearbody p. nia.
Qed.

Lemma sent_hdr_wf g pf lz m :
  small_geom g → sent_ok g (bytespp_of pf) lz m → frame_hdr_wf (sent_hdr m).
Proof.
  intros Hg. destruct m as [t|e|z r px|idr w h nal]; cbn [sent_ok].
  - intros _. hdr_consts. lia.
  - intros [-> | [-> | ->]]; hdr_consts; lia.
  - intros (Hr&Hpx&Hz). destruct (rect_small g pf r Hg Hr) as [H1 H2].
    unfold LZ4_MAX_INPUT_SIZE in H2. unfold small_geom, geom_ok, rect_ok in *.
    destruct z; hdr_consts; [destruct Hz as [_ Hz]; [done|]|]; lia.
  - intros (->&->&Hn). change (2 ^ 31) with 2147483648 in Hn.
    unfold small_geom, geom_ok in Hg. destruct idr; hdr_consts; lia.
Qed.

(** The loop's state between two messages: [fb] is shown and [rest] is
    still to come. *)
Definition view_at (g : sremfb_geom) (pf : Z) (lz : bool) (s : loop_state)
    (fb rest : bytes) : Prop :=
  s_shaped s ∧ s_w s = g_width g ∧ s_h s = g_height g ∧
  o_pixfmt (n_o (s_n s)) = pf ∧ n_fd (s_n s) = true ∧
  (lz = true → o_no_lz4 (n_o (s_n s)) = false) ∧
  fb_pixels (n_fb (s_n s)) = Some fb ∧ rx_of s = rest.

(** The viewer is not being stopped and its small writes go through. *)
Definition view_live : Prop :=
  (∀ t, v_stop t = false) ∧
  (∀ t buf, (length buf ≤ 48)%nat → writen_ev (v_send t) buf = (buf, true)).

Lemma view_at_nvis g pf lz s fb rest n t0 :
  nvis n = nvis (s_n s) → view_at g pf lz s fb rest →
  view_at g pf lz s⟨s_n := n⟩⟨s_batch_t0 := t0⟩ fb rest.
Proof.
  intros Hn (Hs&Hw&Hh&Hp&Hf&Hl&Hpx&Hr).
  split_and!; try done; [by eapply shaped_nvis|..];
    unfold nvis in Hn; injection Hn as E1 E2 E3 E4 E5 E6 E7 E8; unfold rx_of; cbn;
    by rewrite ?E1, ?E2, ?E3, ?E6.
Qed.

(** The header of the next message is read as it was sent. *)
Lemma view_header g pf lz s m fb rest :
  view_live → small_geom g → sent_ok g (bytespp_of pf) lz m →
  view_at g pf lz s fb (sent_bytes m ++ rest) →
  ∃ s1, stream_step s = stream_msg s1 (sent_hdr m) ∧
    view_at g pf lz s1 fb (sent_payload m ++ rest).
Proof.
  intros [Hstop _] Hg Hok Hv. unfold stream_step. rewrite Hstop.
  destruct (batch_flush_unless _ _ _) as [n1 t1] eqn:Hb.
  apply batch_nvis in Hb. change (nvis n1 = nvis (s_n s)) in Hb.
  apply (view_at_nvis _ _ _ _ _ _ n1 t1 Hb) in Hv.
  destruct Hv as (Hs&Hw&Hh&Hp&Hf&Hl&Hpx&Hr).
  rewrite sent_bytes_split, <- app_assoc in Hr.
  assert (Hlen : length (frame_hdr_bytes (sent_hdr m)) = 20%nat)
    by apply length_frame_hdr_bytes.
  change (rx_data (n_rx n1) = frame_hdr_bytes (sent_hdr m) ++ sent_payload m ++ rest) in Hr.
  destruct (readn_ok n1 20) as (evs&Hread&Hd).
  { rewrite Hr, length_app. lia. }
  rewrite Hr in Hread, Hd. rewrite slice_hit in Hread by lia.
  change (Z.to_nat 20) with 20%nat in Hd.
  rewrite drop_app_length' in Hd by done.
  rewrite Hread. rewrite <- (app_nil_r (frame_hdr_bytes _)).
  rewrite frame_hdr_of_bytes by (by eapply sent_hdr_wf).
  eexists. split; [done|]. by split_and!.
Qed.

Definition is_h264 (m : sent) : Prop :=
  match m with SAu _ _ _ _ => True | SCtl e => e = SREMFB_ENC_H264_EOS | _ => False end.

(** What one handled message amounts to. *)
Definition handled (g : sremfb_geom) (pf : Z) (lz : bool) (m : sent) (fb rest : bytes)
    (r : bool * loop_state) : Prop :=
  (r.1 = true → ∃ fb', paint (g_width g) (bytespp_of pf) m fb fb' ∧
                       view_at g pf lz r.2 fb' rest) ∧
  (¬ is_h264 m → r.1 = true).

Lemma bpp_view_eq n : pixfmt_ok (o_pixfmt (n_o n)) → bpp_view n = bytespp_of (o_pixfmt (n_o n)).
Proof. intros [Hp|Hp]; unfold bpp_view, bytespp_of; by rewrite Hp. Qed.

(** A handler that keeps the shape leaves some picture of the same size. *)
Lemma keeps_view_at g pf lz s s' fb rest rest' :
  pixfmt_ok pf → view_at g pf lz s fb rest → keeps s s' → rx_of s' = rest' →
  ∃ fb', length fb' = length fb ∧ view_at g pf lz s' fb' rest'.
Proof.
  intros Hpf (Hs&Hw&Hh&Hp&Hf&Hl&Hpx&Hr) (Hks&Hkl&Hkw&Hkh) Hr'.
  pose proof (Hks Hs) as (_&_&_&_&_&_&px'&Hpx'&Hlen').
  pose proof Hs as (_&_&_&_&_&_&px&Hpx0&Hlen). rewrite Hpx in Hpx0. simplify_eq Hpx0. intros <-.
  unfold s_link in Hkl. injection Hkl as K1 K2 K3 K4.
  exists px'. split.
  - unfold bpp_view in *. rewrite K1, Hkw, Hkh in Hlen'. lia.
  - split_and!; try congruence; try done; [by apply Hks|].
    intros Hz. rewrite K1. auto.
Qed.

Lemma on_ping_live n t : view_live → n_fd n = true → (on_ping n t).1 = true.
Proof.
  intros [_ Hw] Hfd. unfold on_ping, view_net_send, writen_locked. rewrite Hfd.
  rewrite Hw by (unfold client_msg_bytes; rewrite !length_app, !length_le; simpl; lia).
  done.
Qed.

Lemma view_ping g pf lz s t fb rest :
  view_live → view_at g pf lz s fb (le 8 t ++ rest) →
  handled g pf lz (SPing t) fb rest (stream_dispatch s (sent_hdr (SPing t))).
Proof.
  intros Hlive Hv. pose proof Hv as (_&_&_&_&Hf&_&_&Hr).
  unfold stream_dispatch. cbn [sent_hdr fh_encoding fh_payload_len].
  change (_ || _) with false. change (_ =? SREMFB_ENC_PING) with true. cbn match.
  destruct (readn_ok (s_n s) 8) as (evs&Hread&Hd).
  { unfold rx_of in Hr. rewrite Hr, length_app, length_le. lia. }
  unfold rx_of in Hr. rewrite Hr in Hread, Hd. rewrite slice_hit in Hread by (by rewrite ?length_le).
  rewrite Hread. cbn match.
  assert (Hok : (on_ping (s_n s)⟨n_rx := evs⟩ (of_le (le 8 t))).1 = true)
    by (apply on_ping_live; [done|exact Hf]).
  destruct (on_ping _ _) as [ok n] eqn:Hp. cbn [fst] in Hok. subst ok.
  apply on_ping_nvis in Hp. split; [|done]. intros _. exists fb. split; [done|].
  assert (Hv' : view_at g pf lz s⟨s_n := (s_n s)⟨n_rx := evs⟩⟩ fb rest).
  { destruct Hv as (Hs&Hw&Hh&Hpx&_&Hl&Hfb&_). by split_and!. }
  exact (view_at_nvis g pf lz s⟨s_n := (s_n s)⟨n_rx := evs⟩⟩ fb rest n (s_batch_t0 s)
    Hp Hv').
Qed.

Lemma view_ctl g pf lz s e fb rest :
  pixfmt_ok pf → is_ctl (SCtl e) → view_at g pf lz s fb rest →
  handled g pf lz (SCtl e) fb rest (stream_dispatch s (sent_hdr (SCtl e))).
Proof.
  intros Hpf He Hv. pose proof Hv as (Hs&_&_&_&_&_&_&Hr).
  unfold stream_dispatch. cbn [sent_hdr]. destruct He as [-> | [-> | ->]].
  - change (fh_encoding (frame_hdr_for SREMFB_ENC_H264_EOS)) with SREMFB_ENC_H264_EOS.
    change (fh_payload_len (frame_hdr_for SREMFB_ENC_H264_EOS)) with 0.
    cbn [SREMFB_ENC_H264_EOS SREMFB_ENC_BLANK SREMFB_ENC_UNBLANK SREMFB_ENC_PING
      SREMFB_ENC_H264 Z.eqb Pos.eqb orb negb]. rewrite andb_false_r.
    split; [|by intros []]. destruct (n_h264_offered (s_n s)); cbn [andb]; [|done].
    destruct (h264_eos s) as [go s'] eqn:He. cbn [fst snd]. intros ->.
    apply h264_eos_true in He as [Hk Hrx]; [|done].
    destruct (keeps_view_at g pf lz s s' fb rest rest) as (fb'&Hl&Hv'); try done.
    { unfold rx_of. by rewrite Hrx. }
    by exists fb'.
  - split; [|done]. intros _. exists fb. split; [done|].
    refine (view_at_nvis g pf lz s fb rest
      (wake (fb_upd (s_n s) (λ fb, fb⟨fb_blanked := true⟩))) (s_batch_t0 s) _ Hv). done.
  - split; [|done]. intros _. exists fb. split; [done|].
    refine (view_at_nvis g pf lz s fb rest
      (wake (fb_upd (s_n s) (λ fb, fb⟨fb_blanked := false⟩))) (s_batch_t0 s) _ Hv). done.
Qed.

Lemma view_au g pf lz s idr w h nal fb rest :
  pixfmt_ok pf → view_at g pf lz s fb (nal ++ rest) →
  handled g pf lz (SAu idr w h nal) fb rest
    (stream_dispatch s (sent_hdr (SAu idr w h nal))).
Proof.
  intros Hpf Hv. pose proof Hv as (Hs&_&_&_&_&_&_&Hr).
  unfold stream_dispatch. cbn [sent_hdr].
  change (fh_encoding (au_hdr idr w h (Z.of_nat (length nal)))) with SREMFB_ENC_H264.
  cbn [SREMFB_ENC_H264_EOS SREMFB_ENC_BLANK SREMFB_ENC_UNBLANK SREMFB_ENC_PING
    SREMFB_ENC_RAW SREMFB_ENC_LZ4 SREMFB_ENC_H264 Z.eqb Pos.eqb orb andb negb].
  rewrite andb_false_r, andb_true_r.
  split; [|by intros []]. destruct (n_h264_offered (s_n s)); [|done].
  destruct (h264_au s _) as [go s'] eqn:He. cbn [fst snd]. intros ->.
  apply h264_au_true in He as [Hk [_ Hrx]]; [|done].
  destruct (keeps_view_at g pf lz s s' fb (nal ++ rest) rest) as (fb'&Hl&Hv'); try done.
  { unfold rx_of in *. rewrite Hrx, Hr. cbn. rewrite Nat2Z.id. apply drop_app_length. }
  by exists fb'.
Qed.

(** The payload of a rect is read and decoded to the pixels it was built
    from, raw or compressed. *)
Lemma read_rect_sent `{!LZ4Laws L} g pf lz n z r px cap rest :
  small_geom g → sent_ok g (bytespp_of pf) lz (SRect z r px) →
  (lz = true → o_no_lz4 (n_o n) = false) →
  Z.of_nat (length px) ≤ cap ≤ LZ4_MAX_INPUT_SIZE →
  rx_data (n_rx n) = sent_payload (SRect z r px) ++ rest →
  ∃ n', read_rect n (sent_hdr (SRect z r px)) cap (Z.of_nat (length px)) = (Some px, n') ∧
    rx_data (n_rx n') = rest ∧ s_link n' = s_link n ∧ n_fb n' = n_fb n.
Proof.
  intros Hg (Hr&Hpx&Hz) Hlz Hcap Hrx. unfold LZ4_MAX_INPUT_SIZE in *.
  unfold read_rect. destruct z; cbn [sent_hdr sent_payload] in *.
  - destruct (Hz eq_refl) as [Hl Hlen]. rewrite (Hlz Hl).
    change (fh_encoding (rect_hdr SREMFB_ENC_LZ4 _ _) =? SREMFB_ENC_RAW) with false.
    cbn [fh_payload_len rect_hdr orb].
    assert (Hblk : lz4_block px ≠ []) by (intros Hn; rewrite Hn in Hlen; simpl in Hlen; lia).
    rewrite (proj2 (Z.eqb_neq _ _)) by lia. rewrite s32_small by lia.
    rewrite LZ4_bound by (unfold LZ4_MAX_INPUT_SIZE; lia).
    assert (Hb : 0 ≤ cap + cap / 255 + 16 < 2 ^ 64) by (split; dlia).
    unfold u64. rewrite Z.mod_small by done.
    assert (0 ≤ cap / 255) by (apply Z.div_pos; lia).
    rewrite (proj2 (Z.ltb_ge _ _)) by lia. cbn [orb].
    destruct (readn_ok n (Z.of_nat (length (lz4_block px)))) as (evs&Hread&Hd).
    { rewrite Hrx, length_app. lia. }
    rewrite Hrx in Hread, Hd. rewrite slice_hit in Hread by lia.
    rewrite Nat2Z.id, drop_app_length in Hd.
    rewrite Hread. unfold now_ns.
    rewrite s32_small by lia.
    rewrite (LZ4_roundtrip px (LZ4_compressBound (Z.of_nat (length px))) 1) by done.
    rewrite Z.eqb_refl. eexists. split; [done|]. by split_and!.
  - change (fh_encoding (rect_hdr SREMFB_ENC_RAW _ _) =? SREMFB_ENC_RAW) with true.
    cbn [fh_payload_len rect_hdr]. rewrite Z.eqb_refl. cbn [negb].
    destruct (readn_ok n (Z.of_nat (length px))) as (evs&Hread&Hd).
    { rewrite Hrx, length_app. lia. }
    rewrite Hrx in Hread, Hd. rewrite slice_hit in Hread by lia.
    rewrite Nat2Z.id, drop_app_length in Hd. rewrite Hread.
    eexists. split; [done|]. by split_and!.
Qed.

Lemma view_rect `{!LZ4Laws L} g pf lz s z r px fb rest :
  small_geom g → pixfmt_ok pf → sent_ok g (bytespp_of pf) lz (SRect z r px) →
  view_at g pf lz s fb (sent_payload (SRect z r px) ++ rest) →
  handled g pf lz (SRect z r px) fb rest
    (stream_dispatch s (sent_hdr (SRect z r px))).
Proof.
  intros Hg Hpf Hok Hv. pose proof Hok as (Hr&Hpx&_).
  pose proof Hv as (Hs&Hw&Hh&Hp&Hf&Hl&Hfb&Hrx).
  assert (Hdisp : stream_dispatch s (sent_hdr (SRect z r px)) =
                  rect_msg s (sent_hdr (SRect z r px))).
  { unfold stream_dispatch. by destruct z; cbn [sent_hdr];
      rewrite ?andb_false_r; cbn; rewrite ?andb_false_r. }
  rewrite Hdisp. clear Hdisp.
  assert (Hc : fh_x (sent_hdr (SRect z r px)) = x1 r ∧ fh_y (sent_hdr (SRect z r px)) = y1 r
    ∧ fh_w (sent_hdr (SRect z r px)) = x2 r - x1 r
    ∧ fh_h (sent_hdr (SRect z r px)) = y2 r - y1 r) by (by destruct z).
  destruct Hc as (Ex&Ey&Ew&Eh).
  unfold rect_msg. rewrite Ex, Ey, Ew, Eh, Hw, Hh.
  destruct (_ || _) eqn:Hguard; [exfalso; unfold rect_ok in Hr; lia|]. cbv zeta.
  destruct (batch_flush_unless _ _ _) as [n1 t1] eqn:Hb. apply batch_nvis in Hb.
  destruct (if t1 =? 0 then _ else _) as [t2 n2] eqn:Ht.
  assert (Hn2 : nvis n2 = nvis (s_n s)).
  { rewrite <- Hb. unfold now_ns in Ht. case_match; by simplify_eq. }
  pose proof (view_at_nvis g pf lz s _ _ n2 t2 Hn2 Hv) as (Hs2&_&_&Hp2&Hf2&Hl2&Hfb2&Hrx2).
  cbn in Hp2, Hf2, Hl2, Hfb2. change (rx_data (n_rx n2) = sent_payload (SRect z r px) ++ rest) in Hrx2.
  assert (Hbpp : s_bytespp s = bytespp_of pf).
  { unfold s_bytespp. rewrite Hp. destruct Hpf as [->| ->]; done. }
  destruct (rect_small g pf r Hg Hr) as [Hle Hmax].
  rewrite Hbpp, <- Hpx.
  assert (Hcap : frame_cap s = g_width g * g_height g * bytespp_of pf)
    by (unfold frame_cap; by rewrite Hw, Hh, Hbpp).
  destruct (read_rect_sent g pf lz n2 z r px (frame_cap s) rest) as (n3&Hread&Hrx3&Hl3&Hf3);
    try done; [rewrite Hcap; lia|].
  rewrite Hread. cbn [fst snd]. split; [|done]. intros _.
  eexists. split; [done|].
  destruct Hs2 as (Hsw&Hsh&Hb2&Hst2&Hsc2&Hsm&px0&Hpx0&Hlen0). cbn in *.
  rewrite Hfb2 in Hpx0. simplify_eq Hpx0. intros <-.
  assert (Hbv : bpp_view n2 = bytespp_of pf) by (rewrite bpp_view_eq; rewrite Hp2; done).
  rewrite Hbv, Hw, Hh in *.
  assert (Hv3 := fb_put_rect_nvis n3 (sent_hdr (SRect z r px)) px).
  unfold nvis in Hv3. injection Hv3 as E1 E2 E3 E4 E5 E6 E7 E8.
  rewrite Hf3, Hfb2, Hst2, Hb2, Ex, Ey, Ew, Eh in E6. cbn [option_map] in E6.
  unfold s_link in Hl3. injection Hl3 as L1 L2 L3 L4.
  unfold rect_ok in Hr. unfold small_geom, geom_ok in Hg.
  pose proof (bytespp_pos pf).
  destruct (put_rect_spec (g_width g) (bytespp_of pf) (x1 r) (y1 r) (x2 r - x1 r)
    (y2 r - y1 r) px fb) as [Hplen _]; try lia; [nia|].
  split_and!; cbn; try (by rewrite ?E1, ?E2, ?L1, ?L2); try done.
  - unfold s_shaped, shaped, bpp_view. cbn. rewrite E1, E6, E7, E8, L1, Hf3.
    change (if o_pixfmt (n_o n2) =? SREMFB_PIX_RGB565 then 2 else 4) with (bpp_view n2).
    rewrite Hbv. split_and!; [lia|lia|congruence|congruence| |lia|].
    + rewrite length_blit; lia.
    + eexists. split; [done|]. lia.
  - unfold rx_of. cbn. by rewrite E3.
Qed.

(** One iteration of the loop takes one message of the server. *)
Lemma view_message `{!LZ4Laws L} g pf lz s m fb rest :
  view_live → small_geom g → pixfmt_ok pf → sent_ok g (bytespp_of pf) lz m →
  view_at g pf lz s fb (sent_bytes m ++ rest) →
  handled g pf lz m fb rest (stream_step s).
Proof.
  intros Hlive Hg Hpf Hok Hv.
  destruct (view_header g pf lz s m fb rest Hlive Hg Hok Hv) as (s1&->&Hv1).
  assert (Hm : fh_magic (sent_hdr m) = SREMFB_MAGIC) by (by destruct m as [| |[]|]).
  destruct (stream_msg_pre s1 (sent_hdr m) Hm) as (n&t0&Hn&->).
  apply (view_at_nvis _ _ _ _ _ _ n t0 Hn) in Hv1.
  set (s2 := s1⟨_ := _⟩⟨_ := _⟩) in *. clearbody s2.
  destruct m as [t|e|z r px|idr w h nal].
  - by apply view_ping.
  - by apply view_ctl.
  - by apply view_rect.
  - by apply view_au.
Qed.

Lemma view_messages `{!LZ4Laws L} g pf lz ss s fb rest :
  view_live → small_geom g → pixfmt_ok pf → Forall (sent_ok g (bytespp_of pf) lz) ss →
  view_at g pf lz s fb (mjoin (sent_bytes <$> ss) ++ rest) →
  let '(go, s') := stream_run (length ss) s in
  (go = true → ∃ fb', paint_all (g_width g) (bytespp_of pf) ss fb fb' ∧
                      view_at g pf lz s' fb' rest) ∧
  (Forall (λ m, ¬ is_h264 m) ss → go = true).
Proof.
  intros Hlive Hg Hpf Hss. revert s fb.
  induction Hss as [|m ss Hm _ IH]; intros s fb Hv; cbn [length stream_run].
  { split; [|done]. intros _. by exists fb. }
  cbn [fmap list_fmap mjoin list_join] in Hv. rewrite <- app_assoc in Hv.
  destruct (view_message g pf lz s m fb _ Hlive Hg Hpf Hm Hv) as [Hgo Hraw].
  destruct (stream_step s) as [[] s1]; cbn [fst snd] in *.
  - destruct (Hgo eq_refl) as (fb1&Hp1&Hv1). specialize (IH s1 fb1 Hv1).
    destruct (stream_run (length ss) s1) as [go s']. destruct IH as [IH1 IH2].
    split; [|by intros [_ ?]%Forall_cons; auto].
    intros Htrue. destruct (IH1 Htrue) as (fb'&Hp'&Hv'). exists fb'. split; [|done].
    by exists fb1.
  - split; [done|]. intros [Hn _]%Forall_cons. by apply Hraw.
Qed.

(** ** The start of a session: both ends are black *)
Lemma px_at_zero n i : px_at (replicate n 0) i = 0.
Proof.
  unfold px_at, get, slice. rewrite drop_replicate, take_replicate.
  generalize ((Z.to_nat (Z.of_nat 4) `min` (n - Z.to_nat (4 * i)))%nat) as k.
  induction k as [|k IH]; [done|]. cbn [replicate of_le]. rewrite IH. lia.
Qed.

Lemma dithered_zero x y :
  rgb565_dithered 0 (nth (Z.to_nat (Z.land x 3))
    (nth (Z.to_nat (Z.land y 3)) bayer []) 0) = 0.
Proof.
  assert (Hl : ∀ v, Z.land v 3 = 0 ∨ Z.land v 3 = 1 ∨ Z.land v 3 = 2 ∨ Z.land v 3 = 3).
  { intros v. assert (E : Z.land v 3 = v mod 4)
      by (change 3 with (Z.ones 2); by rewrite Z.land_ones by lia).
    rewrite E. clear. dlia. }
  destruct (Hl x) as [->|[->|[->| ->]]], (Hl y) as [->|[->|[->| ->]]]; reflexivity.
Qed.

Lemma rows_replicate a n (k : nat) (f : Z → bytes) :
  0 ≤ n → (∀ i, f i = replicate k 0) → rows a n f = replicate (Z.to_nat n * k) 0.
Proof.
  intros Hn Hf. apply list_eq. intros j. unfold rows.
  rewrite (list_fmap_ext _ (λ _, replicate k 0)) by auto.
  rewrite <- (length_seqZ a n). generalize (seqZ a n) as l. clear. intros l.
  assert (H : mjoin ((λ _ : Z, replicate k 0) <$> l) = replicate (length l * k) 0).
  { induction l as [|x l IH]; [done|]. cbn [length Nat.mul].
    rewrite replicate_add. cbn. f_equal. exact IH. }
  by rewrite H.
Qed.

Lemma convert_row_zero n w pf x y :
  0 ≤ w → (Z.to_nat (w * 4) ≤ n)%nat →
  sremfb_convert_bgrx_row (replicate n 0) w pf x y =
    replicate (Z.to_nat w * Z.to_nat (bytespp_of pf)) 0.
Proof.
  intros Hw Hn. unfold sremfb_convert_bgrx_row, bytespp_of. case_match.
  { unfold slice. rewrite drop_replicate, take_replicate. f_equal. lia. }
  case_match; (rewrite (rows_replicate _ _ 2); [done|done|]); intros i;
    rewrite px_at_zero; [done|]. cbv zeta. by rewrite dithered_zero.
Qed.

(** A zeroed shadow frame converts to a zeroed framebuffer, dithering
    included. *)
Lemma conv_frame_zero gw gh pf :
  0 < gw → 0 < gh →
  conv_frame gw gh pf (replicate (Z.to_nat (gw * gh * 4)) 0) =
    replicate (Z.to_nat (gw * gh * bytespp_of pf)) 0.
Proof.
  intros Hw Hh. pose proof (bytespp_pos pf). unfold conv_frame, rect_pixels, rows.
  rewrite (list_fmap_ext _ (λ _, replicate (Z.to_nat (gw * bytespp_of pf)) 0)).
  - fold (rows 0 gh (λ _, replicate (Z.to_nat (gw * bytespp_of pf)) 0)).
    rewrite (rows_replicate _ _ (Z.to_nat (gw * bytespp_of pf))) by (done || lia).
    f_equal. rewrite <- Z2Nat.inj_mul by nia. f_equal. lia.
  - intros i k Hk%list_elem_of_lookup_2. apply elem_of_seqZ in Hk.
    unfold slice. rewrite drop_replicate, take_replicate.
    rewrite convert_row_zero by nia. f_equal. rewrite <- Z2Nat.inj_mul by lia. done.
Qed.

(** A client as the frame source starts it: nothing sent, both buffers
    allocated, the shadow frame zeroed, and the frame dirty unless it is
    black too. *)
Definition fresh_client (c : SremfbClient) (grab : bytes) : Prop :=
  session_ok c ∧ c_xmit_mode c = XMIT_RAW ∧ c_outq c = [] ∧ c_outq_off c = 0 ∧
  c_out_active c = false ∧ c_wire c = [] ∧ c_dirty c = [] ∧
  (c_dirty_all c = true ∨ grab = replicate (Z.to_nat (frame_size c)) 0) ∧
  c_grabbuf c = Some grab ∧ Z.of_nat (length grab) = frame_size c ∧
  c_shadowbuf c = Some (replicate (Z.to_nat (frame_size c)) 0).

Lemma fresh_link {U : Stale} c grab : fresh_client c grab → link_inv c ∧ stream c = [].
Proof.
  intros (Hok&Hm&Hq&Ho&Ha&Hw&Hd&Hall&Hgr&Hl&Hsh). pose proof Hok as (Hg&_&_).
  assert (Hfs : 0 ≤ frame_size c) by (unfold frame_size, geom_ok in *; nia).
  split; [split_and!|].
  - done.
  - unfold stream_inv. rewrite Ho, Hq, Ha. split_and!; [lia|done|done].
  - split; [done|]. split; [rewrite Hd; simpl; lia|]. split; [by rewrite Hd|].
    exists grab, (replicate (Z.to_nat (frame_size c)) 0).
    split; [done|]. split; [done|]. split; [done|].
    split; [rewrite length_replicate; lia|]. intros i [_ Hne].
    destruct Hall as [Hall|Hall]; [by left|]. by rewrite Hall in Hne.
  - unfold enc_inv. by rewrite Hm.
  - unfold stream, in_flight, queued, queued_of. by rewrite Hw, Ha, Hq, Ho.
Qed.

(** The viewer at the start of its message loop. *)
Lemma view_start g pf lz n :
  small_geom g → pixfmt_ok pf → o_pixfmt (n_o n) = pf →
  (lz = true → o_no_lz4 (n_o n) = false) →
  view_at g pf lz (stream_start n (g_width g) (g_height g))
    (replicate (Z.to_nat (g_width g * g_height g * bytespp_of pf)) 0)
    (rx_data (n_rx n)).
Proof.
  intros Hg Hpf Hp Hl. pose proof Hg as [Hge Hsm].
  assert (Hb : (if o_pixfmt (n_o n) =? SREMFB_PIX_RGB565 then 2 else 4) = bytespp_of pf)
    by (rewrite Hp; by destruct Hpf as [->| ->]).
  destruct (stream_start_shaped n (g_width g) (g_height g)) as [Hs Hr].
  { unfold geom_ok in Hge. lia. }
  { unfold geom_ok in Hge. lia. }
  { rewrite Hb. unfold LZ4_MAX_INPUT_SIZE in Hsm. unfold geom_ok in Hge.
    pose proof (bytespp_range pf).
    assert (0 ≤ g_width g * g_height g) by nia.
    set (p := g_width g * g_height g) in *. clearbody p.
    change (2 ^ 31) with 2147483648. nia. }
  split_and!; [done| | | | | | |done];
    unfold stream_start; cbn [s_n s_w s_h]; try done;
    match goal with |- context [sample_tcp_rtt ?n1] =>
      assert (Hv := tcp_rtt_nvis n1); set (n' := sample_tcp_rtt n1) in * end;
    unfold nvis in Hv; injection Hv as E1 E2 E3 E4 E5 E6 E7 E8.
  - by rewrite E1.
  - by rewrite E2.
  - intros Hz. rewrite E1. by apply Hl.
  - rewrite E6. cbn. by rewrite Hb.
Qed.

Lemma fresh_mirror c grab :
  fresh_client c grab →
  mirror c (replicate (Z.to_nat (fb_size c)) 0).
Proof.
  intros (Hok&Hm&Hq&Ho&Ha&Hw&Hd&Hall&Hgr&Hl&Hsh). pose proof Hok as (Hg&_&_).
  exists (replicate (Z.to_nat (frame_size c)) 0). unfold geom_ok in Hg.
  split_and!; [done| |intros _ _; symmetry; apply conv_frame_zero; lia].
  rewrite length_replicate. pose proof (bpp_range c).
  apply Z2Nat.id. unfold fb_size, geom_ok in *.
  apply Z.mul_nonneg_nonneg; [apply Z.mul_nonneg_nonneg; lia|lia].
Qed.

(** ** The hello *)
Definition hello_of (c : SremfbClient) (flags : Z) : sremfb_server_hello :=
  mk_server_hello SREMFB_MAGIC SREMFB_PROTO_VER SREMFB_STATUS_OK
    (g_width (c_geom c)) (g_height (c_geom c)) (ch_pixfmt (c_hello c)) flags
    (if has_flag flags SREMFB_SRV_FLAG_AUDIO then c_audio_token c else 0).

Lemma xmit_hello_eq c flags :
  geom_ok (c_geom c) →
  sremfb_xmit_hello c flags = sremfb_xmit_ctrl c (server_hello_bytes (hello_of c flags)).
Proof.
  unfold geom_ok. intros. unfold sremfb_xmit_hello, net_fill_server_hello, hello_of.
  rewrite !u16_small by lia. by destruct (has_flag _ _).
Qed.

Lemma hello_wf c flags :
  session_ok c → 0 ≤ flags < 256 → 0 ≤ c_audio_token c < 65536 →
  server_hello_wf (hello_of c flags).
Proof.
  intros (Hg&_&Hp) Hf Ht. unfold server_hello_wf, hello_of, geom_ok in *; cbn.
  unfold SREMFB_MAGIC, SREMFB_PROTO_VER, SREMFB_STATUS_OK.
  assert (0 ≤ ch_pixfmt (c_hello c) < 256) by (destruct Hp as [->| ->]; by vm_compute).
  destruct (has_flag _ _); lia.
Qed.

(** The viewer accepts the hello and learns the geometry. *)
Lemma hello_accepted c flags n rest :
  view_live → session_ok c → 0 ≤ flags < 256 → 0 ≤ c_audio_token c < 65536 →
  o_pixfmt (n_o n) = ch_pixfmt (c_hello c) →
  length (o_mac (n_o n)) = 6%nat → length (o_model (n_o n)) = 13%nat →
  rx_data (n_rx n) = server_hello_bytes (hello_of c flags) ++ rest →
  ∃ n', hello_exchange n = (Some (g_width (c_geom c), g_height (c_geom c)), n') ∧
    rx_data (n_rx n') = rest ∧ n_o n' = n_o n.
Proof.
  intros [_ Hw] Hok Hf Ht Hp Hmac Hmodel Hrx. pose proof Hok as (Hg&_&_).
  unfold hello_exchange, writen_locked. cbv zeta.
  rewrite Hw.
  2:{ rewrite length_client_hello; [done|..];
        unfold hello_fill; by destruct (_ =? _). }
  cbn [negb].
  match goal with |- context [readn ?n1 16] =>
    destruct (readn_ok n1 16) as (evs&Hread&Hd);
      change (rx_data (n_rx n1)) with (rx_data (n_rx n)) in * end.
  { rewrite Hrx, length_app, length_server_hello_bytes. lia. }
  rewrite Hrx in Hread, Hd. rewrite slice_hit in Hread
    by (rewrite ?length_server_hello_bytes; done).
  change (Z.to_nat 16) with 16%nat in Hd.
  rewrite drop_app_length' in Hd by (by rewrite length_server_hello_bytes).
  rewrite Hread. rewrite server_hello_of_bytes by (by apply hello_wf).
  cbn [hello_of sh_magic sh_proto_ver sh_status sh_pixfmt sh_width sh_height].
  rewrite !Z.eqb_refl. cbn [negb orb].
  match goal with |- context [_ =? o_pixfmt (n_o ?n1)] =>
    change (n_o n1) with (n_o n) end.
  rewrite Hp, Z.eqb_refl. cbn [negb]. unfold geom_ok in Hg.
  rewrite !(proj2 (Z.eqb_neq _ 0)) by lia. cbn [orb].
  eexists. split; [done|]. by split.
Qed.

(** The session's first message goes out: hello first, everything else
    behind it. *)
Definition session_start (c : SremfbClient) (flags : Z) : Prop :=
  0 ≤ c_fd c ∧ c_lost_id c = 0 ∧ 0 ≤ flags < 256 ∧ 0 ≤ c_audio_token c < 65536.

Definition viewer_for (c : SremfbClient) (n : view_net) : Prop :=
  o_pixfmt (n_o n) = ch_pixfmt (c_hello c) ∧
  (c_lz4 c = true → o_no_lz4 (n_o n) = false) ∧
  length (o_mac (n_o n)) = 6%nat ∧ length (o_model (n_o n)) = 13%nat.

Lemma start_link {U : Stale} (c : SremfbClient) grab flags :
  fresh_client c grab → session_start c flags →
  let c0 := sremfb_xmit_hello c flags in
  link_inv c0 ∧ same_session c c0 ∧ c_shadowbuf c0 = c_shadowbuf c ∧
  stream c0 = server_hello_bytes (hello_of c flags).
Proof.
  intros Hf (Hfd&Hlost&_&_). pose proof (fresh_link c grab Hf) as [Hl Hst].
  destruct Hf as (Hok&_). cbv zeta.
  rewrite xmit_hello_eq by apply Hok. set (m := server_hello_bytes _).
  destruct Hl as (_&Hi&Hd&He).
  destruct (ctrl_stream c m Hi) as (Hi'&Hss&Hc).
  destruct (ctrl_fields c m) as (Hsh&_).
  split.
  - split_and!; [by eapply session_ok_same|apply Hi'..| |by apply enc_inv_ctrl].
    eapply pix_le_inv; [apply pix_le_ctrl|done].
  - split; [exact Hss|]. split; [done|].
    destruct Hc as [->|[? _]]; [by rewrite Hst|lia].
Qed.
End mirror.
