(* ===== verification/Samples.v ===== *)
(** * Concrete libraries and states for the witnesses

    Small implementations of the parameters (x264, LZ4, the platform, the
    viewer's system calls, libavcodec) that satisfy the laws the theorems
    assume, and a 2x2 session. *)
From S2P Require Import Prelude Binary64 Protocol Core Convert Encoder Net Xmit Control Drain.
From S2P Require Import XmitSpec Dirty Coverage ViewH264 ViewNet Blit Paint.
From S2P Require Import Stream OutReady Link ViewRead Mirror.
From stdpp Require Import relations.
#[local] Open Scope Z_scope.

(** An encoder whose access units are four bytes long. *)
Definition sample_param : x264_param_t :=
  mk_x264_param 0 0 0 false false 0 false 0 0 false 0 0 0 0 0 0 0 false 0 0 0 0.
Definition sample_x264 : X264 := {|
  X264_CSP_I420 := 2; X264_KEYINT_MAX_INFINITE := 1073741824; X264_RC_ABR := 2;
  X264_LOG_WARNING := 1; x264_t := nat;
  x264_param_default_preset := λ _ _, Some sample_param;
  x264_encoder_open := λ _, Some 0%nat;
  x264_encoder_reconfig := λ h _, (h, 0);
  x264_encoder_encode := λ h pic,
    (S h, mk_x264_out 4 1 [0; 0; 1; if pic_idr pic then 101 else 65] (pic_idr pic)) |}.

#[export] Instance sample_x264_laws : X264Laws sample_x264.
Proof. split. intros h pic h' out Heq. simplify_eq/=. lia. Qed.

(** An encoder that opens but fails every encode. *)
Definition broken_x264 : X264 := {|
  X264_CSP_I420 := 2; X264_KEYINT_MAX_INFINITE := 1073741824; X264_RC_ABR := 2;
  X264_LOG_WARNING := 1; x264_t := nat;
  x264_param_default_preset := λ _ _, Some sample_param;
  x264_encoder_open := λ _, Some 0%nat;
  x264_encoder_reconfig := λ h _, (h, 0);
  x264_encoder_encode := λ h pic, (S h, mk_x264_out (-1) 0 [] false) |}.

(** A compressor for blocks of one repeated byte. *)
Definition sample_compress (src : bytes) : bytes :=
  match src with
  | [] => []
  | b :: _ => if bool_decide (src = replicate (length src) b) then [b] else []
  end.
Definition sample_lz4 : LZ4 := {|
  LZ4_compressBound := λ n, n + n / 255 + 16;
  LZ4_compress_fast := λ src _ _ _, sample_compress src;
  LZ4_decompress_safe := λ blk n,
    match blk with [b] => Some (replicate (Z.to_nat n) b) | _ => None end |}.

#[export] Instance sample_lz4_laws : LZ4Laws sample_lz4.
Proof.
  split.
  - intros src cap acc blk Hc Hne. cbn in *. subst blk. unfold sample_compress in *.
    destruct src as [|b src]; [done|]. case_bool_decide as Heq; [|done].
    rewrite Nat2Z.id. by rewrite <- Heq.
  - done.
Qed.

Definition sample_platform : Platform := {|
  getenv_FORCE_H264 := false; getenv_NO_H264 := false; getenv_NO_DITHER := false;
  getenv_NO_USB := false; g_monotonic := λ n, 1000000 + 1000 * Z.of_nat n |}.

Definition sample_view_sys : ViewSys := {|
  v_now_ns := λ n, 1000 * Z.of_nat n + 1; v_stop := λ _, false;
  v_fionread := λ _, Some 0; v_tcp_rtt := λ _, Some 150;
  v_send := λ _, [TSent 48] |}.

(** A decoder that never has a picture. *)
Definition sample_av : AvCodec := {|
  av_ctx := unit; AVERROR_EAGAIN := -11; AVERROR_EOF := -541478725;
  AV_PIX_FMT_YUV420P := 0; AV_PIX_FMT_YUVJ420P := 12;
  avcodec_open := Some tt; avcodec_send_packet := λ d _, (d, 0);
  avcodec_receive_frame := λ d, (d, -11, mk_av_frame 0 0 ([], [], []) (0, 0, 0) 0 0 false);
  avcodec_flush_buffers := λ d, d; av_pending := λ _, 0%nat |}.

#[export] Instance sample_av_laws : AvCodecLaws sample_av.
Proof. split. intros d d' rc f Heq. simplify_eq/=. lia. Qed.

(** ** A 2x2 XRGB8888 session *)
Definition sample_hello (pixfmt flags : Z) : sremfb_client_hello :=
  mk_client_hello SREMFB_MAGIC SREMFB_PROTO_VER flags 2 2 32 pixfmt 16 8 8 8 0 8
    [2; 0; 0; 0; 0; 1] (replicate 13 0) (replicate 9 0).
Definition sample_frame : bytes := [10; 20; 30; 0; 40; 50; 60; 0; 70; 80; 90; 0; 1; 2; 3; 0].

Section sample_client.
Context `{X264}.
Definition sample_client (pixfmt : Z) (grab : bytes) : SremfbClient :=
  (client_new0 5 (sample_hello pixfmt 1) "192.0.2.7:40000")
    ⟨c_state := STREAMING⟩⟨c_geom := mk_geom 2 2⟩⟨c_grabbuf := Some grab⟩
    ⟨c_shadowbuf := Some (replicate 16 0)⟩⟨c_sendbuf := true⟩⟨c_lz4 := true⟩
    ⟨c_dirty_all := true⟩.
End sample_client.

Definition sample_fb0 : view_fb :=
  mk_fb 0 false false 0 0 0 0 0 None false [] false 0 false 0 0 0 0.
Definition sample_stats0 : view_stats := mk_stats 0 0 0 0 0 0 0 0 false 0 0 0 0.
Definition sample_opts (pixfmt : Z) : view_opts :=
  mk_opts 2 2 pixfmt false false false false [2; 0; 0; 0; 0; 1] (replicate 13 0).
Definition sample_view (pixfmt : Z) (rx : list rx_ev) : view_net :=
  mk_net (sample_opts pixfmt) sample_fb0 sample_stats0 false 0 0 false 0 false false
    rx [] 0%nat 0.

(** The 2x2 session: the hello and the snapshot leave in two dispatches. *)
Abbreviation sample_c0 :=
  (@sremfb_xmit_hello sample_x264
     (@sample_client sample_x264 SREMFB_PIX_XRGB8888 sample_frame) 1).
Definition sample_dispatch (c : @SremfbClient sample_x264) (answers : list send_res)
    : @SremfbClient sample_x264 :=
  (@on_out_ready sample_x264 sample_lz4 sample_platform c false answers).2.
Definition sample_c1 := sample_dispatch sample_c0 [SSent 7].
Definition sample_c2 := sample_dispatch sample_c1 [SSent 100].
Definition sample_c3 := sample_dispatch sample_c2 [SSent 20; SEintr; SSent 9; SSent 100].

Lemma sample_live : @view_live sample_view_sys.
Proof.
  split; [done|]. intros t buf Hlen.
  change (v_send t) with [TSent 48]. destruct buf as [|b buf]; [done|].
  cbn [writen_ev]. change (0 <? 48) with true. cbn match.
  assert (Hs : slice 48 (Z.of_nat (length (b :: buf)) - 48) (b :: buf) = []).
  { unfold slice. rewrite drop_ge by lia. by rewrite take_nil. }
  rewrite Hs. cbn [writen_ev]. rewrite app_nil_r. f_equal.
  unfold slice. rewrite drop_0. apply take_ge. lia.
Qed.

Lemma sample_run :
  rtc (@tx_step sample_x264 sample_lz4 sample_platform) sample_c0 sample_c3.
Proof.
  apply rtc_l with sample_c1.
  { unfold sample_c1, sample_dispatch. apply (tx_out_ready sample_c0 false [SSent 7]). }
  apply rtc_l with sample_c2.
  { unfold sample_c2, sample_dispatch. apply (tx_out_ready sample_c1 false [SSent 100]). }
  apply rtc_once. unfold sample_c3, sample_dispatch.
  apply (tx_out_ready sample_c2 false [SSent 20; SEintr; SSent 9; SSent 100]).
Qed.

Lemma sample_fresh :
  @fresh_client sample_x264 (@sample_client sample_x264 SREMFB_PIX_XRGB8888 sample_frame)
    sample_frame.
Proof.
  unfold fresh_client, session_ok, geom_ok. split_and!; try reflexivity;
    try (left; reflexivity); cbn; unfold LZ4_MAX_INPUT_SIZE; lia.
Qed.

Lemma sample_link : link_inv (X := sample_x264) (U := fresh_frame) sample_c0.
Proof.
  eapply (@start_link sample_x264 sample_lz4); [exact sample_fresh|]. unfold session_start. cbn. lia.
Qed.
