(* ===== verification/HidReport.v ===== *)
(** * kvm/hidmap.c and the reports of kvm/input_hid.c

    The generated key map, and the pure functions that turn evdev events
    into HID reports.  A key code is the number linux/input-event-codes.h
    gives it; the map is listed in the order of the generated file. *)
From S2P Require Import Prelude Binary64 Protocol Bits Core.
From stdpp Require Import gmap.
#[local] Open Scope list_scope.
#[local] Open Scope Z_scope.

Definition KEY_CNT : Z := 0x300.

Definition hid_table : list (Z * Z) :=
  [
   (1, 0x29); (2, 0x1E); (3, 0x1F); (4, 0x20); (5, 0x21); (6, 0x22); (7, 0x23); (8, 0x24);
   (9, 0x25); (10, 0x26); (11, 0x27); (12, 0x2D); (13, 0x2E); (14, 0x2A); (15, 0x2B); (16, 0x14);
   (17, 0x1A); (18, 0x08); (19, 0x15); (20, 0x17); (21, 0x1C); (22, 0x18); (23, 0x0C); (24, 0x12);
   (25, 0x13); (26, 0x2F); (27, 0x30); (28, 0x28); (29, 0xE0); (30, 0x04); (31, 0x16); (32, 0x07);
   (33, 0x09); (34, 0x0A); (35, 0x0B); (36, 0x0D); (37, 0x0E); (38, 0x0F); (39, 0x33); (40, 0x34);
   (41, 0x35); (42, 0xE1); (43, 0x31); (44, 0x1D); (45, 0x1B); (46, 0x06); (47, 0x19); (48, 0x05);
   (49, 0x11); (50, 0x10); (51, 0x36); (52, 0x37); (53, 0x38); (54, 0xE5); (55, 0x55); (56, 0xE2);
   (57, 0x2C); (58, 0x39); (59, 0x3A); (60, 0x3B); (61, 0x3C); (62, 0x3D); (63, 0x3E); (64, 0x3F);
   (65, 0x40); (66, 0x41); (67, 0x42); (68, 0x43); (69, 0x53); (70, 0x47); (71, 0x5F); (72, 0x60);
   (73, 0x61); (74, 0x56); (75, 0x5C); (76, 0x5D); (77, 0x5E); (78, 0x57); (79, 0x59); (80, 0x5A);
   (81, 0x5B); (82, 0x62); (83, 0x63); (85, 0x94); (86, 0x64); (87, 0x44); (88, 0x45); (89, 0x87);
   (90, 0x92); (91, 0x93); (92, 0x8A); (93, 0x88); (94, 0x8B); (95, 0x8C); (96, 0x58); (97, 0xE4);
   (98, 0x54); (99, 0x46); (100, 0xE6); (102, 0x4A); (103, 0x52); (104, 0x4B); (105, 0x50); (106, 0x4F);
   (107, 0x4D); (108, 0x51); (109, 0x4E); (110, 0x49); (111, 0x4C); (113, 0x7F); (114, 0x81); (115, 0x80);
   (116, 0x66); (117, 0x67); (119, 0x48); (121, 0x85); (122, 0x90); (123, 0x91); (124, 0x89); (125, 0xE3);
   (126, 0xE7); (127, 0x65); (128, 0x78); (129, 0x79); (130, 0x76); (131, 0x7A); (132, 0x77); (133, 0x7C);
   (134, 0x74); (135, 0x7D); (136, 0x7E); (137, 0x7B); (138, 0x75); (179, 0xB6); (180, 0xB7); (183, 0x68);
   (184, 0x69); (185, 0x6A); (186, 0x6B); (187, 0x6C); (188, 0x6D); (189, 0x6E); (190, 0x6F); (191, 0x70);
   (192, 0x71); (193, 0x72); (194, 0x73)
  ].
Definition hid_map : gmap Z Z := list_to_map hid_table.

(** sremfb_hid_usage[code], 0 where the initialiser has no entry *)
Definition sremfb_hid_usage (code : Z) : Z := default 0 (hid_map !! code).

Definition SREMFB_HID_KBD_USAGE_MAX : Z := 0x65.
Definition SREMFB_HID_KEY_SAME : Z := 0.
Definition SREMFB_HID_KEY_CHANGED : Z := 1.
Definition SREMFB_HID_KEY_NOUSAGE : Z := -1.
Definition SREMFB_HID_KEY_ROLLOVER : Z := -2.
Definition HID_ABS_MAX : Z := 32767.

(** ** The boot-protocol keyboard *)
Record sremfb_hid_kbd := mk_hid_kbd { k_mods : Z; k_keys : bytes; k_down : bytes }.
#[export] Instance eta_kbd : Eta sremfb_hid_kbd := λ k,
  mk_hid_kbd (k_mods k) (k_keys k) (k_down k).

Definition kbd0 : sremfb_hid_kbd := mk_hid_kbd 0 (replicate 6 0) (replicate 96 0).

Definition sremfb_hid_kbd_held (k : sremfb_hid_kbd) (code : Z) : bool :=
  (code <? KEY_CNT) && bit_get (k_down k) code.

(** [for (i = 0; i < 6 && ...; i++)]: the first index whose byte satisfies
    [p], 6 when there is none. *)
Fixpoint find_key (p : Z → bool) (l : bytes) : nat :=
  match l with
  | [] => O
  | u :: l => if p u then O else S (find_key p l)
  end.

(** removal of entry [i], the following ones moving up *)
Definition remove_key (i : nat) (l : bytes) : bytes :=
  take i l ++ drop (S i) l ++ [0].

Definition sremfb_hid_kbd_key (k : sremfb_hid_kbd) (code value : Z)
    : Z * sremfb_hid_kbd :=
  if KEY_CNT <=? code then (SREMFB_HID_KEY_NOUSAGE, k)
  else
    let u := sremfb_hid_usage code in
    if (u =? 0) || ((SREMFB_HID_KBD_USAGE_MAX <? u) && ((u <? 0xE0) || (0xE7 <? u)))
    then (SREMFB_HID_KEY_NOUSAGE, k)
    else if negb (value =? 0) && negb (value =? 1) then (SREMFB_HID_KEY_SAME, k)
    else if Bool.eqb (value =? 1) (bit_get (k_down k) code) then (SREMFB_HID_KEY_SAME, k)
    else
      let changed :=
        if 0xE0 <=? u then
          let bit := u8 (Z.shiftl 1 (u - 0xE0)) in
          Some (if value =? 1 then k⟨k_mods ::= (λ m, Z.lor m bit)⟩
                else k⟨k_mods ::= (λ m, Z.land m (u8 (Z.lnot bit)))⟩)
        else if value =? 1 then
          let i := find_key (λ x, x =? 0) (k_keys k) in
          if (i =? 6)%nat then None else Some k⟨k_keys ::= (λ l, <[i := u]> l)⟩
        else
          let i := find_key (λ x, x =? u) (k_keys k) in
          Some (if (i <? 6)%nat then k⟨k_keys ::= remove_key i⟩ else k) in
      match changed with
      | None => (SREMFB_HID_KEY_ROLLOVER, k)
      | Some k => (SREMFB_HID_KEY_CHANGED, k⟨k_down ::= (λ b, bit_put b code (value =? 1))⟩)
      end.

Definition sremfb_hid_kbd_report (k : sremfb_hid_kbd) : bytes :=
  k_mods k :: 0 :: take 6 (k_keys k).

(** ** The mouse and the absolute pointer *)
Definition sremfb_hid_button_bit (code : Z) : Z :=
  if code =? 0x110 then 0 else if code =? 0x111 then 1 else if code =? 0x112 then 2
  else if code =? 0x113 then 3 else if code =? 0x114 then 4 else -1.

Record sremfb_hid_mouse := mk_hid_mouse {
  m_buttons : Z; m_dx : Z; m_dy : Z; m_wheel : Z; m_hwheel : Z }.
#[export] Instance eta_mouse : Eta sremfb_hid_mouse := λ m,
  mk_hid_mouse (m_buttons m) (m_dx m) (m_dy m) (m_wheel m) (m_hwheel m).

Definition mouse0 : sremfb_hid_mouse := mk_hid_mouse 0 0 0 0 0.

(** Takes at most 127 of an accumulator: the int8_t and what is left. *)
Definition take127 (acc : Z) : Z * Z :=
  let v := CLAMP acc (-127) 127 in (v, acc - v).

Definition nonzero (z : Z) : bool := negb (z =? 0).

Definition sremfb_hid_mouse_report (m : sremfb_hid_mouse)
    : bytes * bool * sremfb_hid_mouse :=
  let '(dx, rx) := take127 (m_dx m) in
  let '(dy, ry) := take127 (m_dy m) in
  let '(w, rw) := take127 (m_wheel m) in
  let '(hw, rhw) := take127 (m_hwheel m) in
  ([m_buttons m; u8 dx; u8 dy; u8 w; u8 hw],
   nonzero rx || nonzero ry || nonzero rw || nonzero rhw,
   mk_hid_mouse (m_buttons m) rx ry rw rhw).

Definition sremfb_hid_pointer_report (m : sremfb_hid_mouse) (hx hy : Z)
    : bytes * bool * sremfb_hid_mouse :=
  let hx := CLAMP hx 0 HID_ABS_MAX in
  let hy := CLAMP hy 0 HID_ABS_MAX in
  let '(w, rw) := take127 (m_wheel m) in
  let '(hw, rhw) := take127 (m_hwheel m) in
  ([m_buttons m; u8 (Z.land hx 0xFF); u8 (Z.shiftr hx 8);
    u8 (Z.land hy 0xFF); u8 (Z.shiftr hy 8); u8 w; u8 hw],
   nonzero rw || nonzero rhw,
   mk_hid_mouse (m_buttons m) 0 0 rw rhw).

(** ** Stream pixels to the target's screen *)
Record sremfb_kvm_fit := mk_fit {
  f_src_w : Z; f_src_h : Z; f_dst_w : Z; f_dst_h : Z; f_s : double;
  f_ox : Z; f_oy : Z; f_dw : Z; f_dh : Z }.

(** CLAMP on doubles *)
Definition DCLAMP (x low high : double) : double :=
  if Dltb high x then high else if Dltb x low then low else x.

Definition abs_axis (sx : double) (sw : Z) : Z :=
  let sx := DCLAMP sx D0 (D_of_Z (sw - 1)) in
  CLAMP (D_trunc (Ddiv (Dmul (Dadd sx (D_lit 5 1)) (D_of_Z 32768)) (D_of_Z sw)))
    0 HID_ABS_MAX.

Definition sremfb_kvm_abs_map (f : sremfb_kvm_fit) (x y : Z) : Z * Z :=
  let s := if Dltb D0 (f_s f) then f_s f else D_of_Z 1 in
  if (f_src_w f <=? 0) || (f_src_h f <=? 0) then
    let sw := if 0 <? f_dst_w f then f_dst_w f else 1 in
    let sh := if 0 <? f_dst_h f then f_dst_h f else 1 in
    (abs_axis (D_of_Z x) sw, abs_axis (D_of_Z y) sh)
  else
    (abs_axis (D_of_Z (D_floor (Ddiv (D_of_Z (s32 (x - f_ox f))) s))) (f_src_w f),
     abs_axis (D_of_Z (D_floor (Ddiv (D_of_Z (s32 (y - f_oy f))) s))) (f_src_h f)).
