(* ===== verification/HidKbd.v ===== *)
(** * The keyboard report always shows exactly the keys that are held *)
From stdpp Require Import gmap.
From S2P Require Import Prelude Binary64 Protocol Bits Core HidReport.
#[local] Open Scope list_scope.
#[local] Open Scope Z_scope.

Definition usable (code : Z) : Prop :=
  1 ≤ sremfb_hid_usage code ≤ SREMFB_HID_KBD_USAGE_MAX ∨
  0xE0 ≤ sremfb_hid_usage code ≤ 0xE7.
Definition is_mod (code : Z) : Prop := 0xE0 ≤ sremfb_hid_usage code.

(** ** The table *)
Lemma hid_codes_NoDup : NoDup (fst <$> hid_table).
Proof. apply (bool_decide_unpack (NoDup (fst <$> hid_table))). vm_compute. exact I. Qed.
Lemma hid_usages_NoDup : NoDup (snd <$> hid_table).
Proof. apply (bool_decide_unpack (NoDup (snd <$> hid_table))). vm_compute. exact I. Qed.

Lemma usage_elem code : sremfb_hid_usage code ≠ 0 → (code, sremfb_hid_usage code) ∈ hid_table.
Proof.
  unfold sremfb_hid_usage. destruct (hid_map !! code) as [u|] eqn:Hu; [|done].
  intros _. by apply elem_of_list_to_map_2.
Qed.

Lemma usage_nonneg code : 0 ≤ sremfb_hid_usage code.
Proof.
  destruct (decide (sremfb_hid_usage code = 0)) as [->|Hne]; [done|].
  apply usage_elem in Hne.
  assert (Hall : Forall (λ p, 0 ≤ p.2) hid_table)
    by (apply (bool_decide_unpack (Forall (λ p, 0 ≤ p.2) hid_table)); vm_compute; exact I).
  rewrite Forall_forall in Hall. exact (Hall _ Hne).
Qed.

(** No two keys share a usage. *)
Lemma usage_inj a b :
  sremfb_hid_usage a = sremfb_hid_usage b → sremfb_hid_usage a ≠ 0 → a = b.
Proof.
  intros Heq Hne. pose proof (usage_elem a Hne) as Ha.
  rewrite Heq in Hne. pose proof (usage_elem b Hne) as Hb.
  apply list_elem_of_lookup in Ha as [i Hi], Hb as [j Hj].
  assert (i = j) as ->.
  { eapply (NoDup_lookup (snd <$> hid_table)); [apply hid_usages_NoDup| |];
      rewrite list_lookup_fmap; [by rewrite Hi|rewrite Hj; cbn; by rewrite Heq]. }
  congruence.
Qed.

(** ** The six slots *)
Lemma find_key_spec p l :
  (find_key p l ≤ length l)%nat ∧ Forall (λ u, p u = false) (take (find_key p l) l) ∧
  (∀ u, l !! find_key p l = Some u → p u = true).
Proof.
  induction l as [|x l (H1&H2&H3)]; cbn [find_key]; [split_and!; [cbn; lia|constructor|done]|].
  destruct (p x) eqn:Hp.
  - split_and!; [cbn; lia|constructor|]. by intros u [= <-].
  - split_and!; [cbn; lia|by constructor|done].
Qed.

(** Slots: the pressed usages in order, then zeros. *)
Definition slots (ks : bytes) : bytes := ks ++ replicate (6 - length ks) 0.

Definition key_usages (ks : bytes) : Prop :=
  (length ks ≤ 6)%nat ∧ NoDup ks ∧ Forall (λ u, 1 ≤ u ≤ SREMFB_HID_KBD_USAGE_MAX) ks.

Lemma find_free ks :
  key_usages ks → find_key (λ x, x =? 0) (slots ks) = length ks.
Proof.
  intros (Hl&_&Hf). unfold slots. revert Hl. generalize 6%nat as n. induction Hf as [|u ks Hu _ IH].
  - intros [|n] _; reflexivity.
  - intros n Hl. cbn [length app find_key]. destruct (u =? 0) eqn:?; [lia|]. f_equal.
    cbn [length] in Hl. destruct n as [|n]; [lia|]. cbn [Nat.sub]. apply IH. lia.
Qed.

Lemma insert_free ks u :
  key_usages ks → (length ks < 6)%nat → <[length ks := u]> (slots ks) = slots (ks ++ [u]).
Proof.
  intros (Hl&_&_) Hlt. unfold slots. rewrite insert_app_r_alt by lia.
  rewrite Nat.sub_diag, length_app. cbn [length].
  replace (6 - length ks)%nat with (S (6 - (length ks + 1))) by lia.
  cbn [replicate]. rewrite <- app_assoc. reflexivity.
Qed.

Lemma find_first a u r :
  u ∉ a → find_key (λ x, x =? u) (a ++ u :: r) = length a.
Proof.
  induction a as [|x a IH]; intros Hn; cbn [app find_key length]; [by rewrite Z.eqb_refl|].
  apply not_elem_of_cons in Hn as [Hx Hn]. destruct (x =? u) eqn:?; [lia|].
  by rewrite IH.
Qed.

Lemma find_held ks u :
  key_usages ks → u ∈ ks →
  ∃ a b, ks = a ++ u :: b ∧ find_key (λ x, x =? u) (slots ks) = length a ∧
    remove_key (length a) (slots ks) = slots (a ++ b).
Proof.
  intros (Hl&Hnd&_) Hin. apply list_elem_of_split in Hin as (a&b&->). exists a, b.
  rewrite length_app in Hl. cbn [length] in Hl.
  assert (E : slots (a ++ u :: b) = a ++ u :: (b ++ replicate (5 - length a - length b) 0)).
  { unfold slots. rewrite <- app_assoc, length_app. cbn [app length]. do 4 f_equal. lia. }
  split; [done|]. rewrite E. split.
  - apply find_first. apply NoDup_app in Hnd as (_&Hna&_).
    intros Ha. destruct (Hna u Ha). by left.
  - unfold remove_key, slots. rewrite take_app_length.
    replace (S (length a)) with (length (a ++ [u])) by (rewrite length_app; cbn; lia).
    set (r := b ++ _). replace (a ++ u :: r) with ((a ++ [u]) ++ r)
      by (rewrite <- app_assoc; done).
    rewrite drop_app_length, length_app, <- !app_assoc. subst r. rewrite <- app_assoc.
    do 2 f_equal.
    replace (6 - (length a + length b))%nat with (S (5 - length a - length b)) by lia.
    by rewrite replicate_S_end.
Qed.

(** ** The invariant *)
Definition in_range (code : Z) : Prop := 0 ≤ code < KEY_CNT.
Definition held (k : sremfb_hid_kbd) (code : Z) : Prop :=
  in_range code ∧ bit_get (k_down k) code = true.

Record kbd_inv (k : sremfb_hid_kbd) (ks : bytes) : Prop := {
  ki_slots : k_keys k = slots ks;
  ki_ks : key_usages ks;
  ki_down : length (k_down k) = 96%nat;
  ki_usable : ∀ code, held k code → usable code;
  ki_keys : ∀ u, u ∈ ks ↔ ∃ code, held k code ∧ sremfb_hid_usage code = u ∧ u < 0xE0;
  ki_mods : ∀ code, in_range code → usable code → is_mod code →
    Z.testbit (k_mods k) (sremfb_hid_usage code - 0xE0) = bit_get (k_down k) code;
  ki_byte : 0 ≤ k_mods k < 256 }.

Lemma bit_clear_mask u m j :
  0 ≤ u < 8 → 0 ≤ m < 256 → 0 ≤ j < 8 →
  Z.testbit (Z.land m (u8 (Z.lnot (u8 (Z.shiftl 1 u))))) j =
    (if j =? u then false else Z.testbit m j).
Proof.
  intros. rewrite Z.land_spec, testbit_u8, Z.lnot_spec, testbit_u8, testbit_one by lia.
  by destruct (j =? u), (Z.testbit m j).
Qed.

Lemma bit_set_mask u m j :
  0 ≤ u < 8 → 0 ≤ j < 8 →
  Z.testbit (Z.lor m (u8 (Z.shiftl 1 u))) j = (if j =? u then true else Z.testbit m j).
Proof.
  intros. rewrite Z.lor_spec, testbit_u8, testbit_one by lia.
  by destruct (j =? u), (Z.testbit m j).
Qed.

Lemma byte_bits x : 0 ≤ x → (∀ j, 8 ≤ j → Z.testbit x j = false) → x < 256.
Proof.
  intros Hx Hb. destruct (decide (x < 256)) as [|Hge]; [done|]. exfalso.
  assert (Hl : 8 ≤ Z.log2 x) by (change 8 with (Z.log2 256); apply Z.log2_le_mono; lia).
  specialize (Hb _ Hl). rewrite Z.bit_log2 in Hb by lia. done.
Qed.

Lemma byte_high x j : 0 ≤ x < 256 → 8 ≤ j → Z.testbit x j = false.
Proof.
  intros Hx Hj. destruct (decide (x = 0)) as [->|]; [apply Z.bits_0|].
  apply Z.bits_above_log2; [lia|]. apply Z.lt_le_trans with 8; [|done].
  apply Z.log2_lt_pow2; lia.
Qed.

Lemma lor_byte x y : 0 ≤ x < 256 → 0 ≤ y < 256 → 0 ≤ Z.lor x y < 256.
Proof.
  intros. split; [apply Z.lor_nonneg; lia|]. apply byte_bits; [apply Z.lor_nonneg; lia|].
  intros j Hj. by rewrite Z.lor_spec, !byte_high.
Qed.

Lemma land_byte x y : 0 ≤ x < 256 → 0 ≤ y < 256 → 0 ≤ Z.land x y < 256.
Proof.
  intros. split; [apply Z.land_nonneg; lia|]. apply byte_bits; [apply Z.land_nonneg; lia|].
  intros j Hj. by rewrite Z.land_spec, !byte_high.
Qed.

(** The new [down] bits, whatever was done to the slots. *)
Lemma held_put k k' code v c :
  length (k_down k) = 96%nat → in_range code → k_down k' = bit_put (k_down k) code v →
  held k' c ↔ if decide (c = code) then v = true else held k c.
Proof.
  intros Hl Hr Hd. unfold held, in_range, KEY_CNT in *. rewrite Hd.
  split.
  - intros [Hc Hb]. rewrite bit_get_put in Hb by lia.
    case_decide; [subst; by rewrite Z.eqb_refl in Hb|].
    destruct (c =? code) eqn:?; [lia|done].
  - case_decide as Hcc.
    + intros ->. subst. split; [done|]. by rewrite bit_get_put, Z.eqb_refl by lia.
    + intros [Hc Hb]. split; [done|]. rewrite bit_get_put by lia.
      destruct (c =? code) eqn:?; [lia|done].
Qed.

(** ** One event *)
Definition put_down (k : sremfb_hid_kbd) (code : Z) (v : bool) : sremfb_hid_kbd :=
  k⟨k_down ::= (λ b, bit_put b code v)⟩.

Lemma usable_nonzero code : usable code → sremfb_hid_usage code ≠ 0.
Proof. unfold usable, SREMFB_HID_KBD_USAGE_MAX. lia. Qed.

(** Only the modifiers' byte changes. *)
Lemma mod_inv k ks code v m :
  kbd_inv k ks → in_range code → usable code → is_mod code → 0 ≤ m < 256 →
  (∀ j, 0 ≤ j < 8 → Z.testbit m j =
     (if j =? sremfb_hid_usage code - 0xE0 then v else Z.testbit (k_mods k) j)) →
  kbd_inv (put_down k⟨k_mods := m⟩ code v) ks.
Proof.
  intros [Hs Hk Hd Hu Hke Hm Hb] Hr Hus Hmod Hm8 Hbits.
  set (k' := put_down _ _ _).
  assert (Hheld : ∀ c, held k' c ↔ if decide (c = code) then v = true else held k c)
    by (intros c; by apply held_put).
  unfold is_mod in Hmod. unfold usable in Hus.
  constructor; try done.
  - change (length (bit_put (k_down k) code v) = 96%nat). by rewrite length_bit_put.
  - intros c Hc. apply Hheld in Hc. case_decide; [by subst|by apply Hu].
  - intros u. rewrite Hke. split; intros (c&Hc&Hcu&Hlt); exists c; (split; [|done]).
    + apply Hheld. case_decide; [subst c; lia|done].
    + apply Hheld in Hc. case_decide; [subst c; lia|done].
  - intros c Hc Huc Hmc. unfold is_mod in Hmc.
    change (k_mods k') with m. change (k_down k') with (bit_put (k_down k) code v).
    assert (Hrange : 0xE0 ≤ sremfb_hid_usage c ≤ 0xE7).
    { unfold usable, SREMFB_HID_KBD_USAGE_MAX in Huc. lia. }
    rewrite Hbits, bit_get_put by (unfold in_range, KEY_CNT in *; lia).
    destruct (c =? code) eqn:Hcc.
    + assert (c = code) as -> by lia. by rewrite Z.eqb_refl.
    + destruct (_ =? sremfb_hid_usage code - _) eqn:Hue; [|by apply Hm].
      exfalso. assert (c = code); [|lia]. apply usage_inj; lia.
Qed.

(** Only the slots change. *)
Lemma slot_inv k ks ks' code v :
  kbd_inv k ks → in_range code → usable code → ¬ is_mod code → key_usages ks' →
  (∀ u, u ∈ ks' ↔ if decide (u = sremfb_hid_usage code) then v = true else u ∈ ks) →
  kbd_inv (put_down k⟨k_keys := slots ks'⟩ code v) ks'.
Proof.
  intros [Hs Hk Hd Hu Hke Hm Hb] Hr Hus Hmod Hk' Hin.
  set (k' := put_down _ _ _).
  assert (Hheld : ∀ c, held k' c ↔ if decide (c = code) then v = true else held k c)
    by (intros c; by apply held_put).
  unfold is_mod in Hmod.
  constructor; try done.
  - change (length (bit_put (k_down k) code v) = 96%nat). by rewrite length_bit_put.
  - intros c Hc. apply Hheld in Hc. case_decide; [by subst|by apply Hu].
  - intros u. rewrite Hin. case_decide as Huc.
    + split.
      * intros ->. exists code. split; [apply Hheld; by rewrite decide_True|lia].
      * intros (c&Hc&Hcu&_). assert (c = code) as ->.
        { apply usage_inj; [lia|]. pose proof (usable_nonzero _ Hus). lia. }
        apply Hheld in Hc. by rewrite decide_True in Hc.
    + rewrite Hke. split; intros (c&Hc&Hcu&Hlt); exists c; (split; [|done]).
      * apply Hheld. case_decide; [subst c; lia|done].
      * apply Hheld in Hc. case_decide; [subst c; lia|done].
  - intros c Hc Huc Hmc. change (k_mods k') with (k_mods k).
    change (k_down k') with (bit_put (k_down k) code v).
    rewrite bit_get_put by (unfold in_range, KEY_CNT in *; lia).
    destruct (c =? code) eqn:Hcc; [|by apply Hm].
    assert (c = code) as -> by lia. unfold is_mod in Hmc. lia.
Qed.

Lemma press_inv k ks code :
  kbd_inv k ks → in_range code → usable code → ¬ is_mod code →
  bit_get (k_down k) code = false → (length ks < 6)%nat →
  kbd_inv (put_down k⟨k_keys := slots (ks ++ [sremfb_hid_usage code])⟩ code true)
    (ks ++ [sremfb_hid_usage code]).
Proof.
  intros Hi Hr Hus Hnm Hb Hlt. pose proof (usable_nonzero _ Hus) as Hu0.
  assert (Hnin : sremfb_hid_usage code ∉ ks).
  { intros Hin. apply (ki_keys _ _ Hi) in Hin as (c&[_ Hc2]&Hcu&_).
    assert (c = code) as -> by (apply usage_inj; lia). by rewrite Hb in Hc2. }
  eapply slot_inv; try done.
  - destruct (ki_ks _ _ Hi) as (H1&H2&H3). split_and!.
    + rewrite length_app. cbn [length]. lia.
    + apply NoDup_app. split_and!; [done| |apply NoDup_singleton].
      intros x Hx ->%list_elem_of_singleton. done.
    + apply Forall_app. split; [done|]. constructor; [|done].
      unfold usable, is_mod in *. lia.
  - intros u. case_decide; rewrite elem_of_app, list_elem_of_singleton; [|by intuition].
    subst. intuition.
Qed.

Lemma release_inv k a b code :
  kbd_inv k (a ++ sremfb_hid_usage code :: b) → in_range code → usable code →
  ¬ is_mod code → kbd_inv (put_down k⟨k_keys := slots (a ++ b)⟩ code false) (a ++ b).
Proof.
  intros Hi Hr Hus Hnm. pose proof (ki_ks _ _ Hi) as (H1&H2&H3).
  apply NoDup_app in H2 as (Na&Nab&Nb). apply NoDup_cons in Nb as [Nu Nb].
  apply Forall_app in H3 as [Fa Fb]. apply Forall_cons in Fb as [_ Fb].
  eapply slot_inv; try done.
  - split_and!.
    + rewrite length_app in *. cbn [length] in H1. lia.
    + apply NoDup_app. split_and!; [done| |done]. intros x Hx Hxb.
      apply (Nab x Hx). by right.
    + by apply Forall_app.
  - intros u. case_decide as Hu; rewrite !elem_of_app, ?elem_of_cons.
    + subst u. split; [|done]. intros [Ha|Hbb]; [|done]. destruct (Nab _ Ha). by left.
    + by intuition.
Qed.

Record key_spec (k : sremfb_hid_kbd) (code v r : Z) (k' : sremfb_hid_kbd) : Prop := {
  ks_same : r ≠ SREMFB_HID_KEY_CHANGED → k' = k;
  ks_toggle : r = SREMFB_HID_KEY_CHANGED →
    (v = 0 ∧ held k code ∨ v = 1 ∧ ¬ held k code) ∧
    ∀ c, held k' c ↔ if decide (c = code) then v = 1 else held k c }.

Lemma kbd_key_step k ks code v r k' :
  kbd_inv k ks → 0 ≤ code → sremfb_hid_kbd_key k code v = (r, k') →
  key_spec k code v r k' ∧ (∃ ks', kbd_inv k' ks') ∧
  (r = SREMFB_HID_KEY_ROLLOVER → length ks = 6%nat).
Proof.
  intros Hi Hc. unfold sremfb_hid_kbd_key.
  assert (Hnop : ∀ r0, r0 ≠ SREMFB_HID_KEY_CHANGED → r0 ≠ SREMFB_HID_KEY_ROLLOVER →
    (r0, k) = (r, k') → key_spec k code v r k' ∧ (∃ ks', kbd_inv k' ks') ∧
    (r = SREMFB_HID_KEY_ROLLOVER → length ks = 6%nat)).
  { intros r0 H1 H2 [= <- <-]. split_and!; [by constructor|by exists ks|done]. }
  destruct (KEY_CNT <=? code) eqn:Hcnt; [by apply Hnop|].
  destruct ((_ =? 0) || _) eqn:Husb; [by apply Hnop|].
  destruct (negb (v =? 0) && negb (v =? 1)) eqn:Hv; [by apply Hnop|].
  destruct (Bool.eqb _ _) eqn:Hsame; [by apply Hnop|].
  assert (Hr : in_range code) by (unfold in_range; lia).
  pose proof (usage_nonneg code) as Hu0.
  assert (Hus : usable code) by (unfold usable, SREMFB_HID_KBD_USAGE_MAX in *; lia).
  assert (Hb : bit_get (k_down k) code = negb (v =? 1))
    by (apply Bool.eqb_false_iff in Hsame; by destruct (v =? 1), (bit_get _ _)).
  assert (Hv1 : v = 0 ∨ v = 1) by lia.
  assert (Htog : ∀ k2, k_down k2 = k_down k → key_spec k code v SREMFB_HID_KEY_CHANGED
    (put_down k2 code (v =? 1))).
  { intros k2 Hk2. constructor; [done|]. intros _. split.
    - unfold held. rewrite Hb. destruct Hv1 as [-> | ->]; [by left|right].
      split; [done|]. by intros [_ [=]].
    - intros c. rewrite (held_put k _ code (v =? 1)); [|apply Hi|done|].
      + case_decide; [lia|done].
      + change (k_down (put_down k2 code (v =? 1))) with (bit_put (k_down k2) code (v =? 1)).
        by rewrite Hk2. }
  cbv zeta. destruct (0xE0 <=? _) eqn:Hmod.
  - assert (Hu8 : 0 ≤ sremfb_hid_usage code - 0xE0 < 8) by (unfold usable, SREMFB_HID_KBD_USAGE_MAX in Hus; lia).
    intros [= <- <-]. split_and!; [|exists ks|done].
    + by destruct (v =? 1) eqn:?; apply Htog.
    + assert (is_mod code) by (unfold is_mod; lia).
      pose proof (u8_range (Z.shiftl 1 (sremfb_hid_usage code - 0xE0))).
      pose proof (u8_range (Z.lnot (u8 (Z.shiftl 1 (sremfb_hid_usage code - 0xE0))))).
      destruct (v =? 1) eqn:Hv1'.
      * apply (mod_inv k ks code true); try done; [apply lor_byte; [apply Hi|lia]|].
        intros j Hj. by apply bit_set_mask.
      * apply (mod_inv k ks code false); try done; [apply land_byte; [apply Hi|lia]|].
        intros j Hj. apply bit_clear_mask; [done|apply Hi|done].
  - assert (Hnm : ¬ is_mod code) by (unfold is_mod; lia).
    assert (Hu1 : 1 ≤ sremfb_hid_usage code ≤ SREMFB_HID_KBD_USAGE_MAX)
      by (unfold usable in Hus; lia).
    pose proof (ki_ks _ _ Hi) as Hks. pose proof (ki_slots _ _ Hi) as Hsl.
    rewrite !Hsl. destruct (v =? 1) eqn:Hv1'.
    + rewrite find_free by done. destruct (length ks =? 6)%nat eqn:Hfull.
      { intros [= <- <-]. split_and!; [by constructor|by exists ks|].
        intros _. by apply Nat.eqb_eq. }
      apply Nat.eqb_neq in Hfull. intros [= <- <-].
      assert (Hlt : (length ks < 6)%nat) by (destruct Hks; lia).
      change (k⟨k_keys ::= _⟩) with k⟨k_keys := <[length ks := sremfb_hid_usage code]> (k_keys k)⟩.
      rewrite Hsl, insert_free by done. split_and!; [by apply Htog| |done].
      eexists. by apply press_inv.
    + assert (Hin : sremfb_hid_usage code ∈ ks).
      { apply (ki_keys _ _ Hi). exists code. split; [done|]. split; [done|lia]. }
      destruct (find_held ks _ Hks Hin) as (a&b&Hab&Hf&Hrm). rewrite Hf.
      assert (Hla : (length a <? 6)%nat = true).
      { apply Nat.ltb_lt. destruct Hks as [Hl _]. subst ks. rewrite length_app in Hl.
        cbn [length] in Hl. lia. }
      rewrite Hla. intros [= <- <-].
      change (k⟨k_keys ::= remove_key (length a)⟩) with k⟨k_keys := remove_key (length a) (k_keys k)⟩.
      rewrite Hsl, Hrm. split_and!; [by apply Htog| |done]. exists (a ++ b).
      apply release_inv; [by subst|done..].
Qed.
