(* ===== verification/Hid.v ===== *)
(** * kvm/input_hid.c: the client's input on the USB gadget

    The static [H] (three gadget nodes, the client that holds them) and the
    per-client state are records passed along.  A node carries the answers
    of the write(2) calls to come and, as ghosts, the reports the target
    accepted ([nd_log]) and every report handed to node_write()
    ([nd_sent]).  Clients are told apart by a number, as the code tells
    them apart by their address. *)
From S2P Require Import Prelude Binary64 Protocol Bits Core HidReport.

Definition HID_MAX_SPLIT : nat := 32.
Definition HID_STALL_LOG_US : Z := 60 * 1000000.

Definition EV_SYN : Z := 0.
Definition EV_KEY : Z := 1.
Definition EV_REL : Z := 2.
Definition EV_ABS : Z := 3.
Definition SYN_REPORT : Z := 0.
Definition REL_X : Z := 0.
Definition REL_Y : Z := 1.
Definition REL_HWHEEL : Z := 6.
Definition REL_WHEEL : Z := 8.
Definition ABS_X : Z := 0.
Definition ABS_Y : Z := 1.

(** One write(2) to a gadget node: the bytes taken, EINTR, EAGAIN or
    ESHUTDOWN (the target does not read), or a hard error. *)
Inductive write_res := WBytes (n : Z) | WIntr | WAgain | WHard.

Record HidNode := mk_node {
  nd_path : bool; nd_chr : bool; nd_len : Z; nd_fd : Z; nd_led_watch : bool;
  nd_stalled : bool; nd_stall_log_us : Z; nd_written : Z; nd_dropped : Z;
  nd_ep_dropped : Z; nd_open : Z; nd_answers : list write_res;
  nd_log : list bytes; nd_sent : list bytes }.
#[export] Instance eta_node : Eta HidNode := λ n,
  mk_node (nd_path n) (nd_chr n) (nd_len n) (nd_fd n) (nd_led_watch n)
    (nd_stalled n) (nd_stall_log_us n) (nd_written n) (nd_dropped n)
    (nd_ep_dropped n) (nd_open n) (nd_answers n) (nd_log n) (nd_sent n).

Record hid_H := mk_H {
  h_kbd : HidNode; h_mouse : HidNode; h_ptr : HidNode; h_owner : option nat;
  h_gamepad_warned : bool; h_warned : bytes; h_tick : nat }.
#[export] Instance eta_H : Eta hid_H := λ h,
  mk_H (h_kbd h) (h_mouse h) (h_ptr h) (h_owner h) (h_gamepad_warned h)
    (h_warned h) (h_tick h).

Record SremfbInput := mk_hid_input {
  i_kbd : sremfb_hid_kbd; i_mouse : sremfb_hid_mouse; i_ptr : sremfb_hid_mouse;
  i_last_kbd : bytes; i_last_mouse : Z; i_last_ptr : Z;
  i_dirty_kbd : bool; i_dirty_mouse : bool; i_dirty_ptr : bool;
  i_abs_placed : bool; i_abs_x : Z; i_abs_y : Z; i_n_events : Z }.
#[export] Instance eta_hid_input : Eta SremfbInput := λ i,
  mk_hid_input (i_kbd i) (i_mouse i) (i_ptr i) (i_last_kbd i) (i_last_mouse i)
    (i_last_ptr i) (i_dirty_kbd i) (i_dirty_mouse i) (i_dirty_ptr i)
    (i_abs_placed i) (i_abs_x i) (i_abs_y i) (i_n_events i).
Definition hid_input0 : SremfbInput :=
  mk_hid_input kbd0 mouse0 mouse0 (replicate 8 0) 0 0 false false false false 0 0 0.

(** The fields of the client the file uses; [hc_fit] is src_ctx->fit. *)
Record hid_client := mk_hid_client {
  hc_id : nat; hc_input_cap : bool; hc_input : option SremfbInput;
  hc_geom : sremfb_geom; hc_fit : option sremfb_kvm_fit }.
#[export] Instance eta_hid_client : Eta hid_client := λ c,
  mk_hid_client (hc_id c) (hc_input_cap c) (hc_input c) (hc_geom c) (hc_fit c).

(** ** The gadget's nodes *)
Definition node_open (is_kbd : bool) (n : HidNode) : HidNode * bool :=
  let n := n⟨nd_stalled := false⟩⟨nd_ep_dropped := 0⟩ in
  if negb (nd_path n) then (n, false)
  else
    let rdwr := nd_chr n && is_kbd in
    let n := n⟨nd_fd := nd_open n⟩ in
    if nd_fd n <? 0 then (n, false)
    else if rdwr then (n⟨nd_led_watch := true⟩, true) else (n, true).

Definition node_close (n : HidNode) : HidNode :=
  n⟨nd_led_watch := false⟩⟨nd_fd := -1⟩.

(** [do r = write(...) while (r < 0 && errno == EINTR)]; without a further
    answer the target does not read. *)
Fixpoint write_retry (answers : list write_res) : write_res * list write_res :=
  match answers with
  | [] => (WAgain, [])
  | WIntr :: answers => write_retry answers
  | r :: answers => (r, answers)
  end.

Section hid.
Context `{P : Platform}.

Definition hid_now (t : nat) : Z := g_monotonic t.

(** The second component counts the clock readings. *)
Definition node_write (n : HidNode) (rep : bytes) (t : nat) : HidNode * nat :=
  if nd_fd n <? 0 then (n, t)
  else
    let '(r, answers) := write_retry (nd_answers n) in
    let n := n⟨nd_answers := answers⟩⟨nd_sent ::= (λ l, l ++ [rep])⟩ in
    let full := match r with WBytes k => k =? nd_len n | _ => false end in
    if full then
      let n := n⟨nd_written ::= (λ w, u64 (w + 1))⟩⟨nd_log ::= (λ l, l ++ [rep])⟩ in
      (if nd_stalled n then n⟨nd_stalled := false⟩⟨nd_ep_dropped := 0⟩ else n, t)
    else
      match r with
      | WHard | WIntr => (node_close n, t)
      | WBytes _ | WAgain =>
        let n := n⟨nd_dropped ::= (λ w, u64 (w + 1))⟩⟨nd_ep_dropped ::= (λ w, u64 (w + 1))⟩ in
        let now := hid_now t in
        let n :=
          if negb (nd_stalled n) then n⟨nd_stalled := true⟩⟨nd_stall_log_us := now⟩
          else if HID_STALL_LOG_US <=? now - nd_stall_log_us n
          then n⟨nd_stall_log_us := now⟩ else n in
        (n, S t)
      end.

Abbreviation st := (hid_H * SremfbInput)%type.

(** ** Reports *)
Definition write_kbd (h : hid_H) (rep : bytes) : hid_H :=
  let '(n, t) := node_write (h_kbd h) rep (h_tick h) in h⟨h_kbd := n⟩⟨h_tick := t⟩.
Definition write_mouse (h : hid_H) (rep : bytes) : hid_H :=
  let '(n, t) := node_write (h_mouse h) rep (h_tick h) in h⟨h_mouse := n⟩⟨h_tick := t⟩.
Definition write_ptr (h : hid_H) (rep : bytes) : hid_H :=
  let '(n, t) := node_write (h_ptr h) rep (h_tick h) in h⟨h_ptr := n⟩⟨h_tick := t⟩.

Definition kbd_flush (s : st) : st :=
  let '(h, i) := s in
  let i := i⟨i_last_kbd := sremfb_hid_kbd_report (i_kbd i)⟩ in
  (write_kbd h (i_last_kbd i), i⟨i_dirty_kbd := false⟩).

(** [do ... while (more && ++i < HID_MAX_SPLIT)]: [n] reports may still be
    sent, the first one always is. *)
Fixpoint mouse_reports (n : nat) (h : hid_H) (m : sremfb_hid_mouse)
    : hid_H * sremfb_hid_mouse :=
  let '(rep, more, m) := sremfb_hid_mouse_report m in
  let h := write_mouse h rep in
  match n with
  | S (S _ as n) => if more then mouse_reports n h m else (h, m)
  | _ => (h, m)
  end.

Definition mouse_flush (s : st) : st :=
  let '(h, i) := s in
  let '(h, m) := mouse_reports HID_MAX_SPLIT h (i_mouse i) in
  let i := i⟨i_mouse := mk_hid_mouse (m_buttons m) 0 0 0 0⟩ in
  (h, i⟨i_last_mouse := m_buttons (i_mouse i)⟩⟨i_dirty_mouse := false⟩).

Fixpoint ptr_reports (n : nat) (hx hy : Z) (h : hid_H) (m : sremfb_hid_mouse)
    : hid_H * sremfb_hid_mouse :=
  let '(rep, more, m) := sremfb_hid_pointer_report m hx hy in
  let h := write_ptr h rep in
  match n with
  | S (S _ as n) => if more then ptr_reports n hx hy h m else (h, m)
  | _ => (h, m)
  end.

Definition fit_id (g : sremfb_geom) : sremfb_kvm_fit :=
  mk_fit 0 0 (g_width g) (g_height g) (D_of_Z 1) 0 0 0 0.

Definition ptr_flush (c : hid_client) (s : st) : st :=
  let '(h, i) := s in
  let f := default (fit_id (hc_geom c)) (hc_fit c) in
  let '(hx, hy) := sremfb_kvm_abs_map f (i_abs_x i) (i_abs_y i) in
  let '(h, m) := ptr_reports HID_MAX_SPLIT hx hy h (i_ptr i) in
  let i := i⟨i_ptr := m⟨m_wheel := 0⟩⟨m_hwheel := 0⟩⟩ in
  (h, i⟨i_last_ptr := m_buttons (i_ptr i)⟩⟨i_dirty_ptr := false⟩).

Definition dev_flush (c : hid_client) (s : st) (dev : Z) : st :=
  if dev =? SREMFB_INDEV_KEYBOARD then kbd_flush s
  else if dev =? SREMFB_INDEV_MOUSE then mouse_flush s
  else if i_abs_placed s.2 then ptr_flush c s else s.

Definition release_all (c : hid_client) (s : st) : st :=
  let '(h, i) := s in
  let i := i⟨i_kbd := kbd0⟩⟨i_mouse := mouse0⟩⟨i_ptr := mouse0⟩ in
  let '(h, i) := foldl (dev_flush c) (h, i)
    [SREMFB_INDEV_KEYBOARD; SREMFB_INDEV_MOUSE; SREMFB_INDEV_POINTER] in
  (h, i⟨i_dirty_ptr := false⟩).

Definition kbd_usage_sent (i : SremfbInput) (code : Z) : bool :=
  let u := sremfb_hid_usage code in
  if (0xE0 <=? u) && (u <=? 0xE7) then Z.testbit (nth 0 (i_last_kbd i) 0) (u - 0xE0)
  else bool_decide (u ∈ slice 2 6 (i_last_kbd i)).

Definition on_key (s : st) (code v : Z) : st :=
  let '(h, i) :=
    if (v =? 0) && sremfb_hid_kbd_held (i_kbd s.2) code && negb (kbd_usage_sent s.2 code)
    then kbd_flush s else s in
  let '(r, k) := sremfb_hid_kbd_key (i_kbd i) code v in
  let i := i⟨i_kbd := k⟩ in
  if r =? SREMFB_HID_KEY_CHANGED then (h, i⟨i_dirty_kbd := true⟩)
  else if (r =? SREMFB_HID_KEY_NOUSAGE) && (code <? KEY_CNT) && (v =? 1) &&
          negb (bit_get (h_warned h) code)
  then (h⟨h_warned ::= (λ w, bit_put w code true)⟩, i)
  else (h, i).

(** The button byte of the mouse or of the pointer *)
Definition set_button (m : sremfb_hid_mouse) (b : Z) (v : Z) : sremfb_hid_mouse :=
  let bit := u8 (Z.shiftl 1 b) in
  if negb (v =? 0) then m⟨m_buttons ::= (λ x, Z.lor x bit)⟩
  else m⟨m_buttons ::= (λ x, Z.land x (u8 (Z.lnot bit)))⟩.

Definition on_button (c : hid_client) (s : st) (dev code v : Z) : st :=
  let i := s.2 in
  let mouse := dev =? SREMFB_INDEV_MOUSE in
  let m := if mouse then i_mouse i else i_ptr i in
  let b := sremfb_hid_button_bit code in
  if (b <? 0) || (negb (v =? 0) && negb (v =? 1)) then s
  else if Z.b2z (Z.testbit (m_buttons m) b) =? v then s
  else if (dev =? SREMFB_INDEV_POINTER) && (v =? 1) && negb (i_abs_placed i) then s
  else
    let last := if mouse then i_last_mouse i else i_last_ptr i in
    let '(h, i) := if (v =? 0) && negb (Z.testbit last b) then dev_flush c s dev else s in
    if mouse then (h, i⟨i_mouse ::= (λ m, set_button m b v)⟩⟨i_dirty_mouse := true⟩)
    else (h, i⟨i_ptr ::= (λ m, set_button m b v)⟩⟨i_dirty_ptr := true⟩).

(** ** The API *)
Definition hid_node (h : hid_H) (dev : Z) : HidNode :=
  if dev =? SREMFB_INDEV_KEYBOARD then h_kbd h
  else if dev =? SREMFB_INDEV_MOUSE then h_mouse h else h_ptr h.

Definition sremfb_input_start (enabled : bool) (h : hid_H) (c : hid_client)
    : Z * hid_H * hid_client :=
  if negb (hc_input_cap c) then (0, h, c)
  else if negb enabled then (0, h, c)
  else
    match hc_input c, h_owner h with
    | Some _, _ => (SREMFB_SRV_FLAG_INPUT, h, c)
    | None, Some _ => (0, h, c)
    | None, None =>
      let '(k, ok1) := node_open true (h_kbd h) in
      let '(m, ok2) := node_open false (h_mouse h) in
      let '(p, ok3) := node_open false (h_ptr h) in
      let h := h⟨h_kbd := k⟩⟨h_mouse := m⟩⟨h_ptr := p⟩ in
      if negb (ok1 || ok2 || ok3) then (0, h, c)
      else (SREMFB_SRV_FLAG_INPUT, h⟨h_owner := Some (hc_id c)⟩, c⟨hc_input := Some hid_input0⟩)
    end.

Definition node_stop (n : HidNode) : HidNode :=
  node_close n⟨nd_written := 0⟩⟨nd_dropped := 0⟩.

Definition sremfb_input_stop (h : hid_H) (c : hid_client) : hid_H * hid_client :=
  match hc_input c with
  | None => (h, c)
  | Some i =>
    let '(h, _) := release_all c (h, i) in
    let h := h⟨h_kbd ::= node_stop⟩⟨h_mouse ::= node_stop⟩⟨h_ptr ::= node_stop⟩ in
    let h := if bool_decide (h_owner h = Some (hc_id c)) then h⟨h_owner := None⟩ else h in
    (h, c⟨hc_input := None⟩)
  end.

(** An EV_REL event: [None] when the code is ignored. *)
Definition rel_event (i : SremfbInput) (dev code v : Z) : option SremfbInput :=
  let mouse := dev =? SREMFB_INDEV_MOUSE in
  let upd f := if mouse then i⟨i_mouse ::= f⟩⟨i_dirty_mouse := true⟩
               else i⟨i_ptr ::= f⟩⟨i_dirty_ptr := true⟩ in
  let add x := s32 (x + v) in
  if code =? REL_WHEEL then Some (upd (λ m, m⟨m_wheel ::= add⟩))
  else if code =? REL_HWHEEL then Some (upd (λ m, m⟨m_hwheel ::= add⟩))
  else if (code =? REL_X) && mouse then Some (upd (λ m, m⟨m_dx ::= add⟩))
  else if (code =? REL_Y) && mouse then Some (upd (λ m, m⟨m_dy ::= add⟩))
  else None.

Definition hid_dirty (i : SremfbInput) (dev : Z) : bool :=
  if dev =? SREMFB_INDEV_KEYBOARD then i_dirty_kbd i
  else if dev =? SREMFB_INDEV_MOUSE then i_dirty_mouse i else i_dirty_ptr i.

(** The switch of sremfb_input_msg(). *)
Definition hid_event (c : hid_client) (s : st) (dev type code v : Z) : st :=
  let '(h, i) := s in
  if type =? EV_SYN then
    if (code =? SYN_REPORT) && hid_dirty i dev then dev_flush c s dev else s
  else if type =? EV_KEY then
    if dev =? SREMFB_INDEV_KEYBOARD then on_key s code v else on_button c s dev code v
  else if type =? EV_REL then
    if dev =? SREMFB_INDEV_KEYBOARD then s
    else match rel_event i dev code v with None => s | Some i => (h, i) end
  else if type =? EV_ABS then
    if negb (dev =? SREMFB_INDEV_POINTER) ||
       (negb (code =? ABS_X) && negb (code =? ABS_Y)) then s
    else
      let i := if code =? ABS_X then i⟨i_abs_x := v⟩ else i⟨i_abs_y := v⟩ in
      (h, i⟨i_abs_placed := true⟩⟨i_dirty_ptr := true⟩)
  else s.

Definition sremfb_input_msg (h : hid_H) (c : hid_client) (m : Protocol.sremfb_input_msg)
    : hid_H * hid_client :=
  match hc_input c with
  | None => (h, c)
  | Some i =>
    if negb (bool_decide (h_owner h = Some (hc_id c))) then (h, c)
    else
      let dev := im_dev m in
      if dev =? SREMFB_INDEV_ALL then
        if im_ev_type m =? 0
        then let '(h, i) := release_all c (h, i) in (h, c⟨hc_input := Some i⟩)
        else (h, c)
      else if dev =? SREMFB_INDEV_GAMEPAD then (h⟨h_gamepad_warned := true⟩, c)
      else if (dev <? SREMFB_INDEV_KEYBOARD) || (SREMFB_INDEV_POINTER <? dev) ||
              (nd_fd (hid_node h dev) <? 0) then (h, c)
      else
        let i := i⟨i_n_events ::= (λ n, u64 (n + 1))⟩ in
        let '(h, i) := hid_event c (h, i) dev (im_ev_type m) (im_ev_code m) (im_ev_value m) in
        (h, c⟨hc_input := Some i⟩)
  end.
End hid.
