(* ===== verification/HidProps.v ===== *)
(** * Properties of the USB gadget input (kvm/input_hid.c, hidmap.c) *)
From S2P Require Import Prelude Binary64 Protocol Bits Core HidReport HidKbd Hid.
From S2P Require Import Samples.
From stdpp Require Import gmap.
#[local] Open Scope list_scope.
#[local] Open Scope Z_scope.

(** ** The keyboard report *)
Definition kbd_run (k : sremfb_hid_kbd) (evs : list (Z * Z)) : sremfb_hid_kbd :=
  foldl (λ k '(code, v), (sremfb_hid_kbd_key k code v).2) k evs.

(** What a host reads in a report about one key. *)
Definition shown (rep : bytes) (code : Z) : bool :=
  let u := sremfb_hid_usage code in
  if 0xE0 <=? u then Z.testbit (nth 0 rep 0) (u - 0xE0)
  else bool_decide (u ∈ drop 2 rep).

Lemma kbd0_inv : kbd_inv kbd0 [].
Proof.
  assert (Hz : ∀ code, bit_get (k_down kbd0) code = false).
  { intros code. apply bit_get_clear. by apply Forall_replicate. }
  constructor; try done.
  - split_and!; [cbn; lia|constructor|constructor].
  - intros code [_ Hc]. by rewrite Hz in Hc.
  - intros u. split; [intros []%not_elem_of_nil|]. intros (c&[_ Hc]&_). by rewrite Hz in Hc.
  - intros code _ _ _. by rewrite Hz, Z.bits_0.
Qed.

Lemma kbd_run_inv k ks evs :
  kbd_inv k ks → Forall (λ e, 0 ≤ e.1) evs → ∃ ks', kbd_inv (kbd_run k evs) ks'.
Proof.
  intros Hk Hev. revert k ks Hk. induction Hev as [|[code v] evs Hc _ IH]; intros k ks Hk.
  - by exists ks.
  - cbn [kbd_run foldl]. destruct (sremfb_hid_kbd_key k code v) as [r k'] eqn:He.
    destruct (kbd_key_step k ks code v r k' Hk Hc He) as (_&(ks'&Hk')&_).
    by apply (IH k' ks').
Qed.

Lemma report_shown k ks code :
  kbd_inv k ks → in_range code → usable code →
  shown (sremfb_hid_kbd_report k) code = bit_get (k_down k) code.
Proof.
  intros Hi Hr Hu. unfold shown, sremfb_hid_kbd_report.
  destruct (0xE0 <=? _) eqn:Hm.
  - cbn [nth]. apply (ki_mods _ _ Hi); [done|done|]. unfold is_mod. lia.
  - cbn [drop]. assert (Hl : take 6 (k_keys k) = slots ks).
    { rewrite (ki_slots _ _ Hi). apply take_ge. unfold slots.
      rewrite length_app, length_replicate. destruct (ki_ks _ _ Hi). lia. }
    rewrite Hl. destruct (bit_get (k_down k) code) eqn:Hb.
    + apply bool_decide_eq_true_2. unfold slots. apply elem_of_app. left.
      apply (ki_keys _ _ Hi). exists code. split; [done|]. split; [done|lia].
    + apply bool_decide_eq_false_2. unfold slots. intros Hin.
      apply elem_of_app in Hin as [Hin|Hin].
      * apply (ki_keys _ _ Hi) in Hin as (c&[_ Hc]&Hcu&_).
        assert (c = code) as -> by (apply usage_inj; [done|]; rewrite Hcu;
          by apply usable_nonzero). by rewrite Hb in Hc.
      * apply elem_of_replicate in Hin as [Hz _]. by apply (usable_nonzero code Hu).
Qed.

(** (C33) The keyboard report is exact: after any sequence of key events, a
    key with a HID usage is shown in the report (its modifier bit, or its
    usage in one of the six slots) if and only if it is held; the report
    is 8 bytes long with a zero second byte. *)
Theorem keyboard_report_exact evs code :
  Forall (λ e, 0 ≤ e.1) evs → in_range code → usable code →
  let k := kbd_run kbd0 evs in
  length (sremfb_hid_kbd_report k) = 8%nat ∧ nth 1 (sremfb_hid_kbd_report k) 1 = 0 ∧
  shown (sremfb_hid_kbd_report k) code = sremfb_hid_kbd_held k code.
Proof.
  intros Hev Hr Hu. cbv zeta. destruct (kbd_run_inv _ _ _ kbd0_inv Hev) as (ks&Hk).
  split_and!; [|done|].
  - cbn [length sremfb_hid_kbd_report]. rewrite (ki_slots _ _ Hk). unfold slots.
    rewrite length_take, length_app, length_replicate. destruct (ki_ks _ _ Hk). lia.
  - rewrite (report_shown _ ks) by done. unfold sremfb_hid_kbd_held.
    destruct (code <? KEY_CNT) eqn:?; [done|]. unfold in_range in Hr. lia.
Qed.

(** What one key event does: CHANGED is answered exactly when the key
    has a usage and toggles (a press of a released key, a release of a held
    one) and a slot is free, and then only that key changes; every other
    answer leaves the keyboard as it was, ROLLOVER meaning that six other
    keys hold the slots. *)
Theorem kbd_key_functional evs code v :
  Forall (λ e, 0 ≤ e.1) evs → 0 ≤ code →
  let k := kbd_run kbd0 evs in
  let '(r, k') := sremfb_hid_kbd_key k code v in
  (r ≠ SREMFB_HID_KEY_CHANGED → k' = k) ∧
  (r = SREMFB_HID_KEY_CHANGED →
     (v = 0 ∧ held k code ∨ v = 1 ∧ ¬ held k code) ∧
     ∀ c, held k' c ↔ if decide (c = code) then v = 1 else held k c) ∧
  (r = SREMFB_HID_KEY_ROLLOVER → Forall (λ u, u ≠ 0) (k_keys k)).
Proof.
  intros Hev Hc. cbv zeta. destruct (kbd_run_inv _ _ _ kbd0_inv Hev) as (ks&Hk).
  destruct (sremfb_hid_kbd_key _ _ _) as [r k'] eqn:He.
  destruct (kbd_key_step _ ks code v r k' Hk Hc He) as ([H1 H2]&_&H3).
  split_and!; [done|done|]. intros Hro. rewrite (ki_slots _ _ Hk). unfold slots.
  rewrite (H3 Hro). cbn [replicate Nat.sub]. rewrite app_nil_r.
  destruct (ki_ks _ _ Hk) as (_&_&Hf). eapply Forall_impl; [exact Hf|]. cbn. intros; lia.
Qed.

(** ** Relative motion *)
Definition no_hard (n : HidNode) : Prop := 0 ≤ nd_fd n ∧ Forall (λ r, r ≠ WHard) (nd_answers n).

Lemma write_retry_ok l r l' :
  Forall (λ r, r ≠ WHard) l → write_retry l = (r, l') →
  r ≠ WHard ∧ r ≠ WIntr ∧ Forall (λ r, r ≠ WHard) l'.
Proof.
  revert r l'. induction l as [|a l IH]; intros r l' Hf; cbn [write_retry].
  - by intros [= <- <-].
  - apply Forall_cons in Hf as [Ha Hf]. destruct a; try (by intros [= <- <-]).
    by apply IH.
Qed.

Section motion.
Context `{P : Platform}.

Lemma node_write_ok n rep t n' t' :
  no_hard n → node_write n rep t = (n', t') →
  no_hard n' ∧ nd_sent n' = nd_sent n ++ [rep].
Proof.
  intros [Hfd Hh]. unfold node_write. destruct (nd_fd n <? 0) eqn:?; [lia|].
  destruct (write_retry _) as [r l'] eqn:Hr. apply write_retry_ok in Hr as (H1&H2&H3); [|done].
  cbv zeta. intros. repeat case_match; simplify_eq; done.
Qed.

Definition axis_sum (j : nat) (reps : list bytes) : Z :=
  foldr (λ rep s, s8 (nth j rep 0) + s) 0 reps.

Lemma s8_u8 x : -128 ≤ x < 128 → s8 (u8 x) = x.
Proof.
  intros. unfold s8, u8. change (2 ^ 7) with 128. change (2 ^ 8) with 256. dlia.
Qed.

Lemma take127_range x : -127 ≤ (take127 x).1 ≤ 127 ∧ (take127 x).1 + (take127 x).2 = x.
Proof. unfold take127. cbn. pose proof (CLAMP_range x (-127) 127). lia. Qed.

(** After [n] rounds of at most 127 each, starting from [x]. *)
Lemma CLAMP_round x n :
  1 ≤ n → (take127 x).1 + CLAMP (take127 x).2 (-127 * n) (127 * n) =
          CLAMP x (-127 * (n + 1)) (127 * (n + 1)).
Proof. intros. unfold take127, CLAMP. cbn. repeat case_match; lia. Qed.

(** What [n] rounds send of an accumulator: at most 127 a round. *)
Definition lim (n : nat) (x : Z) : Z := CLAMP x (-127 * Z.of_nat n) (127 * Z.of_nat n).

Definition axes (m : sremfb_hid_mouse) : list Z := [m_dx m; m_dy m; m_wheel m; m_hwheel m].

(** The reports [reps] carry, per axis, the accumulators [xs] up to what
    [n] rounds allow, all with the same button byte. *)
Definition carries (n : nat) (btn : Z) (xs : list Z) (reps : list bytes) : Prop :=
  (1 ≤ length reps ≤ n)%nat ∧
  Forall (λ rep, length rep = 5%nat ∧ nth 0 rep 0 = btn) reps ∧
  ∀ j, (j < 4)%nat → axis_sum (S j) reps = lim n (nth j xs 0).

Lemma lim_small n x : (1 ≤ n)%nat → -127 ≤ x ≤ 127 → lim n x = x.
Proof. intros. apply CLAMP_id. lia. Qed.

Lemma mouse_report_spec m : ∃ rep m1,
  sremfb_hid_mouse_report m =
    (rep, negb (forallb (Z.eqb 0) (axes m1)), m1) ∧
  m_buttons m1 = m_buttons m ∧ length rep = 5%nat ∧ nth 0 rep 0 = m_buttons m ∧
  ∀ j, (j < 4)%nat → s8 (nth (S j) rep 0) = (take127 (nth j (axes m) 0)).1 ∧
    nth j (axes m1) 0 = (take127 (nth j (axes m) 0)).2.
Proof.
  unfold sremfb_hid_mouse_report.
  destruct (take127 (m_dx m)) as [dx rx] eqn:E1, (take127 (m_dy m)) as [dy ry] eqn:E2,
    (take127 (m_wheel m)) as [w rw] eqn:E3, (take127 (m_hwheel m)) as [hw rh] eqn:E4.
  exists [m_buttons m; u8 dx; u8 dy; u8 w; u8 hw], (mk_hid_mouse (m_buttons m) rx ry rw rh).
  split_and!; [|done|done|done|].
  - unfold axes, nonzero. cbn -[Z.eqb]. by rewrite !(Z.eqb_sym 0),
      andb_true_r, !negb_andb, !orb_assoc.
  - intros j Hj. assert (j = 0 ∨ j = 1 ∨ j = 2 ∨ j = 3)%nat as [->|[->|[->| ->]]] by lia.
    all: cbn -[take127 s8 u8]; rewrite ?E1, ?E2, ?E3, ?E4; cbn -[s8 u8]; split; [|done]; rewrite s8_u8; [done|].
    all: match goal with H : take127 ?x = (?y, _) |- -128 ≤ ?y < 128 =>
      pose proof (take127_range x) as [? _]; rewrite H in *; cbn in *; lia end.
Qed.

Lemma write_mouse_ok h rep :
  no_hard (h_mouse h) → no_hard (h_mouse (write_mouse h rep)) ∧
  nd_sent (h_mouse (write_mouse h rep)) = nd_sent (h_mouse h) ++ [rep].
Proof.
  intros Hh. unfold write_mouse. destruct (node_write _ _ _) as [nd t] eqn:Hnw.
  by apply node_write_ok in Hnw as [? ?].
Qed.

Lemma carries_last n m rep m1 :
  (1 ≤ n)%nat → sremfb_hid_mouse_report m = (rep, negb (forallb (Z.eqb 0) (axes m1)), m1) →
  n = 1%nat ∨ forallb (Z.eqb 0) (axes m1) = true →
  carries n (m_buttons m) (axes m) [rep].
Proof.
  intros Hn Hr Hc. destruct (mouse_report_spec m) as (rep'&m1'&Hr'&Hb&Hl&H0&Hj).
  rewrite Hr in Hr'. injection Hr' as <- _ <-.
  split_and!; [cbn; lia|cbn; lia|by apply Forall_singleton|].
  intros j Hlt. destruct (Hj j Hlt) as [Hs Hz]. cbn -[s8 nth]. rewrite Hs, Z.add_0_r.
  destruct Hc as [->|Hc]; [done|].
  assert (Hz0 : (take127 (nth j (axes m) 0)).2 = 0).
  { rewrite <- Hz. rewrite forallb_forall in Hc. symmetry. apply Z.eqb_eq, Hc, nth_In.
    done. }
  pose proof (take127_range (nth j (axes m) 0)) as [? ?]. rewrite lim_small; lia.
Qed.

Lemma carries_cons n m rep m1 reps more :
  (1 ≤ n)%nat → sremfb_hid_mouse_report m = (rep, more, m1) →
  carries n (m_buttons m1) (axes m1) reps → carries (S n) (m_buttons m) (axes m) (rep :: reps).
Proof.
  intros Hn Hr (Hlen&Hf&Hs). destruct (mouse_report_spec m) as (rep'&m1'&Hr'&Hb&Hl&H0&Hj).
  rewrite Hr in Hr'. injection Hr' as <- _ <-. rewrite Hb in Hf.
  split_and!; [cbn; lia|cbn; lia|by constructor|]. intros j Hlt.
  cbn -[s8 nth]. fold (axis_sum (S j) reps). destruct (Hj j Hlt) as [-> Hz].
  rewrite Hs, Hz by done. unfold lim. rewrite Nat2Z.inj_succ. apply CLAMP_round. lia.
Qed.

Lemma mouse_reports_spec n h m h' m' :
  (1 ≤ n)%nat → no_hard (h_mouse h) → mouse_reports n h m = (h', m') →
  m_buttons m' = m_buttons m ∧ no_hard (h_mouse h') ∧
  ∃ reps, nd_sent (h_mouse h') = nd_sent (h_mouse h) ++ reps ∧
    carries n (m_buttons m) (axes m) reps.
Proof.
  revert h m. induction n as [|n IH]; intros h m Hn Hh; [lia|]. cbn [mouse_reports].
  destruct (mouse_report_spec m) as (rep&m1&Hr&Hb&_). rewrite Hr.
  destruct (write_mouse_ok h rep Hh) as [Hh1 Hs1].
  assert (Hend : n = 0%nat ∨ forallb (Z.eqb 0) (axes m1) = true →
    (write_mouse h rep, m1) = (h', m') →
    m_buttons m' = m_buttons m ∧ no_hard (h_mouse h') ∧
    ∃ reps, nd_sent (h_mouse h') = nd_sent (h_mouse h) ++ reps ∧
      carries (S n) (m_buttons m) (axes m) reps).
  { intros Hc [= <- <-]. split_and!; [done|done|]. exists [rep]. split; [done|].
    apply (carries_last _ _ _ m1); [lia|done|]. destruct Hc as [->|]; auto. }
  destruct n as [|n']; [apply Hend; by left|].
  destruct (forallb _ _) eqn:Hmore; cbn [negb]; [apply Hend; by right|]. clear Hend.
  intros Hrec. destruct (IH (write_mouse h rep) m1) as (Hb'&Hno&reps&Hs&Hca); [lia|done|done|].
  rewrite Hb' , Hb. split_and!; [done|done|]. exists (rep :: reps). split.
  - rewrite Hs, Hs1, <- app_assoc. done.
  - by eapply carries_cons; [lia|exact Hr|].
Qed.

(** (C38) Relative motion is neither lost nor invented: a SYN_REPORT of the
    mouse sends between 1 and 32 reports whose signed deltas add up, on
    each of the four axes, to the accumulated motion limited to 32 * 127,
    every report carries the current buttons, and the accumulators are
    left at zero. *)
Theorem mouse_motion_conserved h i :
  no_hard (h_mouse h) →
  let '(h', i') := mouse_flush (h, i) in
  i_mouse i' = mk_hid_mouse (m_buttons (i_mouse i)) 0 0 0 0 ∧
  i_last_mouse i' = m_buttons (i_mouse i) ∧ i_dirty_mouse i' = false ∧
  ∃ reps, nd_sent (h_mouse h') = nd_sent (h_mouse h) ++ reps ∧
    carries HID_MAX_SPLIT (m_buttons (i_mouse i)) (axes (i_mouse i)) reps.
Proof.
  intros Hh. cbn [mouse_flush]. destruct (mouse_reports _ _ _) as [h1 m1] eqn:Hm.
  apply mouse_reports_spec in Hm as (Hb&_&Hr); [|unfold HID_MAX_SPLIT; lia|done].
  rewrite <- Hb. split_and!; try done. by rewrite Hb.
Qed.

(** ** Release *)
Definition last_sent (n : HidNode) : option bytes := last (nd_sent n).

Lemma write_kbd_last h rep :
  no_hard (h_kbd h) → last_sent (h_kbd (write_kbd h rep)) = Some rep ∧
  h_mouse (write_kbd h rep) = h_mouse h ∧ h_ptr (write_kbd h rep) = h_ptr h.
Proof.
  intros Hh. unfold write_kbd, last_sent. destruct (node_write _ _ _) as [nd t] eqn:Hnw.
  apply node_write_ok in Hnw as [_ Hs]; [|done]. cbn. by rewrite Hs, last_snoc.
Qed.

Lemma write_mouse_last h rep :
  no_hard (h_mouse h) → last_sent (h_mouse (write_mouse h rep)) = Some rep ∧
  h_kbd (write_mouse h rep) = h_kbd h ∧ h_ptr (write_mouse h rep) = h_ptr h.
Proof.
  intros Hh. unfold write_mouse, last_sent. destruct (node_write _ _ _) as [nd t] eqn:Hnw.
  apply node_write_ok in Hnw as [_ Hs]; [|done]. cbn. by rewrite Hs, last_snoc.
Qed.

Lemma write_ptr_last h rep :
  no_hard (h_ptr h) → last_sent (h_ptr (write_ptr h rep)) = Some rep ∧
  h_kbd (write_ptr h rep) = h_kbd h ∧ h_mouse (write_ptr h rep) = h_mouse h.
Proof.
  intros Hh. unfold write_ptr, last_sent. destruct (node_write _ _ _) as [nd t] eqn:Hnw.
  apply node_write_ok in Hnw as [_ Hs]; [|done]. cbn. by rewrite Hs, last_snoc.
Qed.

Lemma mouse_reports_zero h :
  mouse_reports HID_MAX_SPLIT h mouse0 = (write_mouse h (replicate 5 0), mouse0).
Proof. done. Qed.

Lemma ptr_flush_zero c h i :
  i_ptr i = mouse0 → ∃ rep i', nth 0 rep 1 = 0 ∧
  ptr_flush c (h, i) = (write_ptr h rep, i') ∧ i_ptr i' = mouse0 ∧
  i_kbd i' = i_kbd i ∧ i_mouse i' = i_mouse i ∧ i_dirty_kbd i' = i_dirty_kbd i ∧
  i_dirty_mouse i' = i_dirty_mouse i.
Proof.
  intros Hm. unfold ptr_flush. rewrite Hm. destruct (sremfb_kvm_abs_map _ _ _) as [hx hy].
  exists ((sremfb_hid_pointer_report mouse0 hx hy).1.1), 
    (i⟨i_ptr := mouse0⟩⟨i_last_ptr := 0⟩⟨i_dirty_ptr := false⟩).
  by split_and!.
Qed.

(** Releasing everything leaves nothing pressed on the target: with
    all three nodes writable, the last keyboard report handed to the
    gadget is all zeroes, the last mouse report too, and when the pointer
    was ever placed its last report has no button; the state kept for the
    client is the released one. *)
Theorem release_all_clears c h i :
  no_hard (h_kbd h) → no_hard (h_mouse h) → no_hard (h_ptr h) →
  let '(h', i') := release_all c (h, i) in
  last_sent (h_kbd h') = Some (replicate 8 0) ∧
  last_sent (h_mouse h') = Some (replicate 5 0) ∧
  (i_abs_placed i = true → ∃ rep, last_sent (h_ptr h') = Some rep ∧ nth 0 rep 1 = 0) ∧
  i_kbd i' = kbd0 ∧ i_mouse i' = mouse0 ∧ i_dirty_kbd i' = false ∧
  i_dirty_mouse i' = false ∧ i_dirty_ptr i' = false.
Proof.
  intros Hk Hm Hp. unfold release_all.
  cbn [foldl dev_flush SREMFB_INDEV_KEYBOARD SREMFB_INDEV_MOUSE SREMFB_INDEV_POINTER Z.eqb
       Pos.eqb kbd_flush mouse_flush i_mouse i_kbd snd].
  rewrite mouse_reports_zero.
  destruct (write_kbd_last h (sremfb_hid_kbd_report kbd0) Hk) as (K1&K2&K3).
  set (h1 := write_kbd h _) in *. rewrite <- K2 in Hm. rewrite <- K3 in Hp.
  destruct (write_mouse_last h1 (replicate 5 0) Hm) as (M1&M2&M3).
  set (h2 := write_mouse h1 _) in *. rewrite <- M3 in Hp.
  match goal with |- context [if ?b then _ else _] =>
    change b with (i_abs_placed i) end.
  destruct (i_abs_placed i).
  - match goal with |- context [ptr_flush c (h2, ?i1)] =>
      destruct (ptr_flush_zero c h2 i1 eq_refl) as (rep&i2&H0&->&E1&E2&E3&E4&E5) end.
    destruct (write_ptr_last h2 rep Hp) as (P1&P2&P3).
    cbv beta iota. rewrite P2, P3, M2, K1. split_and!; try done. by exists rep.
  - cbv beta iota. rewrite M2, K1. by split_and!.
Qed.

(** ** The owner of the gadget *)
Lemma mouse_reports_owner n h m : h_owner (mouse_reports n h m).1 = h_owner h.
Proof.
  revert h m. induction n as [|n IH]; intros h m; cbn [mouse_reports].
  all: destruct (sremfb_hid_mouse_report m) as [[rep more] m1].
  - unfold write_mouse. by destruct (node_write _ _ _).
  - assert (E : h_owner (write_mouse h rep) = h_owner h)
      by (unfold write_mouse; by destruct (node_write _ _ _)).
    destruct n; [done|]. destruct more; [|done]. by rewrite IH.
Qed.

Lemma ptr_reports_owner n hx hy h m : h_owner (ptr_reports n hx hy h m).1 = h_owner h.
Proof.
  revert h m. induction n as [|n IH]; intros h m; cbn [ptr_reports].
  all: destruct (sremfb_hid_pointer_report m hx hy) as [[rep more] m1].
  - unfold write_ptr. by destruct (node_write _ _ _).
  - assert (E : h_owner (write_ptr h rep) = h_owner h)
      by (unfold write_ptr; by destruct (node_write _ _ _)).
    destruct n; [done|]. destruct more; [|done]. by rewrite IH.
Qed.

Lemma dev_flush_owner c s dev : h_owner (dev_flush c s dev).1 = h_owner s.1.
Proof.
  destruct s as [h i]. unfold dev_flush. repeat case_match; try done.
  - cbn. unfold write_kbd. by destruct (node_write _ _ _).
  - cbn [mouse_flush]. pose proof (mouse_reports_owner HID_MAX_SPLIT h (i_mouse i)) as E.
    by destruct (mouse_reports _ _ _).
  - cbn [ptr_flush]. destruct (sremfb_kvm_abs_map _ _ _) as [hx hy].
    pose proof (ptr_reports_owner HID_MAX_SPLIT hx hy h (i_ptr i)) as E.
    by destruct (ptr_reports _ _ _ _ _).
Qed.

Lemma release_all_owner c h i : h_owner (release_all c (h, i)).1 = h_owner h.
Proof.
  unfold release_all. match goal with |- context [foldl _ ?s0 ?l] =>
    assert (E : ∀ devs s, h_owner (foldl (dev_flush c) s devs).1 = h_owner s.1);
    [|specialize (E l s0); by destruct (foldl _ s0 l)] end.
  induction devs as [|d devs IH]; intros s; [done|]. cbn [foldl]. by rewrite IH, dev_flush_owner.
Qed.

(** (C39) The gadget has one owner: once a client holds the input, starting
    it for another one is refused and changes nothing, messages of a
    client that does not hold it change nothing, and stopping gives the
    gadget back with all three nodes closed. *)
Theorem input_single_owner enabled h c c2 i msg :
  h_owner h = Some (hc_id c) → hc_input c = Some i →
  hc_id c2 ≠ hc_id c → hc_input c2 = None →
  sremfb_input_start enabled h c2 = (0, h, c2) ∧
  sremfb_input_msg h c2 msg = (h, c2) ∧
  sremfb_input_msg h (c2⟨hc_input := Some i⟩) msg = (h, c2⟨hc_input := Some i⟩) ∧
  let '(h', c') := sremfb_input_stop h c in
  h_owner h' = None ∧ hc_input c' = None ∧
  nd_fd (h_kbd h') = -1 ∧ nd_fd (h_mouse h') = -1 ∧ nd_fd (h_ptr h') = -1.
Proof.
  intros Ho Hi Hne H2. split_and!.
  - unfold sremfb_input_start. rewrite H2, Ho. by destruct (hc_input_cap c2), enabled.
  - unfold sremfb_input_msg. by rewrite H2.
  - set (c3 := c2⟨hc_input := Some i⟩). assert (E : hc_input c3 = Some i) by reflexivity.
    assert (E' : hc_id c3 = hc_id c2) by reflexivity. clearbody c3.
    unfold sremfb_input_msg. rewrite E, E', Ho, bool_decide_eq_false_2 by congruence.
    reflexivity.
  - unfold sremfb_input_stop. rewrite Hi. destruct (release_all c (h, i)) as [h1 i1] eqn:Hr.
    pose proof (release_all_owner c h i) as Ho1. rewrite Hr in Ho1. cbn [fst] in Ho1.
    set (h2 := h1⟨h_kbd ::= node_stop⟩⟨h_mouse ::= node_stop⟩⟨h_ptr ::= node_stop⟩).
    assert (E : h_owner h2 = Some (hc_id c)) by (rewrite <- Ho, <- Ho1; reflexivity).
    rewrite bool_decide_eq_true_2 by done. by split_and!.
Qed.
End motion.

(** ** Concrete inputs *)
(** Shift, A, A again, A up *)
Definition sample_keys : list (Z * Z) := [(42, 1); (30, 1); (30, 1); (16, 1); (30, 0)].

Lemma sample_keys_codes : Forall (λ e, 0 ≤ e.1) sample_keys.
Proof. repeat constructor; cbn; lia. Qed.

Lemma keyboard_report_exact_witness :
  sremfb_hid_kbd_report (kbd_run kbd0 sample_keys) = [2; 0; 20; 0; 0; 0; 0; 0] ∧
  shown (sremfb_hid_kbd_report (kbd_run kbd0 sample_keys)) 16 =
  sremfb_hid_kbd_held (kbd_run kbd0 sample_keys) 16.
Proof.
  split; [vm_compute; reflexivity|].
  apply (keyboard_report_exact sample_keys 16 sample_keys_codes).
  - unfold in_range, KEY_CNT. lia.
  - vm_compute. intuition congruence.
Defined.

Lemma kbd_key_functional_witness :
  held (sremfb_hid_kbd_key (kbd_run kbd0 sample_keys) 30 1).2 42 ↔
  if decide (42 = 30) then 1 = 1 else held (kbd_run kbd0 sample_keys) 42.
Proof.
  pose proof (kbd_key_functional sample_keys 30 1 sample_keys_codes ltac:(lia)) as H.
  cbv zeta in *. destruct (sremfb_hid_kbd_key _ _ _) as [r k'] eqn:E.
  destruct H as (_&H&_). apply H. apply (f_equal fst) in E. vm_compute in E. by subst r.
Defined.

Definition sample_node (len : Z) : HidNode :=
  mk_node true true len 5 false false 0 0 0 0 5 (replicate 40 (WBytes len)) [] [].
Definition sample_gadget (owner : option nat) : hid_H :=
  mk_H (sample_node 8) (sample_node 5) (sample_node 7) owner false (replicate 96 0) 0.
(** A, the left button and a long motion pending *)
Definition sample_hid : SremfbInput :=
  hid_input0⟨i_kbd := kbd_run kbd0 [(30, 1)]⟩⟨i_mouse := mk_hid_mouse 1 300 (-5) 0 0⟩
    ⟨i_ptr := mk_hid_mouse 1 0 0 0 0⟩⟨i_abs_placed := true⟩⟨i_abs_x := 10⟩.
Definition sample_hid_client (id : nat) : hid_client :=
  mk_hid_client id true None (mk_geom 1920 1080) None.

Lemma sample_node_no_hard len : no_hard (sample_node len).
Proof. split; [cbn; lia|]. by apply Forall_replicate. Qed.

Lemma mouse_motion_conserved_witness :
  let '(h', i') := @mouse_flush sample_platform (sample_gadget (Some 1%nat), sample_hid) in
  nd_sent (h_mouse h') = [[1; 127; 251; 0; 0]; [1; 127; 0; 0; 0]; [1; 46; 0; 0; 0]] ∧
  i_mouse i' = mk_hid_mouse 1 0 0 0 0.
Proof.
  pose proof (@mouse_motion_conserved sample_platform (sample_gadget (Some 1%nat)) sample_hid
    (sample_node_no_hard 5)) as H.
  destruct (mouse_flush _) as [h' i'] eqn:E. destruct H as [H _]. split; [|exact H].
  apply (f_equal (λ s, nd_sent (h_mouse s.1))) in E. cbn [fst] in E. rewrite <- E.
  vm_compute. reflexivity.
Defined.

Lemma release_all_clears_witness :
  let '(h', i') := @release_all sample_platform (sample_hid_client 1)
                     (sample_gadget (Some 1%nat), sample_hid) in
  last_sent (h_kbd h') = Some (replicate 8 0) ∧ i_kbd i' = kbd0.
Proof.
  pose proof (@release_all_clears sample_platform (sample_hid_client 1)
    (sample_gadget (Some 1%nat)) sample_hid (sample_node_no_hard 8) (sample_node_no_hard 5)
    (sample_node_no_hard 7)) as H.
  destruct (release_all _ _) as [h' i']. by destruct H as (H1&_&_&H2&_).
Defined.

Lemma input_single_owner_witness :
  sremfb_input_start true (sample_gadget (Some 1%nat)) (sample_hid_client 2) =
    (0, sample_gadget (Some 1%nat), sample_hid_client 2).
Proof.
  apply (@input_single_owner sample_platform true (sample_gadget (Some 1%nat))
    ((sample_hid_client 1)⟨hc_input := Some sample_hid⟩) (sample_hid_client 2) sample_hid
    (mk_input_msg 0 4 1 0 1 30 1)).
  all: vm_compute; congruence.
Defined.
