(* ===== verification/Edid.v ===== *)
(** * evdi/edid.c: the EDID of a virtual monitor *)
From S2P Require Import Prelude Binary64.

(** The panel's name: the printable prefix of the model the client sent is
    written over the project's name, its trailing blanks are cut, and the
    result is NUL-terminated when something is left. *)
Definition name0 : bytes :=
  [52; 54; 50; 101; 110; 103; 45; 115; 82; 101; 109; 70; 66; 0].

Fixpoint printable_prefix (n : nat) (model : bytes) : bytes :=
  match n, model with
  | S n, ch :: model =>
    if (ch =? 0) || (ch <? 0x20) || (0x7E <? ch) then []
    else ch :: printable_prefix n model
  | _, _ => []
  end.

(** [while (n > 0 && name[n - 1] == ' ') n--] *)
Fixpoint strip_spaces (n : nat) (name : bytes) : nat :=
  match n with
  | O => O
  | S n' => if nth n' name 0 =? 32 then strip_spaces n' name else n
  end.

Definition edid_name (model : option bytes) : bytes :=
  match model with
  | None => name0
  | Some model =>
    let p := printable_prefix 13 model in
    let name := blit name0 0 p in
    let n := strip_spaces (length p) name in
    if (0 <? n)%nat then <[n := 0]> name else name
  end.

(** strlen(3) *)
Fixpoint strlen (s : bytes) : nat :=
  match s with
  | [] => O
  | b :: s => if b =? 0 then O else S (strlen s)
  end.

(** Sequential writes [d[0] = ...; d[1] = ...] *)
Definition put_dtd (e : bytes) (off width height refresh wmm hmm : Z) : bytes :=
  let hblank := 160 in
  let vblank := 30 in
  let htotal := u32 (width + hblank) in
  let vtotal := u32 (height + vblank) in
  let pclk := u32 (u32 (u32 (htotal * vtotal) * refresh) + 5000) / 10000 in
  let e := blit e off
    [u8 (Z.land pclk 0xFF); u8 (Z.shiftr pclk 8);
     u8 (Z.land width 0xFF); u8 (Z.land hblank 0xFF);
     u8 (Z.lor (Z.shiftl (Z.shiftr width 8) 4) (Z.shiftr hblank 8));
     u8 (Z.land height 0xFF); u8 (Z.land vblank 0xFF);
     u8 (Z.lor (Z.shiftl (Z.shiftr height 8) 4) (Z.shiftr vblank 8));
     48; 32; Z.lor (Z.shiftl 3 4) 5; 0;
     u8 (Z.land wmm 0xFF); u8 (Z.land hmm 0xFF);
     u8 (Z.lor (Z.shiftl (Z.shiftr wmm 8) 4) (Z.shiftr hmm 8))] in
  blit e (off + 17) [0x1E].

(** [sum = (uint8_t)(sum + e[i])] over a range *)
Definition sum8 (l : bytes) : Z := foldl (λ s b, u8 (s + b)) 0 l.

(** The 24-inch diagonal in millimetres along one side. *)
Definition side_mm (side hyp : double) : Z :=
  u32 (D_trunc (Dadd (Ddiv (Dmul (Dmul (D_of_Z 24) (D_lit 254 1)) side) hyp) (D_lit 5 1))).

(** Descriptor 3, the display name: at most 13 characters, LF-terminated,
    space padded. *)
Definition put_name (e name : bytes) : bytes :=
  let e := blit e 93 [0xFC] in
  let e := blit e 95 (replicate 13 0x20) in
  let len := strlen name in
  let e := blit e 95 (take len name) in
  if (len <? 13)%nat then blit e (95 + Z.of_nat len) [0x0A] else e.

(** The base block up to its checksum. *)
Definition edid_base (width height serial : Z) (model : option bytes) : bytes :=
  let name := edid_name model in
  let dw := D_of_Z width in
  let dh := D_of_Z height in
  let hyp := Dsqrt (Dadd (Dmul dw dw) (Dmul dh dh)) in
  let wmm := side_mm dw hyp in
  let hmm := side_mm dh hyp in
  let wcm := Z.min (u32 (wmm + 5) / 10) 255 in
  let hcm := Z.min (u32 (hmm + 5) / 10) 255 in
  let e := replicate 256 0 in
  let e := blit e 0 [0x00; 0xFF; 0xFF; 0xFF; 0xFF; 0xFF; 0xFF; 0x00] in
  let e := blit e 8
    [0x48; 0xC2; 0x01; 0x00;
     u8 (Z.land serial 0xFF); u8 (Z.land (Z.shiftr serial 8) 0xFF);
     u8 (Z.land (Z.shiftr serial 16) 0xFF); u8 (Z.shiftr serial 24);
     1; 36; 1; 4; 0xA0; u8 wcm; u8 hcm; 120; 0x06] in
  let e := blit e 25 [0xEE; 0x91; 0xA3; 0x54; 0x4C; 0x99; 0x26; 0x0F; 0x50; 0x54] in
  let e := blit e 38 (replicate 16 0x01) in
  let e := put_dtd e 54 width height 60 wmm hmm in
  let e := put_dtd e 72 width height 30 wmm hmm in
  let e := put_name e name in
  (* descriptor 4: display range limits *)
  let e := blit e 111 [0xFD] in
  let e := blit e 113 [14; 121; 10; 160; 60; 0x01; 0x0A] in
  let e := blit e 120 (replicate 6 0x20) in
  blit e 126 [1].

(** The CEA-861 extension up to its checksum. *)
Definition edid_ext (e : bytes) (width height : Z) : bytes :=
  let dw := D_of_Z width in
  let dh := D_of_Z height in
  let hyp := Dsqrt (Dadd (Dmul dw dw) (Dmul dh dh)) in
  let wmm := side_mm dw hyp in
  let hmm := side_mm dh hyp in
  let e := blit e 128 [0x02; 0x03; 4; 0x80] in
  let e := put_dtd e 132 width height 120 wmm hmm in
  put_dtd e 150 width height 15 wmm hmm.

Definition sremfb_edid_build (width height serial : Z) (model : option bytes) : bytes :=
  let e := edid_base width height serial model in
  let e := blit e 127 [u8 (256 - sum8 (slice 0 127 e))] in
  let e := edid_ext e width height in
  blit e 255 [u8 (256 - sum8 (slice 128 127 e))].

(** What a compositor reads back from a detailed timing descriptor. *)
Definition dtd_width (e : bytes) (off : Z) : Z :=
  nth (Z.to_nat (off + 2)) e 0 + 256 * Z.shiftr (nth (Z.to_nat (off + 4)) e 0) 4.
Definition dtd_height (e : bytes) (off : Z) : Z :=
  nth (Z.to_nat (off + 5)) e 0 + 256 * Z.shiftr (nth (Z.to_nat (off + 7)) e 0) 4.
Definition dtd_hblank (e : bytes) (off : Z) : Z :=
  nth (Z.to_nat (off + 3)) e 0 + 256 * Z.land (nth (Z.to_nat (off + 4)) e 0) 15.
Definition dtd_vblank (e : bytes) (off : Z) : Z :=
  nth (Z.to_nat (off + 6)) e 0 + 256 * Z.land (nth (Z.to_nat (off + 7)) e 0) 15.
Definition dtd_clock (e : bytes) (off : Z) : Z :=
  nth (Z.to_nat off) e 0 + 256 * nth (Z.to_nat (off + 1)) e 0.
(** refresh rate in Hz, rounded *)
Definition dtd_refresh (e : bytes) (off : Z) : Z :=
  let total := (dtd_width e off + dtd_hblank e off) * (dtd_height e off + dtd_vblank e off) in
  (2 * (dtd_clock e off * 10000) + total) / (2 * total).
