(* ===== verification/EdidProps.v ===== *)
(** * The EDID is valid, stable and says what it should *)
From S2P Require Import Prelude Binary64 Edid.

Lemma slice_blit_out {A} off n (e : list A) o src :
  0 ≤ off → 0 ≤ n → 0 ≤ o → o + Z.of_nat (length src) ≤ Z.of_nat (length e) →
  off + n ≤ o ∨ o + Z.of_nat (length src) ≤ off →
  slice off n (blit e o src) = slice off n e.
Proof.
  intros. apply list_eq. intros i.
  destruct (decide (Z.of_nat i < n)) as [Hi|Hi].
  - rewrite !lookup_slice, lookup_blit by done.
    rewrite bool_decide_eq_false_2; [done|]. lia.
  - rewrite !lookup_ge_None_2; [done| |]; unfold slice; rewrite length_take; lia.
Qed.

Lemma slice_blit_hit {A} (e : list A) o src n :
  0 ≤ o → n = Z.of_nat (length src) → o + n ≤ Z.of_nat (length e) →
  slice o n (blit e o src) = src.
Proof.
  intros Ho -> Hl. apply list_eq. intros i.
  destruct (decide (i < length src)%nat) as [Hi|Hi].
  - rewrite lookup_slice, lookup_blit by lia. rewrite bool_decide_eq_true_2 by lia.
    f_equal. lia.
  - rewrite !lookup_ge_None_2; [done|lia|]. unfold slice. rewrite length_take. lia.
Qed.

Lemma bytes_ok_blit e o src : bytes_ok e → bytes_ok src → bytes_ok (blit e o src).
Proof.
  intros. unfold blit. apply Forall_app; split; [by apply Forall_take|].
  apply Forall_app; split; [done|by apply Forall_drop].
Qed.

Lemma u8_is_byte x : is_byte (u8 x).
Proof. apply u8_range. Qed.

(** ** Buffers of 256 bytes *)
Definition edid_buf (e : bytes) : Prop := length e = 256%nat ∧ bytes_ok e.

Lemma edid_blit e o src :
  edid_buf e → 0 ≤ o → o + Z.of_nat (length src) ≤ 256 → bytes_ok src →
  edid_buf (blit e o src).
Proof.
  intros [Hl Hb] ???. split; [|by apply bytes_ok_blit].
  rewrite length_blit; [done|done|]. by rewrite Hl.
Qed.

Ltac bytes_lit :=
  repeat (apply Forall_cons; split); try apply Forall_nil_2;
  try apply u8_is_byte; try (unfold is_byte; cbn; lia); try done.

Lemma edid_put_dtd e off w h r wmm hmm :
  edid_buf e → 0 ≤ off → off + 18 ≤ 256 → edid_buf (put_dtd e off w h r wmm hmm).
Proof.
  intros He H0 Hl. unfold put_dtd. cbv zeta.
  apply edid_blit; [apply edid_blit; [done|done|cbn; lia|bytes_lit]|lia|cbn; lia|bytes_lit].
Qed.

(** A detailed timing only touches its own 18 bytes. *)
Lemma slice_put_dtd_out e off w h r wmm hmm o n :
  length e = 256%nat → 0 ≤ off → off + 18 ≤ 256 → 0 ≤ o → 0 ≤ n →
  o + n ≤ off ∨ off + 18 ≤ o →
  slice o n (put_dtd e off w h r wmm hmm) = slice o n e.
Proof.
  intros Hl ?????. unfold put_dtd. cbv zeta.
  rewrite slice_blit_out; [|lia|lia|lia| |cbn; lia].
  - apply slice_blit_out; cbn; lia.
  - rewrite length_blit; cbn; lia.
Qed.

(** ** The name *)
Lemma strip_le n name : (strip_spaces n name ≤ n)%nat.
Proof. induction n as [|n IH]; cbn [strip_spaces]; [lia|]. case_match; lia. Qed.

Lemma printable_ok n model :
  (length (printable_prefix n model) ≤ n)%nat ∧ bytes_ok (printable_prefix n model).
Proof.
  revert model. induction n as [|n IH]; intros [|ch model]; cbn [printable_prefix];
    try (split; [cbn; lia|constructor]).
  destruct (_ || _ || _) eqn:E; [split; [cbn; lia|constructor]|].
  destruct (IH model) as [Hl Hb]. split; [cbn; lia|].
  constructor; [unfold is_byte; lia|done].
Qed.

Lemma edid_name_ok model :
  length (edid_name model) = 14%nat ∧ bytes_ok (edid_name model) ∧
  edid_name model !! 13%nat = Some 0.
Proof.
  destruct model as [model|]; cbn [edid_name]; [|split_and!; [done|bytes_lit|done]].
  destruct (printable_ok 13 model) as [Hl Hb]. set (p := printable_prefix 13 model) in *.
  assert (H14 : length (blit name0 0 p) = 14%nat)
    by (rewrite length_blit; [done|lia|change (length name0) with 14%nat; lia]).
  assert (H13 : blit name0 0 p !! 13%nat = Some 0).
  { rewrite lookup_blit by (change (length name0) with 14%nat; lia). rewrite bool_decide_eq_false_2; [done|]. lia. }
  assert (Hok : bytes_ok (blit name0 0 p)) by (apply bytes_ok_blit; [bytes_lit|done]).
  set (n := strip_spaces _ _). destruct (0 <? n)%nat; [|done]. split_and!.
  - by rewrite length_insert.
  - apply Forall_insert; [done|]. unfold is_byte. lia.
  - destruct (decide (n = 13)%nat) as [->|].
    + by rewrite list_lookup_insert_eq by lia.
    + by rewrite list_lookup_insert_ne.
Qed.

Lemma strlen_le s n : s !! n = Some 0 → (strlen s ≤ n)%nat.
Proof.
  revert n. induction s as [|b s IH]; intros n; [done|]. destruct n as [|n].
  - intros [= ->]. cbn. lia.
  - intros Hn. cbn [strlen]. case_match; [lia|]. specialize (IH n Hn). lia.
Qed.

Lemma put_name_out e name o n :
  length e = 256%nat → (strlen name ≤ 13)%nat → length name = 14%nat → 0 ≤ o → 0 ≤ n →
  o + n ≤ 93 ∨ 108 ≤ o → slice o n (put_name e name) = slice o n e.
Proof.
  intros Hl Hs Hn ???. unfold put_name. cbv zeta.
  assert (Ht : length (take (strlen name) name) = strlen name) by (rewrite length_take; lia).
  assert (L1 : length (blit e 93 [252]) = 256%nat) by (rewrite length_blit; cbn; lia).
  assert (L2 : length (blit (blit e 93 [252]) 95 (replicate 13 32)) = 256%nat)
    by (rewrite length_blit; cbn; lia).
  assert (Hbase : slice o n (blit (blit (blit e 93 [252]) 95 (replicate 13 32)) 95
                    (take (strlen name) name)) = slice o n e).
  { rewrite !slice_blit_out; try done;
      rewrite ?Ht, ?L1, ?L2, ?Hl, ?length_replicate; cbn [length]; lia. }
  destruct (strlen name <? 13)%nat eqn:H13; [apply Nat.ltb_lt in H13|done].
  rewrite slice_blit_out; [done|lia|lia|lia| |cbn [length]; lia].
  rewrite length_blit; rewrite ?Ht, ?L2; cbn [length]; lia.
Qed.

Lemma edid_put_name e name :
  edid_buf e → (strlen name ≤ 13)%nat → length name = 14%nat → bytes_ok name →
  edid_buf (put_name e name).
Proof.
  intros He Hs Hn Hb. unfold put_name. cbv zeta.
  assert (Ht : length (take (strlen name) name) = strlen name) by (rewrite length_take; lia).
  assert (H3 : edid_buf (blit (blit (blit e 93 [252]) 95 (replicate 13 32)) 95
    (take (strlen name) name))).
  { apply edid_blit; [|lia|rewrite Ht; lia|by apply Forall_take].
    apply edid_blit; [|lia|cbn; lia|bytes_lit]. apply edid_blit; [done|lia|cbn; lia|bytes_lit]. }
  case_match; [|done]. apply edid_blit; [done|lia|cbn; lia|bytes_lit].
Qed.

(** ** The whole block *)
Lemma edid_zero : edid_buf (replicate 256 0).
Proof. split; [done|]. apply Forall_replicate. unfold is_byte. lia. Qed.

Ltac solve_buf :=
  repeat first [assumption | apply edid_zero | apply edid_put_name | apply edid_put_dtd |
    apply edid_blit; [|lia|rewrite ?length_replicate; cbn [length]; lia|bytes_lit] | lia].

Lemma edid_base_ok w h serial model : edid_buf (edid_base w h serial model).
Proof.
  unfold edid_base. cbv zeta. destruct (edid_name_ok model) as (Hl&Hb&H13).
  pose proof (strlen_le _ _ H13) as Hs. solve_buf.
Qed.

(** Reading a range past the writes that do not concern it. *)
Lemma peel_blit e o src off n :
  edid_buf e → 0 ≤ off → 0 ≤ n → 0 ≤ o → o + Z.of_nat (length src) ≤ 256 →
  off + n ≤ o ∨ o + Z.of_nat (length src) ≤ off →
  slice off n (blit e o src) = slice off n e.
Proof. intros [Hl _] ?????. apply slice_blit_out; lia. Qed.

Lemma peel_dtd e off w h r wmm hmm o n :
  edid_buf e → 0 ≤ off → off + 18 ≤ 256 → 0 ≤ o → 0 ≤ n → o + n ≤ off ∨ off + 18 ≤ o →
  slice o n (put_dtd e off w h r wmm hmm) = slice o n e.
Proof. intros [Hl _] ?????. by apply slice_put_dtd_out. Qed.

Lemma peel_name e model o n :
  edid_buf e → 0 ≤ o → 0 ≤ n → o + n ≤ 93 ∨ 108 ≤ o →
  slice o n (put_name e (edid_name model)) = slice o n e.
Proof.
  intros [Hl _] ???. destruct (edid_name_ok model) as (Hn&_&H13).
  apply put_name_out; try done. exact (strlen_le _ _ H13).
Qed.

Lemma peel_hit e o src n :
  edid_buf e → 0 ≤ o → n = Z.of_nat (length src) → o + n ≤ 256 →
  slice o n (blit e o src) = src.
Proof. intros [Hl _] ???. apply slice_blit_hit; lia. Qed.

Ltac peel_side :=
  first [lia | rewrite ?length_replicate; cbn [length]; lia | solve_buf].
Ltac peel :=
  repeat first [rewrite peel_blit by peel_side | rewrite peel_dtd by peel_side |
                rewrite peel_name by peel_side].

Lemma sum8_range l : 0 ≤ sum8 l < 256.
Proof.
  unfold sum8. induction l as [|x l _] using rev_ind; [cbn; lia|].
  rewrite foldl_app. cbn [foldl]. apply u8_range.
Qed.

(** Appending the byte that complements the sum makes it vanish. *)
Lemma sum8_checksum l : sum8 (l ++ [u8 (256 - sum8 l)]) = 0.
Proof.
  pose proof (sum8_range l). unfold sum8 at 1. rewrite foldl_app. cbn [foldl].
  fold (sum8 l). unfold u8. change (2 ^ 8) with 256. dlia.
Qed.

Lemma checksum_blit e o :
  length e = 256%nat → 0 ≤ o → o + 128 ≤ 256 →
  sum8 (slice o 128 (blit e (o + 127) [u8 (256 - sum8 (slice o 127 e))])) = 0.
Proof.
  intros Hl Ho Hle. rewrite <- (slice_join o 127 1) by lia.
  rewrite slice_blit_out, slice_blit_hit by (cbn [length]; lia). apply sum8_checksum.
Qed.

Lemma edid_ext_ok e w h : edid_buf e → edid_buf (edid_ext e w h).
Proof.
  intros He. unfold edid_ext. cbv zeta.
  repeat first [apply edid_put_dtd | exact He |
    apply edid_blit; [|lia|cbn [length]; lia|bytes_lit] | lia].
Qed.

Lemma edid_ext_low e w h o n :
  edid_buf e → 0 ≤ o → 0 ≤ n → o + n ≤ 128 → slice o n (edid_ext e w h) = slice o n e.
Proof.
  intros He Ho Hn Hon. unfold edid_ext. cbv zeta.
  assert (Hx : edid_buf (blit e 128 [2; 3; 4; 128]))
    by (apply edid_blit; [done|lia|cbn [length]; lia|bytes_lit]).
  rewrite !slice_put_dtd_out; try lia; try apply Hx.
  - apply slice_blit_out; destruct He; cbn [length]; lia.
  - by apply edid_put_dtd.
Qed.

(** The blocks before their last writes. *)
Definition edid_cs1 (w h serial : Z) (model : option bytes) : bytes :=
  let e := edid_base w h serial model in blit e 127 [u8 (256 - sum8 (slice 0 127 e))].

Lemma edid_cs1_ok w h serial model : edid_buf (edid_cs1 w h serial model).
Proof.
  apply edid_blit; [apply edid_base_ok|lia|cbn [length]; lia|bytes_lit].
Qed.

Lemma build_low w h serial model o n :
  0 ≤ o → 0 ≤ n → o + n ≤ 128 →
  slice o n (sremfb_edid_build w h serial model) = slice o n (edid_cs1 w h serial model).
Proof.
  intros Ho Hn Hon. unfold sremfb_edid_build. cbv zeta.
  pose proof (edid_cs1_ok w h serial model) as H1. unfold edid_cs1 in *. cbv zeta in H1.
  rewrite slice_blit_out by (try lia; rewrite ?(proj1 (edid_ext_ok _ w h H1)); cbn [length]; lia).
  by rewrite edid_ext_low.
Qed.

(** (C34) The EDID is well-formed for every client: 256 bytes, the fixed
    header, one extension announced, and both blocks sum to 0 modulo 256. *)
Theorem edid_valid w h serial model :
  let e := sremfb_edid_build w h serial model in
  length e = 256%nat ∧ bytes_ok e ∧
  slice 0 8 e = [0; 255; 255; 255; 255; 255; 255; 0] ∧ slice 126 1 e = [1] ∧
  sum8 (slice 0 128 e) = 0 ∧ sum8 (slice 128 128 e) = 0.
Proof.
  cbv zeta. assert (Hok : edid_buf (sremfb_edid_build w h serial model)).
  { apply edid_blit; [apply edid_ext_ok, edid_cs1_ok|lia|cbn [length]; lia|bytes_lit]. }
  split; [apply Hok|]. split; [apply Hok|]. rewrite !build_low by lia.
  destruct (edid_base_ok w h serial model) as [Hl _].
  split_and!.
  - unfold edid_cs1. cbv zeta. rewrite slice_blit_out by (cbn [length]; lia).
    unfold edid_base. cbv zeta. destruct (edid_name_ok model) as (Hn&Hb&H13).
    pose proof (strlen_le _ _ H13) as Hs. peel. by apply peel_hit; solve_buf.
  - unfold edid_cs1. cbv zeta. rewrite slice_blit_out by (cbn [length]; lia).
    unfold edid_base. cbv zeta. destruct (edid_name_ok model) as (Hn&Hb&H13).
    pose proof (strlen_le _ _ H13) as Hs. apply peel_hit; solve_buf; done.
  - apply (checksum_blit _ 0); [done|lia|lia].
  - apply (checksum_blit _ 128); [apply edid_ext_ok, edid_cs1_ok|lia|lia].
Qed.

(** ** Timings *)
Definition dtd_bytes (width height refresh wmm hmm : Z) : bytes :=
  slice 0 15 (put_dtd (replicate 18 0) 0 width height refresh wmm hmm).

Lemma slice_put_dtd e off w h r wmm hmm :
  edid_buf e → 0 ≤ off → off + 18 ≤ 256 →
  slice off 15 (put_dtd e off w h r wmm hmm) = dtd_bytes w h r wmm hmm.
Proof.
  intros [Hl _] ??. unfold put_dtd, dtd_bytes. cbv zeta.
  rewrite slice_blit_out; [|lia|lia|lia|rewrite length_blit; cbn [length]; lia|cbn [length]; lia].
  rewrite slice_blit_hit by (cbn [length]; lia). reflexivity.
Qed.

Lemma nth_slice off n k (e : bytes) :
  0 ≤ off → 0 ≤ k < n → nth (Z.to_nat (off + k)) e 0 = nth (Z.to_nat k) (slice off n e) 0.
Proof.
  intros. rewrite !nth_lookup, lookup_slice by lia. do 2 f_equal. lia.
Qed.

Lemma lo_byte x : u8 (Z.land x 255) = x mod 256.
Proof.
  change 255 with (Z.ones 8). rewrite Z.land_ones by lia. unfold u8. change (2 ^ 8) with 256.
  apply Z.mod_mod. lia.
Qed.

Lemma hi_nibble x : 0 ≤ x →
  u8 (Z.lor (Z.shiftl (Z.shiftr x 8) 4) 0) = 16 * (x / 256 mod 16).
Proof.
  intros. rewrite Z.lor_0_r, Z.shiftl_mul_pow2, Z.shiftr_div_pow2 by lia.
  change (2 ^ 8) with 256. change (2 ^ 4) with 16. unfold u8. change (2 ^ 8) with 256. dlia.
Qed.

(** The pixel clock put_dtd() means, in units of 10 kHz, and the one it
    computes in 32 bits. *)
Definition pixel_clock (width height refresh : Z) : Z :=
  ((width + 160) * (height + 30) * refresh + 5000) / 10000.
Definition pixel_clock32 (width height refresh : Z) : Z :=
  ((width + 160) * (height + 30) * refresh + 5000) mod 2 ^ 32 / 10000.

Lemma pixel_clock_u32 w h r :
  u32 (u32 (u32 (u32 (w + 160) * u32 (h + 30)) * r) + 5000) / 10000 = pixel_clock32 w h r.
Proof.
  unfold pixel_clock32, u32. f_equal.
  by rewrite <- Z.mul_mod, Z.mul_mod_idemp_l, Z.add_mod_idemp_l by lia.
Qed.

(** The clock that fits its 16 bits did not wrap in 32. *)
Lemma pixel_clock_fits w h r :
  0 < w → 0 < h → 0 ≤ r → pixel_clock w h r < 65536 → pixel_clock32 w h r = pixel_clock w h r.
Proof.
  unfold pixel_clock, pixel_clock32. intros. set (x := (w + 160) * (h + 30) * r + 5000) in *.
  assert (0 ≤ x) by (subst x; nia). rewrite Z.mod_small; [done|]. split; [done|]. dlia.
Qed.

Lemma dtd_read e off w h r wmm hmm :
  slice off 15 e = dtd_bytes w h r wmm hmm → 0 ≤ off → 0 < w → 0 < h →
  dtd_width e off = w mod 4096 ∧ dtd_height e off = h mod 4096 ∧ dtd_hblank e off = 160 ∧
  dtd_vblank e off = 30 ∧ dtd_clock e off = pixel_clock32 w h r mod 65536.
Proof.
  intros Hs Ho Hw Hh.
  unfold dtd_width, dtd_height, dtd_hblank, dtd_vblank, dtd_clock.
  replace (Z.to_nat off) with (Z.to_nat (off + 0)) by (f_equal; lia).
  rewrite !(nth_slice off 15) by lia. rewrite Hs. unfold dtd_bytes, put_dtd. cbv zeta.
  rewrite pixel_clock_u32. set (p := pixel_clock32 w h r).
  assert (Hp : 0 ≤ p) by (apply Z.div_pos; [apply Z.mod_pos_bound|]; lia).
  change (slice 0 15 _) with
    [u8 (Z.land p 255); u8 (Z.shiftr p 8); u8 (Z.land w 255); 160;
     u8 (Z.lor (Z.shiftl (Z.shiftr w 8) 4) 0); u8 (Z.land h 255); 30;
     u8 (Z.lor (Z.shiftl (Z.shiftr h 8) 4) 0); 48; 32; 53; 0;
     u8 (Z.land wmm 0xFF); u8 (Z.land hmm 0xFF);
     u8 (Z.lor (Z.shiftl (Z.shiftr wmm 8) 4) (Z.shiftr hmm 8))].
  repeat match goal with |- context [Z.to_nat (Z.pos ?x)] =>
    let n := eval vm_compute in (Z.to_nat (Z.pos x)) in change (Z.to_nat (Z.pos x)) with n end.
  change (Z.to_nat 0) with 0%nat. cbn [nth].
  rewrite !lo_byte, !hi_nibble by lia.
  assert (Hn : ∀ x, 0 ≤ x < 16 → Z.shiftr (16 * x) 4 = x ∧ Z.land (16 * x) 15 = 0).
  { intros x Hx. rewrite Z.shiftr_div_pow2 by lia. change 15 with (Z.ones 4).
    rewrite Z.land_ones by lia. change (2 ^ 4) with 16. dlia. }
  destruct (Hn (w / 256 mod 16)) as [-> ->]; [dlia|]. destruct (Hn (h / 256 mod 16)) as [-> ->]; [dlia|].
  split_and!; try dlia. unfold u8. rewrite Z.shiftr_div_pow2 by lia.
  change (2 ^ 8) with 256. dlia.
Qed.

Lemma build_dtd w h serial model off r :
  In (off, r) [(54, 60); (72, 30); (132, 120); (150, 15)] →
  ∃ wmm hmm, slice off 15 (sremfb_edid_build w h serial model) = dtd_bytes w h r wmm hmm.
Proof.
  set (hyp := Dsqrt (Dadd (Dmul (D_of_Z w) (D_of_Z w)) (Dmul (D_of_Z h) (D_of_Z h)))).
  intros Hin. exists (side_mm (D_of_Z w) hyp), (side_mm (D_of_Z h) hyp).
  destruct (edid_name_ok model) as (Hn&Hb&H13). pose proof (strlen_le _ _ H13) as Hs.
  pose proof (edid_base_ok w h serial model) as Hbase.
  pose proof (edid_cs1_ok w h serial model) as Hcs1.
  repeat destruct Hin as [Heq|Hin]; try injection Heq as <- <-; [| | | |destruct Hin].
  - rewrite build_low by lia. unfold edid_cs1. cbv zeta.
    rewrite peel_blit by (try done; cbn [length]; lia).
    unfold edid_base. cbv zeta. peel. apply slice_put_dtd; [solve_buf|lia|lia].
  - rewrite build_low by lia. unfold edid_cs1. cbv zeta.
    rewrite peel_blit by (try done; cbn [length]; lia).
    unfold edid_base. cbv zeta. peel. apply slice_put_dtd; [solve_buf|lia|lia].
  - unfold sremfb_edid_build. cbv zeta.
    rewrite peel_blit; [|by apply edid_ext_ok|lia|lia|lia|cbn [length]; lia|cbn [length]; lia].
    unfold edid_ext. cbv zeta. fold (edid_cs1 w h serial model). fold hyp.
    rewrite peel_dtd by solve_buf. apply slice_put_dtd; [solve_buf|lia|lia].
  - unfold sremfb_edid_build. cbv zeta.
    rewrite peel_blit; [|by apply edid_ext_ok|lia|lia|lia|cbn [length]; lia|cbn [length]; lia].
    unfold edid_ext. cbv zeta. fold (edid_cs1 w h serial model). fold hyp.
    apply slice_put_dtd; [solve_buf|lia|lia].
Qed.

(** (C35) What the compositor reads back from each of the four timings, for
    a client of any size: the width and height modulo 2^12, hence the
    client's resolution exactly when both are below 4096; and the pixel
    clock computed in 32 bits, modulo 2^16. For a client below 4096 in both
    directions, of more than 10000 pixels with the blanking, the refresh rate
    read back is exactly the advertised one whenever the intended pixel clock
    fits its 16 bits. *)
Theorem edid_timings w h serial model off r :
  0 < w → 0 < h →
  In (off, r) [(54, 60); (72, 30); (132, 120); (150, 15)] →
  let e := sremfb_edid_build w h serial model in
  dtd_width e off = w mod 4096 ∧ dtd_height e off = h mod 4096 ∧
  dtd_clock e off = pixel_clock32 w h r mod 65536 ∧
  (w < 4096 → h < 4096 → dtd_width e off = w ∧ dtd_height e off = h ∧
    (pixel_clock w h r < 65536 → dtd_clock e off = pixel_clock w h r ∧
      (10000 < (w + 160) * (h + 30) → dtd_refresh e off = r))).
Proof.
  intros Hw Hh Hin. cbv zeta.
  destruct (build_dtd w h serial model off r Hin) as (wmm&hmm&Hs).
  assert (Hr : 15 ≤ r ≤ 120 ∧ 0 ≤ off) by (cbn in Hin; intuition (simplify_eq; lia)).
  destruct (dtd_read _ off w h r wmm hmm Hs) as (E1&E2&E3&E4&E5); [lia..|].
  split_and!; [done|done|done|]. intros Hw' Hh'. rewrite Z.mod_small in E1, E2 by lia.
  split_and!; [done|done|]. intros Hc. rewrite pixel_clock_fits in E5 by (done || lia).
  rewrite Z.mod_small in E5 by (split; [unfold pixel_clock; apply Z.div_pos; nia|done]).
  split; [done|]. intros Ht. unfold dtd_refresh. rewrite E1, E2, E3, E4, E5. cbv zeta.
  set (t := (w + 160) * (h + 30)) in *. unfold pixel_clock in *. fold t in Hc |- *.
  assert (0 ≤ t * r) by nia. symmetry.
  apply Z.div_unique with (2 * ((t * r + 5000) / 10000 * 10000) + t - 2 * t * r);
    [left; dlia|lia].
Qed.

(** Vendor, product, serial number, date; and the display name. *)
Definition edid_identity (e : bytes) : bytes * bytes := (slice 8 10 e, slice 90 18 e).

Lemma slice_blit_in {A} (e : list A) o src k n :
  0 ≤ o → 0 ≤ k → 0 ≤ n → k + n ≤ Z.of_nat (length src) →
  o + Z.of_nat (length src) ≤ Z.of_nat (length e) →
  slice (o + k) n (blit e o src) = slice k n src.
Proof.
  intros. apply list_eq. intros i. destruct (decide (Z.of_nat i < n)) as [Hi|Hi].
  - rewrite !lookup_slice, lookup_blit by lia. rewrite bool_decide_eq_true_2 by lia.
    f_equal. lia.
  - rewrite !lookup_ge_None_2; [done| |]; unfold slice; rewrite length_take; lia.
Qed.

Lemma slice_blit_cong {A} (e e' : list A) o src off n :
  0 ≤ o → 0 ≤ off → length e = length e' → o + Z.of_nat (length src) ≤ Z.of_nat (length e) →
  slice off n e = slice off n e' → slice off n (blit e o src) = slice off n (blit e' o src).
Proof.
  intros ?? Hl ? Heq. apply list_eq. intros i. destruct (decide (Z.of_nat i < n)) as [Hi|Hi].
  - rewrite !lookup_slice, !lookup_blit by lia. case_bool_decide; [done|].
    by rewrite <- !(lookup_slice off n), Heq by done.
  - rewrite !lookup_ge_None_2; [done| |]; unfold slice; rewrite length_take; lia.
Qed.

Lemma put_name_cong e e' model :
  edid_buf e → edid_buf e' → slice 90 18 e = slice 90 18 e' →
  slice 90 18 (put_name e (edid_name model)) = slice 90 18 (put_name e' (edid_name model)).
Proof.
  intros He He' Heq. destruct (edid_name_ok model) as (Hn&Hb&H13).
  pose proof (strlen_le _ _ H13) as Hs. unfold put_name. cbv zeta.
  assert (Ht : length (take (strlen (edid_name model)) (edid_name model)) =
    strlen (edid_name model)) by (rewrite length_take; lia).
  assert (Hcong : ∀ a b o src, edid_buf a ∧ edid_buf b ∧ slice 90 18 a = slice 90 18 b →
    0 ≤ o → o + Z.of_nat (length src) ≤ 256 → bytes_ok src →
    edid_buf (blit a o src) ∧ edid_buf (blit b o src) ∧
    slice 90 18 (blit a o src) = slice 90 18 (blit b o src)).
  { intros a b o src (Ha&Hb'&Hab) Ho Hle Hsrc. destruct (Ha) as [La _], (Hb') as [Lb _].
    split_and!; [by apply edid_blit..|]. apply slice_blit_cong; lia || done. }
  assert (H3 := conj He (conj He' Heq)).
  apply (Hcong _ _ 93 [252]) in H3; [|lia|cbn [length]; lia|bytes_lit].
  apply (Hcong _ _ 95 (replicate 13 32)) in H3; [|lia|rewrite length_replicate; lia|bytes_lit].
  apply (Hcong _ _ 95 (take (strlen (edid_name model)) (edid_name model))) in H3;
    [|lia|lia|by apply Forall_take].
  destruct (_ <? 13)%nat eqn:E; [|apply H3]. apply Nat.ltb_lt in E.
  apply (Hcong _ _ (95 + Z.of_nat (strlen (edid_name model))) [10]) in H3;
    [apply H3|lia|cbn [length]; lia|bytes_lit].
Qed.

Lemma build_identity w h serial model :
  edid_identity (sremfb_edid_build w h serial model) =
    ([0x48; 0xC2; 1; 0; u8 (Z.land serial 0xFF); u8 (Z.land (Z.shiftr serial 8) 0xFF);
      u8 (Z.land (Z.shiftr serial 16) 0xFF); u8 (Z.shiftr serial 24); 1; 36],
     slice 90 18 (put_name (replicate 256 0) (edid_name model))).
Proof.
  destruct (edid_name_ok model) as (Hn&Hb&H13). pose proof (strlen_le _ _ H13) as Hs.
  pose proof (edid_base_ok w h serial model) as Hbase.
  unfold edid_identity. rewrite !build_low by lia. unfold edid_cs1. cbv zeta.
  rewrite !peel_blit by (try done; cbn [length]; lia). unfold edid_base. cbv zeta. f_equal.
  - peel. change 8 with (8 + 0) at 1. rewrite slice_blit_in; [reflexivity|lia..| |].
    + cbn [length]. lia.
    + rewrite length_blit; rewrite ?length_replicate; cbn [length]; lia.
  - peel. apply put_name_cong; [solve_buf|apply edid_zero|]. peel. reflexivity.
Qed.

(** A stable identity: vendor, product, serial and name depend on the
    serial and the panel's model only, not on the resolution; two clients
    have the same identity only if they have the same serial. *)
Theorem edid_identity_stable w h w' h' serial serial' model model' :
  0 ≤ serial < 2 ^ 32 → 0 ≤ serial' < 2 ^ 32 →
  edid_identity (sremfb_edid_build w h serial model) =
    edid_identity (sremfb_edid_build w' h' serial model) ∧
  (edid_identity (sremfb_edid_build w h serial model) =
     edid_identity (sremfb_edid_build w' h' serial' model') → serial = serial').
Proof.
  intros Hs Hs'. rewrite !build_identity. split; [done|].
  intros Heq. injection Heq as E1 E2 E3 E4 _. rewrite !lo_byte in *.
  rewrite !Z.shiftr_div_pow2 in * by lia. change (2 ^ 32) with 4294967296 in *.
  rewrite !u8_small in E4 by (change (2 ^ 24) with 16777216; dlia).
  change (2 ^ 8) with 256 in *. change (2 ^ 16) with 65536 in *.
  change (2 ^ 24) with 16777216 in *. dlia.
Qed.

(** The advertised 120 Hz of a 3840x2160 client: its pixel clock does
    not fit the descriptor's 16 bits, and what reads back is 45 Hz. *)
Theorem edid_4k_clock_truncated serial model :
  let e := sremfb_edid_build 3840 2160 serial model in
  pixel_clock 3840 2160 120 = 105120 ∧ dtd_clock e 132 = 39584 ∧ dtd_refresh e 132 = 45.
Proof.
  cbv zeta. destruct (build_dtd 3840 2160 serial model 132 120) as (wmm&hmm&Hs);
    [cbn; auto|].
  destruct (dtd_read _ 132 3840 2160 120 wmm hmm Hs) as (E1&E2&E3&E4&E5); [lia..|].
  split; [done|]. split; [by rewrite E5|].
  unfold dtd_refresh. rewrite E1, E2, E3, E4, E5. reflexivity.
Qed.

(** A model made of blanks (an unknown panel, for protocol.h) does not
    give the project's name but a name of thirteen blanks. *)
Theorem edid_blank_model :
  edid_name (Some (replicate 13 32)) = replicate 13 32 ++ [0] ∧ edid_name None = name0.
Proof. split; reflexivity. Qed.

Lemma edid_timings_witness :
  let e := sremfb_edid_build 1920 1080 0x2a None in
  dtd_width e 132 = 1920 ∧ dtd_height e 132 = 1080 ∧
  dtd_clock e 132 = pixel_clock 1920 1080 120 ∧ dtd_refresh e 132 = 120.
Proof.
  destruct (edid_timings 1920 1080 0x2a None 132 120) as (_&_&_&H); [lia|lia|cbn; auto|].
  destruct H as (H1&H2&H3); [lia|lia|].
  destruct H3 as (H3&H4); [vm_compute; reflexivity|].
  split_and!; [exact H1|exact H2|exact H3|]. apply H4. vm_compute. reflexivity.
Defined.

(** A 5120x1440 panel, whose hello is accepted, is described as 1024x1440. *)
Example edid_wide_truncated :
  let e := sremfb_edid_build 5120 1440 0x2a None in
  (dtd_width e 54, dtd_height e 54) = (1024, 1440).
Proof. vm_compute. reflexivity. Qed.

Lemma edid_identity_stable_witness :
  edid_identity (sremfb_edid_build 800 600 1 None) =
    edid_identity (sremfb_edid_build 1920 1080 1 None) ∧
  (edid_identity (sremfb_edid_build 800 600 1 None) =
     edid_identity (sremfb_edid_build 1920 1080 2 None) → 1 = 2).
Proof. apply (edid_identity_stable 800 600 1920 1080 1 2 None None); lia. Defined.
