(* ===== verification/InputSpec.v ===== *)
(** * What the injected events look like: invariants of the uinput devices *)
From S2P Require Import Prelude Binary64 Protocol Bits Core Input.

(** The values of the EV_KEY events of one key, in order. *)
Definition key_log (k : Z) (log : list (Z * Z * Z)) : list Z :=
  omap (λ '(t, c, v), if (t =? EV_KEY) && (c =? k) then Some v else None) log.

(** Press and release strictly alternate from the state [b] (held or not):
    the state they lead to. *)
Fixpoint key_run (b : bool) (l : list Z) : option bool :=
  match l with
  | [] => Some b
  | v :: l => if v =? Z.b2z (negb b) then key_run (negb b) l else None
  end.

(** An event the device declared, with a value in its range. *)
Definition event_ok (d : SremfbIndev) (ev : Z * Z * Z) : Prop :=
  let '(t, c, v) := ev in
  (t = EV_SYN ∧ c = SYN_REPORT) ∨
  (t = EV_KEY ∧ 0 ≤ c < KEY_CNT ∧ bit_get (d_keys d) c = true ∧ (v = 0 ∨ v = 1)) ∨
  (t = EV_REL ∧ 0 ≤ c < 32 ∧ Z.testbit (d_rels d) c = true) ∨
  (t = EV_ABS ∧ 0 ≤ c < ABS_CNT ∧ Z.testbit (d_abss d) c = true ∧
   nth (Z.to_nat c) (d_abs_min d) 0 ≤ v ≤ nth (Z.to_nat c) (d_abs_max d) 0).

(** A press is never the first thing a pointer does: an absolute position
    precedes it. *)
Fixpoint no_blind_click (placed : bool) (log : list (Z * Z * Z)) : bool :=
  match log with
  | [] => true
  | (t, c, v) :: log =>
    negb ((t =? EV_KEY) && (v =? 1) && negb placed) &&
    no_blind_click (placed || (t =? EV_ABS)) log
  end.

(** The axes at rest are in range; the pointer only has ABS_X and ABS_Y over
    0..ABS_POINTER_MAX. *)
Definition axes_ok (i : nat) (d : SremfbIndev) : Prop :=
  ∀ a, 0 ≤ a < ABS_CNT → Z.testbit (d_abss d) a = true →
    nth (Z.to_nat a) (d_abs_min d) 0 ≤ 0 ≤ nth (Z.to_nat a) (d_abs_max d) 0 ∧
    (i = 3%nat → a < 2 ∧ nth (Z.to_nat a) (d_abs_min d) 0 = 0 ∧
                 nth (Z.to_nat a) (d_abs_max d) 0 = ABS_POINTER_MAX).

(** The declarations, which no event changes. *)
Definition static (d : SremfbIndev) :=
  (d_fd d, d_keys d, d_rels d, d_abss d, d_abs_min d, d_abs_max d).

Record dev_inv (i : nat) (d : SremfbIndev) : Prop := {
  di_down : length (d_down d) = 96%nat;
  di_keys : ∀ k, 0 ≤ k < KEY_CNT →
    key_run false (key_log k (d_log d)) = Some (bit_get (d_down d) k);
  di_decl : ∀ k, 0 ≤ k < KEY_CNT → bit_get (d_down d) k = true → bit_get (d_keys d) k = true;
  di_closed : d_fd d < 0 → ∀ k, 0 ≤ k < KEY_CNT → bit_get (d_down d) k = false;
  di_log : Forall (event_ok d) (d_log d);
  di_axes : axes_ok i d }.

Lemma key_log_snoc k log t c v :
  key_log k (log ++ [(t, c, v)]) =
    key_log k log ++ (if (t =? EV_KEY) && (c =? k) then [v] else []).
Proof. unfold key_log. rewrite omap_app. f_equal. cbn. by destruct (_ && _). Qed.

Lemma key_run_snoc b l b' v :
  key_run b l = Some b' → v = Z.b2z (negb b') → key_run b (l ++ [v]) = Some (negb b').
Proof.
  revert b. induction l as [|w l IH]; intros b; simpl.
  - intros [= ->] ->. by rewrite Z.eqb_refl.
  - case_match; [apply IH|done].
Qed.

Lemma blind_snoc p log t c v :
  no_blind_click p (log ++ [(t, c, v)]) =
    no_blind_click p log &&
    negb ((t =? EV_KEY) && (v =? 1) &&
          negb (p || existsb (λ '(t, _, _), t =? EV_ABS) log)).
Proof.
  revert p. induction log as [|[[t' c'] v'] log IH]; intros p; simpl.
  - by rewrite andb_true_r, orb_false_r.
  - by rewrite IH, orb_assoc, andb_assoc.
Qed.

Lemma event_ok_static d d' ev : static d' = static d → event_ok d ev → event_ok d' ev.
Proof. unfold static. intros [= ? Hk Hr Ha Hmin Hmax]. destruct ev as [[??]?]. simpl.
  by rewrite Hk, Hr, Ha, Hmin, Hmax. Qed.

Lemma emit_log d t c v : d_log (ui_emit d t c v) = d_log d ++ [(t, c, v)].
Proof. done. Qed.

(** Emitting an event other than EV_KEY. *)
Lemma emit_inv i d t c v :
  dev_inv i d → t ≠ EV_KEY → event_ok d (t, c, v) → dev_inv i (ui_emit d t c v).
Proof.
  intros [Hd Hk Hdc Hcl Hl Ha] Ht He. constructor; try done.
  - intros k Hr. rewrite emit_log, key_log_snoc.
    destruct (t =? EV_KEY) eqn:?; [lia|]. rewrite app_nil_r. by apply Hk.
  - apply Forall_app; split; [|by apply Forall_singleton]. exact Hl.
Qed.

(** A key event that toggles its key. *)
Lemma emit_key_inv i d k v :
  dev_inv i d → 0 ≤ d_fd d → 0 ≤ k < KEY_CNT → bit_get (d_keys d) k = true →
  v = Z.b2z (negb (bit_get (d_down d) k)) →
  dev_inv i (ui_emit d⟨d_down ::= (λ b, bit_put b k (v =? 1))⟩ EV_KEY k v).
Proof.
  intros [Hd Hk Hdc Hcl Hl Ha] Hfd Hr Hdk Hv.
  assert (Hb : (v =? 1) = negb (bit_get (d_down d) k)) by (rewrite Hv; destruct (bit_get (d_down d) k); reflexivity).
  assert (Hget : ∀ m, 0 ≤ m < KEY_CNT →
    bit_get (bit_put (d_down d) k (v =? 1)) m = if m =? k then v =? 1 else bit_get (d_down d) m).
  { intros m Hm. apply bit_get_put; unfold KEY_CNT in *; lia. }
  set (d' := ui_emit _ _ _ _).
  assert (Ed : d_down d' = bit_put (d_down d) k (v =? 1)) by done.
  assert (El : d_log d' = d_log d ++ [(EV_KEY, k, v)]) by done.
  constructor; rewrite ?Ed, ?El.
  - by rewrite length_bit_put.
  - intros m Hm. rewrite key_log_snoc, Hget by done.
    change (EV_KEY =? EV_KEY) with true. cbn [andb].
    destruct (k =? m) eqn:Hkm; rewrite (Z.eqb_sym m k), Hkm.
    + assert (k = m) as <- by lia. rewrite Hb. apply key_run_snoc; [by apply Hk|done].
    + rewrite app_nil_r. by apply Hk.
  - intros m Hm. rewrite Hget by done. destruct (m =? k) eqn:?; [|by apply Hdc].
    assert (m = k) as -> by lia. done.
  - intros Hneg. change (d_fd d < 0) in Hneg. lia.
  - apply Forall_app; split; [done|]. apply Forall_singleton. right; left.
    split_and!; try done; try lia. rewrite Hv. destruct (bit_get (d_down d) k); auto.
  - done.
Qed.

(** ** Releasing *)
Lemma release_key_inv i d any k :
  dev_inv i d → 0 ≤ d_fd d → 0 ≤ k < KEY_CNT →
  let d' := (release_key k (d, any)).1 in
  dev_inv i d' ∧ static d' = static d ∧
  (∀ m, 0 ≤ m < KEY_CNT → bit_get (d_down d') m = bit_get (d_down d) m && negb (m =? k)).
Proof.
  intros Hd Hfd Hk. unfold release_key. destruct (bit_get (d_down d) k) eqn:Hb; cbn [fst].
  - split_and!; [|done|].
    + apply (emit_key_inv i d k 0); try done; [by apply Hd|by rewrite Hb].
    + intros m Hm. change (bit_get (bit_put (d_down d) k false) m =
        bit_get (d_down d) m && negb (m =? k)).
      rewrite bit_get_put; [|destruct Hd as [-> ]; unfold KEY_CNT in *; lia|lia].
      destruct (m =? k); [by rewrite andb_false_r|by rewrite andb_true_r].
  - split_and!; [done|done|]. intros m Hm. destruct (m =? k) eqn:?; [|by rewrite andb_true_r].
    assert (m = k) as -> by lia. by rewrite Hb.
Qed.

Lemma center_abs_inv i d any a :
  dev_inv i d → 0 ≤ a < ABS_CNT →
  let d' := (center_abs a (d, any)).1 in
  dev_inv i d' ∧ static d' = static d ∧ d_down d' = d_down d.
Proof.
  intros Hd Ha. unfold center_abs. destruct (_ && _) eqn:Hc; cbn [fst]; [|done].
  apply andb_prop in Hc as [Hc _]. split_and!; [|done|done].
  apply emit_inv; [done|done|]. right; right; right.
  split_and!; try done; try lia; by apply (di_axes i d Hd a).
Qed.

Lemma indev_release_inv i d :
  dev_inv i d →
  dev_inv i (indev_release d) ∧ static (indev_release d) = static d ∧
  (∀ k, 0 ≤ k < KEY_CNT → bit_get (d_down (indev_release d)) k = false).
Proof.
  intros Hd. unfold indev_release. destruct (d_fd d <? 0) eqn:Hfd.
  { split_and!; [done|done|]. apply Hd. lia. }
  pose proof (for_ind0 (λ n s, dev_inv i s.1 ∧ static s.1 = static d ∧
    ∀ m, 0 ≤ m < KEY_CNT → bit_get (d_down s.1) m = bit_get (d_down d) m && (n <=? m))
    KEY_CNT release_key (d, false)) as H1.
  destruct H1 as (H1&S1&B1).
  { done. }
  { split_and!; [done|done|]. intros m Hm. destruct (0 <=? m) eqn:?; [|lia].
    by rewrite andb_true_r. }
  { intros k [d1 any] Hk (H1&S1&B1). cbn [fst] in *.
    assert (d_fd d1 = d_fd d) by (unfold static in S1; congruence).
    destruct (release_key_inv i d1 any k H1) as (H2&S2&B2); [lia|lia|].
    split_and!; [done|congruence|]. intros m Hm. rewrite B2, B1 by done.
    rewrite <- andb_assoc. f_equal. lia. }
  set (s1 := for_ 0 KEY_CNT _ _) in *. clearbody s1.
  pose proof (for_ind0 (λ _ s, dev_inv i s.1 ∧ static s.1 = static d ∧
    d_down s.1 = d_down s1.1) ABS_CNT center_abs s1) as H2.
  destruct H2 as (H2&S2&B2); [done|done| |].
  { intros a [d1 any] Ha (H2&S2&B2). cbn [fst] in *.
    destruct (center_abs_inv i d1 any a H2 Ha) as (H3&S3&B3). split_and!; congruence. }
  destruct (for_ 0 ABS_CNT _ _) as [d2 any2]. cbn [fst] in *.
  assert (Hz : ∀ k, 0 ≤ k < KEY_CNT → bit_get (d_down d2) k = false).
  { intros k Hk. rewrite B2, B1 by done. destruct (KEY_CNT <=? k) eqn:?; [lia|].
    by rewrite andb_false_r. }
  destruct (_ || _); [|done]. split_and!; [|done|done].
  apply emit_inv; [done|done|by left].
Qed.

(** Releasing only appends events that press nothing. *)
Definition no_press (ev : Z * Z * Z) : Prop :=
  let '(t, _, v) := ev in ¬ (t = EV_KEY ∧ v = 1).
Definition extends (d d' : SremfbIndev) : Prop :=
  ∃ evs, d_log d' = d_log d ++ evs ∧ Forall no_press evs.

#[export] Instance extends_preorder : PreOrder extends.
Proof.
  split.
  - intros d. exists []. by rewrite app_nil_r.
  - intros d1 d2 d3 (e1&H1&F1) (e2&H2&F2). exists (e1 ++ e2).
    rewrite H2, H1, app_assoc. split; [done|]. by apply Forall_app.
Qed.

Lemma extends_emit d t c v : no_press (t, c, v) → extends d (ui_emit d t c v).
Proof. intros. exists [(t, c, v)]. split; [done|]. by apply Forall_singleton. Qed.

Lemma extends_release d : extends d (indev_release d).
Proof.
  unfold indev_release. destruct (d_fd d <? 0); [done|].
  assert (H1 : extends d (for_ 0 KEY_CNT release_key (d, false)).1).
  { apply (for_ind0 (λ _ s, extends d s.1)); [done|done|].
    intros k [d1 any] _ H1. cbn [fst] in *. etrans; [exact H1|].
    unfold release_key. destruct (bit_get _ _); [|done].
    apply (extends_emit d1 EV_KEY k 0). intros [_ [=]]. }
  set (s1 := for_ 0 KEY_CNT _ _) in *. clearbody s1.
  assert (H2 : extends d (for_ 0 ABS_CNT center_abs s1).1).
  { apply (for_ind0 (λ _ s, extends d s.1)); [done|done|].
    intros k [d1 any] _ H2. cbn [fst] in *. etrans; [exact H2|].
    unfold center_abs. destruct (_ && _); [|done].
    apply (extends_emit d1 EV_ABS k 0). intros [[=] _]. }
  destruct (for_ 0 ABS_CNT _ _) as [d2 any]. cbn [fst] in *.
  destruct (_ || _); [|done]. etrans; [exact H2|]. apply extends_emit. by intros [[=] _].
Qed.

Lemma blind_extends p d d' :
  extends d d' → no_blind_click p (d_log d) = true → no_blind_click p (d_log d') = true.
Proof.
  intros (evs&->&Hev). revert Hev. induction evs as [|[[t c] v] evs IH] using rev_ind.
  - by rewrite app_nil_r.
  - intros [H1 H2]%Forall_app Hb. apply Forall_cons in H2 as [H2 _]. rewrite app_assoc, blind_snoc.
    rewrite IH by done. cbn [andb]. cbn in H2.
    destruct ((t =? EV_KEY) && (v =? 1)) eqn:?; [lia|done].
Qed.

(** ** The invariant of a client's devices *)
Definition is_abs (ev : Z * Z * Z) : bool := let '(t, _, _) := ev in t =? EV_ABS.

Record input_inv (in_ : SremfbInput) : Prop := {
  ii_len : length (in_dev in_) = 5%nat;
  ii_dev : ∀ i d, in_dev in_ !! i = Some d → dev_inv i d;
  ii_click : ∀ d, in_dev in_ !! 3%nat = Some d →
    no_blind_click false (d_log d) = true ∧
    (in_abs_placed in_ = true → existsb is_abs (d_log d) = true) }.

Lemma extends_abs d d' :
  extends d d' → existsb is_abs (d_log d) = true → existsb is_abs (d_log d') = true.
Proof. intros (evs&->&_) Hex. by rewrite existsb_app, Hex. Qed.

Lemma release_lookup devs i d' :
  release_devs devs !! i = Some d' →
  ∃ d, devs !! i = Some d ∧ (d' = d ∧ i = 0%nat ∨ d' = indev_release d ∧ i ≠ 0%nat).
Proof.
  destruct devs as [|d0 devs]; [done|]. destruct i as [|i].
  - intros [= <-]. exists d0. auto.
  - change (release_devs (d0 :: devs) !! S i) with ((indev_release <$> devs) !! i).
    change ((d0 :: devs) !! S i) with (devs !! i).
    rewrite list_lookup_fmap. destruct (devs !! i) as [d|]; [|done].
    intros [= <-]. exists d. split; [done|]. right. done.
Qed.

Lemma release_all_inv in_ : input_inv in_ → input_inv (input_release_all in_).
Proof.
  intros [Hl Hd Hc]. constructor.
  - cbn. destruct (in_dev in_); [done|]. cbn in *. by rewrite length_fmap.
  - intros i d' (d&Hi&[[-> ->]|[-> _]])%release_lookup; [by apply Hd|].
    by apply indev_release_inv, Hd.
  - intros d' (d&Hi&[[_ [=]]|[-> _]])%release_lookup.
    destruct (Hc d Hi) as [H1 H2]. pose proof (extends_release d) as He. split.
    + by eapply blind_extends.
    + intros Hp. eapply extends_abs; [exact He|]. by apply H2.
Qed.

(** Replacing one device after one more event; [placed] is the new
    abs_placed. *)
Lemma emit_input_inv in_ dev d d1 t c v placed :
  input_inv in_ → in_dev in_ !! Z.to_nat dev = Some d →
  dev_inv (Z.to_nat dev) (ui_emit d1 t c v) → d_log d1 = d_log d →
  (placed = in_abs_placed in_ ∨ dev = 3 ∧ t = EV_ABS) →
  (dev = 3 → t = EV_KEY → v = 1 → in_abs_placed in_ = true) →
  input_inv (set_dev in_⟨in_abs_placed := placed⟩ dev (ui_emit d1 t c v))
    ⟨in_n_events ::= (λ n, u64 (n + 1))⟩.
Proof.
  intros [Hl Hd Hc] Hdev Hi Hlog Hplaced Hpress.
  pose proof (lookup_lt_Some _ _ _ Hdev) as Hlt.
  set (in2 := _⟨in_n_events ::= _⟩).
  assert (E1 : in_dev in2 = <[Z.to_nat dev := ui_emit d1 t c v]> (in_dev in_)) by done.
  assert (E2 : in_abs_placed in2 = placed) by done. clearbody in2.
  constructor; rewrite ?E1, ?E2.
  - by rewrite length_insert.
  - intros i d'.
    destruct (decide (i = Z.to_nat dev)) as [->|Hne].
    + rewrite list_lookup_insert_eq by done. by intros [= <-].
    + rewrite list_lookup_insert_ne by done. apply Hd.
  - intros d'.
    destruct (decide (Z.to_nat dev = 3%nat)) as [He|Hne].
    + rewrite He, list_lookup_insert_eq by lia. intros [= <-].
      rewrite He in Hdev. destruct (Hc d Hdev) as [H1 H2].
      change (d_log (ui_emit d1 t c v)) with (d_log d1 ++ [(t, c, v)]). rewrite Hlog. split.
      * rewrite blind_snoc, H1. cbn [andb orb].
        destruct ((t =? EV_KEY) && (v =? 1)) eqn:Hk; [|done]. cbn [andb].
        change (negb (negb (existsb is_abs (d_log d))) = true).
        rewrite H2; [done|]. apply Hpress; lia.
      * intros Hp. rewrite existsb_app. destruct Hplaced as [->|[_ ->]].
        -- by rewrite H2.
        -- cbn. by rewrite orb_true_r.
    + rewrite list_lookup_insert_ne by done. intros Hd3.
      destruct Hplaced as [->|[-> _]]; [by apply Hc|done].
Qed.
