(* ===== verification/InputProps.v ===== *)
(** * Properties of the input injection (core/input.c) *)
From S2P Require Import Prelude Binary64 Protocol Bits Core Input InputSpec Samples.

(** What the main loop feeds the file: messages of the client, D-Bus
    replies, MonitorsChanged signals. *)
Inductive input_op :=
  | OpMsg (m : Protocol.sremfb_input_msg)
  | OpReply (r : option dbus_state)
  | OpChanged.

Definition op_wf (op : input_op) : Prop :=
  match op with OpMsg m => input_msg_wf m | _ => True end.

Section props.
Context `{X264} `{Uinput}.
Implicit Types c : SremfbClient.

Definition input_do (s : layout_L * SremfbClient) (op : input_op) : layout_L * SremfbClient :=
  let '(L, c) := s in
  match op with
  | OpMsg m => sremfb_input_msg L c m
  | OpReply r => (on_layout_reply L r, c)
  | OpChanged => (on_monitors_changed L, c)
  end.
Definition input_run (s : layout_L * SremfbClient) (ops : list input_op) :=
  foldl input_do s ops.

Definition created : list SremfbIndev :=
  [indev0; make_keyboard; make_mouse; make_pointer; make_gamepad].

Definition devices_inv c : Prop :=
  ∀ in_, c_input c = Some in_ →
    input_inv in_ ∧ static <$> in_dev in_ = static <$> created.

Lemma fresh_dev_inv i d :
  d_log d = [] → d_down d = replicate 96 0 → axes_ok i d → dev_inv i d.
Proof.
  intros Hl Hd Ha. assert (Hz : ∀ k, bit_get (d_down d) k = false).
  { intros k. rewrite Hd. apply bit_get_clear. by apply Forall_replicate. }
  constructor; rewrite ?Hl, ?Hd; try done.
  - intros k _. by rewrite <- Hd, Hz.
  - intros k _. rewrite <- Hd, Hz. done.
  - intros _ k _. by rewrite <- Hd, Hz.
Qed.

Definition axes_okb (i : nat) (d : SremfbIndev) : bool :=
  forallb (λ a, implb (Z.testbit (d_abss d) a)
    (let lo := nth (Z.to_nat a) (d_abs_min d) 0 in
     let hi := nth (Z.to_nat a) (d_abs_max d) 0 in
     (lo <=? 0) && (0 <=? hi) &&
     implb (i =? 3)%nat ((a <? 2) && (lo =? 0) && (hi =? ABS_POINTER_MAX))))
    (seqZ 0 ABS_CNT).

Lemma axes_okb_ok i d : axes_okb i d = true → axes_ok i d.
Proof.
  unfold axes_okb. rewrite forallb_forall. intros Hall a Ha Hbit.
  specialize (Hall a). rewrite Hbit in Hall.
  assert (Hin : In a (seqZ 0 ABS_CNT)) by (apply list_elem_of_In, elem_of_seqZ; lia).
  specialize (Hall Hin). cbn [implb] in Hall.
  apply andb_prop in Hall as [Hr H3]. split; [lia|]. intros ->. cbn in H3. lia.
Qed.

Lemma created_inv i d :
  created !! i = Some d → dev_inv i d ∧ d_log d = [].
Proof.
  assert (Hall : Forall (λ '(i, d), d_log d = [] ∧ d_down d = replicate 96 0 ∧
                            axes_okb i d = true) (imap pair created)).
  { unfold created, make_keyboard, make_mouse, make_pointer, make_gamepad, ui_open, ui_create.
    repeat constructor; repeat case_match; simplify_eq; vm_compute; done. }
  intros Hi. rewrite Forall_lookup in Hall.
  destruct (Hall i (i, d)) as (Hl&Hd&Ha); [by rewrite list_lookup_imap, Hi|].
  split; [|done]. apply fresh_dev_inv; [done|done|by apply axes_okb_ok].
Qed.

Lemma start_inv en L c fl L1 c1 :
  c_input c = None → sremfb_input_start en L c = (fl, L1, c1) → devices_inv c1.
Proof.
  intros Hn. unfold sremfb_input_start, devices_inv.
  assert (Hno : ∀ in_, c_input c = Some in_ → input_inv in_ ∧
    static <$> in_dev in_ = static <$> created) by (rewrite Hn; done).
  destruct (negb (c_input_cap c)); [by intros [= <- <- <-]|].
  destruct (negb en); [by intros [= <- <- <-]|]. rewrite Hn. cbv zeta.
  destruct (forallb _ _); intros [= <- <- <-]; [done|].
  intros in_ [= <-]. split; [|done]. constructor.
  - done.
  - intros i d Hi. by apply created_inv.
  - intros d Hd. destruct (created_inv 3 d Hd) as [_ ->]. done.
Qed.

Lemma release_devs_static in_ :
  input_inv in_ → static <$> in_dev (input_release_all in_) = static <$> in_dev in_.
Proof.
  intros [_ Hd _]. change (in_dev (input_release_all in_)) with (release_devs (in_dev in_)).
  destruct (in_dev in_) as [|d0 devs]; [done|].
  change (static d0 :: (static <$> (indev_release <$> devs)) = static d0 :: (static <$> devs)).
  f_equal. rewrite <- list_fmap_compose. apply list_fmap_ext. intros i d Hi.
  apply (indev_release_inv (S i)). by apply Hd.
Qed.

(** One event written to a device keeps the invariant of the client. *)
Lemma emit_event_inv c in_ dev d d1 t code v placed :
  devices_inv c → c_input c = Some in_ → in_dev in_ !! Z.to_nat dev = Some d →
  static d1 = static d → d_log d1 = d_log d →
  dev_inv (Z.to_nat dev) (ui_emit d1 t code v) →
  (placed = in_abs_placed in_ ∨ dev = 3 ∧ t = EV_ABS) →
  (dev = 3 → t = EV_KEY → v = 1 → in_abs_placed in_ = true) →
  devices_inv (emit_event c in_⟨in_abs_placed := placed⟩ dev d1 t code v).
Proof.
  intros Hc Hin Hdev Hst Hlog Hd1 Hpl Hpr in2 Heq.
  assert (in2 = (set_dev in_⟨in_abs_placed := placed⟩ dev (ui_emit d1 t code v))
    ⟨in_n_events ::= (λ n, u64 (n + 1))⟩) as -> by (unfold emit_event in Heq; cbn in Heq; congruence).
  destruct (Hc in_ Hin) as [Hi Hs]. split.
  - by eapply emit_input_inv.
  - rewrite <- Hs.
    change (static <$> <[Z.to_nat dev := ui_emit d1 t code v]> (in_dev in_) =
            static <$> in_dev in_).
    rewrite list_fmap_insert. apply list_insert_id.
    rewrite list_lookup_fmap, Hdev. cbn. by rewrite <- Hst.
Qed.

Lemma placed_id (in_ : SremfbInput) : in_⟨in_abs_placed := in_abs_placed in_⟩ = in_.
Proof. by destruct in_. Qed.

Lemma key_event_inv i d dev placed code v d1 :
  dev_inv i d → 0 ≤ d_fd d → 0 ≤ code → key_event d dev placed code v = Some d1 →
  static d1 = static d ∧ d_log d1 = d_log d ∧ dev_inv i (ui_emit d1 EV_KEY code v) ∧
  (dev = 3 → v = 1 → placed = true).
Proof.
  intros Hd Hfd Hc. unfold key_event.
  destruct ((KEY_CNT <=? code) || _ || _) eqn:E1; [done|].
  destruct ((dev =? SREMFB_INDEV_POINTER) && (v =? 1) && negb placed) eqn:E2; [done|].
  destruct (v =? Z.b2z _) eqn:E3; [done|]. intros [= <-].
  split_and!; [done|done| |].
  - apply emit_key_inv; try done; [lia| |].
    + by destruct (bit_get (d_keys d) code); [|lia].
    + destruct (bit_get (d_down d) code); cbn in *; lia.
  - intros -> ->. by destruct placed.
Qed.

Lemma pointer_range L c code v w :
  layout_map L c code v = Some w → 0 ≤ w ≤ ABS_POINTER_MAX.
Proof.
  unfold layout_map. destruct (_ || _); [done|]. intros (lm&_&[= <-])%bind_Some.
  unfold map_axis. case_match; apply CLAMP_range; done.
Qed.

Lemma input_msg_inv L c m :
  input_msg_wf m → devices_inv c → devices_inv (sremfb_input_msg L c m).2.
Proof.
  intros Hwf Hc. unfold sremfb_input_msg.
  destruct (c_input c) as [in_|] eqn:Hin; [|done].
  destruct (Hc in_ Hin) as [Hi Hs]. destruct Hwf as (_&_&_&_&_&Hcode&_).
  destruct (im_dev m =? SREMFB_INDEV_ALL).
  { destruct (_ =? 0); [|done]. intros in2 [= <-]. split; [by apply release_all_inv|].
    by rewrite release_devs_static. }
  destruct (SREMFB_INDEV_GAMEPAD <? im_dev m) eqn:Hgp; [done|].
  destruct (in_dev in_ !! _) as [d|] eqn:Hdev; [|done].
  pose proof (ii_dev _ Hi _ _ Hdev) as Hd.
  destruct (d_fd d <? 0) eqn:Hfd; [done|].
  assert (Hplain : ∀ t v, t ≠ EV_KEY → event_ok d (t, im_ev_code m, v) →
    devices_inv (emit_event c in_ (im_dev m) d t (im_ev_code m) v)).
  { intros t v Ht Hev. rewrite <- (placed_id in_).
    eapply emit_event_inv; try done; [by apply emit_inv|by left]. }
  destruct (_ =? EV_SYN).
  { destruct (im_ev_code m =? SYN_REPORT) eqn:?; [|done].
    apply Hplain; [done|]. left. split; [done|lia]. }
  destruct (_ =? EV_KEY).
  { destruct (key_event _ _ _ _ _) as [d1|] eqn:Hk; [|done].
    apply (key_event_inv (Z.to_nat (im_dev m))) in Hk as (?&?&?&Hp); [|done|lia|lia].
    rewrite <- (placed_id in_). eapply emit_event_inv; try done; [by left|].
    intros ? _. by apply Hp. }
  destruct (_ =? EV_REL).
  { destruct (_ || _) eqn:E; [done|]. apply Hplain; [done|]. right; right; left.
    split_and!; [done|lia|lia|]. by destruct (Z.testbit _ _); [|lia]. }
  destruct (_ =? EV_ABS); [|done].
  destruct ((ABS_CNT <=? _) || _) eqn:E; [done|].
  assert (Hbit : Z.testbit (d_abss d) (im_ev_code m) = true)
    by (destruct (Z.testbit _ _); lia).
  assert (Hca : 0 ≤ im_ev_code m < ABS_CNT) by lia.
  destruct (di_axes _ _ Hd _ Hca Hbit) as [Hr Hptr].
  destruct (im_dev m =? SREMFB_INDEV_POINTER) eqn:Hp.
  - destruct (layout_map L c _ _) as [v|] eqn:Hmap.
    + apply pointer_range in Hmap. assert (Hd3 : im_dev m = 3) by (apply Z.eqb_eq; done).
      destruct Hptr as (_&Hlo&Hhi); [by rewrite Hd3|].
      eapply emit_event_inv; try done; [|by right].
      apply emit_inv; [done|done|]. right; right; right. split_and!; try done; lia.
    + intros in2 [= <-]. split; [|done]. by destruct Hi; constructor.
  - apply Hplain; [done|]. right; right; right. split_and!; try done; try lia;
      apply CLAMP_range; lia.
Qed.

Lemma input_run_inv s ops :
  Forall op_wf ops → devices_inv s.2 → devices_inv (input_run s ops).2.
Proof.
  revert s. induction ops as [|op ops IH]; intros s Hwf Hs; [done|].
  apply Forall_cons in Hwf as [Hop Hwf]. apply (IH (input_do s op)); [done|].
  destruct s as [L c], op as [m|r|]; [|done|done]. by apply input_msg_inv.
Qed.

(** (C32) No key is ever left held down: whatever the client sends between
    the creation of its devices and their removal, the EV_KEY events each
    device received for a key are presses and releases in strict
    alternation, starting with a press, and after sremfb_input_stop() the
    last one is a release. *)
Theorem no_stuck_keys en L c fl L1 c1 ops :
  c_input c = None → Forall op_wf ops → sremfb_input_start en L c = (fl, L1, c1) →
  let '(devs, c3) := sremfb_input_stop (input_run (L1, c1) ops).2 in
  c_input c3 = None ∧
  ∀ i d k, devs !! i = Some d → i ≠ 0%nat → 0 ≤ k < KEY_CNT →
    key_run false (key_log k (d_log d)) = Some false.
Proof.
  intros Hn Hwf Hst. apply start_inv in Hst; [|done].
  pose proof (input_run_inv (L1, c1) ops Hwf Hst) as Hinv.
  destruct (input_run _ _) as [L2 c2]. cbn [snd] in *. unfold sremfb_input_stop.
  destruct (c_input c2) as [in_|] eqn:Hin; [|by split].
  split; [done|]. intros i d' k (d&Hi&[[_ ->]|[-> _]])%release_lookup Hne Hk; [done|].
  destruct (Hinv in_ Hin) as [Hii _]. pose proof (ii_dev _ Hii _ _ Hi) as Hd.
  destruct (indev_release_inv i d Hd) as (Hr&_&Hz).
  rewrite (di_keys _ _ Hr k Hk). by rewrite Hz.
Qed.

(** (C36) A device only ever receives what it declared when it was created:
    the key, relative and absolute codes of its kind, key values 0 and 1,
    axis values in the declared range (the pointer's in 0..32767), and
    SYN_REPORT; anything else a client sends is dropped. *)
Theorem injected_events_declared en L c fl L1 c1 ops in_ i d :
  c_input c = None → Forall op_wf ops → sremfb_input_start en L c = (fl, L1, c1) →
  c_input (input_run (L1, c1) ops).2 = Some in_ → in_dev in_ !! i = Some d →
  ∃ d0, created !! i = Some d0 ∧ static d = static d0 ∧ Forall (event_ok d0) (d_log d).
Proof.
  intros Hn Hwf Hst Hin Hi. apply start_inv in Hst; [|done].
  destruct (input_run_inv (L1, c1) ops Hwf Hst in_ Hin) as [Hii Hs].
  assert (Hsi : (static <$> created) !! i = Some (static d))
    by (rewrite <- Hs, list_lookup_fmap, Hi; done).
  rewrite list_lookup_fmap in Hsi. destruct (created !! i) as [d0|]; [|done].
  apply (inj Some) in Hsi. exists d0. split_and!; [done|by symmetry|].
  eapply Forall_impl; [apply (di_log _ _ (ii_dev _ Hii _ _ Hi))|].
  intros ev. by apply event_ok_static.
Qed.

(** (C37) The absolute pointer never clicks blindly: a button press only
    reaches it after it was placed on the client's screen. *)
Theorem pointer_never_clicks_blind en L c fl L1 c1 ops in_ d :
  c_input c = None → Forall op_wf ops → sremfb_input_start en L c = (fl, L1, c1) →
  c_input (input_run (L1, c1) ops).2 = Some in_ → in_dev in_ !! 3%nat = Some d →
  no_blind_click false (d_log d) = true.
Proof.
  intros Hn Hwf Hst Hin Hi. apply start_inv in Hst; [|done].
  destruct (input_run_inv (L1, c1) ops Hwf Hst in_ Hin) as [Hii _]. by apply (ii_click _ Hii).
Qed.
End props.

(** ** A session with the devices of a desktop *)
#[export] Instance sample_uinput : Uinput := {|
  uinput_open what := if bool_decide (what = "gamepad"%string) then -1 else 7;
  uinput_create what := true |}.

Definition sample_L : layout_L := mk_L true false false [] 0 0 0.

(** Space pressed twice, a click before the layout is known, the layout, a
    motion, a click and a button no device has. *)
Definition sample_ops : list input_op :=
  let msg dev t code v := OpMsg (mk_input_msg SREMFB_MAGIC SREMFB_CMSG_INPUT dev 0 t code v) in
  [msg 1 EV_KEY 57 1; msg 1 EV_KEY 57 1; msg 1 EV_SYN 0 0;
   msg 3 EV_KEY BTN_LEFT 1;
   OpReply (Some (mk_dbus [("DVI-I-1"%string, [mk_mode 800 600 true])]
     [mk_logical 0 0 (D_of_Z 1) 0 ["DVI-I-1"%string]] None));
   msg 3 EV_ABS ABS_X 1; msg 3 EV_KEY BTN_LEFT 1; msg 2 EV_KEY 400 1; OpChanged].

Lemma sample_ops_wf : Forall op_wf sample_ops.
Proof. repeat constructor; vm_compute; intuition congruence. Qed.

Definition sample_input_client : @SremfbClient sample_x264 :=
  (@sample_client sample_x264 SREMFB_PIX_XRGB8888 [])⟨c_input_cap := true⟩
    ⟨c_connector := "DVI-I-1"%string⟩.

Abbreviation sample_started := (@sremfb_input_start sample_x264 _ true sample_L sample_input_client).

Lemma no_stuck_keys_witness :
  let '(devs, c3) := @sremfb_input_stop sample_x264
      (@input_run sample_x264 (sample_started.1.2, sample_started.2) sample_ops).2 in
  c_input c3 = None ∧
  ∀ i d k, devs !! i = Some d → i ≠ 0%nat → 0 ≤ k < KEY_CNT →
    key_run false (key_log k (d_log d)) = Some false.
Proof.
  apply (@no_stuck_keys sample_x264 _ true sample_L sample_input_client SREMFB_SRV_FLAG_INPUT
    sample_started.1.2 sample_started.2 sample_ops).
  - reflexivity.
  - exact sample_ops_wf.
  - vm_compute. reflexivity.
Defined.

Definition sample_pointer : SremfbIndev :=
  Eval vm_compute in
    match c_input (@input_run sample_x264 (sample_started.1.2, sample_started.2) sample_ops).2 with
    | Some in_ => nth 3 (in_dev in_) indev0
    | None => indev0
    end.
Definition sample_devices : SremfbInput :=
  Eval vm_compute in
    default (mk_input [] false false 0)
      (c_input (@input_run sample_x264 (sample_started.1.2, sample_started.2) sample_ops).2).

Lemma injected_events_declared_witness :
  ∃ d0, @created _ !! 3%nat = Some d0 ∧ static sample_pointer = static d0 ∧
    Forall (event_ok d0) (d_log sample_pointer).
Proof.
  apply (@injected_events_declared sample_x264 _ true sample_L sample_input_client
    SREMFB_SRV_FLAG_INPUT sample_started.1.2 sample_started.2 sample_ops sample_devices 3%nat).
  - reflexivity.
  - exact sample_ops_wf.
  - vm_compute. reflexivity.
  - vm_compute. reflexivity.
  - vm_compute. reflexivity.
Defined.

(** The first click is dropped, the second one follows the motion. *)
Lemma pointer_never_clicks_blind_witness :
  no_blind_click false (d_log sample_pointer) = true ∧
  d_log sample_pointer = [(EV_ABS, ABS_X, 24576); (EV_KEY, BTN_LEFT, 1)].
Proof.
  split; [|reflexivity].
  apply (@pointer_never_clicks_blind sample_x264 _ true sample_L sample_input_client
    SREMFB_SRV_FLAG_INPUT sample_started.1.2 sample_started.2 sample_ops sample_devices).
  - reflexivity.
  - exact sample_ops_wf.
  - vm_compute. reflexivity.
  - vm_compute. reflexivity.
  - vm_compute. reflexivity.
Defined.
