(* ===== verification/EndToEnd.v ===== *)
(** * Properties of the display path, from capture to viewer *)
From S2P Require Import Prelude Binary64 Protocol Core Convert Encoder Net Xmit Control Drain.
From S2P Require Import XmitSpec Dirty Coverage ViewH264 ViewNet Blit Paint.
From S2P Require Import Stream OutReady Link ViewRead Mirror Samples.
From stdpp Require Import relations.
#[local] Open Scope Z_scope.

Section properties.
Context `{X : X264} `{L : LZ4} `{P : Platform} `{V : ViewSys} `{A : AvCodec}.
Implicit Types c : SremfbClient.

(** What an idle RAW session has written: the hello and whole messages,
    whose painting over a black framebuffer is the captured frame; when the
    connection is up, every episode among them is closed. *)
Lemma session_sent `{!X264Laws X} c grab0 flags c' :
  fresh_client c grab0 → session_start c flags →
  rtc tx_any (sremfb_xmit_hello c flags, false) (c', false) →
  xmit_idle c' = true → c_xmit_mode c' = XMIT_RAW →
  ∃ ss grab, c_grabbuf c' = Some grab ∧
    c_wire c' = server_hello_bytes (hello_of c flags) ++ mjoin (sent_bytes <$> ss) ∧
    Forall (sent_ok (c_geom c) (bytespp_of (pixfmt_of c)) (c_lz4 c)) ss ∧
    (alive c' → brackets false ss false) ∧
    (∀ fb', paint_all (g_width (c_geom c)) (bytespp_of (pixfmt_of c)) ss
              (replicate (Z.to_nat (fb_size c)) 0) fb' →
       fb' = conv_frame (g_width (c_geom c)) (g_height (c_geom c)) (pixfmt_of c) grab).
Proof.
  intros Hf Hst Hrun Hidle Hraw.
  destruct (start_link (U := (false = true : Stale)) c grab0 flags Hf Hst) as (Hl0&Hss0&Hsh0&Hs0).
  destruct (any_run _ _ Hrun Hl0) as (Hl'&ss&(Hi'&Hss'&Hbytes)&Hok&Hmir&Hord). cbn [fst] in *.
  pose proof Hl' as (_&_&Hd'&_). pose proof Hf as (Hsok&_). cbn [fst snd] in Hd'.
  destruct (idle_synced (U := (false = true : Stale)) c' ltac:(done) Hd' Hi' Hidle)
    as (Hsync&Hw&Hna).
  destruct Hd' as (_&_&_&grab&_&Hgr&_).
  destruct Hss0 as (G0&H0&L0), Hss' as (G1&H1&L1).
  rewrite Hw, Hs0 in Hbytes.
  assert (Hb0 : bpp_of (sremfb_xmit_hello c flags) = bytespp_of (pixfmt_of c))
    by (unfold bpp_of, pixfmt_of; by rewrite H0).
  rewrite G0, L0, Hb0 in Hok.
  assert (Hmode0 : in_h264 (sremfb_xmit_hello c flags) = false).
  { rewrite xmit_hello_eq by apply Hsok. unfold in_h264.
    destruct (ctrl_fields c (server_hello_bytes (hello_of c flags))) as (_&_&_&->&_).
    destruct Hf as (_&Hm&_). by rewrite Hm. }
  exists ss, grab. split_and!; [done|done|done| |].
  { intros Ha. destruct (Hord Ha) as [_ Hb]. rewrite Hmode0 in Hb.
    unfold in_h264 in Hb. by rewrite Hraw in Hb. }
  assert (Hmc : mirror (sremfb_xmit_hello c flags)
    (replicate (Z.to_nat (fb_size c)) 0)).
  { pose proof (fresh_mirror c grab0 Hf) as Hm0. rewrite xmit_hello_eq by apply Hsok.
    destruct (ctrl_fields c (server_hello_bytes (hello_of c flags))) as (E1&E2&E3&E4&E5).
    revert Hm0. apply mirror_fields; [done..|]. by rewrite E4, E5. }
  intros fb' Hp. destruct (Hmir _ fb' Hmc) as (sh&Hsh'&_&Hconv).
  { unfold paints. rewrite G0, Hb0. exact Hp. }
  rewrite Hsync, Hgr in Hsh'. simplify_eq Hsh'. intros <-.
  rewrite (Hconv Hraw Hna). unfold pixfmt_of. by rewrite G1, G0, H1, H0.
Qed.

(** The viewer's reading of everything a session wrote. *)
Lemma screen_run `{!X264Laws X} `{!LZ4Laws L} c grab0 flags c' n :
  view_live → fresh_client c grab0 → session_start c flags →
  rtc tx_any (sremfb_xmit_hello c flags, false) (c', false) →
  xmit_idle c' = true → c_xmit_mode c' = XMIT_RAW →
  viewer_for c n → rx_data (n_rx n) = c_wire c' →
  ∃ ss grab n1, c_grabbuf c' = Some grab ∧
    c_wire c' = server_hello_bytes (hello_of c flags) ++ mjoin (sent_bytes <$> ss) ∧
    Forall (sent_ok (c_geom c) (bytespp_of (pixfmt_of c)) (c_lz4 c)) ss ∧
    hello_exchange n = (Some (g_width (c_geom c), g_height (c_geom c)), n1) ∧
    let '(go, s') := stream_run (length ss)
                       (stream_start n1 (g_width (c_geom c)) (g_height (c_geom c))) in
    (go = true →
       fb_pixels (n_fb (s_n s')) =
         Some (conv_frame (g_width (c_geom c)) (g_height (c_geom c)) (pixfmt_of c) grab) ∧
       rx_data (n_rx (s_n s')) = []) ∧
    (Forall (λ m, ¬ is_h264 m) ss → go = true).
Proof.
  intros Hlive Hf Hst Hrun Hidle Hraw (Hvp&Hvl&Hvm&Hvo) Hrx.
  destruct (session_sent c grab0 flags c' Hf Hst Hrun Hidle Hraw)
    as (ss&grab&Hgr&Hbytes&Hok&_&Hpaint).
  pose proof Hf as (Hsok&_). destruct Hst as (_&_&Hflags&Htok).
  destruct (hello_accepted c flags n (mjoin (sent_bytes <$> ss))) as (n1&Hhello&Hrx1&Ho1);
    try done; [by rewrite Hrx|].
  exists ss, grab, n1. split_and!; [done|done|done|done|].
  pose proof Hsok as (Hg&Hsm&Hpf).
  pose proof (view_start (c_geom c) (pixfmt_of c) (c_lz4 c) n1) as Hv.
  rewrite Ho1, Hrx1, <- (app_nil_r (mjoin _)) in Hv.
  specialize (Hv (conj Hg Hsm) Hpf Hvp Hvl).
  pose proof (view_messages _ _ _ ss _ _ _ Hlive (conj Hg Hsm) Hpf Hok Hv) as Hm.
  destruct (stream_run _ _) as [go s']. destruct Hm as [Hgo Hno].
  split; [|done]. intros Htrue. destruct (Hgo Htrue) as (fb'&Hp&Hv').
  destruct Hv' as (_&_&_&_&_&_&Hfb'&Hrx'). split; [|exact Hrx'].
  rewrite Hfb'. f_equal. by apply Hpaint.
Qed.

(** (C1) End to end: whatever happens on the link from the hello on
    (damage, partial sends, PONGs, heartbeats, H.264 episodes, blanking,
    frames replaced and repainted), once the server has no repaint due and
    is idle in RAW mode, a viewer that reads the bytes the
    server wrote accepts the hello, takes the messages one by one and ends
    with a framebuffer that is exactly the wire-format conversion of the
    frame the server captured, with nothing left to read. Only a failing
    H.264 decoder makes it stop before. *)
Theorem screen_converges `{!X264Laws X} `{!LZ4Laws L} c grab0 flags c' n :
  view_live → fresh_client c grab0 → session_start c flags →
  rtc tx_any (sremfb_xmit_hello c flags, false) (c', false) →
  xmit_idle c' = true → c_xmit_mode c' = XMIT_RAW →
  viewer_for c n → rx_data (n_rx n) = c_wire c' →
  ∃ ss grab n1, c_grabbuf c' = Some grab ∧
    c_wire c' = server_hello_bytes (hello_of c flags) ++ mjoin (sent_bytes <$> ss) ∧
    hello_exchange n = (Some (g_width (c_geom c), g_height (c_geom c)), n1) ∧
    let '(go, s') := stream_run (length ss)
                       (stream_start n1 (g_width (c_geom c)) (g_height (c_geom c))) in
    (go = true →
       fb_pixels (n_fb (s_n s')) =
         Some (conv_frame (g_width (c_geom c)) (g_height (c_geom c)) (pixfmt_of c) grab) ∧
       rx_data (n_rx (s_n s')) = []) ∧
    (Forall (λ m, ¬ is_h264 m) ss → go = true).
Proof.
  intros Hlive Hf Hst Hrun Hidle Hraw Hv Hrx.
  destruct (screen_run c grab0 flags c' n Hlive Hf Hst Hrun Hidle Hraw Hv Hrx)
    as (ss&grab&n1&Hgr&Hw&_&Hx&Hrest).
  by exists ss, grab, n1.
Qed.
End properties.

Definition sample_rx : list rx_ev :=
  [RReady; RData (slice 0 11 (c_wire sample_c3)); RIntr;
   RData (slice 11 41 (c_wire sample_c3))].

Lemma screen_converges_witness :
  ∃ ss grab n1, c_grabbuf sample_c3 = Some grab ∧
    c_wire sample_c3 =
      server_hello_bytes (@hello_of sample_x264 (@sample_client sample_x264 SREMFB_PIX_XRGB8888 sample_frame) 1) ++
      mjoin (@sent_bytes sample_lz4 <$> ss) ∧
    @hello_exchange sample_view_sys (sample_view SREMFB_PIX_XRGB8888 sample_rx)
      = (Some (2, 2), n1) ∧
    let '(go, s') := @stream_run sample_view_sys sample_lz4 sample_av (length ss)
                       (@stream_start sample_view_sys sample_av n1 2 2) in
    (go = true →
       fb_pixels (n_fb (s_n s')) =
         Some (@conv_frame sample_platform 2 2 SREMFB_PIX_XRGB8888 grab) ∧
       rx_data (n_rx (s_n s')) = []) ∧
    (Forall (λ m, ¬ is_h264 m) ss → go = true).
Proof.
  refine (@screen_converges sample_x264 sample_lz4 sample_platform sample_view_sys
    sample_av _ _ (@sample_client sample_x264 SREMFB_PIX_XRGB8888 sample_frame) sample_frame 1 sample_c3
    (sample_view SREMFB_PIX_XRGB8888 sample_rx) sample_live _ _ _ _ _ _ _).
  - exact sample_fresh.
  - unfold session_start. cbn. lia.
  - exact (steps_any _ _ false sample_run).
  - vm_compute. reflexivity.
  - vm_compute. reflexivity.
  - split_and!; try reflexivity. 
  - vm_compute. reflexivity.
Defined.
