(* ===== verification/TxProps.v ===== *)
(** * Properties of the transmit path (xmit.c) and of the viewer's loop *)
From S2P Require Import Prelude Binary64 Protocol Core Convert Encoder Net Xmit Control Drain.
From S2P Require Import XmitSpec Dirty Coverage ViewH264 ViewNet Blit Paint.
From S2P Require Import Stream OutReady Link ViewRead Mirror Samples.
From stdpp Require Import relations.
#[local] Open Scope Z_scope.

(** In this file no frame is replaced without damage. *)
#[local] Existing Instance fresh_frame.

Section tx.
Context `{X : X264} `{L : LZ4} `{P : Platform}.
Implicit Types c : SremfbClient.

(** (C2) Framing: along any run the byte stream of the client (what the
    kernel took, the rest of the frame in flight, the queue) only grows by
    whole, well-formed messages of the session, in the order they were
    started; partial writes never tear a message or interleave two. *)
Theorem stream_is_messages `{!X264Laws X} c c' :
  link_inv c → rtc tx_step c c' →
  ∃ ss, stream c' = stream c ++ mjoin (sent_bytes <$> ss) ∧
        Forall (sent_ok (c_geom c) (bpp_of c) (c_lz4 c)) ss ∧
        c_wire c' `prefix_of` stream c'.
Proof.
  intros Hl Hrun. destruct (sends_run c c' Hrun Hl) as (_&ss&(_&_&Hst)&Hok&_).
  exists ss. split_and!; [done|done|]. unfold stream. by apply prefix_app_r.
Qed.

(** (C7) Damage intake loses nothing: if every byte the new frame changed
    lies in a reported rect, then after sremfb_xmit_damage() every byte in
    which the frame differs from what the client was last sent is covered
    by the dirty region, which stays within its 16 clamped rects. *)
Theorem damage_covers c grab rects bytespp :
  dirty_inv c → grab_change c grab rects →
  dirty_inv (sremfb_xmit_damage c⟨c_grabbuf := Some grab⟩ rects bytespp).
Proof.
  intros (Hg&Hl&Hr&old&sh&Hgr&Hsh&Hl1&Hl2&Hcov) [Hlen Hch].
  apply damage_dirty_inv. split_and!; [done..|]. exists grab, sh. split_and!; [done..|].
  intros i [Hst Hne]. destruct (decide (old !! i = grab !! i)) as [Heq|Hne'].
  - left. apply Hcov. split; [done|by rewrite Heq].
  - right. apply (Hch old Hgr). congruence.
Qed.

(** (C8) In every reachable state the dirty region is exact enough to
    trust: a client with nothing left to do was last sent precisely the
    frame that is in the grab buffer. *)
Theorem idle_is_synced `{!X264Laws X} c c' :
  link_inv c → rtc tx_step c c' → xmit_idle c' = true →
  c_shadowbuf c' = c_grabbuf c' ∧ c_wire c' = stream c'.
Proof.
  intros Hl Hrun Hidle. destruct (sends_run c c' Hrun Hl) as [(_&Hi&Hd&_) _].
  destruct (idle_synced c' (λ h, h) Hd Hi Hidle) as (?&?&_). done.
Qed.

Lemma kick_active c : c_out_active (sremfb_xmit_kick c) = c_out_active c.
Proof. by destruct (kick_quiet_or c) as (?&?&[->| ->]). Qed.

Lemma ctrl_active c m : c_out_active (sremfb_xmit_ctrl c m) = c_out_active c.
Proof. unfold sremfb_xmit_ctrl. case_match; [done|]. by rewrite kick_active. Qed.

Lemma xstep_active c c' : xstep c c' → c_out_active c' = c_out_active c.
Proof.
  induction 1 as [c c' Hv|c c1 c' _ IH1 _ IH2|c m Hm|c m|c|c].
  - unfold vis in Hv; injection Hv as; done.
  - congruence.
  - apply ctrl_active.
  - unfold sremfb_xmit_set_mode. case_match; [done|]. destruct m.
    + rewrite kick_active. exact (ctrl_active c⟨c_xmit_mode := XMIT_RAW⟩
        (frame_hdr_bytes (frame_hdr_for SREMFB_ENC_H264_EOS))).
    + repeat case_match; simplify_eq; done.
  - apply kick_active.
  - unfold sremfb_schedule_client_lost, g_source_new. by case_match.
Qed.

Lemma build_raw_active c r :
  is_Some (c_grabbuf c) → c_out_active (build_raw_rect c r) = true.
Proof.
  intros [grab Hgr]. unfold build_raw_rect. rewrite Hgr. cbv zeta. case_match.
  unfold frame_start. cbv zeta.
  match goal with |- context [if c_feedback ?c1 then _ else _] => set (cf := c1) end.
  destruct (c_feedback cf); [|done].
  by rewrite (xstep_active cf _ (on_deliver_xstep cf _)).
Qed.

Lemma lost_scheduled c :
  0 < c_next_source c → c_lost_id (sremfb_schedule_client_lost c) ≠ 0.
Proof.
  intros. unfold sremfb_schedule_client_lost, g_source_new.
  destruct (c_lost_id c =? 0) eqn:?; cbn; lia.
Qed.

(** (C16) No lost wake-up in RAW mode: when a dispatch of the G_IO_OUT watch
    disarms it, either the client is being dropped or it has nothing left
    to send. *)
Theorem disarm_only_idle c err answers c' :
  link_inv c → 0 < c_next_source c → c_state c = STREAMING → c_sendbuf c = true →
  c_xmit_mode c = XMIT_RAW → on_out_ready c err answers = (false, c') →
  c_lost_id c' ≠ 0 ∨ xmit_idle c' = true.
Proof.
  intros (_&Hi&Hd&_) Hsrc Hst Hsb Hm. unfold on_out_ready, send_fail, xmit_fail.
  destruct err; [intros; simplify_eq; left; by apply lost_scheduled|].
  destruct (if c_out_active c then _ else _) as [[r c1] answers1] eqn:Hf.
  assert (H1 : stream_inv c1 ∧ (r = DrainDone → c_out_active c1 = false) ∧
    ∃ w o a, c1 = c⟨c_wire := w⟩⟨c_out_off := o⟩⟨c_out_active := a⟩).
  { destruct (c_out_active c) eqn:Ha.
    - apply drain_frame_spec in Hf as (?&_&?&?); done.
    - simplify_eq. split_and!; [done|done|]. eexists _, _, _. apply frame_upd_id. }
  destruct H1 as (Hi1&Ha1&w&o&a&Hc1).
  destruct r; [|done|intros; simplify_eq; left; by apply lost_scheduled].
  specialize (Ha1 eq_refl).
  destruct (drain_ctrl (c_outq c1) c1 answers1) as [[r c2] answers2] eqn:Hc.
  apply drain_ctrl_spec in Hc as ((w'&l&o'&Hc2)&_&_&Hdr); [|done|done|done].
  destruct r; [|done|intros; simplify_eq; left; by apply lost_scheduled].
  destruct (Hdr eq_refl) as (Hact&Hq&_).
  assert (E : c_state c2 = STREAMING ∧ c_sendbuf c2 = true ∧ c_xmit_mode c2 = XMIT_RAW ∧
    c_grabbuf c2 = c_grabbuf c) by (subst c2 c1; done).
  destruct E as (E1&E2&E3&E4). destruct Hd as (_&_&_&grab&_&Hgr&_).
  rewrite Hgr in E4. unfold build_next. rewrite E1, E2, E3, E4. cbn [negb bool_decide orb].
  rewrite bool_decide_eq_true_2 by done. cbn [negb orb].
  destruct (c_dirty_all c2) eqn:Hall.
  { rewrite build_raw_active by (cbn; rewrite E4; by eexists). discriminate. }
  destruct (c_dirty c2) as [|r l'] eqn:Hdl.
  - intros Heq. injection Heq as <-. right. unfold xmit_idle, dirty_n. cbn.
    by rewrite Hact, Hq, Hdl, Hall.
  - rewrite build_raw_active by (destruct l'; cbn; rewrite E4; by eexists). discriminate.
Qed.
(** ** A failed encode *)
Definition h264_eos : bytes := frame_hdr_bytes (frame_hdr_for SREMFB_ENC_H264_EOS).

(** The size sremfb_enc_encode() returns for the grab buffer. *)
Definition encode_size c grab enc : Z :=
  (sremfb_enc_encode enc (sremfb_convert_bgrx_to_i420 grab (u32 (g_width (c_geom c)))
    (u32 (g_height (c_geom c)))) (c_force_idr c)).2.1.1.

(** A client being sent frames, with its G_IO_OUT watch armed *)
Definition watched c : Prop :=
  c_state c = STREAMING ∧ c_sendbuf c = true ∧ 0 ≤ c_fd c ∧ c_lost_id c = 0 ∧ c_out_watch_id c ≠ 0.

Lemma skip_encode_upd c b c' : sremfb_ctl_skip_encode c = (b, c') → ∃ n, c' = c⟨c_tick := n⟩.
Proof.
  unfold sremfb_ctl_skip_encode, g_get_monotonic_time. destruct (Dleb _ _); intros E; injection E as _ <-.
  - exists (c_tick c). by destruct c.
  - by exists (S (c_tick c)).
Qed.

(** The fallback to RAW of a client whose watch is armed: EOS and a snapshot
    are queued, and the kick leaves the watch alone. *)
Lemma set_raw_watched k c :
  watched c → c_xmit_mode c = XMIT_H264 →
  sremfb_xmit_set_mode k c XMIT_RAW =
    c⟨c_xmit_mode := XMIT_RAW⟩⟨c_outq ::= λ q, q ++ [h264_eos]⟩
     ⟨c_wire_total ::= λ t, u64 (t + Z.of_nat (length h264_eos))⟩
     ⟨c_dirty := []⟩⟨c_dirty_all := true⟩.
Proof.
  intros (Hst&_&Hfd&Hl&Hw) Hm. unfold sremfb_xmit_set_mode. rewrite Hst, Hm. cbn [bool_decide negb orb].
  rewrite bool_decide_eq_false_2, bool_decide_eq_true_2 by done. cbn [negb orb].
  set (c1 := c⟨c_xmit_mode := XMIT_RAW⟩).
  assert (E : c_fd c1 = c_fd c ∧ c_lost_id c1 = c_lost_id c ∧ c_out_watch_id c1 = c_out_watch_id c) by done.
  destruct E as (E1&E2&E3). unfold sremfb_xmit_ctrl. rewrite E1, E2, Hl.
  replace (c_fd c <? 0) with false by lia. cbn [orb negb Z.eqb]. fold h264_eos.
  assert (Hk : ∀ c', c_out_watch_id c' = c_out_watch_id c → sremfb_xmit_kick c' = c').
  { intros c' E. unfold sremfb_xmit_kick. rewrite E.
    replace (c_out_watch_id c =? 0) with false by lia. by rewrite orb_true_r. }
  rewrite (Hk c1⟨c_outq ::= _⟩⟨c_wire_total ::= _⟩) by exact E3. by apply Hk.
Qed.

(** What a failed encode leaves: no frame in flight, the watch armed. *)
Lemma build_next_encode_fails c c' grab enc :
  watched c → drained c → c_xmit_mode c = XMIT_H264 → c_grabbuf c = Some grab →
  c_enc c = Some enc → c_dirty_all c || negb (dirty_n c =? 0) = true →
  sremfb_ctl_skip_encode c = (false, c') → encode_size c grab enc < 0 →
  let r := build_next c in
  r.1 = false ∧ c_xmit_mode r.2 = XMIT_RAW ∧ c_outq r.2 = [h264_eos] ∧ c_dirty_all r.2 = true ∧
  c_out_active r.2 = false ∧ c_out_retry_id r.2 = c_out_retry_id c ∧ c_lost_id r.2 = 0.
Proof.
  intros Hw (Ha&Hq&_) Hm Hg He Hd Hsk Hsz. cbv zeta. pose proof Hw as (Hst&Hsb&_&Hl&_).
  unfold build_next. rewrite Hg, Hst, Hsb, Hm. rewrite bool_decide_eq_true_2 by done. cbn [negb orb].
  replace (_ && _) with false by (destruct (c_dirty_all c), (dirty_n c =? 0); done).
  rewrite Hsk. apply skip_encode_upd in Hsk as [n ->].
  set (c1 := c⟨c_tick := n⟩⟨c_dirty_all := false⟩⟨c_dirty := []⟩⟨c_dirty_raw := 0⟩).
  assert (Hb : ∃ e sh, build_h264_frame c1 =
    sremfb_xmit_set_mode sremfb_ctl_initial_kbps
      c1⟨c_shadowbuf := sh⟩⟨c_enc := e⟩⟨c_force_idr := false⟩⟨c_h264_failed := true⟩ XMIT_RAW).
  { unfold build_h264_frame. change (c_grabbuf c1) with (c_grabbuf c). change (c_enc c1) with (c_enc c).
    rewrite Hg, He. cbv zeta. change (c_geom c1) with (c_geom c).
    assert (Hs : ∃ sh, shadow_update c1 0 0 (u32 (g_width (c_geom c))) (u32 (g_height (c_geom c))) =
      c1⟨c_shadowbuf := sh⟩).
    { unfold shadow_update. repeat case_match; [by eexists|exists (c_shadowbuf c1); by destruct c..]. }
    destruct Hs as [sh ->]. change (c_force_idr c1⟨c_shadowbuf := sh⟩) with (c_force_idr c).
    unfold encode_size in Hsz. destruct (sremfb_enc_encode _ _ _) as [enc' [[sz nal] idr]].
    cbn [fst snd] in Hsz. replace (sz <? 0) with true by lia. by exists (Some enc'), sh. }
  destruct Hb as (e&sh&->). rewrite set_raw_watched by done. cbn. rewrite Ha, Hq, Hl. by split_and!.
Qed.

(** (C17) What happens when an encode fails, for any client in H.264 mode
    with damage to send: once the G_IO_OUT dispatch has sent what was in
    flight and queued, and the frame is not skipped, a negative size from
    the encoder makes build_h264_frame() fall back to RAW, which queues
    H264_EOS and a full snapshot; but the kick finds the watch still armed
    and does nothing, and the dispatch then disarms it. The client is left
    with work to do and the dispatch armed no source to do it: only a retry
    timer that was already running, if there was one, remains. *)
Theorem encoder_failure_stalls c answers c1 answers1 c2 answers2 c3 grab enc :
  stream_inv c → watched c → c_xmit_mode c = XMIT_H264 →
  c_grabbuf c = Some grab → c_enc c = Some enc → c_dirty_all c || negb (dirty_n c =? 0) = true →
  (if c_out_active c then drain_frame (S (length answers)) c answers
   else (DrainDone, c, answers)) = (DrainDone, c1, answers1) →
  drain_ctrl (c_outq c1) c1 answers1 = (DrainDone, c2, answers2) →
  sremfb_ctl_skip_encode c2 = (false, c3) → encode_size c grab enc < 0 →
  let '(go, c') := on_out_ready c false answers in
  go = false ∧ xmit_idle c' = false ∧ c_xmit_mode c' = XMIT_RAW ∧ c_dirty_all c' = true ∧
  c_outq c' = [h264_eos] ∧ c_out_watch_id c' = 0 ∧ c_out_retry_id c' = c_out_retry_id c ∧
  c_lost_id c' = 0.
Proof.
  intros Hi Hw Hm Hg He Hd Hf Hc Hsk Hsz. unfold on_out_ready. rewrite Hf, Hc.
  assert (H1 : stream_inv c1 ∧ c_out_active c1 = false ∧
    ∃ w o a, c1 = c⟨c_wire := w⟩⟨c_out_off := o⟩⟨c_out_active := a⟩).
  { destruct (c_out_active c) eqn:Ha.
    - apply drain_frame_spec in Hf as (?&_&?&Hx); [|done|done]. by rewrite Hx.
    - simplify_eq. split_and!; [done|done|]. eexists _, _, _. apply frame_upd_id. }
  destruct H1 as (Hi1&Ha1&w&o&a&Hc1).
  apply drain_ctrl_spec in Hc as ((w'&l&o'&Hc2)&_&_&Hdr); [|done|done|done].
  specialize (Hdr eq_refl). clear Hf.
  assert (Hsame : watched c2 ∧ c_xmit_mode c2 = XMIT_H264 ∧ c_grabbuf c2 = Some grab ∧
    c_enc c2 = Some enc ∧ c_dirty_all c2 || negb (dirty_n c2 =? 0) = true ∧
    encode_size c2 grab enc = encode_size c grab enc ∧ c_out_retry_id c2 = c_out_retry_id c)
    by (by rewrite Hc2, Hc1).
  destruct Hsame as (Hw2&Hm2&Hg2&He2&Hd2&Es&Er). rewrite <- Es in Hsz.
  destruct (build_next_encode_fails c2 c3 grab enc Hw2 Hdr Hm2 Hg2 He2 Hd2 Hsk Hsz)
    as (R1&R2&R3&R4&R5&R6&R7).
  destruct (build_next c2) as [go c']. cbn [fst snd] in *. subst go.
  assert (Hx : xmit_idle c'⟨c_out_watch_id := 0⟩ = false).
  { unfold xmit_idle. cbn. by rewrite R3, andb_false_r. }
  split_and!; try done. by rewrite <- Er.
Qed.
End tx.

(** A client in H.264 mode with an open encoder, a frame due and its watch
    armed. *)
Definition h264_client `{X264} (enc : SremfbEncoder) : SremfbClient :=
  (sample_client SREMFB_PIX_XRGB8888 sample_frame)
    ⟨c_xmit_mode := XMIT_H264⟩⟨c_enc := Some enc⟩⟨c_yuvbuf := true⟩
    ⟨c_ctl_state := CTL_H264_ACTIVE⟩⟨c_out_watch_id := 3⟩⟨c_next_source := 4⟩.

Lemma encoder_failure_stalls_witness :
  let c' := (@on_out_ready broken_x264 sample_lz4 sample_platform
    (@h264_client broken_x264 (@mk_encoder broken_x264 0%nat sample_param 2 2 8000 0)) false []).2 in
  @xmit_idle broken_x264 c' = false ∧ c_out_watch_id c' = 0 ∧ c_out_retry_id c' = 0.
Proof.
  set (enc := @mk_encoder broken_x264 0%nat sample_param 2 2 8000 0).
  pose proof (@encoder_failure_stalls broken_x264 sample_lz4 sample_platform
    (@h264_client broken_x264 enc) [] (@h264_client broken_x264 enc) [] (@h264_client broken_x264 enc) []
    (@h264_client broken_x264 enc) sample_frame enc) as H.
  destruct (on_out_ready _ _ _) as [go c'].
  destruct H as (_&H1&_&_&_&H2&H3&_);
    [| |vm_compute; reflexivity..|split_and!; [exact H1|exact H2|exact H3]].
  - split_and!; [vm_compute; discriminate|done|done].
  - split_and!; [done|done|vm_compute; discriminate|done|done].
Defined.

Lemma stream_is_messages_witness :
  ∃ ss, @stream sample_x264 sample_c3 = stream sample_c0 ++ mjoin (@sent_bytes sample_lz4 <$> ss) ∧
    Forall (@sent_ok sample_lz4 (mk_geom 2 2) 4 true) ss ∧
    c_wire sample_c3 `prefix_of` stream sample_c3.
Proof.
  exact (@stream_is_messages sample_x264 sample_lz4 sample_platform _ sample_c0 sample_c3
    sample_link sample_run).
Defined.

(** The frame's last pixel changes and the source reports a rect that
    sticks out of the screen. *)
Definition sample_frame2 : bytes := [10; 20; 30; 0; 40; 50; 60; 0; 70; 80; 90; 0; 5; 6; 7; 0].

Lemma sample_change : @grab_change sample_x264 sample_c0 sample_frame2 [mk_rect 1 1 9 9].
Proof.
  split; [reflexivity|]. intros old Hold i Hne.
  assert (Ho : Some sample_frame = Some old) by exact Hold. simplify_eq Ho. intros <-.
  exists (mk_rect 1 1 9 9). split; [apply list_elem_of_here|].
  destruct (decide (i < 16)%nat) as [Hi|Hi].
  - do 16 (destruct i as [|i]; [by (destruct (Hne eq_refl) || by vm_compute)|]). lia.
  - destruct Hne. rewrite !lookup_ge_None_2; [done| |]; simpl; lia.
Qed.

Lemma damage_covers_witness :
  @dirty_inv sample_x264 fresh_frame (@sremfb_xmit_damage sample_x264 sample_platform
    sample_c0⟨c_grabbuf := Some sample_frame2⟩ [mk_rect 1 1 9 9] 4).
Proof.
  apply (@damage_covers sample_x264 sample_platform).
  - apply sample_link.
  - exact sample_change.
Defined.

Lemma idle_is_synced_witness :
  c_shadowbuf sample_c3 = c_grabbuf sample_c3 ∧ c_wire sample_c3 = stream sample_c3.
Proof.
  apply (@idle_is_synced sample_x264 sample_lz4 sample_platform _ sample_c0 sample_c3
    sample_link sample_run).
  vm_compute. reflexivity.
Defined.

Lemma disarm_only_idle_witness :
  c_lost_id sample_c3 ≠ 0 ∨ @xmit_idle sample_x264 sample_c3 = true.
Proof.
  apply (@disarm_only_idle sample_x264 sample_lz4 sample_platform sample_c2 false
    [SSent 20; SEintr; SSent 9; SSent 100]).
  - eapply (@sends_run sample_x264 sample_lz4 sample_platform fresh_frame _ sample_c0 sample_c2);
      [|exact sample_link].
    apply rtc_l with sample_c1.
    { unfold sample_c1, sample_dispatch. apply (tx_out_ready sample_c0 false [SSent 7]). }
    apply rtc_once. unfold sample_c2, sample_dispatch.
    apply (tx_out_ready sample_c1 false [SSent 100]).
  - vm_compute. reflexivity.
  - vm_compute. reflexivity.
  - vm_compute. reflexivity.
  - vm_compute. reflexivity.
  - vm_compute. reflexivity.
Defined.
