(* ===== verification/Upstream.v ===== *)
(** * session.c, first half: the client's upstream bytes

    client_parse_upstream() as the code has it ([client_parse_upstream],
    one unit of fuel per byte), and as a scanner of the byte stream
    ([scan]) followed by the handlers: the state left and the messages
    handled do not depend on how TCP cut the stream into reads. *)
From S2P Require Import Prelude Binary64 Protocol Bits Core Convert Encoder Net Input Xmit Control.
From S2P Require Import Drain XmitSpec Samples.
#[local] Open Scope Z_scope.

Definition RECVBUF_SIZE : Z := 1024.
Definition RECV_GARBAGE_MAX : Z := 256.

(** memcmp(recvbuf, &SREMFB_MAGIC, 4) on a little-endian machine: equal *)
Definition at_magic (b : bytes) : bool := bool_decide (take 4 b = le 4 SREMFB_MAGIC).
Definition recvlen (b : bytes) : Z := Z.of_nat (length b).

Section upstream.
Context `{X264} `{Platform}.
Implicit Types c : SremfbClient.

(** One 16-byte message: PONG to the controller, INPUT to the devices once
    negotiated, everything else ignored. *)
Definition upstream_msg (s : layout_L * SremfbClient) (b : bytes) : layout_L * SremfbClient :=
  let '(L, c) := s in
  let msg := client_msg_of b in
  if (cm_type msg =? SREMFB_CMSG_PONG) && c_feedback c
  then (L, sremfb_ctl_on_pong c (cm_t_echo_us msg))
  else if (cm_type msg =? SREMFB_CMSG_INPUT) && bool_decide (is_Some (c_input c))
  then sremfb_input_msg L c (input_msg_of b)
  else (L, c).

Fixpoint client_parse_upstream (fuel : nat) (s : layout_L * SremfbClient)
    : layout_L * SremfbClient :=
  match fuel with
  | O => s
  | S fuel =>
    let '(L, c) := s in
    let b := c_recvbuf c in
    if (4 <=? recvlen b) && negb (at_magic b) then
      let c := c⟨c_recvbuf := drop 1 b⟩⟨c_recv_garbage ::= (λ g, u32 (g + 1))⟩ in
      if RECV_GARBAGE_MAX <? c_recv_garbage c then (L, sremfb_schedule_client_lost c)
      else client_parse_upstream fuel (L, c)
    else if recvlen b <? 16 then (L, c)
    else
      let c := c⟨c_recvbuf := drop 16 b⟩⟨c_recv_garbage := 0⟩ in
      client_parse_upstream fuel (upstream_msg (L, c) (take 16 b))
  end.

(** The body of on_client_io() after a successful read of [data]. *)
Definition upstream_data (s : layout_L * SremfbClient) (data : bytes)
    : layout_L * SremfbClient :=
  let c := (s.2)⟨c_recvbuf ::= (λ b, b ++ data)⟩ in
  client_parse_upstream (S (length (c_recvbuf c))) (s.1, c).

(** ** The scanner *)
Record scanned := mk_scanned {
  sc_msgs : list bytes; sc_garbage : Z; sc_rest : bytes; sc_lost : bool }.

Fixpoint scan (fuel : nat) (g : Z) (b : bytes) : scanned :=
  match fuel with
  | O => mk_scanned [] g b false
  | S fuel =>
    if (4 <=? recvlen b) && negb (at_magic b) then
      let g := u32 (g + 1) in
      if RECV_GARBAGE_MAX <? g then mk_scanned [] g (drop 1 b) true
      else scan fuel g (drop 1 b)
    else if recvlen b <? 16 then mk_scanned [] g b false
    else
      let r := scan fuel 0 (drop 16 b) in
      mk_scanned (take 16 b :: sc_msgs r) (sc_garbage r) (sc_rest r) (sc_lost r)
  end.
Definition scan_all (g : Z) (b : bytes) : scanned := scan (S (length b)) g b.

(** ** The handlers leave the reassembly state alone

    Every operation a message can reach commutes with replacing recvbuf and
    recv_garbage: it neither reads nor writes them. *)
Definition with_recv (r : bytes) (g : Z) (c : SremfbClient) : SremfbClient :=
  c⟨c_recvbuf := r⟩⟨c_recv_garbage := g⟩.

Definition frames (f : SremfbClient → SremfbClient) : Prop :=
  ∀ c r g, f (with_recv r g c) = with_recv r g (f c).

Ltac branch :=
  repeat match goal with |- context [if ?b then _ else _] => destruct b end.

Lemma set_state_recv s : frames (λ c, ctl_set_state c s).
Proof. intros c r g. unfold ctl_set_state. cbn. by branch. Qed.

Lemma kick_recv : frames sremfb_xmit_kick.
Proof. intros c r g. unfold sremfb_xmit_kick, xmit_idle, dirty_n. cbn. by branch. Qed.

Lemma ctrl_recv m : frames (λ c, sremfb_xmit_ctrl c m).
Proof. intros c r g. unfold sremfb_xmit_ctrl. cbn. branch; [done|]. by rewrite <- kick_recv. Qed.

Lemma set_mode_recv m : frames (λ c, sremfb_xmit_set_mode sremfb_ctl_initial_kbps c m).
Proof.
  intros c r g. unfold sremfb_xmit_set_mode.
  change (c_xmit_mode (with_recv r g c)) with (c_xmit_mode c).
  change (c_state (with_recv r g c)) with (c_state c).
  destruct (_ || _); [done|]. destruct m; cbv zeta.
  - rewrite <- kick_recv. f_equal.
    change ((with_recv r g c)⟨c_xmit_mode := XMIT_RAW⟩) with (with_recv r g c⟨c_xmit_mode := XMIT_RAW⟩).
    pose proof (ctrl_recv (frame_hdr_bytes (frame_hdr_for SREMFB_ENC_H264_EOS))
      c⟨c_xmit_mode := XMIT_RAW⟩ r g) as E. cbv beta in E. rewrite E. done.
  - change (c_enc (with_recv r g c)) with (c_enc c).
    change (c_geom (with_recv r g c)) with (c_geom c).
    destruct (c_enc c).
    + unfold dirty_n. cbn. by branch.
    + destruct (sremfb_enc_open _ _ _); [|done]. unfold dirty_n. cbn. by branch.
Qed.

Lemma aimd_recv : frames ctl_aimd.
Proof.
  intros c r g. unfold ctl_aimd. cbn. by branch.
Qed.

Lemma eval_raw_recv now : frames (λ c, ctl_eval_raw c now).
Proof.
  intros c r g. unfold ctl_eval_raw.
  change (raw_pressure (with_recv r g c) now) with (raw_pressure c now).
  change (h264_allowed (with_recv r g c)) with (h264_allowed c).
  change (c_ctl_state (with_recv r g c)) with (c_ctl_state c).
  change (c_ctl_since_us (with_recv r g c)) with (c_ctl_since_us c).
  cbv zeta. rewrite !(set_state_recv _ c r g : ctl_set_state (with_recv r g c) _ = _).
  rewrite (set_mode_recv _ c r g : sremfb_xmit_set_mode _ (with_recv r g c) _ = _).
  set (c1 := sremfb_xmit_set_mode _ _ _).
  rewrite !(set_state_recv _ c1 r g : ctl_set_state (with_recv r g c1) _ = _).
  clearbody c1. change (c_xmit_mode (with_recv r g c1)) with (c_xmit_mode c1).
  change (c_ctl_exit_us (with_recv r g c1)) with (c_ctl_exit_us c1).
  branch; try done; rewrite <- (set_state_recv CTL_H264_ACTIVE _ r g); done.
Qed.

Lemma eval_cooldown_recv now : frames (λ c, ctl_eval_cooldown c now).
Proof.
  intros c r g. unfold ctl_eval_cooldown.
  change (c_delay_ewma_us (with_recv r g c)) with (c_delay_ewma_us c).
  rewrite (set_state_recv _ c r g : ctl_set_state (with_recv r g c) _ = _).
  destruct (Dltb _ _); [done|]. cbv zeta.
  assert (E : (if c_ctl_calm_us (with_recv r g c) =? 0
               then (with_recv r g c)⟨c_ctl_calm_us := now⟩ else with_recv r g c) =
              with_recv r g (if c_ctl_calm_us c =? 0 then c⟨c_ctl_calm_us := now⟩ else c)).
  { cbn. by branch. }
  rewrite E. clear E. set (c1 := if c_ctl_calm_us c =? 0 then _ else c). clearbody c1.
  change (c_ctl_calm_us (with_recv r g c1)) with (c_ctl_calm_us c1).
  change (c_delay_ewma_us (with_recv r g c1)) with (c_delay_ewma_us c1).
  change (raw_wont_fit (with_recv r g c1)) with (raw_wont_fit c1).
  change (c_ctl_probe_backoff (with_recv r g c1)) with (c_ctl_probe_backoff c1).
  change (damage_continuous (with_recv r g c1) now) with (damage_continuous c1 now).
  rewrite (set_mode_recv _ c1 r g : sremfb_xmit_set_mode _ (with_recv r g c1) _ = _).
  set (c2 := sremfb_xmit_set_mode _ _ _).
  rewrite (set_state_recv _ c2 r g : ctl_set_state (with_recv r g c2) _ = _).
  by branch.
Qed.

Lemma evaluate_recv : frames ctl_evaluate.
Proof.
  intros c r g. unfold ctl_evaluate, g_get_monotonic_time.
  change (c_tick (with_recv r g c)) with (c_tick c).
  change ((with_recv r g c)⟨c_tick ::= S⟩) with (with_recv r g c⟨c_tick ::= S⟩).
  set (c1 := c⟨c_tick ::= S⟩). clearbody c1. set (now := g_monotonic _).
  change (c_ctl_state (with_recv r g c1)) with (c_ctl_state c1).
  change (c_delay_ewma_us (with_recv r g c1)) with (c_delay_ewma_us c1).
  destruct (c_ctl_state c1).
  - apply (eval_raw_recv now).
  - apply (eval_raw_recv now).
  - cbv zeta. rewrite (set_state_recv _ c1 r g : ctl_set_state (with_recv r g c1) _ = _).
    by branch.
  - apply (eval_cooldown_recv now).
Qed.

Lemma on_pong_recv t : frames (λ c, sremfb_ctl_on_pong c t).
Proof.
  intros c r g. unfold sremfb_ctl_on_pong, g_get_monotonic_time.
  change (c_tick (with_recv r g c)) with (c_tick c). set (now := g_monotonic _).
  destruct (Dltb _ _ || Dltb _ _); [done|].
  assert (E : ∀ c, (if c_pings_outstanding (with_recv r g c)⟨c_tick ::= S⟩⟨c_last_pong_us := now⟩ =? 0
      then (with_recv r g c)⟨c_tick ::= S⟩⟨c_last_pong_us := now⟩
      else (with_recv r g c)⟨c_tick ::= S⟩⟨c_last_pong_us := now⟩⟨c_pings_outstanding ::= (λ n, u32 (n - 1))⟩) =
    with_recv r g (if c_pings_outstanding c⟨c_tick ::= S⟩⟨c_last_pong_us := now⟩ =? 0
      then c⟨c_tick ::= S⟩⟨c_last_pong_us := now⟩
      else c⟨c_tick ::= S⟩⟨c_last_pong_us := now⟩⟨c_pings_outstanding ::= (λ n, u32 (n - 1))⟩)).
  { intros c0. cbn. by branch. }
  cbv zeta. rewrite !E. set (c1 := if _ =? 0 then _ else _). clearbody c1.
  change (c_ctl_state (with_recv r g c1)) with (c_ctl_state c1).
  change (c_ctl_since_us (with_recv r g c1)) with (c_ctl_since_us c1).
  destruct (_ && _).
  - apply evaluate_recv.
  - rewrite <- evaluate_recv. f_equal. rewrite <- aimd_recv. done.
Qed.

Lemma input_msg_recv L c r g m :
  sremfb_input_msg L (with_recv r g c) m =
    let '(L', c') := sremfb_input_msg L c m in (L', with_recv r g c').
Proof.
  unfold sremfb_input_msg. change (c_input (with_recv r g c)) with (c_input c).
  destruct (c_input c) as [i|]; [|done]. cbv zeta.
  change (layout_map L (with_recv r g c)) with (layout_map L c).
  repeat first [progress branch | case_match]; done.
Qed.

Lemma upstream_msg_recv L c r g m :
  upstream_msg (L, with_recv r g c) m =
    let '(L', c') := upstream_msg (L, c) m in (L', with_recv r g c').
Proof.
  unfold upstream_msg. change (c_feedback (with_recv r g c)) with (c_feedback c).
  change (c_input (with_recv r g c)) with (c_input c).
  destruct (_ && c_feedback c); [by rewrite (on_pong_recv _ c r g)|].
  destruct (_ && bool_decide _); [|done]. apply input_msg_recv.
Qed.

Lemma with_recv_eta c : with_recv (c_recvbuf c) (c_recv_garbage c) c = c.
Proof. by destruct c. Qed.

(** ** The code is the scanner followed by the handlers *)
Definition scan_result (s : layout_L * SremfbClient) (r : scanned) : layout_L * SremfbClient :=
  let '(L, c) := foldl upstream_msg s (sc_msgs r) in
  let c := with_recv (sc_rest r) (sc_garbage r) c in
  (L, if sc_lost r then sremfb_schedule_client_lost c else c).

Lemma parse_scan n L c b g :
  client_parse_upstream n (L, with_recv b g c) = scan_result (L, c) (scan n g b).
Proof.
  revert L c b g. induction n as [|n IH]; intros L c b g; [done|].
  cbn [client_parse_upstream scan].
  change (c_recvbuf (with_recv b g c)) with b.
  change ((with_recv b g c)⟨c_recvbuf := drop 1 b⟩⟨c_recv_garbage ::= (λ g, u32 (g + 1))⟩)
    with (with_recv (drop 1 b) (u32 (g + 1)) c).
  change ((with_recv b g c)⟨c_recvbuf := drop 16 b⟩⟨c_recv_garbage := 0⟩)
    with (with_recv (drop 16 b) 0 c). cbv zeta.
  destruct (_ && _).
  { change (c_recv_garbage (with_recv (drop 1 b) (u32 (g + 1)) c)) with (u32 (g + 1)).
    destruct (_ <? _); [done|apply IH]. }
  destruct (_ <? 16); [done|]. rewrite upstream_msg_recv.
  unfold scan_result at 1. cbn [sc_msgs foldl sc_rest sc_garbage sc_lost].
  destruct (upstream_msg (L, c) _) as [L' c']. rewrite IH. done.
Qed.

(** ** The scanner and the cuts of the stream *)
Lemma scan_fuel n m g b :
  (length b < n)%nat → (length b < m)%nat → scan n g b = scan m g b.
Proof.
  revert m g b. induction n as [|n IH]; intros m g b Hn Hm; [lia|].
  destruct m as [|m]; [lia|]. cbn [scan]. unfold recvlen.
  destruct ((4 <=? Z.of_nat (length b)) && _) eqn:H4.
  { destruct (_ <? _); [done|]. apply IH; rewrite length_drop; lia. }
  destruct (_ <? 16) eqn:H16; [done|].
  rewrite (IH m 0 (drop 16 b)); [done|..]; rewrite length_drop; lia.
Qed.

Lemma at_magic_app b d : (4 ≤ length b)%nat → at_magic (b ++ d) = at_magic b.
Proof. intros. unfold at_magic. by rewrite take_app_le. Qed.

(** What a further piece of the stream adds. *)
Definition scan_more (r : scanned) (d : bytes) : scanned :=
  if sc_lost r then mk_scanned (sc_msgs r) (sc_garbage r) (sc_rest r ++ d) true
  else
    let r2 := scan_all (sc_garbage r) (sc_rest r ++ d) in
    mk_scanned (sc_msgs r ++ sc_msgs r2) (sc_garbage r2) (sc_rest r2) (sc_lost r2).

Lemma scan_app n g b d :
  (length b < n)%nat → scan_all g (b ++ d) = scan_more (scan n g b) d.
Proof.
  revert g b. induction n as [|n IH]; intros g b Hn; [lia|].
  unfold scan_all at 1. cbn [scan]. unfold recvlen.
  assert (Hstay : scan (S (length (b ++ d))) g (b ++ d) =
    scan_more (mk_scanned [] g b false) d).
  { unfold scan_more, scan_all. cbn [sc_lost sc_garbage sc_rest sc_msgs app].
    by destruct (scan _ g (b ++ d)). }
  destruct (4 <=? Z.of_nat (length b)) eqn:H4; cbn [andb].
  2:{ replace (Z.of_nat (length b) <? 16) with true by lia. exact Hstay. }
  rewrite length_app, at_magic_app by lia.
  destruct (4 <=? Z.of_nat (_ + _)) eqn:H4';
    [|exfalso; apply Z.leb_le in H4; apply Z.leb_gt in H4'; lia]. cbn [andb].
  destruct (negb (at_magic b)) eqn:Hm.
  - rewrite drop_app_le by lia. destruct (_ <? _); [done|].
    rewrite <- IH by (rewrite length_drop; lia). unfold scan_all.
    apply scan_fuel; rewrite length_app, length_drop; lia.
  - destruct (Z.of_nat (length b) <? 16) eqn:H16; [|].
    { rewrite <- Hstay. cbn [scan]. unfold recvlen.
      rewrite length_app, at_magic_app, Hm by lia. by rewrite andb_false_r. }
    destruct (Z.of_nat (_ + _) <? 16) eqn:H16';
      [exfalso; apply Z.ltb_ge in H16; apply Z.ltb_lt in H16'; lia|].
    rewrite take_app_le, drop_app_le by lia.
    rewrite (scan_fuel _ (S (length (drop 16 b ++ d)))) by
      (rewrite ?length_app, ?length_drop; lia).
    change (scan (S (length (drop 16 b ++ d)))) with (scan (S (length (drop 16 b ++ d)))).
    fold (scan_all 0 (drop 16 b ++ d)). rewrite IH by (rewrite length_drop; lia).
    unfold scan_more. cbn [sc_lost sc_msgs sc_garbage sc_rest]. by destruct (sc_lost _).
Qed.

(** ** Cutting the stream *)
(** Nothing to do before more bytes come: what every parse leaves. *)
Definition settled c : Prop :=
  (length (c_recvbuf c) < 16)%nat ∧
  ((length (c_recvbuf c) < 4)%nat ∨ at_magic (c_recvbuf c) = true).

Lemma scan_settled c :
  settled c → scan_all (c_recv_garbage c) (c_recvbuf c) =
    mk_scanned [] (c_recv_garbage c) (c_recvbuf c) false.
Proof.
  intros [Hl Hm]. unfold scan_all. cbn [scan]. unfold recvlen.
  assert ((4 <=? Z.of_nat (length (c_recvbuf c))) && negb (at_magic (c_recvbuf c)) = false) as ->.
  { destruct Hm as [Hm| ->]; [|apply andb_false_r]. apply andb_false_intro1, Z.leb_gt. lia. }
  destruct (_ <? 16) eqn:E; [done|]. apply Z.ltb_ge in E. lia.
Qed.

Lemma scan_bounds n g b :
  (length b < n)%nat → 0 ≤ g ≤ RECV_GARBAGE_MAX →
  let r := scan n g b in
  (length (sc_rest r) ≤ length b)%nat ∧ Forall (λ m, length m = 16%nat) (sc_msgs r) ∧
  (sc_lost r = false → 0 ≤ sc_garbage r ≤ RECV_GARBAGE_MAX ∧ (length (sc_rest r) < 16)%nat ∧
    ((length (sc_rest r) < 4)%nat ∨ at_magic (sc_rest r) = true)).
Proof.
  unfold RECV_GARBAGE_MAX. revert g b. induction n as [|n IH]; intros g b Hn Hg; [lia|].
  cbn [scan]. unfold recvlen.
  destruct ((4 <=? Z.of_nat (length b)) && negb (at_magic b)) eqn:H4.
  - apply andb_true_iff in H4 as [H4%Z.leb_le _].
    rewrite (u32_small (g + 1)) by lia. unfold RECV_GARBAGE_MAX.
    destruct (256 <? g + 1) eqn:Hg1.
    + cbn [sc_rest sc_msgs sc_lost]. rewrite length_drop. split_and!; [lia|done|done].
    + destruct (IH (g + 1) (drop 1 b)) as (H1&H2&H3); [rewrite length_drop; lia|lia|].
      rewrite length_drop in H1. split_and!; [lia|done|done].
  - destruct (_ <? 16) eqn:H16.
    + cbn [sc_rest sc_msgs sc_lost sc_garbage]. split_and!; [done|done|]. intros _.
      apply andb_false_iff in H4 as [H4|H4]; split_and!; lia || (right; by destruct (at_magic b)).
    + apply Z.ltb_ge in H16.
      destruct (IH 0 (drop 16 b)) as (H1&H2&H3); [rewrite length_drop; lia|lia|].
      rewrite length_drop in H1. cbn [sc_rest sc_msgs sc_lost sc_garbage].
      split_and!; [lia| |done]. constructor; [rewrite length_take; lia|done].
Qed.

Lemma upstream_data_scan L c d :
  upstream_data (L, c) d =
    scan_result (L, c) (scan_all (c_recv_garbage c) (c_recvbuf c ++ d)).
Proof.
  unfold upstream_data, scan_all. rewrite <- parse_scan. f_equal.
Qed.

Lemma fold_msgs_recv L c r g ms :
  foldl upstream_msg (L, with_recv r g c) ms =
    let '(L', c') := foldl upstream_msg (L, c) ms in (L', with_recv r g c').
Proof.
  revert L c. induction ms as [|m ms IH]; intros L c; [done|]. cbn [foldl].
  rewrite upstream_msg_recv. destruct (upstream_msg (L, c) m) as [L' c']. apply IH.
Qed.

(** (C20) The result does not depend on how the upstream bytes were cut into
    reads: handling the pieces one by one gives the layout and the client
    that handling their concatenation at once gives, as long as the stream
    does not make the client be dropped for garbage. *)
Theorem upstream_fragmentation L c ds :
  settled c →
  sc_lost (scan_all (c_recv_garbage c) (c_recvbuf c ++ concat ds)) = false →
  0 ≤ c_recv_garbage c ≤ RECV_GARBAGE_MAX →
  foldl upstream_data (L, c) ds = upstream_data (L, c) (concat ds).
Proof.
  revert L c. induction ds as [|d ds IH]; intros L c Hs Hl Hg; cbn [foldl concat].
  { rewrite upstream_data_scan, app_nil_r, scan_settled by done. unfold scan_result.
    cbn [sc_msgs foldl sc_rest sc_garbage sc_lost]. by rewrite with_recv_eta. }
  rewrite (upstream_data_scan L c (d ++ _)). cbn [concat] in Hl. rewrite app_assoc in *.
  rewrite (scan_app (S (length (c_recvbuf c ++ d)))) in * by lia.
  fold (scan_all (c_recv_garbage c) (c_recvbuf c ++ d)) in *.
  rewrite (upstream_data_scan L c d).
  pose proof (scan_bounds _ _ _ (Nat.lt_succ_diag_r (length (c_recvbuf c ++ d))) Hg) as Hb.
  fold (scan_all (c_recv_garbage c) (c_recvbuf c ++ d)) in Hb. cbv zeta in Hb.
  set (r := scan_all (c_recv_garbage c) (c_recvbuf c ++ d)) in *. clearbody r.
  unfold scan_more in *. destruct (sc_lost r) eqn:Hr; [done|]. cbn [sc_lost] in Hl.
  destruct Hb as (_&_&Hb). destruct (Hb eq_refl) as (Hg1&Hl1&Hm1). clear Hb.
  unfold scan_result at 1. rewrite Hr. destruct (foldl upstream_msg (L, c) (sc_msgs r)) as [L1 c1] eqn:Hf.
  rewrite IH; [|done|done|done]. rewrite upstream_data_scan.
  change (c_recv_garbage (with_recv (sc_rest r) (sc_garbage r) c1)) with (sc_garbage r).
  change (c_recvbuf (with_recv (sc_rest r) (sc_garbage r) c1)) with (sc_rest r).
  unfold scan_result. cbn [sc_msgs sc_rest sc_garbage sc_lost].
  rewrite foldl_app, Hf, fold_msgs_recv. by destruct (foldl upstream_msg (L1, c1) _).
Qed.

(** ** Whole messages *)
Definition upstream_wf (m : sremfb_client_msg) : Prop :=
  client_msg_wf m ∧ cm_magic m = SREMFB_MAGIC.

Lemma upstream_wf_bytes m tl :
  upstream_wf m → length (client_msg_bytes m) = 16%nat ∧
  at_magic (client_msg_bytes m ++ tl) = true.
Proof.
  intros [(_&_&Hr&_) Hm]. split.
  - unfold client_msg_bytes. rewrite !length_app, !length_le, Hr. done.
  - unfold at_magic. apply bool_decide_eq_true_2. unfold client_msg_bytes.
    rewrite Hm, <- !app_assoc, take_app_length'; [done|by rewrite length_le].
Qed.

Lemma scan_messages ms n :
  Forall upstream_wf ms → (length (concat (client_msg_bytes <$> ms)) < n)%nat →
  ∀ g, (ms = [] → g = 0) →
  scan n g (concat (client_msg_bytes <$> ms)) =
    mk_scanned (client_msg_bytes <$> ms) 0 [] false.
Proof.
  intros Hms. revert n. induction Hms as [|m ms Hm Hms IH]; intros n Hn g Hg.
  { destruct n; [cbn in Hn; lia|]. by rewrite (Hg eq_refl). }
  destruct n as [|n]; [lia|]. cbn [fmap list_fmap concat scan] in *.
  fold (client_msg_bytes <$> ms) in *.
  destruct (upstream_wf_bytes m (concat (client_msg_bytes <$> ms)) Hm) as [Hl Hmg].
  rewrite length_app in Hn. unfold recvlen. rewrite Hmg, andb_false_r, length_app.
  destruct (_ <? 16) eqn:E; [apply Z.ltb_lt in E; lia|].
  rewrite take_app_length', drop_app_length', IH by (done || lia). done.
Qed.

Lemma scan_junk junk rest n g :
  (4 ≤ length rest)%nat → 0 ≤ g → g + Z.of_nat (length junk) ≤ RECV_GARBAGE_MAX →
  (∀ i, (i < length junk)%nat → at_magic (drop i (junk ++ rest)) = false) →
  scan (length junk + n) g (junk ++ rest) = scan n (g + Z.of_nat (length junk)) rest.
Proof.
  intros Hr. revert g. unfold RECV_GARBAGE_MAX.
  induction junk as [|x junk IH]; intros g Hpos Hg Hno; [cbn; by rewrite Z.add_0_r|].
  cbn [length Nat.add scan app] in *. pose proof (Hno 0%nat ltac:(lia)) as H1.
  rewrite drop_0 in H1. rewrite H1. unfold recvlen. cbn [length negb]. rewrite length_app.
  destruct (4 <=? _) eqn:E; [|apply Z.leb_gt in E; lia]. cbn [andb].
  rewrite u32_small by lia. unfold RECV_GARBAGE_MAX.
  destruct (256 <? g + 1) eqn:E'; [lia|].
  change (drop 1 (x :: junk ++ rest)) with (junk ++ rest). rewrite IH; [f_equal; lia|lia|lia|].
  intros i Hi. apply (Hno (S i)). lia.
Qed.

(** (C21) Resynchronisation: up to 256 bytes of garbage in which the magic
    does not appear are skipped, and the messages that follow are handled,
    all of them, in order and nothing else; the reassembly buffer is empty
    afterwards. *)
Theorem upstream_roundtrip L c junk ms :
  c_recvbuf c = [] → c_recv_garbage c = 0 → Forall upstream_wf ms → ms ≠ [] →
  Z.of_nat (length junk) ≤ RECV_GARBAGE_MAX →
  (∀ i, (i < length junk)%nat →
     at_magic (drop i (junk ++ concat (client_msg_bytes <$> ms))) = false) →
  upstream_data (L, c) (junk ++ concat (client_msg_bytes <$> ms)) =
    foldl upstream_msg (L, c) (client_msg_bytes <$> ms).
Proof.
  intros Hb Hg Hms Hne Hj Hno. rewrite upstream_data_scan, Hb, Hg. cbn [app].
  assert (Hlen : (16 ≤ length (concat (client_msg_bytes <$> ms)))%nat).
  { destruct Hms as [|m ms Hm _]; [done|]. cbn [fmap list_fmap concat].
    rewrite length_app. destruct (upstream_wf_bytes m [] Hm). lia. }
  assert (E : scan_all 0 (junk ++ concat (client_msg_bytes <$> ms)) =
    mk_scanned (client_msg_bytes <$> ms) 0 [] false).
  { unfold scan_all. rewrite length_app, <- Nat.add_succ_r.
    rewrite scan_junk by (done || lia). apply scan_messages; [done|lia|done]. }
  rewrite E. unfold scan_result. cbn [sc_msgs sc_rest sc_garbage sc_lost].
  destruct (foldl upstream_msg (L, c) _) as [L' c'] eqn:Hf.
  pose proof (fold_msgs_recv L c (c_recvbuf c) (c_recv_garbage c) (client_msg_bytes <$> ms)) as Hr.
  rewrite with_recv_eta, Hf in Hr. injection Hr as Hr. rewrite Hb, Hg in Hr. by rewrite <- Hr.
Qed.
End upstream.

(** ** Concrete inputs *)
Definition sample_pong : sremfb_client_msg :=
  mk_client_msg SREMFB_MAGIC SREMFB_CMSG_PONG [0; 0; 0] 900000.
Definition sample_upstream : @SremfbClient sample_x264 :=
  (@sample_client sample_x264 SREMFB_PIX_XRGB8888 sample_frame)⟨c_feedback := true⟩.
Definition sample_layout : layout_L := mk_L true false false [] 0 0 0.

Lemma upstream_fragmentation_witness :
  foldl (@upstream_data sample_x264 sample_platform) (sample_layout, sample_upstream)
    [take 3 (client_msg_bytes sample_pong); slice 3 9 (client_msg_bytes sample_pong);
     drop 12 (client_msg_bytes sample_pong) ++ [7; 7]] =
  @upstream_data sample_x264 sample_platform (sample_layout, sample_upstream)
    (concat [take 3 (client_msg_bytes sample_pong); slice 3 9 (client_msg_bytes sample_pong);
     drop 12 (client_msg_bytes sample_pong) ++ [7; 7]]).
Proof.
  apply (@upstream_fragmentation sample_x264 sample_platform sample_layout sample_upstream).
  - split; [vm_compute; lia|left; vm_compute; lia].
  - vm_compute. reflexivity.
  - vm_compute. split; congruence.
Defined.

Lemma upstream_roundtrip_witness :
  @upstream_data sample_x264 sample_platform (sample_layout, sample_upstream)
    ([1; 2; 3] ++ concat (client_msg_bytes <$> [sample_pong])) =
  (sample_layout, @sremfb_ctl_on_pong sample_x264 sample_platform sample_upstream 900000).
Proof.
  etransitivity; [apply (@upstream_roundtrip sample_x264 sample_platform sample_layout
    sample_upstream [1; 2; 3] [sample_pong])|reflexivity].
  - reflexivity.
  - reflexivity.
  - apply Forall_singleton. split; [|reflexivity]. 
    split_and!; vm_compute; congruence.
  - congruence.
  - vm_compute. congruence.
  - intros i Hi. do 3 (destruct i as [|i]; [reflexivity|]). cbn in Hi. lia.
Defined.
