(* ===== verification/Session.v ===== *)
(** * session.c, second half: the clients of the server

    The server state with its clients, the USB peer files, the admission of
    a connection, the loss of a client and the main loop's end.  A client
    pointer is a number that is never reused ([sv_next] is the next one
    g_new0() gives); [sv_clients] is the array srv->clients.

    What session.c calls in other components is an interface: the frame
    source's operations are the class [SourceOps] (struct
    sremfb_source_ops), audio and the remembered layout the class
    [Peripherals].  Ghosts record effects: [sv_accepted] and [sv_closed] the
    descriptors the session was given and closed, [sv_refusals] what was
    answered to refused connections, [sv_acquired] and [sv_released] the
    clients whose frame source was acquired and released. *)
From S2P Require Import Prelude Binary64 Protocol Bits Core Convert Encoder Net Input Xmit Control.
From S2P Require Import Drain XmitSpec Upstream.
From Stdlib Require Import Ascii String.
From stdpp Require Import gmap strings list.
#[local] Open Scope list_scope.
#[local] Open Scope Z_scope.

(** struct sremfb_source_ops; [src_t] is the backend's own state, with what
    it keeps per client. *)
Class SourceOps `{X264} := {
  src_t : Type;
  src_acquire : src_t → nat → SremfbClient → Z * src_t * SremfbClient;
  src_admit : option (src_t → Z * src_t);
  src_release : src_t → nat → SremfbClient → src_t }.

(** sremfb_audio_stop() and sremfb_layout_client_gone() *)
Class Peripherals `{X264} := {
  per_t : Type;
  sremfb_audio_stop : per_t → nat → SremfbClient → per_t;
  sremfb_layout_client_gone : per_t → nat → SremfbClient → per_t }.

(** Whether g_file_set_contents() of a path works. *)
Class Files := file_writable : string → bool.

Section session.
Context `{X264} `{Platform} `{NetNames} `{!SourceOps} `{!Peripherals} `{Files}.

Record SremfbServer := mk_server {
  sv_clients : list (nat * SremfbClient); sv_allow : list SremfbAllowNet;
  sv_layout : layout_L; sv_src : src_t; sv_per : per_t;
  sv_files : gmap string string; sv_next : nat;
  sv_accepted : list Z; sv_closed : list Z; sv_refusals : list (Z * bytes);
  sv_acquired : list nat; sv_released : list nat }.
#[export] Instance eta_server : Eta SremfbServer := λ s,
  mk_server (sv_clients s) (sv_allow s) (sv_layout s) (sv_src s) (sv_per s)
    (sv_files s) (sv_next s) (sv_accepted s) (sv_closed s) (sv_refusals s)
    (sv_acquired s) (sv_released s).

Definition mac_is_zero (mac : bytes) : bool := bool_decide (mac = replicate 6 0).

(** ** USB teleport peer files *)
Definition SREMFB_USB_RUNDIR : string := "/run/sremfb".

(** strrchr(ip, c): what precedes the last [c] *)
Fixpoint cut_last (c : ascii) (s : list ascii) : option (list ascii) :=
  match s with
  | [] => None
  | a :: s =>
    match cut_last c s with
    | Some t => Some (a :: t)
    | None => if bool_decide (a = c) then Some [] else None
    end
  end.

Definition usb_peer_path (c : SremfbClient) : string :=
  let ip := take 63 (list_ascii_of_string (c_peer c)) in
  let ip := default ip (cut_last ":"%char ip) in
  let path := (SREMFB_USB_RUNDIR +:+ "/usb-" +:+ string_of_list_ascii ip)%string in
  string_of_list_ascii (take 127 (list_ascii_of_string path)).

Definition sremfb_usb_peer_add (files : gmap string string) (c : SremfbClient)
    : gmap string string :=
  if negb (c_usb_cap c) || getenv_NO_USB then files
  else
    let path := usb_peer_path c in
    if file_writable path then <[path := c_macstr c]> files else files.

Definition sremfb_usb_peer_remove (files : gmap string string) (c : SremfbClient)
    : gmap string string :=
  if negb (c_usb_cap c) then files else delete (usb_peer_path c) files.

(** The files of the directory are the keys below it. *)
Definition usb_peers_clear (files : gmap string string) : gmap string string :=
  filter (λ f, String.prefix (SREMFB_USB_RUNDIR +:+ "/usb-") f.1 = false) files.

(** ** Losing a client *)
Definition find_ptr (p : nat) (l : list (nat * SremfbClient)) : option SremfbClient :=
  snd <$> (snd <$> list_find (λ pc, pc.1 = p) l).

Definition remove_ptr (p : nat) (l : list (nat * SremfbClient)) : list (nat * SremfbClient) :=
  filter (λ pc, pc.1 ≠ p) l.

Definition set_ptr (p : nat) (c : SremfbClient) (l : list (nat * SremfbClient))
    : list (nat * SremfbClient) :=
  (λ pc, if bool_decide (pc.1 = p) then (p, c) else pc) <$> l.

Definition sremfb_client_lost (s : SremfbServer) (p : nat) (c : SremfbClient) : SremfbServer :=
  let c := c⟨c_lost_id := 0⟩⟨c_watch_id := 0⟩ in
  let c := (sremfb_input_stop c).2 in
  let s := s⟨sv_per ::= λ a, sremfb_audio_stop a p c⟩ in
  let c := c⟨c_audio := None⟩ in
  let s := s⟨sv_per ::= λ a, sremfb_layout_client_gone a p c⟩ in
  let s := s⟨sv_files ::= λ f, sremfb_usb_peer_remove f c⟩ in
  let c := sremfb_xmit_reset c in
  let '(s, c) :=
    if 0 <=? c_fd c
    then (s⟨sv_closed ::= λ l, l ++ [c_fd c]⟩, c⟨c_fd := -1⟩) else (s, c) in
  let s := s⟨sv_src ::= λ a, src_release a p c⟩⟨sv_released ::= λ l, l ++ [p]⟩ in
  s⟨sv_clients ::= remove_ptr p⟩.

Definition client_lost_idle (s : SremfbServer) (p : nat) (c : SremfbClient) : SremfbServer :=
  sremfb_client_lost s p c⟨c_lost_id := 0⟩.

(** ** Upstream I/O: TRUE is G_SOURCE_CONTINUE *)
Definition on_client_io (s : SremfbServer) (p : nat) (c : SremfbClient)
    (io_in : bool) (r : read_res) : bool * SremfbServer :=
  let gone := (false, sremfb_client_lost s p c⟨c_watch_id := 0⟩) in
  if io_in then
    match r with
    | RData b =>
      let data := take (Z.to_nat (RECVBUF_SIZE - recvlen (c_recvbuf c))) b in
      match data with
      | [] => gone
      | _ =>
        let '(L, c) := upstream_data (sv_layout s, c) data in
        (true, s⟨sv_layout := L⟩⟨sv_clients ::= set_ptr p c⟩)
      end
    | REintr => (true, s)
    | REof | RErr => gone
    end
  else gone.

(** ** Admission *)
Definition hello_valid (h : sremfb_client_hello) : bool :=
  if negb (ch_magic h =? SREMFB_MAGIC) || negb (ch_proto_ver h =? SREMFB_PROTO_VER) then false
  else if (ch_xres h =? 0) || (ch_yres h =? 0) then false
  else if (ch_pixfmt h =? SREMFB_PIX_XRGB8888) && (ch_bpp h =? 32) then true
  else if (ch_pixfmt h =? SREMFB_PIX_RGB565) && (ch_bpp h =? 16) then true
  else false.

Definition find_client_by_mac (s : SremfbServer) (mac : bytes) : option (nat * SremfbClient) :=
  snd <$> list_find (λ pc, ch_mac (c_hello pc.2) = mac) (sv_clients s).

Definition hex_digit (d : Z) : string :=
  String.substring (Z.to_nat d) 1 "0123456789abcdef".
Definition hex2 (b : Z) : string :=
  (hex_digit (Z.shiftr b 4) +:+ hex_digit (Z.land b 15))%string.
Definition macstr (mac : bytes) : string :=
  String.concat ":" (hex2 <$> take 6 mac).

(** net_send_server_hello() with a status, then close() *)
Definition refuse (s : SremfbServer) (cfd status : Z) (sends : list send_res) : SremfbServer :=
  s⟨sv_refusals ::= λ l, l ++ [(cfd, (net_send_server_hello 0 0 0 (u16 status) 0 sends).1)]⟩
   ⟨sv_closed ::= λ l, l ++ [cfd]⟩.

Definition new_client (cfd : Z) (hello : sremfb_client_hello) (peer : string) : SremfbClient :=
  let flag b := has_flag (ch_flags hello) b in
  (client_new0 cfd hello (string_of_list_ascii (take 63 (list_ascii_of_string peer))))
    ⟨c_lz4 := flag SREMFB_HELLO_FLAG_LZ4⟩
    ⟨c_feedback := flag SREMFB_HELLO_FLAG_FEEDBACK⟩
    ⟨c_h264_cap := flag SREMFB_HELLO_FLAG_H264⟩
    ⟨c_usb_cap := flag SREMFB_HELLO_FLAG_USB⟩
    ⟨c_input_cap := flag SREMFB_HELLO_FLAG_INPUT⟩
    ⟨c_audio_cap := flag SREMFB_HELLO_FLAG_AUDIO⟩
    ⟨c_macstr := macstr (ch_mac hello)⟩.

(** The connection [ss] on descriptor [fd], the answers to its reads and to
    the sends of a refusal. *)
Definition on_listen_ready (s : SremfbServer) (fd : Z) (ss : sockaddr)
    (reads : list read_res) (sends : list send_res) : SremfbServer :=
  match net_accept_and_hello (sv_allow s) fd ss reads with
  | None => s
  | Some (cfd, hello, peer) =>
    let s := s⟨sv_accepted ::= λ l, l ++ [cfd]⟩ in
    if negb (hello_valid hello) then refuse s cfd SREMFB_STATUS_BAD_HELLO sends
    else
      let s :=
        if mac_is_zero (ch_mac hello) then s
        else
          match find_client_by_mac s (ch_mac hello) with
          | Some (p, old) => sremfb_client_lost s p old
          | None => s
          end in
      if SREMFB_MAX_CLIENTS <=? Z.of_nat (List.length (sv_clients s))
      then refuse s cfd SREMFB_STATUS_NO_DEVICE sends
      else
        let '(st, s) :=
          match src_admit with
          | Some f_admit => let '(st, a) := f_admit (sv_src s) in (st, s⟨sv_src := a⟩)
          | None => (SREMFB_STATUS_OK, s)
          end in
        if negb (st =? SREMFB_STATUS_OK) then refuse s cfd st sends
        else
          let p := sv_next s in
          let '(st, a, c) := src_acquire (sv_src s) p (new_client cfd hello peer) in
          let s := s⟨sv_next ::= S⟩⟨sv_src := a⟩ in
          if negb (st =? SREMFB_STATUS_OK) then refuse s cfd st sends
          else
            let s := s⟨sv_acquired ::= λ l, l ++ [p]⟩ in
            let (id, c) := g_source_new c in
            s⟨sv_clients ::= λ l, l ++ [(p, c⟨c_watch_id := id⟩)]⟩
  end.

(** ** Start and end of sremfb_serve() *)
Definition serve_start (s : SremfbServer) : SremfbServer :=
  s⟨sv_files ::= usb_peers_clear⟩⟨sv_clients := []⟩.

(** The loop that drops the first client until none is left. *)
Fixpoint serve_stop_ (fuel : nat) (s : SremfbServer) : SremfbServer :=
  match fuel with
  | O => s
  | S fuel =>
    match sv_clients s with
    | [] => s
    | (p, c) :: _ => serve_stop_ fuel (sremfb_client_lost s p c)
    end
  end.
Definition serve_stop (s : SremfbServer) : SremfbServer :=
  serve_stop_ (List.length (sv_clients s)) s.
End session.
