(* ===== verification/SessionProps.v ===== *)
(** * Properties of the server's sessions

    [sv_step] is what can happen to the server while its main loop runs;
    [sv_inv] holds in every reachable state.  The frame source is used
    through the laws of [SourceLaws]. *)
From S2P Require Import Prelude Binary64 Protocol Bits Core Convert Encoder Net Input Xmit Control.
From S2P Require Import Drain XmitSpec Dirty Coverage ViewH264 ViewNet Blit Paint.
From S2P Require Import Stream OutReady Link Samples Upstream Session.
From stdpp Require Import gmap strings list relations.
#[local] Open Scope list_scope.
#[local] Open Scope Z_scope.

(** ** The connection of a client

    Its descriptor, its hello and its reassembly buffer: nothing on the
    transmit side touches them. *)
Section conn.
Context `{X : X264} `{L : LZ4} `{P : Platform}.
Implicit Types c : SremfbClient.

Definition conn c := (c_fd c, c_hello c, c_recvbuf c).

Lemma kick_conn c : conn (sremfb_xmit_kick c) = conn c.
Proof. unfold sremfb_xmit_kick, g_source_new. by repeat case_match. Qed.

Lemma ctrl_conn c m : conn (sremfb_xmit_ctrl c m) = conn c.
Proof. unfold sremfb_xmit_ctrl. case_match; [done|]. by rewrite kick_conn. Qed.

Lemma lost_conn c : conn (sremfb_schedule_client_lost c) = conn c.
Proof. unfold sremfb_schedule_client_lost, g_source_new. by case_match. Qed.

Lemma set_mode_conn k c m : conn (sremfb_xmit_set_mode k c m) = conn c.
Proof.
  unfold sremfb_xmit_set_mode. case_match; [done|]. destruct m; cbv zeta.
  - rewrite kick_conn. unfold conn. cbn. 
    exact (ctrl_conn c⟨c_xmit_mode := XMIT_RAW⟩ _).
  - destruct (c_enc c); [|destruct (sremfb_enc_open _ _ _)]; try done; by case_match.
Qed.

Lemma xstep_conn c c' : xstep c c' → conn c' = conn c.
Proof.
  induction 1 as [c c' Hv|c c1 c' _ IH1 _ IH2|c m _|c m|c|c].
  - unfold vis in Hv. unfold conn. congruence.
  - by rewrite IH2.
  - apply ctrl_conn.
  - apply set_mode_conn.
  - apply kick_conn.
  - apply lost_conn.
Qed.

Lemma frame_start_conn c a b : conn (frame_start c a b) = conn c.
Proof.
  unfold frame_start. cbv zeta. case_match; [|done].
  by rewrite (xstep_conn _ _ (on_deliver_xstep _ _)).
Qed.

Lemma shadow_conn c x y w h : conn (shadow_update c x y w h) = conn c.
Proof. unfold shadow_update. by repeat case_match. Qed.

Lemma build_raw_conn c r : conn (build_raw_rect c r) = conn c.
Proof.
  unfold build_raw_rect. case_match; [|done]. cbv zeta. case_match. 
  rewrite frame_start_conn. exact (shadow_conn c _ _ _ _).
Qed.

Lemma build_h264_conn c : conn (build_h264_frame c) = conn c.
Proof.
  unfold build_h264_frame, g_get_monotonic_time. destruct (c_grabbuf c), (c_enc c); try done. cbv zeta.
  destruct (sremfb_enc_encode _ _ _) as [enc' [[sz nal] idr]]. cbv iota. destruct (sz <? 0).
  - rewrite set_mode_conn. exact (shadow_conn c _ _ _ _).
  - destruct (sz =? 0); [|rewrite frame_start_conn]; exact (shadow_conn c _ _ _ _).
Qed.

Lemma build_next_conn c : conn (build_next c).2 = conn c.
Proof.
  unfold build_next, g_source_new. destruct (c_grabbuf c); [|done]. case_match; [done|].
  destruct (c_xmit_mode c).
  - destruct (c_dirty_all c); cbn [snd]; [by rewrite build_raw_conn|].
    destruct (c_dirty c); [done|]. cbn [snd]. rewrite build_raw_conn. by case_match.
  - case_match; [done|]. destruct (sremfb_ctl_skip_encode c) as [skip c1] eqn:Hs.
    assert (E : conn c1 = conn c).
    { pose proof (skip_encode_quiet c) as Hv. rewrite Hs in Hv. unfold vis in Hv. unfold conn.
      cbn [snd] in Hv. congruence. }
    destruct skip; cbn [snd]; [by case_match|]. rewrite build_h264_conn. exact E.
Qed.

Lemma drain_frame_conn n c answers : conn (drain_frame n c answers).1.2 = conn c.
Proof.
  revert c answers. induction n as [|n IH]; intros c answers; cbn [drain_frame]; [by case_match|].
  case_match; [done|]. destruct (net_send_some _ _) as [k rest]. case_match; [done|].
  case_match; [done|]. cbv zeta. by rewrite IH.
Qed.

Lemma drain_ctrl_conn q c answers : conn (drain_ctrl q c answers).1.2 = conn c.
Proof.
  revert c answers. induction q as [|p q IH]; intros c answers; cbn [drain_ctrl]; [done|].
  destruct (net_send_some _ _) as [k rest]. case_match; [done|]. cbv zeta.
  case_match; [done|]. by rewrite IH.
Qed.

Lemma out_ready_conn c err answers : conn (on_out_ready c err answers).2 = conn c.
Proof.
  unfold on_out_ready, send_fail, xmit_fail.
  assert (Hf : ∀ c1, conn c1 = conn c → conn (sremfb_schedule_client_lost c1⟨c_out_watch_id := 0⟩) = conn c).
  { intros c1 E. by rewrite lost_conn. }
  destruct err; [by apply Hf|].
  set (r1 := if c_out_active c then _ else _).
  assert (E1 : conn r1.1.2 = conn c) by (subst r1; case_match; [apply drain_frame_conn|done]).
  clearbody r1. destruct r1 as [[[| |] c1] a1]; cbn [fst snd] in *; [|done|by apply Hf].
  pose proof (drain_ctrl_conn (c_outq c1) c1 a1) as E2.
  destruct (drain_ctrl _ _ _) as [[[| |] c2] a2]; cbn [fst snd] in *; 
    [|congruence|apply Hf; congruence].
  pose proof (build_next_conn c2) as E3. destruct (build_next c2) as [[|] c3]; cbn [fst snd] in *.
  - congruence.
  - change (conn c3 = conn c). congruence.
Qed.

Lemma damage_conn c rects bpp : conn (sremfb_xmit_damage c rects bpp) = conn c.
Proof.
  unfold sremfb_xmit_damage.
  assert (E : ∀ rects c raw, conn (foldl (damage_one bpp) (c, raw) rects).1 = conn c).
  { clear. induction rects as [|r rects IH]; intros c raw; [done|]. cbn [foldl].
    destruct (damage_one bpp (c, raw) r) as [c1 raw1] eqn:Hd. rewrite IH.
    unfold damage_one, dirty_add in Hd. repeat case_match; simplify_eq; done. }
  specialize (E rects c 0). destruct (foldl _ _ _) as [c1 raw]. cbn [fst] in E.
  case_match; [done|]. rewrite (xstep_conn _ _ (damage_kick_xstep _ _)). exact E.
Qed.

Lemma tx_step_conn c c' : tx_step c c' → conn c' = conn c.
Proof.
  destruct 1.
  - by rewrite damage_conn.
  - apply out_ready_conn.
  - unfold retry_cb. by rewrite kick_conn.
  - apply xstep_conn, on_pong_xstep.
  - apply xstep_conn, ping_tick_xstep.
  - apply ctrl_conn.
  - apply lost_conn.
  - match goal with Hv : vis _ = _ |- _ => unfold vis in Hv; injection Hv as; unfold conn; cbn in *; congruence end.
Qed.

Lemma input_msg_conn l c m : conn (sremfb_input_msg l c m).2 = conn c.
Proof. unfold sremfb_input_msg, emit_event. by repeat case_match. Qed.

Lemma upstream_msg_conn s m : conn (upstream_msg s m).2 = conn s.2.
Proof.
  destruct s as [l c]. unfold upstream_msg. case_match.
  - apply xstep_conn, on_pong_xstep.
  - case_match; [apply input_msg_conn|done].
Qed.

Lemma scan_rest_le n g b : (length (sc_rest (scan n g b)) ≤ length b)%nat.
Proof.
  revert g b. induction n as [|n IH]; intros g b; [done|]. cbn [scan].
  assert (E : ∀ k g, (length (sc_rest (scan n g (drop k b))) ≤ length b)%nat).
  { intros k g'. etrans; [apply IH|]. rewrite length_drop. lia. }
  case_match; [case_match; [cbn; rewrite length_drop; lia|apply E]|].
  case_match; [done|apply E].
Qed.

Lemma upstream_data_conn l c d :
  let c' := (upstream_data (l, c) d).2 in
  c_fd c' = c_fd c ∧ c_hello c' = c_hello c ∧
  (length (c_recvbuf c') ≤ length (c_recvbuf c) + length d)%nat.
Proof.
  cbv zeta. rewrite upstream_data_scan. unfold scan_result, scan_all.
  pose proof (scan_rest_le (S (length (c_recvbuf c ++ d))) (c_recv_garbage c)
    (c_recvbuf c ++ d)) as Hr. rewrite (length_app (c_recvbuf c)) in Hr at 2.
  set (r := scan _ _ _) in *. clearbody r.
  assert (E : ∀ ms s, c_fd (foldl upstream_msg s ms).2 = c_fd s.2 ∧
    c_hello (foldl upstream_msg s ms).2 = c_hello s.2).
  { clear. induction ms as [|m ms IH]; intros s; [done|]. cbn [foldl].
    destruct (IH (upstream_msg s m)) as [-> ->].
    pose proof (upstream_msg_conn s m) as E. unfold conn in E. split; congruence. }
  destruct (E (sc_msgs r) (l, c)) as [E1 E2]. destruct (foldl _ _ _) as [l' c']. cbn [snd] in *.
  destruct (sc_lost r); [|done].
  pose proof (lost_conn (with_recv (sc_rest r) (sc_garbage r) c')) as E3. unfold conn in E3.
  injection E3 as E3 E4 E5. rewrite E3, E4, E5. done.
Qed.
End conn.

(** What a frame source promises: acquiring fills in its part of the client
    and leaves the connection as it was. *)
Class SourceLaws `(S : SourceOps) := {
  src_acquire_conn a p c st a' c' : src_acquire a p c = (st, a', c') → conn c' = conn c }.

Section server.
Context `{X : X264} `{L : LZ4} `{P : Platform} `{N : NetNames} `{SO : !SourceOps}
  `{!SourceLaws SO} `{!Peripherals} `{Files}.
Implicit Types (c : SremfbClient) (s : SremfbServer).

(** ** The array of clients *)
Lemma remove_ptr_split p c l1 l2 :
  NoDup (l1 ++ (p, c) :: l2).*1 → remove_ptr p (l1 ++ (p, c) :: l2) = l1 ++ l2.
Proof.
  intros Hnd. rewrite fmap_app in Hnd. cbn in Hnd.
  apply NoDup_app in Hnd as (_&H1&[H2 _]%NoDup_cons). unfold remove_ptr.
  assert (E : ∀ l, p ∉ l.*1 → filter (λ pc : nat * SremfbClient, pc.1 ≠ p) l = l).
  { clear. induction l as [|[q d] l IH]; intros Hp; [done|]. cbn [fmap list_fmap fst] in Hp.
    apply not_elem_of_cons in Hp as [Hq Hp].
    rewrite filter_cons_True by (cbn; congruence). f_equal. by apply IH. }
  rewrite filter_app, filter_cons_False by naive_solver. rewrite !E; [done|done|].
  intros Hin. by apply (H1 p Hin), list_elem_of_here.
Qed.

Lemma set_ptr_split p c c' l1 l2 :
  NoDup (l1 ++ (p, c) :: l2).*1 →
  set_ptr p c' (l1 ++ (p, c) :: l2) = l1 ++ (p, c') :: l2.
Proof.
  intros Hnd. rewrite fmap_app in Hnd. cbn in Hnd.
  apply NoDup_app in Hnd as (_&H1&[H2 _]%NoDup_cons). unfold set_ptr.
  assert (E : ∀ l, p ∉ l.*1 →
    (λ pc : nat * SremfbClient, if bool_decide (pc.1 = p) then (p, c') else pc) <$> l = l).
  { clear. induction l as [|[q d] l IH]; intros Hp; [done|]. cbn in *.
    apply not_elem_of_cons in Hp as [Hq Hp].
    rewrite bool_decide_eq_false_2 by congruence. f_equal. by apply IH. }
  rewrite fmap_app. cbn. rewrite bool_decide_eq_true_2 by done.
  rewrite !E; [done|done|]. intros Hin. by apply (H1 p Hin), list_elem_of_here.
Qed.

(** ** The invariant

    [pend] are the descriptors on_listen_ready() holds and has not yet
    given to a client or closed. *)
Definition fds s : list Z := (c_fd ∘ snd) <$> sv_clients s.
Definition macs s : list bytes := (ch_mac ∘ c_hello ∘ snd) <$> sv_clients s.

Definition client_ok c : Prop :=
  hello_valid (c_hello c) = true ∧ 0 ≤ c_fd c ∧ recvlen (c_recvbuf c) ≤ RECVBUF_SIZE.

Record sv_inv (pend : list Z) s : Prop := {
  si_ptrs : NoDup (sv_clients s).*1;
  si_next : Forall (λ p, p < sv_next s)%nat (sv_clients s).*1;
  si_max : Z.of_nat (length (sv_clients s)) ≤ SREMFB_MAX_CLIENTS;
  si_clients : Forall (λ pc, client_ok pc.2) (sv_clients s);
  si_macs : NoDup (filter (λ m, mac_is_zero m = false) (macs s));
  si_open : NoDup (pend ++ fds s);
  si_fds : sv_accepted s ≡ₚ sv_closed s ++ pend ++ fds s;
  si_src : sv_acquired s ≡ₚ sv_released s ++ (sv_clients s).*1 }.

(** Two clients of the server with the same connection. *)
Definition same_conn c c' : Prop := c_fd c' = c_fd c ∧ c_hello c' = c_hello c.

Lemma conn_same c c' : conn c' = conn c → same_conn c c' ∧ c_recvbuf c' = c_recvbuf c.
Proof. unfold conn. intros E. by injection E. Qed.

(** Losing a client, on the fields the invariant speaks of. *)
Lemma client_lost_fields s p c :
  0 ≤ c_fd c →
  let s' := sremfb_client_lost s p c in
  sv_clients s' = remove_ptr p (sv_clients s) ∧ sv_next s' = sv_next s ∧
  sv_accepted s' = sv_accepted s ∧ sv_closed s' = sv_closed s ++ [c_fd c] ∧
  sv_acquired s' = sv_acquired s ∧ sv_released s' = sv_released s ++ [p] ∧
  sv_allow s' = sv_allow s ∧ sv_refusals s' = sv_refusals s ∧
  sv_files s' = sremfb_usb_peer_remove (sv_files s) c.
Proof.
  intros Hfd. cbv zeta. unfold sremfb_client_lost. cbv zeta.
  assert (E : ∀ c0, c_fd (sremfb_xmit_reset c0⟨c_audio := None⟩) = c_fd c0) by done.
  rewrite E. assert (E1 : ∀ c0, c_fd (sremfb_input_stop c0).2 = c_fd c0 ∧
    c_usb_cap (sremfb_input_stop c0).2 = c_usb_cap c0 ∧
    c_peer (sremfb_input_stop c0).2 = c_peer c0).
  { intros c0. unfold sremfb_input_stop. by case_match. }
  destruct (E1 c⟨c_lost_id := 0⟩⟨c_watch_id := 0⟩) as (->&E2&E3).
  change (c_fd c⟨c_lost_id := 0⟩⟨c_watch_id := 0⟩) with (c_fd c).
  destruct (0 <=? c_fd c) eqn:Hge; [|lia]. split_and!; try done.
  unfold sremfb_usb_peer_remove, usb_peer_path. cbn.
  set (c1 := (sremfb_input_stop _).2) in *.
  change (c_usb_cap c1⟨c_audio := None⟩) with (c_usb_cap c1).
  change (c_peer c1⟨c_audio := None⟩) with (c_peer c1). by rewrite E2, E3.
Qed.

Lemma client_lost_inv pend s p c c' :
  sv_inv pend s → (p, c) ∈ sv_clients s → c_fd c' = c_fd c →
  sv_inv pend (sremfb_client_lost s p c').
Proof.
  intros Hi Hin Hfd. apply list_elem_of_split in Hin as (l1&l2&Hl).
  destruct Hi as [Hp Hn Hm Hc Hmac Ho Hf Hs]. unfold fds, macs in *. rewrite Hl in *.
  pose proof Hc as Hc'. rewrite Forall_app, Forall_cons in Hc'.
  destruct Hc' as (Hc1&(_&Hfd0&_)&Hc2). cbn [snd] in Hfd0.
  destruct (client_lost_fields s p c') as (E1&E2&E3&E4&E5&E6&_); [lia|].
  rewrite Hl, remove_ptr_split in E1 by done.
  rewrite !fmap_app in *. cbn [fmap list_fmap fst snd compose] in *.
  constructor; unfold fds, macs; rewrite ?E1, ?E2, ?E3, ?E4, ?E5, ?E6, ?fmap_app.
  - apply NoDup_app in Hp as (?&Hd&[? ?]%NoDup_cons). apply NoDup_app. split_and!; [done| |done].
    intros x Hx Hx2. apply (Hd x Hx), list_elem_of_further, Hx2.
  - apply Forall_app in Hn as [? [_ ?]%Forall_cons]. by apply Forall_app.
  - rewrite length_app in *. cbn [length] in Hm. lia.
  - by rewrite Forall_app.
  - rewrite filter_app in *. rewrite filter_cons in Hmac.
    apply NoDup_app in Hmac as (H1&H2&H3). apply NoDup_app. split_and!; [done| |].
    + intros x Hx Hx2. apply (H2 x Hx). case_decide; [|done]. by apply list_elem_of_further.
    + case_decide; [by apply NoDup_cons in H3 as [_ H3]|done].
  - rewrite app_assoc in Ho. apply NoDup_app in Ho as (H1&H2&[H3 H4]%NoDup_cons).
    rewrite app_assoc. apply NoDup_app. split_and!; [done| |done].
    intros x Hx Hx2. apply (H2 x Hx), list_elem_of_further, Hx2.
  - rewrite Hf, Hfd. rewrite <- app_assoc. apply Permutation_app_head.
    rewrite !app_assoc. rewrite <- Permutation_middle. cbn. by rewrite <- app_assoc.
  - rewrite Hs, <- app_assoc. apply Permutation_app_head.
    by rewrite <- Permutation_middle.
Qed.

(** The other operations on the array. *)
Lemma set_ptr_inv pend s p c c' :
  sv_inv pend s → (p, c) ∈ sv_clients s → same_conn c c' →
  recvlen (c_recvbuf c') ≤ RECVBUF_SIZE → sv_inv pend s⟨sv_clients ::= set_ptr p c'⟩.
Proof.
  intros Hi Hin [Hfd Hh] Hr. apply list_elem_of_split in Hin as (l1&l2&Hl).
  destruct Hi as [Hp Hn Hm Hc Hmac Ho Hf Hs].
  assert (E : sv_clients s⟨sv_clients ::= set_ptr p c'⟩ = l1 ++ (p, c') :: l2).
  { cbn. rewrite Hl in *. by apply (set_ptr_split _ c). }
  assert (E1 : (l1 ++ (p, c') :: l2).*1 = (sv_clients s).*1) by (by rewrite Hl, !fmap_app).
  assert (E2 : fds s⟨sv_clients ::= set_ptr p c'⟩ = fds s).
  { unfold fds. rewrite E, Hl, !fmap_app. cbn. by rewrite Hfd. }
  assert (E3 : macs s⟨sv_clients ::= set_ptr p c'⟩ = macs s).
  { unfold macs. rewrite E, Hl, !fmap_app. cbn. by rewrite Hh. }
  constructor; rewrite ?E, ?E1, ?E2, ?E3; try done.
  - rewrite Hl in Hm. by rewrite length_app in *.
  - rewrite Hl in Hc. apply Forall_app in Hc as [? [(?&?&?) ?]%Forall_cons].
    apply Forall_app. split; [done|]. constructor; [|done]. unfold client_ok. cbn.
    by rewrite Hh, Hfd.
Qed.

Lemma sv_inv_fields pend s s' :
  sv_inv pend s → sv_clients s' = sv_clients s → (sv_next s ≤ sv_next s')%nat →
  sv_accepted s' = sv_accepted s → sv_closed s' = sv_closed s →
  sv_acquired s' = sv_acquired s → sv_released s' = sv_released s → sv_inv pend s'.
Proof.
  intros [Hp Hn Hm Hc Hmac Ho Hf Hs] E1 E2 E3 E4 E5 E6.
  constructor; unfold fds, macs in *; rewrite ?E1, ?E3, ?E4, ?E5, ?E6; try done.
  eapply Forall_impl; [exact Hn|]. cbn. intros; lia.
Qed.

Lemma accepted_inv s fd :
  sv_inv [] s → fd ∉ fds s → sv_inv [fd] s⟨sv_accepted ::= λ l, l ++ [fd]⟩.
Proof.
  intros [Hp Hn Hm Hc Hmac Ho Hf Hs] Hfd. constructor; try done.
  - cbn in *. by constructor.
  - change (sv_accepted s ++ [fd] ≡ₚ sv_closed s ++ [fd] ++ fds s). rewrite Hf. cbn.
    by rewrite <- app_assoc, (Permutation_app_comm (fds s)).
Qed.

Lemma refuse_inv s fd st sends : sv_inv [fd] s → sv_inv [] (refuse s fd st sends).
Proof.
  intros [Hp Hn Hm Hc Hmac Ho Hf Hs]. constructor; try done.
  - by apply NoDup_cons in Ho as [_ ?].
  - change (sv_accepted s ≡ₚ (sv_closed s ++ [fd]) ++ [] ++ fds s). by rewrite Hf, <- app_assoc.
Qed.

Lemma add_inv s fd a c :
  sv_inv [fd] s → Z.of_nat (length (sv_clients s)) < SREMFB_MAX_CLIENTS →
  client_ok c → c_fd c = fd →
  (mac_is_zero (ch_mac (c_hello c)) = false → ch_mac (c_hello c) ∉ macs s) →
  sv_inv [] s⟨sv_next ::= S⟩⟨sv_src := a⟩⟨sv_acquired ::= λ l, l ++ [sv_next s]⟩
    ⟨sv_clients ::= λ l, l ++ [(sv_next s, c)]⟩.
Proof.
  intros [Hp Hn Hm Hc Hmac Ho Hf Hs] Hlt Hok <- Hnew.
  assert (Hfr : sv_next s ∉ (sv_clients s).*1).
  { intros Hin. rewrite Forall_forall in Hn. apply Hn in Hin. lia. }
  constructor; unfold fds, macs; cbn; rewrite ?fmap_app; cbn.
  - apply NoDup_app. split_and!; [done| |by apply NoDup_singleton].
    intros x Hx ->%list_elem_of_singleton. done.
  - apply Forall_app. split; [|by constructor; [lia|]].
    eapply Forall_impl; [exact Hn|]. cbn. intros; lia.
  - rewrite length_app. cbn. unfold SREMFB_MAX_CLIENTS in *. lia.
  - by apply Forall_app; split; [|apply Forall_singleton].
  - rewrite filter_app. apply NoDup_app. split_and!; [done| |].
    + intros x Hx Hx2. apply list_elem_of_filter in Hx as [_ Hx].
      apply list_elem_of_filter in Hx2 as [Hz ->%list_elem_of_singleton]. by apply (Hnew Hz).
    + apply NoDup_filter, NoDup_singleton.
  - cbn in Ho. by rewrite (Permutation_app_comm (_ <$> _)).
  - rewrite Hf. by rewrite (Permutation_app_comm (fds s)).
  - rewrite Hs. by rewrite <- app_assoc.
Qed.

(** ** Admission *)
Definition replace_same_mac s mac : SremfbServer :=
  if mac_is_zero mac then s
  else match find_client_by_mac s mac with
       | Some (p, old) => sremfb_client_lost s p old
       | None => s
       end.

Lemma find_mac_elem s mac p old :
  find_client_by_mac s mac = Some (p, old) →
  ∃ l1 l2, sv_clients s = l1 ++ (p, old) :: l2 ∧ ch_mac (c_hello old) = mac.
Proof.
  unfold find_client_by_mac. intros Hf.
  destruct (list_find _ _) as [[i pc]|] eqn:E; [|done]. cbn in Hf. simplify_eq.
  apply list_find_Some in E as (Hl&Hm&_).
  exists (take i (sv_clients s)), (drop (S i) (sv_clients s)). split; [|done].
  by rewrite take_drop_middle.
Qed.

Lemma replace_inv pend s mac :
  sv_inv pend s → let s1 := replace_same_mac s mac in
  sv_inv pend s1 ∧ (mac_is_zero mac = false → mac ∉ macs s1).
Proof.
  intros Hi. cbv zeta. unfold replace_same_mac. destruct (mac_is_zero mac) eqn:Hz; [done|].
  destruct (find_client_by_mac s mac) as [[p old]|] eqn:Hf.
  - destruct (find_mac_elem s mac p old Hf) as (l1&l2&Hl&Hm).
    assert (Hin : (p, old) ∈ sv_clients s) by (rewrite Hl; set_solver).
    split; [by eapply client_lost_inv|]. intros _.
    pose proof (si_macs _ _ Hi) as Hnd. pose proof (si_ptrs _ _ Hi) as Hp.
    pose proof (si_clients _ _ Hi) as Hc. rewrite Forall_forall in Hc.
    destruct (Hc _ Hin) as (_&Hfd&_). cbn in Hfd.
    destruct (client_lost_fields s p old Hfd) as (E1&_). rewrite Hl, remove_ptr_split in E1.
    2:{ by rewrite Hl in Hp. }
    unfold macs in *. rewrite E1, fmap_app. rewrite Hl, fmap_app, filter_app in Hnd.
    rewrite fmap_cons, filter_cons_True in Hnd by (cbn; by rewrite Hm).
    cbn [compose snd] in Hnd. rewrite Hm in Hnd.
    apply NoDup_app in Hnd as (_&H1&[H2 _]%NoDup_cons). intros [Hin'|Hin']%elem_of_app.
    + apply (H1 mac); [by apply list_elem_of_filter|apply list_elem_of_here].
    + by apply H2, list_elem_of_filter.
  - split; [done|]. intros _ Hin. unfold find_client_by_mac in Hf.
    destruct (list_find _ _) as [[i pc]|] eqn:E; [done|]. apply list_find_None in E.
    unfold macs in Hin. apply list_elem_of_fmap in Hin as (pc&Hm&Hin).
    rewrite Forall_forall in E. by apply (E pc Hin).
Qed.

Lemma accept_spec allow fd ss reads cfd hello peer :
  net_accept_and_hello allow fd ss reads = Some (cfd, hello, peer) → cfd = fd ∧ 0 ≤ fd.
Proof.
  unfold net_accept_and_hello. destruct (fd <? 0) eqn:?; [done|]. case_match; [done|].
  destruct (Net.readn 48 reads) as [[b rest]|]; [|done]. cbn. intros. simplify_eq. lia.
Qed.

Lemma new_client_conn cfd hello peer : conn (new_client cfd hello peer) = (cfd, hello, []).
Proof. done. Qed.

Lemma listen_inv s fd ss reads sends :
  sv_inv [] s → (0 ≤ fd → fd ∉ fds s) → sv_inv [] (on_listen_ready s fd ss reads sends).
Proof.
  intros Hi Hfresh. unfold on_listen_ready.
  destruct (net_accept_and_hello _ _ _ _) as [[[cfd hello] peer]|] eqn:Ha; [|done].
  apply accept_spec in Ha as [-> Hfd]. pose proof (accepted_inv s fd Hi (Hfresh Hfd)) as Hi1.
  cbv zeta. set (s1 := s⟨sv_accepted ::= _⟩) in *. clearbody s1.
  destruct (hello_valid hello) eqn:Hv; cbn [negb]; [|by apply refuse_inv].
  destruct (replace_inv [fd] s1 (ch_mac hello) Hi1) as [Hi2 Hmac].
  fold (replace_same_mac s1 (ch_mac hello)). set (s2 := replace_same_mac _ _) in *.
  clearbody s2. clear Hi Hi1 Hfresh s s1.
  destruct (SREMFB_MAX_CLIENTS <=? _) eqn:Hmax; [by apply refuse_inv|].
  set (sa := match src_admit with Some _ => _ | None => _ end).
  assert (Hi3 : sv_inv [fd] sa.2 ∧ sv_clients sa.2 = sv_clients s2).
  { subst sa. destruct src_admit as [f_admit|]; [|done]. destruct (f_admit _) as [st a].
    split; [|done]. apply (sv_inv_fields _ s2); done. }
  destruct sa as [st s3]. cbn [snd] in Hi3. destruct Hi3 as [Hi3 Hc3].
  destruct (negb _); [by apply refuse_inv|].
  destruct (src_acquire _ _ _) as [[st' a] c] eqn:Hq.
  apply src_acquire_conn in Hq. rewrite new_client_conn in Hq.
  unfold conn in Hq. injection Hq as E1 E2 E3.
  destruct (negb _); [apply refuse_inv, (sv_inv_fields _ s3); try done; cbn; lia|].
  unfold g_source_new. apply (add_inv s3 fd); [done|rewrite Hc3; lia| |done|].
  - unfold client_ok. cbn. rewrite E1, E2, E3. split_and!; [done|done|]. unfold recvlen. cbn.
    unfold RECVBUF_SIZE. lia.
  - intros Hz. cbn in *. rewrite E2 in *. unfold macs. rewrite Hc3. by apply Hmac.
Qed.

(** ** The main loop *)
Inductive sv_step : SremfbServer → SremfbServer → Prop :=
  | sv_listen s fd ss reads sends : (0 ≤ fd → fd ∉ fds s) →
      sv_step s (on_listen_ready s fd ss reads sends)
  | sv_io s p c io_in r : (p, c) ∈ sv_clients s → sv_step s (on_client_io s p c io_in r).2
  | sv_idle s p c : (p, c) ∈ sv_clients s → c_lost_id c ≠ 0 →
      sv_step s (client_lost_idle s p c)
  | sv_tx s p c c' : (p, c) ∈ sv_clients s → tx_step c c' →
      sv_step s s⟨sv_clients ::= set_ptr p c'⟩
  | sv_usb s p c : (p, c) ∈ sv_clients s →
      sv_step s s⟨sv_files ::= λ f, sremfb_usb_peer_add f c⟩
  | sv_source s p c c' a : (p, c) ∈ sv_clients s → conn c' = conn c →
      sv_step s s⟨sv_src := a⟩⟨sv_clients ::= set_ptr p c'⟩.

(** sremfb_serve() before the first event *)
Definition sv_fresh s : Prop :=
  sv_accepted s = [] ∧ sv_closed s = [] ∧ sv_acquired s = [] ∧ sv_released s = [].

Lemma serve_start_inv s : sv_fresh s → sv_inv [] (serve_start s).
Proof.
  intros (E1&E2&E3&E4). constructor; unfold fds, macs; cbn; rewrite ?E1, ?E2, ?E3, ?E4;
    try constructor. by unfold SREMFB_MAX_CLIENTS.
Qed.

Lemma client_in_ok s p c : sv_inv [] s → (p, c) ∈ sv_clients s → client_ok c.
Proof.
  intros Hi Hin. pose proof (si_clients _ _ Hi) as Hc. rewrite Forall_forall in Hc.
  by apply (Hc (p, c)).
Qed.

Lemma client_io_inv s p c io_in r :
  sv_inv [] s → (p, c) ∈ sv_clients s → sv_inv [] (on_client_io s p c io_in r).2.
Proof.
  intros Hi Hin. destruct (client_in_ok s p c Hi Hin) as (_&_&Hr). unfold on_client_io.
  assert (Hg : sv_inv [] (sremfb_client_lost s p c⟨c_watch_id := 0⟩))
    by (by eapply client_lost_inv).
  destruct io_in; [|done]. destruct r as [b| | |]; try done.
  destruct (take _ b) as [|x data] eqn:Hd; [done|]. rewrite <- Hd.
  pose proof (upstream_data_conn (sv_layout s) c
    (take (Z.to_nat (RECVBUF_SIZE - recvlen (c_recvbuf c))) b)) as (E1&E2&E3).
  destruct (upstream_data _ _) as [l c']. cbn [snd] in *.
  apply (set_ptr_inv [] s⟨sv_layout := l⟩ p c c'); [by apply (sv_inv_fields _ s)|done|done|].
  unfold recvlen, RECVBUF_SIZE in *. rewrite length_take in E3. lia.
Qed.

Lemma sv_step_inv s s' : sv_step s s' → sv_inv [] s → sv_inv [] s'.
Proof.
  intros Hst Hi. destruct Hst as [s fd ss reads sends Hf|s p c io_in r Hin|s p c Hin Hl|
    s p c c' Hin Htx|s p c Hin|s p c c' a Hin Hc].
  - by apply listen_inv.
  - by apply client_io_inv.
  - unfold client_lost_idle. by apply (client_lost_inv [] s p c).
  - apply tx_step_conn, conn_same in Htx as [Hc Hr].
    destruct (client_in_ok s p c Hi Hin) as (_&_&Hb).
    eapply set_ptr_inv; [done|done|done|by rewrite Hr].
  - by apply (sv_inv_fields _ s).
  - apply conn_same in Hc as [Hc Hr]. destruct (client_in_ok s p c Hi Hin) as (_&_&Hb).
    apply (set_ptr_inv [] s⟨sv_src := a⟩ p c c'); [by apply (sv_inv_fields _ s)|done|done|].
    by rewrite Hr.
Qed.

Lemma reachable_inv s s' : sv_fresh s → rtc sv_step (serve_start s) s' → sv_inv [] s'.
Proof.
  intros Hf Hr. pose proof (serve_start_inv s Hf) as Hi. clear Hf.
  induction Hr as [|s1 s2 s3 H1 _ IH]; [done|]. by apply IH, (sv_step_inv s1).
Qed.

(** (C6) What holds of the server at any time, whatever the clients send:
    at most 8 clients, no MAC address twice (but the all-zero one), each
    client with a valid hello, its own open descriptor and at most 1024
    bytes in its reassembly buffer; the clients are distinct; every
    descriptor the session accepted is either a client's or was closed
    exactly once, and every source it acquired is either the source of
    exactly one client or was released exactly once. *)
Theorem server_invariant s0 s :
  sv_fresh s0 → rtc sv_step (serve_start s0) s →
  Z.of_nat (length (sv_clients s)) ≤ SREMFB_MAX_CLIENTS ∧
  NoDup (filter (λ m, mac_is_zero m = false) (macs s)) ∧ NoDup (fds s) ∧
  Forall (λ pc, hello_valid (c_hello pc.2) = true ∧ 0 ≤ c_fd pc.2 ∧
    recvlen (c_recvbuf pc.2) ≤ RECVBUF_SIZE) (sv_clients s) ∧
  sv_accepted s ≡ₚ sv_closed s ++ fds s ∧
  NoDup (sv_clients s).*1 ∧ sv_acquired s ≡ₚ sv_released s ++ (sv_clients s).*1.
Proof. intros Hf Hr. by destruct (reachable_inv s0 s Hf Hr). Qed.

Lemma serve_stop_inv n s :
  sv_inv [] s → n = length (sv_clients s) →
  sv_inv [] (serve_stop_ n s) ∧ sv_clients (serve_stop_ n s) = [].
Proof.
  revert s. induction n as [|n IH]; intros s Hi Hn; cbn [serve_stop_].
  { split; [done|]. by destruct (sv_clients s). }
  destruct (sv_clients s) as [|[p c] l] eqn:Hl; [done|].
  assert (Hin : (p, c) ∈ sv_clients s) by (rewrite Hl; apply list_elem_of_here).
  destruct (client_in_ok s p c Hi Hin) as (_&Hfd&_).
  destruct (client_lost_fields s p c Hfd) as (E1&_).
  apply IH; [by eapply client_lost_inv|]. pose proof (si_ptrs _ _ Hi) as Hp.
  rewrite Hl in Hp. pose proof (remove_ptr_split p c [] l Hp) as E2. cbn [app] in E2.
  rewrite E1, Hl, E2. cbn in *. lia.
Qed.

(** (C22) Shutting down leaks nothing: the loop at the end of
    sremfb_serve() ends with no client left; every descriptor accepted was
    closed exactly once and every frame source acquired was released
    exactly once. *)
Theorem serve_stop_clean s0 s :
  sv_fresh s0 → rtc sv_step (serve_start s0) s →
  sv_clients (serve_stop s) = [] ∧ sv_closed (serve_stop s) ≡ₚ sv_accepted (serve_stop s) ∧
  sv_released (serve_stop s) ≡ₚ sv_acquired (serve_stop s).
Proof.
  intros Hf Hr. pose proof (reachable_inv s0 s Hf Hr) as Hi.
  destruct (serve_stop_inv _ s Hi eq_refl) as [Hi' Hnil]. fold (serve_stop s) in *.
  destruct Hi' as [_ _ _ _ _ _ Hfd Hsrc]. unfold fds in Hfd. rewrite Hnil in *.
  rewrite app_nil_r in *. split_and!; [done|by rewrite Hfd|by rewrite Hsrc].
Qed.

(** What the source says of a newcomer: the status of admit(), when the
    backend has one, and then of acquire(). *)
Definition newcomer_status s (c : SremfbClient) : Z :=
  let '(st, a) :=
    match src_admit with Some f_admit => f_admit (sv_src s) | None => (SREMFB_STATUS_OK, sv_src s) end in
  if negb (st =? SREMFB_STATUS_OK) then st else (src_acquire a (sv_next s) c).1.1.

Lemma admit_state s :
  match src_admit with
  | Some f_admit => let '(st, a) := f_admit (sv_src s) in (st, s⟨sv_src := a⟩)
  | None => (SREMFB_STATUS_OK, s)
  end =
  let '(st, a) :=
    match src_admit with Some f_admit => f_admit (sv_src s) | None => (SREMFB_STATUS_OK, sv_src s) end in
  (st, s⟨sv_src := a⟩).
Proof. destruct src_admit; [done|by destruct s]. Qed.

(** (C23) A reconnecting box takes its own place: a valid hello with the
    (non-zero) MAC address of a connected client drops that client and
    closes its descriptor before anything else is decided, so the box is
    never turned away because the server is full. Its source then decides:
    if admit() and acquire() answer OK the box is a client again, with the
    new descriptor and hello; otherwise the new connection is refused with
    their status and closed, and the box has no connection left. *)
Theorem reconnect_replaces s fd ss reads sends hello peer p old :
  sv_inv [] s → (fd ∉ fds s) →
  net_accept_and_hello (sv_allow s) fd ss reads = Some (fd, hello, peer) →
  hello_valid hello = true → mac_is_zero (ch_mac hello) = false →
  find_client_by_mac s (ch_mac hello) = Some (p, old) →
  let st := newcomer_status (sremfb_client_lost s⟨sv_accepted ::= λ l, l ++ [fd]⟩ p old)
    (new_client fd hello peer) in
  let s' := on_listen_ready s fd ss reads sends in
  if st =? SREMFB_STATUS_OK then
    ∃ c', sv_clients s' = remove_ptr p (sv_clients s) ++ [(sv_next s, c')] ∧
      c_hello c' = hello ∧ ch_mac hello = ch_mac (c_hello old) ∧ c_fd c' = fd ∧
      length (sv_clients s') = length (sv_clients s) ∧
      sv_closed s' = sv_closed s ++ [c_fd old] ∧ sv_refusals s' = sv_refusals s
  else
    sv_clients s' = remove_ptr p (sv_clients s) ∧ sv_closed s' = sv_closed s ++ [c_fd old; fd] ∧
    sv_refusals s' = sv_refusals s ++ [(fd, (net_send_server_hello 0 0 0 (u16 st) 0 sends).1)].
Proof.
  intros Hi Hfr Hacc Hv Hz Hfind. cbv zeta. unfold on_listen_ready.
  rewrite Hacc, Hv, Hz. cbn [negb]. set (s1 := s⟨sv_accepted ::= _⟩).
  change (find_client_by_mac s1 (ch_mac hello)) with (find_client_by_mac s (ch_mac hello)).
  rewrite Hfind. destruct (find_mac_elem s _ p old Hfind) as (l1&l2&Hl&Hm).
  assert (Hin : (p, old) ∈ sv_clients s) by (rewrite Hl; set_solver).
  destruct (client_in_ok s p old Hi Hin) as (_&Hfd&_).
  destruct (client_lost_fields s1 p old Hfd) as (E1&E2&_&E4&_&_&_&E8&_).
  set (s2 := sremfb_client_lost s1 p old) in *.
  change (sv_clients s1) with (sv_clients s) in E1. change (sv_next s1) with (sv_next s) in E2.
  change (sv_closed s1) with (sv_closed s) in E4. change (sv_refusals s1) with (sv_refusals s) in E8.
  assert (Hlen : S (length (sv_clients s2)) = length (sv_clients s)).
  { pose proof (si_ptrs _ _ Hi) as Hp. rewrite E1, Hl in *. rewrite remove_ptr_split by done.
    rewrite !length_app. cbn. lia. }
  pose proof (si_max _ _ Hi) as Hmax. clearbody s2.
  destruct (SREMFB_MAX_CLIENTS <=? _) eqn:Hfull; [lia|]. clear Hfull.
  rewrite admit_state. unfold newcomer_status.
  destruct (match src_admit with Some f => _ | None => _ end) as [st a].
  destruct (st =? SREMFB_STATUS_OK) eqn:Hst; cbn [negb].
  2:{ rewrite Hst. unfold refuse. cbn. rewrite E1, E4, E8, <- app_assoc. done. }
  change (sv_src s2⟨sv_src := a⟩) with a. change (sv_next s2⟨sv_src := a⟩) with (sv_next s2).
  destruct (src_acquire a (sv_next s2) (new_client fd hello peer)) as [[st' a'] c] eqn:Ha.
  cbn [fst]. destruct (st' =? SREMFB_STATUS_OK) eqn:Hst'; cbn [negb].
  2:{ unfold refuse. cbn. rewrite E1, E4, E8, <- app_assoc. done. }
  pose proof (src_acquire_conn _ _ _ _ _ _ Ha) as Hc.
  rewrite new_client_conn in Hc. unfold conn in Hc. injection Hc as C1 C2 C3.
  exists (c⟨c_next_source ::= Z.succ⟩⟨c_watch_id := c_next_source c⟩). cbn.
  rewrite E1, E2, length_app, <- E1. cbn. split_and!; try done; lia.
Qed.
End server.

(** ** Concrete inputs *)
Definition sample_source : @SourceOps sample_x264 := {|
  src_t := list nat; src_acquire := λ a p c, (SREMFB_STATUS_OK, p :: a, c);
  src_admit := None; src_release := λ a p _, filter (λ q, q ≠ p) a |}.
#[export] Instance sample_source_laws : @SourceLaws sample_x264 sample_source.
Proof. split. intros a p c st a' c' E. by injection E as _ _ <-. Qed.
Definition sample_peripherals : @Peripherals sample_x264 := {|
  per_t := unit; sremfb_audio_stop := λ a _ _, a; sremfb_layout_client_gone := λ a _ _, a |}.
Definition sample_files : Files := λ _, true.
Definition sample_names : NetNames := λ _, "::1"%string.

Abbreviation sample_server := (@SremfbServer sample_x264 sample_source sample_peripherals).
Definition sample_sv0 : sample_server :=
  @mk_server sample_x264 sample_source sample_peripherals [] [] (mk_L true false false [] 0 0 0)
    [] tt ∅ 0%nat [] [] [] [] [].
Definition sample_peer (a : Z) : sockaddr := SA_INET (of_le [192; 0; 2; a]) 40000.
Definition sample_reads : list read_res :=
  [Net.RData (take 20 (client_hello_bytes (sample_hello SREMFB_PIX_XRGB8888 1))); REintr;
   Net.RData (drop 20 (client_hello_bytes (sample_hello SREMFB_PIX_XRGB8888 1)))].
Abbreviation sample_listen :=
  (@on_listen_ready sample_x264 sample_names sample_source sample_peripherals).
Definition sample_sv1 : sample_server :=
  sample_listen (@serve_start sample_x264 sample_source sample_peripherals sample_sv0)
    5 (sample_peer 7) sample_reads [].
(** The same box again, then a stranger *)
Definition sample_sv2 : sample_server :=
  sample_listen (sample_listen sample_sv1 6 (sample_peer 7) sample_reads [])
    7 (sample_peer 8) [Net.RData (replicate 48 0)] [SSent 16].

Abbreviation sample_sv_step := (@sv_step sample_x264 sample_lz4 sample_platform sample_names
  sample_source sample_peripherals sample_files).

Lemma sample_sv_reach1 :
  rtc sample_sv_step (@serve_start sample_x264 sample_source sample_peripherals sample_sv0)
    sample_sv1.
Proof. apply rtc_once, sv_listen. intros _. apply not_elem_of_nil. Qed.

Lemma sample_sv_reach2 :
  rtc sample_sv_step (@serve_start sample_x264 sample_source sample_peripherals sample_sv0)
    sample_sv2.
Proof.
  eapply rtc_r; [eapply rtc_r; [apply sample_sv_reach1|]|]; apply sv_listen; intros _;
    vm_compute; intros Hin; apply list_elem_of_In in Hin; cbn in Hin; intuition congruence.
Qed.

Lemma server_invariant_witness :
  length (sv_clients sample_sv2) = 1%nat ∧
  sv_accepted sample_sv2 ≡ₚ sv_closed sample_sv2 ++ fds sample_sv2 ∧
  sv_acquired sample_sv2 = [0; 1]%nat ∧
  sv_acquired sample_sv2 ≡ₚ sv_released sample_sv2 ++ (sv_clients sample_sv2).*1.
Proof.
  split; [vm_compute; reflexivity|].
  destruct (@server_invariant sample_x264 sample_lz4 sample_platform sample_names sample_source
    _ sample_peripherals sample_files sample_sv0 sample_sv2) as (_&_&_&_&E&_&F).
  - by split_and!.
  - exact sample_sv_reach2.
  - split_and!; [exact E|vm_compute; reflexivity|exact F].
Defined.

Lemma serve_stop_clean_witness :
  sv_accepted (serve_stop sample_sv2) = [5; 6; 7] ∧
  sv_closed (serve_stop sample_sv2) ≡ₚ sv_accepted (serve_stop sample_sv2).
Proof.
  split; [vm_compute; reflexivity|].
  destruct (@serve_stop_clean sample_x264 sample_lz4 sample_platform sample_names sample_source
    _ sample_peripherals sample_files sample_sv0 sample_sv2) as (_&E&_).
  - by split_and!.
  - exact sample_sv_reach2.
  - exact E.
Defined.

(** A source that admits nobody *)
Definition sample_refusing : @SourceOps sample_x264 := {|
  src_t := list nat; src_acquire := λ a p c, (SREMFB_STATUS_OK, p :: a, c);
  src_admit := Some (λ a, (SREMFB_STATUS_NO_DEVICE, a)); src_release := λ a p _, filter (λ q, q ≠ p) a |}.

Lemma reconnect_replaces_witness :
  ∃ c', sv_clients (sample_listen sample_sv1 6 (sample_peer 7) sample_reads []) =
    remove_ptr 0 (sv_clients sample_sv1) ++ [(1%nat, c')] ∧ c_fd c' = 6.
Proof.
  pose proof (@reconnect_replaces sample_x264 sample_names sample_source
    _ sample_peripherals sample_sv1 6 (sample_peer 7) sample_reads []
    (sample_hello SREMFB_PIX_XRGB8888 1) "192.0.2.7:40000" 0%nat
    (snd (default (0%nat, @sample_client sample_x264 0 []) (head (sv_clients sample_sv1))))) as H.
  destruct H as (c'&E1&_&_&E2&_).
  - apply (@reachable_inv sample_x264 sample_lz4 sample_platform sample_names sample_source
      _ sample_peripherals sample_files sample_sv0); [by split_and!|exact sample_sv_reach1].
  - vm_compute. intros Hin. apply list_elem_of_In in Hin. cbn in Hin. intuition congruence.
  - vm_compute. reflexivity.
  - vm_compute. reflexivity.
  - vm_compute. reflexivity.
  - vm_compute. reflexivity.
  - by exists c'.
Defined.

(** The box that reconnects to a backend with nothing to give is refused,
    and its old connection is closed too. *)
Example reconnect_refused :
  let sv := @mk_server sample_x264 sample_refusing sample_peripherals (sv_clients sample_sv1) []
    (mk_L true false false [] 0 0 0) [] tt ∅ 1%nat [5] [] [] [0%nat] [] in
  let s' := @on_listen_ready sample_x264 sample_names sample_refusing sample_peripherals sv
    6 (sample_peer 7) sample_reads [SSent 16] in
  sv_clients s' = [] ∧ sv_closed s' = [5; 6].
Proof. vm_compute. done. Qed.
