(* ===== verification/Served.v ===== *)
(** * A client served by a frame source

    [served c b]: the client was handed over by on_listen_ready(), got its
    hello, and since then did what [tx_any] allows ([b]: it is stale).  What
    every frame source needs to know about such a client is here. *)
From S2P Require Import Prelude Binary64 Protocol Core Convert Encoder Net Xmit Control Drain.
From S2P Require Import XmitSpec Dirty Coverage ViewH264 ViewNet Blit Paint.
From S2P Require Import Stream OutReady Link ViewRead Mirror.
From stdpp Require Import list relations.
#[local] Open Scope list_scope.
#[local] Open Scope Z_scope.

(** sremfb_input_start(): the flag and the client it leaves. *)
Class InputStart `{X264} := sremfb_input_start_op : SremfbClient → Z * SremfbClient.
(** sremfb_input_start() returns flags of one byte and only fills in the
    client's input part. *)
Class InputLaws `{X264} (I : InputStart) := {
  input_flags c : 0 ≤ (sremfb_input_start_op c).1 < 256;
  input_vis c : let c' := (sremfb_input_start_op c).2 in
    vis c' = vis c⟨c_input := c_input c'⟩ ∧ c_audio_token c' = c_audio_token c }.

Section served.
Context `{X : X264} `{L : LZ4} `{P : Platform}.
Implicit Types c : SremfbClient.

(** A client as on_listen_ready() hands it over. *)
Definition new_conn c : Prop :=
  0 ≤ c_fd c ∧ c_lost_id c = 0 ∧ c_outq c = [] ∧ c_outq_off c = 0 ∧ c_out_active c = false ∧
  c_wire c = [] ∧ c_dirty c = [] ∧ c_dirty_all c = false ∧ c_xmit_mode c = XMIT_RAW ∧
  0 ≤ c_audio_token c < 65536 ∧
  (ch_pixfmt (c_hello c) = SREMFB_PIX_XRGB8888 ∨ ch_pixfmt (c_hello c) = SREMFB_PIX_RGB565) ∧
  0 < ch_xres (c_hello c) < 65536 ∧ 0 < ch_yres (c_hello c) < 65536 ∧
  ch_xres (c_hello c) * ch_yres (c_hello c) * 4 ≤ LZ4_MAX_INPUT_SIZE.

(** The buffers of a client, as the transmit queue relies on them. *)
Definition grab_ok c (gb : bytes) : Prop :=
  geom_ok (c_geom c) ∧ c_grabbuf c = Some gb ∧ Z.of_nat (length gb) = frame_size c.


(** [c] was started as a session is, and only did what a client does. *)
Definition served c (b : bool) : Prop :=
  ∃ c0 grab0 flags, fresh_client c0 grab0 ∧ session_start c0 flags ∧
    rtc tx_any (sremfb_xmit_hello c0 flags, false) (c, b).

Lemma served_run c b c' b' : served c b → rtc tx_any (c, b) (c', b') → served c' b'.
Proof.
  intros (c0&g0&fl&Hf&Hs&Hr) Hr'. exists c0, g0, fl. split_and!; [done|done|by etrans].
Qed.
Lemma served_step c b c' : served c b → rtc tx_step c c' → served c' b.
Proof. intros Hc Hr. by eapply served_run, steps_any. Qed.

(** After the hello, only bookkeeping. *)
Lemma ctl_start_quiet c : c_xmit_mode c = XMIT_RAW →
  vis (sremfb_ctl_start c) = vis c ∧ c_state (sremfb_ctl_start c) = c_state c.
Proof.
  intros Hm. destruct c. cbn in Hm. subst.
  unfold sremfb_ctl_start, ctl_set_state, g_get_monotonic_time, g_source_new. cbn.
  case_match; cbn; by case_match.
Qed.

Lemma hello_fields c flags :
  c_geom (sremfb_xmit_hello c flags) = c_geom c ∧
  c_grabbuf (sremfb_xmit_hello c flags) = c_grabbuf c ∧
  c_xmit_mode (sremfb_xmit_hello c flags) = c_xmit_mode c.
Proof.
  unfold sremfb_xmit_hello. cbv zeta. set (m := server_hello_bytes _). clearbody m.
  destruct (pix_le_ctrl c m) as (E1&_&E2&_). destruct (ctrl_fields c m) as (_&_&_&E3&_). done.
Qed.

Lemma quiet_grabs c n : tx_step c c⟨c_st_grabs := n⟩.
Proof. by apply tx_quiet. Qed.

Lemma damage_grab c rects bpp : c_grabbuf (sremfb_xmit_damage c rects bpp) = c_grabbuf c ∧
  c_geom (sremfb_xmit_damage c rects bpp) = c_geom c.
Proof.
  unfold sremfb_xmit_damage.
  assert (E : ∀ rects c raw, let c' := (foldl (damage_one bpp) (c, raw) rects).1 in
    c_grabbuf c' = c_grabbuf c ∧ c_geom c' = c_geom c).
  { clear. induction rects as [|r rects IH]; intros c raw; [done|]. cbn [foldl].
    destruct (damage_one bpp (c, raw) r) as [c1 raw1] eqn:Hd. destruct (IH c1 raw1) as [-> ->].
    unfold damage_one, dirty_add in Hd. repeat case_match; simplify_eq; done. }
  specialize (E rects c 0). destruct (foldl _ _ _) as [c1 raw]. cbn [fst] in E.
  case_match; [done|]. destruct (xstep_pix_le _ _ (damage_kick_xstep c1⟨c_dirty_raw ::= Z.add raw⟩ raw))
    as (->&_&->&_). exact E.
Qed.

Lemma lor_flags_byte a b : 0 ≤ a < 256 → 0 ≤ b < 256 → 0 ≤ Z.lor a b < 256.
Proof.
  intros Ha Hb. assert (H0 : 0 ≤ Z.lor a b) by (apply Z.lor_nonneg; lia). split; [done|].
  destruct (decide (Z.lor a b = 0)) as [->|Hne]; [lia|].
  change 256 with (2 ^ 8). apply Z.log2_lt_pow2; [lia|]. rewrite Z.log2_lor by lia.
  apply Z.max_lub_lt; (destruct (decide (0 < a)), (decide (0 < b));
    try (apply Z.log2_lt_pow2; lia); rewrite Z.log2_nonpos; lia).
Qed.

Context `{!X264Laws X}.

Lemma served_link c b : served c b → link_any (c, b).
Proof.
  intros (c0&g0&fl&Hf&Hs&Hr).
  destruct (start_link (U := (false = true : Stale)) c0 g0 fl Hf Hs) as (Hl&_).
  by destruct (any_run _ _ Hr Hl).
Qed.

Lemma served_grab c b : served c b → ∃ gb, grab_ok c gb.
Proof.
  intros (_&_&Hd&_)%served_link. destruct Hd as (Hg&_&_&grab&_&Hgr&_&Hl&_).
  by exists grab.
Qed.
(** sremfb_input_start() does not show. *)
Lemma input_fresh `{I : !InputStart} `{!InputLaws I} c g :
  fresh_client c g → 0 ≤ c_fd c → c_lost_id c = 0 → 0 ≤ c_audio_token c < 65536 →
  let c' := (sremfb_input_start_op c).2 in
  fresh_client c' g ∧ c_geom c' = c_geom c ∧ ∀ flags, 0 ≤ flags < 256 → session_start c' flags.
Proof.
  intros Hf Hfd Hl Ht. cbv zeta. destruct (input_vis c) as [Hv Ha].
  set (c2 := (sremfb_input_start_op c).2) in *. clearbody c2.
  unfold vis in Hv. injection Hv as V1 V2 V3 V4 V5 V6 V7 V8 V9 V10 V11 V12 V13 V14 V15 V16 V17
    V18 V19 V20 V21 V22 V23 V24 V25 V26 V27 V28 V29 V30.
  cbn in V1, V2, V4, V5, V6, V7, V10, V11, V15, V18, V19, V20, V21.
  split_and!; [|done|].
  - unfold fresh_client, session_ok, frame_size in *.
    by rewrite V4, V5, V6, V7, V10, V11, V15, V18, V19, V20, V21.
  - intros flags Hb. unfold session_start. by rewrite V1, V2, Ha.
Qed.
End served.
