(* ===== verification/Kvm.v ===== *)
(** * kvm.h, kvm/diff.c and kvm/convert_uyvy.c: captured frames

    The state of the capture backend, the comparison of two frames by
    tiles, the rectangles made of the dirty tiles and the conversion of a
    rectangle of the captured frame into the BGRx master image.  Capture.v
    has the rest of the backend (capture.c). *)
From S2P Require Import Prelude Binary64 Protocol Core.
From stdpp Require Import list.
#[local] Open Scope list_scope.
#[local] Open Scope Z_scope.

(** linux/videodev2.h: v4l2_fourcc() *)
Definition V4L2_PIX_FMT_UYVY : Z := 0x59565955.
Definition V4L2_PIX_FMT_RGB24 : Z := 0x33424752.

Inductive kvm_geometry := KVM_GEOM_SOURCE | KVM_GEOM_CLIENT.
Inductive kvm_resize := KVM_RESIZE_SCALE | KVM_RESIZE_RECONNECT.
#[export] Instance kvm_geometry_eq_dec : EqDecision kvm_geometry.
Proof. solve_decision. Defined.
#[export] Instance kvm_resize_eq_dec : EqDecision kvm_resize.
Proof. solve_decision. Defined.

(** One capture buffer: its mapping ([None] when unmapped) and whether the
    driver has it. *)
Record sremfb_kvm_buf := mk_kvm_buf { kb_map : option bytes; kb_queued : bool }.
#[export] Instance eta_kvm_buf : Eta sremfb_kvm_buf := λ b,
  mk_kvm_buf (kb_map b) (kb_queued b).

(** SremfbKvmState; [k_test] says that the synthetic source of testsrc.c
    exists. *)
Record SremfbKvmState := mk_kvm {
  k_pixfmt : Z; k_tile : Z; k_geometry : kvm_geometry; k_resize : kvm_resize;
  k_fd : Z; k_streaming : bool; k_signal : bool; k_src_w : Z; k_src_h : Z;
  k_src_fps : Z; k_src_fourcc : Z; k_src_stride : Z; k_buf : list sremfb_kvm_buf;
  k_prev : Z; k_master : option bytes; k_tile_dirty : option bytes;
  k_tiles_x : Z; k_tiles_y : Z; k_poll_id : Z; k_test : bool; k_frames : Z;
  k_frames_dirty : Z; k_tiles_dirty_total : Z; k_nbuf : Z; k_src_size : Z;
  k_full_range : bool; k_frame_watch_id : Z; k_debounce_id : Z;
  k_last_restream_us : Z; k_lost_logged : bool }.
#[export] Instance eta_kvm : Eta SremfbKvmState := λ k,
  mk_kvm (k_pixfmt k) (k_tile k) (k_geometry k) (k_resize k) (k_fd k)
    (k_streaming k) (k_signal k) (k_src_w k) (k_src_h k) (k_src_fps k)
    (k_src_fourcc k) (k_src_stride k) (k_buf k) (k_prev k) (k_master k)
    (k_tile_dirty k) (k_tiles_x k) (k_tiles_y k) (k_poll_id k) (k_test k)
    (k_frames k) (k_frames_dirty k) (k_tiles_dirty_total k) (k_nbuf k)
    (k_src_size k) (k_full_range k) (k_frame_watch_id k) (k_debounce_id k)
    (k_last_restream_us k) (k_lost_logged k).

(** ** diff.c *)
Definition sremfb_kvm_src_bpp (fourcc : Z) : Z :=
  if fourcc =? V4L2_PIX_FMT_RGB24 then 3 else 2.

Definition kvm_stride (st : SremfbKvmState) : Z :=
  if negb (k_src_stride st =? 0) then k_src_stride st
  else k_src_w st * sremfb_kvm_src_bpp (k_src_fourcc st).

Definition sremfb_kvm_tiles_alloc (st : SremfbKvmState) : SremfbKvmState :=
  let t := if 0 <? k_tile st then k_tile st else 32 in
  let st := st⟨k_tile_dirty := None⟩ in
  let st := st⟨k_tiles_x := if 0 <? k_src_w st then (k_src_w st + t - 1) / t else 0⟩ in
  let st := st⟨k_tiles_y := if 0 <? k_src_h st then (k_src_h st + t - 1) / t else 0⟩ in
  if negb (k_tiles_x st =? 0) && negb (k_tiles_y st =? 0)
  then st⟨k_tile_dirty := Some (replicate (Z.to_nat (k_tiles_x st * k_tiles_y st)) 0)⟩
  else st.

(** memcmp() of pixel row [y] of tile column [tx] in the two frames: differ *)
Definition tile_row_differs (st : SremfbKvmState) (cur prev : bytes) (y tx : Z) : bool :=
  let t := k_tile st in
  let bpp := sremfb_kvm_src_bpp (k_src_fourcc st) in
  let x0 := tx * t in
  let x1 := Z.min (x0 + t) (k_src_w st) in
  let off := y * kvm_stride st + x0 * bpp in
  let len := (x1 - x0) * bpp in
  negb (bool_decide (slice off len cur = slice off len prev)).

(** One pixel row of a row of tiles: [s] is the tiles' bytes and [clean]. *)
Definition diff_row (st : SremfbKvmState) (cur prev : bytes) (y : Z) (s : bytes * Z)
    : bytes * Z :=
  for_ 0 (k_tiles_x st) (λ tx s,
    let '(row, clean) := s in
    if negb (nth (Z.to_nat tx) row 0 =? 0) then (row, clean)
    else if tile_row_differs st cur prev y tx
    then (<[Z.to_nat tx := 1]> row, clean - 1) else (row, clean)) s.

(** A row of tiles; the rows left are skipped once no tile is clean. *)
Definition diff_tiles (st : SremfbKvmState) (cur prev : bytes) (ty : Z) (s : bytes * Z)
    : bytes * Z :=
  let '(dirty, n) := s in
  let t := k_tile st in
  let y0 := ty * t in
  let y1 := Z.min (y0 + t) (k_src_h st) in
  let row := slice (ty * k_tiles_x st) (k_tiles_x st) dirty in
  let '(row, clean) :=
    for_ y0 (y1 - y0) (λ y s, if 0 <? s.2 then diff_row st cur prev y s else s)
      (row, k_tiles_x st) in
  (blit dirty (ty * k_tiles_x st) row, n + (k_tiles_x st - clean)).

Definition sremfb_kvm_diff (st : SremfbKvmState) (cur : bytes) (prev : option bytes)
    : SremfbKvmState * Z :=
  let ntiles := k_tiles_x st * k_tiles_y st in
  match k_tile_dirty st with
  | None => (st, 0)
  | Some _ =>
    if ntiles =? 0 then (st, 0)
    else
      match prev with
      | None => (st⟨k_tile_dirty := Some (replicate (Z.to_nat ntiles) 1)⟩, ntiles)
      | Some prev =>
        let '(dirty, n) :=
          for_ 0 (k_tiles_y st) (diff_tiles st cur prev)
            (replicate (Z.to_nat ntiles) 0, 0) in
        (st⟨k_tile_dirty := Some dirty⟩, n)
      end
  end.

(** [while (tx1 + 1 < tiles_x && row[tx1 + 1]) tx1++] *)
Fixpoint run_end (fuel : nat) (row : bytes) (tiles_x tx1 : Z) : Z :=
  match fuel with
  | O => tx1
  | S fuel =>
    if (tx1 + 1 <? tiles_x) && negb (nth (Z.to_nat (tx1 + 1)) row 0 =? 0)
    then run_end fuel row tiles_x (tx1 + 1) else tx1
  end.

(** The state of the outer loops: [out[0..n)], [overflow] and [bb]. *)
Record rects_st := mk_rects { rs_out : list sremfb_rect; rs_overflow : bool; rs_bb : sremfb_rect }.

(** Extends the last rect of [out] that ends where [r] starts. *)
Fixpoint merge_last (out : list sremfb_rect) (r : sremfb_rect) : option (list sremfb_rect) :=
  match out with
  | [] => None
  | o :: out =>
    match merge_last out r with
    | Some l => Some (o :: l)
    | None =>
      if (y2 o =? y1 r) && (x1 o =? x1 r) && (x2 o =? x2 r)
      then Some (o⟨y2 := y2 r⟩ :: out) else None
    end
  end.

Definition rects_add (max : Z) (r : sremfb_rect) (s : rects_st) : rects_st :=
  let bb := rs_bb s in
  let bb := mk_rect (Z.min (x1 bb) (x1 r)) (Z.min (y1 bb) (y1 r))
                    (Z.max (x2 bb) (x2 r)) (Z.max (y2 bb) (y2 r)) in
  if rs_overflow s then mk_rects (rs_out s) true bb
  else
    match merge_last (rs_out s) r with
    | Some out => mk_rects out false bb
    | None =>
      if Z.of_nat (length (rs_out s)) <? max then mk_rects (rs_out s ++ [r]) false bb
      else mk_rects (rs_out s) true bb
    end.

(** The loop over the tiles of a row from [tx] on. *)
Fixpoint rects_row (fuel : nat) (st : SremfbKvmState) (max : Z) (row : bytes) (ty tx : Z)
    (s : rects_st) : rects_st :=
  match fuel with
  | O => s
  | S fuel =>
    if tx <? k_tiles_x st then
      if nth (Z.to_nat tx) row 0 =? 0 then rects_row fuel st max row ty (tx + 1) s
      else
        let t := k_tile st in
        let y0 := ty * t in
        let y1 := Z.min (y0 + t) (k_src_h st) in
        let tx1 := run_end (Z.to_nat (k_tiles_x st)) row (k_tiles_x st) tx in
        let r := mk_rect (tx * t) y0 (Z.min ((tx1 + 1) * t) (k_src_w st)) y1 in
        rects_row fuel st max row ty (tx1 + 1) (rects_add max r s)
    else s
  end.

Definition sremfb_kvm_rects (st : SremfbKvmState) (max : Z) : list sremfb_rect :=
  match k_tile_dirty st with
  | None => []
  | Some dirty =>
    if max <=? 0 then []
    else
      let s := for_ 0 (k_tiles_y st) (λ ty s,
        let row := slice (ty * k_tiles_x st) (k_tiles_x st) dirty in
        rects_row (Z.to_nat (k_tiles_x st)) st max row ty 0 s)
        (mk_rects [] false (mk_rect (k_src_w st) (k_src_h st) 0 0)) in
      if rs_overflow s then [rs_bb s] else rs_out s
  end.

(** ** convert_uyvy.c *)
Definition sat8 (v : Z) : Z := u8 (if v <? 0 then 0 else if 255 <? v then 255 else v).

Record yuv_coef := mk_coef { ky : Z; yoff : Z; rv : Z; gu : Z; gv : Z; bu : Z }.
Definition COEF_LIMITED : yuv_coef := mk_coef 298 16 409 100 208 516.
Definition COEF_FULL : yuv_coef := mk_coef 256 0 359 88 183 454.

(** The two pixels of the bytes U Y0 V Y1. *)
Definition uyvy_pair (k : yuv_coef) (b0 b1 b2 b3 : Z) : bytes :=
  let u := b0 - 128 in
  let y0 := ky k * (b1 - yoff k) + 128 in
  let v := b2 - 128 in
  let y1 := ky k * (b3 - yoff k) + 128 in
  let cr := rv k * v in
  let cg := - gu k * u - gv k * v in
  let cb := bu k * u in
  [sat8 (Z.shiftr (y0 + cb) 8); sat8 (Z.shiftr (y0 + cg) 8); sat8 (Z.shiftr (y0 + cr) 8); 0xFF;
   sat8 (Z.shiftr (y1 + cb) 8); sat8 (Z.shiftr (y1 + cg) 8); sat8 (Z.shiftr (y1 + cr) 8); 0xFF].

Definition byte_of (src : bytes) (i : Z) : Z := nth (Z.to_nat i) src 0.

(** What is written from [dst] on; [src] starts at the first macro-pixel. *)
Definition uyvy_row (src : bytes) (npairs : Z) (k : yuv_coef) : bytes :=
  rows 0 npairs (λ i, uyvy_pair k (byte_of src (4 * i)) (byte_of src (4 * i + 1))
                        (byte_of src (4 * i + 2)) (byte_of src (4 * i + 3))).

Definition rgb24_row (src : bytes) (n : Z) : bytes :=
  rows 0 n (λ i, [byte_of src (3 * i + 2); byte_of src (3 * i + 1); byte_of src (3 * i); 0xFF]).

Definition sremfb_kvm_convert_rect (st : SremfbKvmState) (src : bytes) (r : sremfb_rect)
    : SremfbKvmState :=
  let x1 := Z.max (x1 r) 0 in
  let y1 := Z.max (y1 r) 0 in
  let x2 := Z.min (x2 r) (k_src_w st) in
  let y2 := Z.min (y2 r) (k_src_h st) in
  let stride := kvm_stride st in
  let mstride := k_src_w st * 4 in
  match k_master st with
  | None => st
  | Some master =>
    if (x2 <=? x1) || (y2 <=? y1) then st
    else if k_src_fourcc st =? V4L2_PIX_FMT_RGB24 then
      st⟨k_master := Some (for_ 0 (y2 - y1) (λ i m,
        blit m ((y1 + i) * mstride + x1 * 4)
          (rgb24_row (drop (Z.to_nat ((y1 + i) * stride + x1 * 3)) src) (x2 - x1))) master)⟩
    else
      let k := if k_full_range st then COEF_FULL else COEF_LIMITED in
      let x1 := Z.land x1 (Z.lnot 1) in
      let x2 := Z.min (Z.land (x2 + 1) (Z.lnot 1)) (Z.land (k_src_w st) (Z.lnot 1)) in
      if x2 <=? x1 then st
      else
        st⟨k_master := Some (for_ 0 (y2 - y1) (λ i m,
          blit m ((y1 + i) * mstride + x1 * 4)
            (uyvy_row (drop (Z.to_nat ((y1 + i) * stride + x1 * 2)) src) ((x2 - x1) / 2) k))
          master)⟩
  end.
