(* ===== verification/KvmDiff.v ===== *)
(** * The tile comparison (kvm/diff.c) against its specification

    [tile_map] says directly which tiles differ; the loops of
    sremfb_kvm_diff() compute it and count it. *)
From S2P Require Import Prelude Binary64 Protocol Core Kvm.
From stdpp Require Import list.
#[local] Open Scope list_scope.
#[local] Open Scope Z_scope.

(** ** Sums of 0/1 bytes *)
Fixpoint sumZ (l : list Z) : Z :=
  match l with [] => 0 | x :: l => x + sumZ l end.
Definition bits (l : list Z) : Prop := Forall (λ b, b = 0 ∨ b = 1) l.

Lemma sumZ_app l k : sumZ (l ++ k) = sumZ l + sumZ k.
Proof. induction l as [|x l IH]; cbn in *; lia. Qed.

Lemma sumZ_zeros n : sumZ (replicate n 0) = 0.
Proof. induction n; cbn; lia. Qed.

Lemma sumZ_insert l i : l !! i = Some 0 → sumZ (<[i := 1]> l) = sumZ l + 1.
Proof.
  revert i. induction l as [|x l IH]; intros [|i] Hi; [done|done|..].
  - injection Hi as ->. change (1 + sumZ l = 0 + sumZ l + 1). lia.
  - change (x + sumZ (<[i := 1]> l) = x + sumZ l + 1). rewrite (IH i Hi). lia.
Qed.

Lemma bits_range l : bits l → 0 ≤ sumZ l ≤ Z.of_nat (length l).
Proof. induction 1; cbn [sumZ length] in *; lia. Qed.

Lemma bits_full l i b :
  bits l → Z.of_nat (length l) ≤ sumZ l → l !! i = Some b → b = 1.
Proof.
  intros Hl. revert i. induction Hl as [|x l Hx Hl IH]; intros i Hs Hi; [done|].
  pose proof (bits_range l Hl). cbn [sumZ length] in Hs.
  destruct i as [|i]; cbn in Hi; [simplify_eq; lia|]. apply (IH i); [lia|done].
Qed.

Lemma sumZ_nth l i : bits l → nth i l 0 ≤ sumZ l.
Proof.
  intros Hl. revert i. induction Hl as [|x l Hx Hl IH]; intros [|i]; cbn [nth sumZ]; [lia|lia|..];
    pose proof (bits_range l Hl); [lia|]. specialize (IH i). lia.
Qed.

Lemma bits_rows a n f : (∀ i, bits (f i)) → bits (rows a n f).
Proof.
  intros Hf. unfold rows. generalize (seqZ a n) as l. induction l as [|x l IH]; [constructor|].
  change (bits (f x ++ mjoin (f <$> l))). apply Forall_app. split; [apply Hf|exact IH].
Qed.

Section diff.
Variable st : SremfbKvmState.
Variables cur prev : bytes.
Hypothesis Hw : 0 < k_tiles_x st.
#[local] Abbreviation W := (k_tiles_x st).

(** ** Which tiles differ *)
Definition tile_differs (ty tx : Z) : bool :=
  let y0 := ty * k_tile st in
  existsb (λ y, tile_row_differs st cur prev y tx)
    (seqZ y0 (Z.min (y0 + k_tile st) (k_src_h st) - y0)).

Definition tile_map_row (ty : Z) : bytes := (λ tx, Z.b2z (tile_differs ty tx)) <$> seqZ 0 W.
Definition tile_map : bytes := rows 0 (k_tiles_y st) tile_map_row.

(** The tiles' bytes say exactly [f], and [clean] counts the zeroes. *)
Definition row_is (f : Z → bool) (s : bytes * Z) : Prop :=
  s.1 = (λ tx, Z.b2z (f tx)) <$> seqZ 0 W ∧ s.2 + sumZ s.1 = W.

Lemma row_lookup (f : Z → bool) (i : nat) :
  ((λ tx, Z.b2z (f tx)) <$> seqZ 0 W) !! i =
    if decide (Z.of_nat i < W) then Some (Z.b2z (f (Z.of_nat i))) else None.
Proof.
  rewrite list_lookup_fmap. case_decide.
  - by rewrite lookup_seqZ_lt by lia.
  - by rewrite lookup_seqZ_ge by lia.
Qed.

Lemma row_bits (f : Z → bool) : bits ((λ tx, Z.b2z (f tx)) <$> seqZ 0 W).
Proof. apply Forall_fmap, Forall_true. intros tx. cbn. destruct (f tx); auto. Qed.

Lemma tile_map_bits : bits tile_map.
Proof. apply bits_rows. intros. apply row_bits. Qed.

Lemma row_ext (f g : Z → bool) :
  (∀ tx, 0 ≤ tx < W → f tx = g tx) →
  (λ tx, Z.b2z (f tx)) <$> seqZ 0 W = (λ tx, Z.b2z (g tx)) <$> seqZ 0 W.
Proof.
  intros Hfg. apply list_fmap_ext. intros i x Hx%list_elem_of_lookup_2.
  apply elem_of_seqZ in Hx. rewrite Hfg; [done|lia].
Qed.

Lemma diff_row_spec y f s :
  row_is f s → row_is (λ tx, f tx || tile_row_differs st cur prev y tx) (diff_row st cur prev y s).
Proof.
  intros [Hr Hs]. set (d := tile_row_differs st cur prev y).
  pose proof (for_ind0 (λ n s, row_is (λ tx, f tx || ((tx <? n) && d tx)) s) W
    (λ tx s, let '(row, clean) := s in
       if negb (nth (Z.to_nat tx) row 0 =? 0) then (row, clean)
       else if d tx then (<[Z.to_nat tx := 1]> row, clean - 1) else (row, clean)) s) as Hind.
  destruct Hind as [E1 E2]; [lia|..].
  - split; [|done]. rewrite Hr. apply row_ext. intros tx Htx.
    replace (tx <? 0) with false by lia. by rewrite orb_false_r.
  - intros n [row clean] Hn [Hrow Hcl]. cbn [fst snd] in *.
    assert (Hat : row !! Z.to_nat n = Some (Z.b2z (f n))).
    { rewrite Hrow, row_lookup, decide_True, Z2Nat.id by lia.
      replace (n <? n) with false by lia. by rewrite orb_false_r. }
    rewrite (nth_lookup_Some row _ 0 _ Hat).
    assert (Hext : ∀ b, (f n || d n = f n || b) →
      row = (λ tx, Z.b2z (f tx || ((tx <? n) && d tx))) <$> seqZ 0 W →
      f n || b = f n → row = (λ tx, Z.b2z (f tx || ((tx <? n + 1) && d tx))) <$> seqZ 0 W).
    { intros b Hb -> Hfb. apply row_ext. intros tx Htx.
      destruct (decide (tx = n)) as [->|].
      - replace (n <? n) with false by lia. replace (n <? n + 1) with true by lia.
        cbn. rewrite Hb, Hfb. by rewrite orb_false_r.
      - by replace (tx <? n + 1) with (tx <? n) by lia. }
    destruct (f n) eqn:Hf; cbn [Z.b2z Z.eqb negb].
    { split; [|done]. by apply (Hext true). }
    destruct (d n) eqn:Hd; [|split; [|done]; by apply (Hext false)].
    split; cbn [fst snd].
    + apply list_eq. intros i. rewrite row_lookup.
      destruct (decide (i = Z.to_nat n)) as [->|Hne].
      * rewrite list_lookup_insert_eq by (by eapply lookup_lt_Some).
        rewrite decide_True, Z2Nat.id by lia. replace (n <? n + 1) with true by lia.
        by rewrite Hd, orb_true_r.
      * rewrite list_lookup_insert_ne by done. rewrite Hrow, row_lookup.
        case_decide; [|done]. by replace (Z.of_nat i <? n + 1) with (Z.of_nat i <? n) by lia.
    + rewrite sumZ_insert by done. lia.
  - split; [|done]. unfold diff_row. fold d. rewrite E1. apply row_ext. intros tx Htx.
    by replace (tx <? W) with true by lia.
Qed.

Lemma diff_rows_spec y0 n s :
  row_is (λ _, false) s →
  row_is (λ tx, existsb (λ y, tile_row_differs st cur prev y tx) (seqZ y0 n))
    (for_ y0 n (λ y s, if 0 <? s.2 then diff_row st cur prev y s else s) s).
Proof.
  intros Hs. unfold for_.
  assert (E : ∀ l f s, row_is f s →
    row_is (λ tx, f tx || existsb (λ y, tile_row_differs st cur prev y tx) l)
      (foldl (λ s y, if 0 <? s.2 then diff_row st cur prev y s else s) s l)).
  { clear s Hs. induction l as [|y l IH]; intros f s [Hr Hc]; cbn [foldl existsb].
    { split; [|done]. rewrite Hr. apply row_ext. intros. by rewrite orb_false_r. }
    destruct (0 <? s.2) eqn:Hpos.
    - destruct (IH _ _ (diff_row_spec y f s (conj Hr Hc))) as [E1 E2]. split; [|done].
      rewrite E1. apply row_ext. intros. by rewrite orb_assoc.
    - destruct (IH f s (conj Hr Hc)) as [E1 E2]. split; [|done]. rewrite E1. apply row_ext.
      intros tx Htx. assert (Hf : f tx = true); [|by rewrite Hf].
      assert (Hlk : s.1 !! Z.to_nat tx = Some (Z.b2z (f tx)))
        by (rewrite Hr, row_lookup, decide_True, Z2Nat.id by lia; done).
      apply (bits_full s.1) in Hlk; [by destruct (f tx)|rewrite Hr; apply row_bits|].
      assert (Z.of_nat (length s.1) = W); [|lia].
      rewrite Hr, length_fmap, length_seqZ. lia. }
  exact (E (seqZ y0 n) (λ _, false) s Hs).
Qed.

Lemma length_tile_map_row ty : Z.of_nat (length (tile_map_row ty)) = W.
Proof. unfold tile_map_row. rewrite length_fmap, length_seqZ. lia. Qed.

Lemma length_map_rows n : 0 ≤ n → Z.of_nat (length (rows 0 n tile_map_row)) = n * W.
Proof.
  intros Hn. rewrite (length_rows 0 n (Z.to_nat W)); [lia|].
  intros i _. pose proof (length_tile_map_row i). lia.
Qed.

(** ** One row of tiles *)
Lemma diff_tiles_spec ty m :
  0 ≤ ty → 0 ≤ m →
  diff_tiles st cur prev ty
    (rows 0 ty tile_map_row ++ replicate (Z.to_nat ((1 + m) * W)) 0,
     sumZ (rows 0 ty tile_map_row)) =
  (rows 0 (ty + 1) tile_map_row ++ replicate (Z.to_nat (m * W)) 0,
   sumZ (rows 0 (ty + 1) tile_map_row)).
Proof.
  intros Hty Hm. unfold diff_tiles. pose proof (length_map_rows ty Hty) as Hl.
  set (done_ := rows 0 ty tile_map_row) in *.
  replace (Z.to_nat ((1 + m) * W)) with (Z.to_nat W + Z.to_nat (m * W))%nat by lia.
  rewrite replicate_add.
  assert (Hsl : slice (ty * W) W (done_ ++ replicate (Z.to_nat W) 0 ++ replicate (Z.to_nat (m * W)) 0)
    = replicate (Z.to_nat W) 0).
  { rewrite slice_skip by lia. apply slice_hit; rewrite ?length_replicate; lia. }
  rewrite Hsl.
  destruct (diff_rows_spec (ty * k_tile st)
    (Z.min (ty * k_tile st + k_tile st) (k_src_h st) - ty * k_tile st)
    (replicate (Z.to_nat W) 0, W)) as [E1 E2].
  { split; [|cbn [fst snd]; rewrite sumZ_zeros; lia]. cbn [fst]. apply list_eq. intros i.
    rewrite row_lookup. case_decide.
    - by rewrite lookup_replicate_2 by lia.
    - apply lookup_replicate_None. lia. }
  destruct (for_ _ _ _ _) as [row clean]. cbn [fst snd] in *.
  assert (Hrow : row = tile_map_row ty) by exact E1. clear E1. subst row.
  assert (Hn : rows 0 (ty + 1) tile_map_row = done_ ++ tile_map_row ty).
  { rewrite rows_app by lia. f_equal. unfold rows. rewrite (seqZ_cons _ 1), seqZ_nil by lia.
    cbn. by rewrite app_nil_r. }
  rewrite Hn, sumZ_app. f_equal; [|lia]. unfold blit.
  pose proof (length_tile_map_row ty).
  rewrite take_app_le, take_ge by lia. rewrite <- app_assoc. do 2 f_equal.
  rewrite drop_app_ge by lia. rewrite drop_app_ge by (rewrite length_replicate; lia).
  rewrite length_replicate.
  replace (Z.to_nat (ty * W) + length (tile_map_row ty) - length done_ - Z.to_nat W)%nat
    with 0%nat by lia. done.
Qed.
End diff.

(** The tile comparison is exact: with a previous frame, the dirty
    bytes sremfb_kvm_diff() leaves are 1 for the tiles in which the two
    frames differ in some byte and 0 for the others, and it returns how
    many there are. *)
Lemma diff_tile_map st cur prev d :
  k_tile_dirty st = Some d → 0 < k_tiles_x st → 0 < k_tiles_y st →
  sremfb_kvm_diff st cur (Some prev) =
    (st⟨k_tile_dirty := Some (tile_map st cur prev)⟩, sumZ (tile_map st cur prev)).
Proof.
  intros Hd Hw Hh. unfold sremfb_kvm_diff. rewrite Hd.
  destruct (k_tiles_x st * k_tiles_y st =? 0) eqn:Hz; [nia|].
  pose proof (for_ind0 (λ ty s, s =
    (rows 0 ty (tile_map_row st cur prev) ++
       replicate (Z.to_nat ((k_tiles_y st - ty) * k_tiles_x st)) 0,
     sumZ (rows 0 ty (tile_map_row st cur prev))))
    (k_tiles_y st) (diff_tiles st cur prev)
    (replicate (Z.to_nat (k_tiles_x st * k_tiles_y st)) 0, 0)) as Hind.
  cbv beta in Hind. rewrite Hind; [|lia|..].
  - rewrite Z.sub_diag. cbn. by rewrite app_nil_r.
  - change (rows 0 0 _) with (@nil Z). cbn [app sumZ]. by rewrite Z.sub_0_r, Z.mul_comm.
  - intros ty s Hty ->.
    replace (k_tiles_y st - ty) with (1 + (k_tiles_y st - (ty + 1))) by lia.
    apply diff_tiles_spec; lia.
Qed.

(** * The rectangles made of the dirty tiles (kvm/diff.c)

    sremfb_kvm_rects() covers every pixel of every dirty tile, within the
    source and within its limit; below the limit it covers nothing else. *)
(** What sremfb_kvm_tiles_alloc() sets up for a source that has a mode. *)
Definition tiles_ok (st : SremfbKvmState) : Prop :=
  0 < k_tile st ∧ 0 < k_src_w st ∧ 0 < k_src_h st ∧
  k_tiles_x st = (k_src_w st + k_tile st - 1) / k_tile st ∧
  k_tiles_y st = (k_src_h st + k_tile st - 1) / k_tile st.

Definition in_source (st : SremfbKvmState) (x y : Z) : Prop :=
  0 ≤ x < k_src_w st ∧ 0 ≤ y < k_src_h st.

(** Pixel [(x, y)] lies in a tile marked dirty. *)
Definition pixel_dirty (st : SremfbKvmState) (d : bytes) (x y : Z) : Prop :=
  in_source st x y ∧
  nth (Z.to_nat (y / k_tile st * k_tiles_x st + x / k_tile st)) d 0 ≠ 0.

Definition inside (r : sremfb_rect) (x y : Z) : Prop := x1 r ≤ x < x2 r ∧ y1 r ≤ y < y2 r.

Definition rect_in (st : SremfbKvmState) (r : sremfb_rect) : Prop :=
  0 ≤ x1 r < x2 r ∧ x2 r ≤ k_src_w st ∧ 0 ≤ y1 r < y2 r ∧ y2 r ≤ k_src_h st.

(** The rects depend on the tiles and the size of the source only. *)
Lemma rects_fields st st' max :
  k_tile_dirty st' = k_tile_dirty st → k_tiles_x st' = k_tiles_x st →
  k_tiles_y st' = k_tiles_y st → k_tile st' = k_tile st → k_src_w st' = k_src_w st →
  k_src_h st' = k_src_h st → sremfb_kvm_rects st' max = sremfb_kvm_rects st max.
Proof.
  intros Ed Ex Ey Et Ew Eh.
  assert (E : ∀ fuel row ty tx s, rects_row fuel st' max row ty tx s =
    rects_row fuel st max row ty tx s).
  { induction fuel as [|fuel IH]; intros row ty tx s; cbn [rects_row]; [done|].
    rewrite Ex, Et, Ew, Eh, !IH. done. }
  unfold sremfb_kvm_rects. rewrite Ed, Ex, Ey, Ew, Eh.
  destruct (k_tile_dirty st) as [b|]; [|done]. case_match; [done|].
  assert (E2 : ∀ s, for_ 0 (k_tiles_y st) (λ ty s,
      rects_row (Z.to_nat (k_tiles_x st)) st' max (slice (ty * k_tiles_x st) (k_tiles_x st) b) ty 0 s) s =
    for_ 0 (k_tiles_y st) (λ ty s,
      rects_row (Z.to_nat (k_tiles_x st)) st max (slice (ty * k_tiles_x st) (k_tiles_x st) b) ty 0 s) s).
  { intros s. apply for_ext. intros. apply E. }
  by rewrite E2.
Qed.

Lemma tiles_pos st : tiles_ok st → 0 < k_tiles_x st ∧ 0 < k_tiles_y st.
Proof.
  intros (Ht&Hw&Hh&Ew&Eh). rewrite Ew, Eh. split; apply Z.div_str_pos; lia.
Qed.

Section rects.
Variable st : SremfbKvmState.
Variable max : Z.
Hypothesis Hok : tiles_ok st.
Hypothesis Hmax : 0 < max.
#[local] Abbreviation W := (k_tiles_x st).
#[local] Abbreviation t := (k_tile st).

Lemma tile_of x y : in_source st x y →
  0 ≤ x / t < W ∧ 0 ≤ y / t < k_tiles_y st ∧ x / t * t ≤ x < x / t * t + t ∧
  y / t * t ≤ y < y / t * t + t.
Proof.
  destruct Hok as (Ht&Hw&Hh&Ew&Eh). intros [Hx Hy]. rewrite Ew, Eh.
  pose proof (Z.div_mod x t ltac:(lia)). pose proof (Z.mod_pos_bound x t Ht).
  pose proof (Z.div_mod y t ltac:(lia)). pose proof (Z.mod_pos_bound y t Ht).
  split_and!; try apply Z.div_pos; try lia.
  - apply Z.div_lt_upper_bound; [lia|].
    pose proof (Z.mul_succ_div_gt (k_src_w st + t - 1) t Ht). nia.
  - apply Z.div_lt_upper_bound; [lia|].
    pose proof (Z.mul_succ_div_gt (k_src_h st + t - 1) t Ht). nia.
Qed.

Lemma tile_col_pos tx : 0 ≤ tx < W → tx * t < k_src_w st.
Proof.
  destruct Hok as (Ht&Hw&Hh&Ew&Eh). rewrite Ew. intros Htx.
  pose proof (Z.mul_div_le (k_src_w st + t - 1) t Ht). nia.
Qed.

Lemma tile_row_pos ty : 0 ≤ ty < k_tiles_y st → ty * t < k_src_h st.
Proof.
  destruct Hok as (Ht&Hw&Hh&Ew&Eh). rewrite Eh. intros Hty.
  pose proof (Z.mul_div_le (k_src_h st + t - 1) t Ht). nia.
Qed.

(** [r] sticks out of [b] nowhere. *)
Definition rect_le (r b : sremfb_rect) : Prop :=
  x1 b ≤ x1 r ∧ y1 b ≤ y1 r ∧ x2 r ≤ x2 b ∧ y2 r ≤ y2 b.

(** ** The loop state covers the pixels [D] *)
Record rects_inv (D : Z → Z → Prop) (s : rects_st) : Prop := {
  ri_len : Z.of_nat (length (rs_out s)) ≤ max;
  ri_out : Forall (rect_in st) (rs_out s);
  ri_bb : 0 ≤ x1 (rs_bb s) ∧ x2 (rs_bb s) ≤ k_src_w st ∧
          0 ≤ y1 (rs_bb s) ∧ y2 (rs_bb s) ≤ k_src_h st;
  ri_bb_full : rs_overflow s = true → rect_in st (rs_bb s);
  ri_cover_bb : ∀ x y, D x y → inside (rs_bb s) x y;
  ri_cover : rs_overflow s = false → ∀ x y, D x y → ∃ r, r ∈ rs_out s ∧ inside r x y;
  ri_sound : rs_overflow s = false → ∀ r x y, r ∈ rs_out s → inside r x y → D x y;
  ri_tight b : rect_in st b → (∀ x y, D x y → inside b x y) → rect_le (rs_bb s) b }.

Lemma rects_inv_ext D D' s : (∀ x y, D x y ↔ D' x y) → rects_inv D s → rects_inv D' s.
Proof.
  intros HD [H1 H2 H3 H4 H5 H6 H7 H8]. split; try done.
  - intros x y Hd%HD. by apply H5.
  - intros Ho x y Hd%HD. by apply H6.
  - intros Ho r x y Hr Hi. by apply HD, (H7 Ho r).
  - intros b Hb Hd. apply H8; [done|]. intros x y Hx. by apply Hd, HD.
Qed.

Lemma merge_last_spec out r out' :
  merge_last out r = Some out' →
  ∃ a o b, out = a ++ o :: b ∧ out' = a ++ o⟨y2 := y2 r⟩ :: b ∧
    y2 o = y1 r ∧ x1 o = x1 r ∧ x2 o = x2 r.
Proof.
  revert out'. induction out as [|o out IH]; intros out' Hm; cbn [merge_last] in Hm; [done|].
  destruct (merge_last out r) as [l|].
  - simplify_eq. destruct (IH l eq_refl) as (a&o'&b&->&->&?). by exists (o :: a), o', b.
  - destruct (_ && _) eqn:E; [|done]. simplify_eq. exists [], o, out. split_and!; try done; lia.
Qed.

Lemma rects_add_inv D s r :
  rect_in st r → rects_inv D s →
  rects_inv (λ x y, D x y ∨ inside r x y) (rects_add max r s).
Proof.
  intros Hr [Hlen Hout Hbb Hfull Hcb Hc Hs Ht]. unfold rects_add.
  set (bb := mk_rect _ _ _ _).
  assert (Hbb' : 0 ≤ x1 bb ∧ x2 bb ≤ k_src_w st ∧ 0 ≤ y1 bb ∧ y2 bb ≤ k_src_h st).
  { unfold rect_in in *. subst bb. cbn. lia. }
  assert (Hfull' : rect_in st bb) by (unfold rect_in in *; subst bb; cbn; lia).
  assert (Hcb' : ∀ x y, D x y ∨ inside r x y → inside bb x y).
  { intros x y [Hd|Hd]; [apply Hcb in Hd|]; unfold inside in *; subst bb; cbn; lia. }
  assert (Ht' : ∀ b, rect_in st b → (∀ x y, D x y ∨ inside r x y → inside b x y) → rect_le bb b).
  { intros b Hb Hd. specialize (Ht b Hb (λ x y Hx, Hd x y (or_introl Hx))).
    pose proof (Hd (x1 r) (y1 r)) as Ha. pose proof (Hd (x2 r - 1) (y2 r - 1)) as Hz.
    unfold rect_le, rect_in, inside in *. subst bb. cbn in *. lia. }
  clearbody bb. destruct (rs_overflow s); [by split|].
  specialize (Hc eq_refl). specialize (Hs eq_refl).
  destruct (merge_last (rs_out s) r) as [out'|] eqn:Hm.
  - apply merge_last_spec in Hm as (a&o&b&Ho&->&E1&E2&E3). rewrite Ho in *.
    apply Forall_app in Hout as [Ha [Hoo Hb]%Forall_cons].
    assert (Hins : ∀ x y, inside o⟨y2 := y2 r⟩ x y ↔ inside o x y ∨ inside r x y).
    { intros x y. unfold rect_in, inside in *. cbn. lia. }
    split; cbn [rs_out rs_overflow rs_bb]; try done.
    + rewrite length_app in *. done.
    + apply Forall_app. split; [done|]. constructor; [|done]. unfold rect_in in *. cbn. lia.
    + intros _ x y [Hd|Hd].
      * destruct (Hc x y Hd) as (q&Hq&Hqi). apply elem_of_app in Hq as [Hq|Hq].
        { exists q. split; [apply elem_of_app; by left|done]. }
        apply elem_of_cons in Hq as [->|Hq].
        { exists (o⟨y2 := y2 r⟩). split; [apply elem_of_app; right; apply list_elem_of_here|].
          apply Hins. by left. }
        exists q. split; [apply elem_of_app; right; by apply list_elem_of_further|done].
      * exists (o⟨y2 := y2 r⟩). split; [apply elem_of_app; right; apply list_elem_of_here|].
        apply Hins. by right.
    + intros _ q x y Hq Hqi. apply elem_of_app in Hq as [Hq|Hq].
      { left. apply (Hs q); [apply elem_of_app; by left|done]. }
      apply elem_of_cons in Hq as [->|Hq].
      { apply Hins in Hqi as [Hqi|Hqi]; [left|by right].
        apply (Hs o); [apply elem_of_app; right; apply list_elem_of_here|done]. }
      left. apply (Hs q); [apply elem_of_app; right; by apply list_elem_of_further|done].
  - destruct (_ <? max) eqn:Hlt; [|by split].
    split; cbn [rs_out rs_overflow rs_bb]; try done.
    + rewrite length_app. cbn [length]. lia.
    + apply Forall_app. by split; [|apply Forall_singleton].
    + intros _ x y [Hd|Hd].
      * destruct (Hc x y Hd) as (q&Hq&Hqi). exists q. split; [apply elem_of_app; by left|done].
      * exists r. split; [apply elem_of_app; right; by apply list_elem_of_singleton|done].
    + intros _ q x y Hq Hqi. apply elem_of_app in Hq as [Hq|Hq].
      * left. by apply (Hs q).
      * apply list_elem_of_singleton in Hq as ->. by right.
Qed.

(** ** A row of tiles *)
Lemma run_end_spec fuel row tx :
  tx < W → nth (Z.to_nat tx) row 0 ≠ 0 → 0 ≤ tx →
  tx ≤ run_end fuel row W tx < W ∧
  ∀ i, tx ≤ i ≤ run_end fuel row W tx → nth (Z.to_nat i) row 0 ≠ 0.
Proof.
  revert tx. induction fuel as [|fuel IH]; intros tx Hlt Hd Hpos; cbn [run_end].
  { split; [lia|]. intros i Hi. by replace i with tx by lia. }
  destruct (_ && _) eqn:E.
  - apply andb_true_iff in E as [E1 E2%negb_true_iff]. apply Z.ltb_lt in E1.
    destruct (IH (tx + 1)) as [H1 H2]; [lia|by apply Z.eqb_neq|lia|].
    split; [lia|]. intros i Hi. destruct (decide (i = tx)) as [->|]; [done|]. apply H2. lia.
  - split; [lia|]. intros i Hi. by replace i with tx by lia.
Qed.

(** The pixels of the dirty tiles of row [ty] in columns [[a, b)]. *)
Definition row_pixels (row : bytes) (ty a b : Z) (x y : Z) : Prop :=
  in_source st x y ∧ y / t = ty ∧ a ≤ x / t < b ∧ nth (Z.to_nat (x / t)) row 0 ≠ 0.

Lemma run_rect row ty a b :
  0 ≤ ty < k_tiles_y st → 0 ≤ a < b → b ≤ W →
  (∀ i, a ≤ i < b → nth (Z.to_nat i) row 0 ≠ 0) →
  let r := mk_rect (a * t) (ty * t) (Z.min (b * t) (k_src_w st))
             (Z.min (ty * t + t) (k_src_h st)) in
  rect_in st r ∧ ∀ x y, inside r x y ↔ row_pixels row ty a b x y.
Proof.
  intros Hty Ha Hb Hd. cbv zeta. pose proof Hok as (Ht&Hw&Hh&_).
  pose proof (tile_col_pos a ltac:(lia)). pose proof (tile_row_pos ty Hty).
  assert (a * t < b * t) by (apply Z.mul_lt_mono_pos_r; lia).
  assert (0 ≤ a * t) by nia. assert (0 ≤ ty * t) by nia.
  split; [unfold rect_in; cbn; lia|]. intros x y. unfold inside, row_pixels. cbn. split.
  - intros [Hx Hy]. assert (Hin : in_source st x y) by (split; lia).
    assert (Hxt : a ≤ x / t < b).
    { split; [apply Z.div_le_lower_bound; lia|apply Z.div_lt_upper_bound; lia]. }
    split_and!; [exact Hin| |lia|lia|by apply Hd].
    symmetry. apply Z.div_unique_pos with (y - ty * t); lia.
  - intros (Hin&Hy&Hx&_). pose proof (tile_of x y Hin) as (_&_&Hx1&Hy1). rewrite Hy in Hy1.
    destruct Hin as [Hin1 Hin2]. nia.
Qed.

Lemma rects_row_inv fuel row ty tx D s :
  0 ≤ ty < k_tiles_y st → 0 ≤ tx → W - tx ≤ Z.of_nat fuel → rects_inv D s →
  rects_inv (λ x y, D x y ∨ row_pixels row ty tx W x y) (rects_row fuel st max row ty tx s).
Proof.
  intros Hty. revert tx D s. induction fuel as [|fuel IH]; intros tx D s Htx Hf Hi;
    cbn [rects_row].
  { eapply rects_inv_ext; [|exact Hi]. intros x y. unfold row_pixels.
    split; [by left|]. intros [|(_&_&?&_)]; [done|lia]. }
  destruct (tx <? W) eqn:Hlt.
  2:{ eapply rects_inv_ext; [|exact Hi]. intros x y. unfold row_pixels.
      split; [by left|]. intros [|(_&_&?&_)]; [done|lia]. }
  destruct (_ =? 0) eqn:Hz.
  - apply Z.eqb_eq in Hz. eapply rects_inv_ext; [|apply (IH (tx + 1) D s); [lia|lia|done]].
    intros x y. unfold row_pixels. split; (intros [Hd|(H1&H2&H3&H4)]; [by left|right]).
    + split_and!; try done; lia.
    + destruct (decide (x / t = tx)) as [E|]; [by rewrite E in H4|]. split_and!; try done; lia.
  - apply Z.eqb_neq in Hz. cbv zeta.
    destruct (run_end_spec (Z.to_nat W) row tx ltac:(lia) Hz Htx) as [He Hall].
    set (e := run_end _ row W tx) in *. clearbody e.
    destruct (run_rect row ty tx (e + 1) Hty) as [Hr Hins]; [lia|lia|intros; apply Hall; lia|].
    eapply rects_inv_ext; [|apply (IH (e + 1)); [lia|lia|by apply rects_add_inv]].
    intros x y. cbv beta. rewrite Hins. unfold row_pixels.
    destruct (decide (x / t < e + 1)); naive_solver lia.
Qed.

Lemma nth_row d ty tx :
  0 ≤ tx < W → 0 ≤ ty →
  nth (Z.to_nat tx) (slice (ty * W) W d) 0 = nth (Z.to_nat (ty * W + tx)) d 0.
Proof.
  intros Htx Hty. rewrite !nth_lookup, lookup_slice by lia. do 2 f_equal. nia.
Qed.

Lemma rects_loop_inv d :
  rects_inv (pixel_dirty st d)
    (for_ 0 (k_tiles_y st) (λ ty s,
       rects_row (Z.to_nat W) st max (slice (ty * W) W d) ty 0 s)
      (mk_rects [] false (mk_rect (k_src_w st) (k_src_h st) 0 0))).
Proof.
  pose proof Hok as (Ht&Hw&Hh&Ew&Eh).
  assert (0 ≤ k_tiles_y st) by (rewrite Eh; apply Z.div_pos; lia).
  pose proof (for_ind0 (λ n s, rects_inv (λ x y, pixel_dirty st d x y ∧ y / t < n) s)
    (k_tiles_y st) (λ ty s, rects_row (Z.to_nat W) st max (slice (ty * W) W d) ty 0 s)
    (mk_rects [] false (mk_rect (k_src_w st) (k_src_h st) 0 0))) as Hind.
  eapply rects_inv_ext; [|apply Hind; clear Hind; [done| |]].
  - intros x y. split; [by intros [? _]|]. intros Hd. split; [done|].
    destruct Hd as [Hin _]. pose proof (tile_of x y Hin). lia.
  - split; cbn [rs_out rs_overflow rs_bb x1 x2 y1 y2 length]; try done; try lia.
    + intros x y [[Hin _] Hlt]. pose proof (tile_of x y Hin). lia.
    + intros _ x y [[Hin _] Hlt]. pose proof (tile_of x y Hin). lia.
    + intros _ r x y Hr. by apply not_elem_of_nil in Hr.
    + intros b Hb _. unfold rect_in, rect_le in *. cbn. lia.
  - intros ty s Hty Hi.
    eapply rects_inv_ext; [|apply (rects_row_inv (Z.to_nat W)); [done|done|lia|exact Hi]].
    intros x y. cbv beta. unfold row_pixels, pixel_dirty. split.
    + intros [[[Hin Hd] Hlt]|(Hin&Hy&Hx&Hd)].
      * split; [done|lia].
      * split; [|lia]. split; [done|]. rewrite <- (nth_row d _ (x / t)) by (subst; lia).
        by rewrite Hy.
    + intros [[Hin Hd] Hlt]. destruct (decide (y / t < ty)) as [|Hge]; [by left|right].
      pose proof (tile_of x y Hin). assert (Hy : y / t = ty) by lia.
      split_and!; [done|done|lia|lia|]. rewrite nth_row, <- Hy by lia. done.
Qed.
End rects.

(** Damage rectangles lose nothing: every pixel of a dirty tile is in
    one of the (at most [max]) non-empty rectangles, which stay inside the
    source. *)
Lemma rects_cover st d max :
  tiles_ok st → k_tile_dirty st = Some d → 0 < max →
  let out := sremfb_kvm_rects st max in
  Z.of_nat (length out) ≤ max ∧ Forall (rect_in st) out ∧
  (∀ x y, pixel_dirty st d x y → ∃ r, r ∈ out ∧ inside r x y).
Proof.
  intros Hok Hd Hmax. cbv zeta. unfold sremfb_kvm_rects. rewrite Hd.
  destruct (max <=? 0) eqn:?; [lia|].
  pose proof (rects_loop_inv st max Hok Hmax d) as Hi. cbv zeta.
  set (s := for_ _ _ _ _) in *. clearbody s.
  destruct Hi as [Hlen Hout Hbb Hfull Hcb Hc Hs _]. destruct (rs_overflow s).
  - split_and!; [cbn; lia|apply Forall_singleton; auto|].
    intros x y Hp. exists (rs_bb s). split; [by apply list_elem_of_singleton|by apply Hcb].
  - split_and!; [done|done|by apply Hc].
Qed.

(** ** With room for every rect and with room for [m] *)
Section limits.
Variables (st : SremfbKvmState) (m M : Z).
#[local] Abbreviation W := (k_tiles_x st).

(** The same run with two limits, as long as the second one is not hit. *)
Definition rects_sim (s S : rects_st) : Prop :=
  rs_overflow S = true ∨
  (rs_overflow S = false ∧ rs_bb s = rs_bb S ∧
   (rs_overflow s = true ↔ m < Z.of_nat (length (rs_out S))) ∧
   (rs_overflow s = false → rs_out s = rs_out S)).

Lemma merge_last_length out r out' : merge_last out r = Some out' → length out' = length out.
Proof. intros (a&o&b&->&->&_)%merge_last_spec. by rewrite !length_app. Qed.

Lemma rects_add_sim r s S : rects_sim s S → rects_sim (rects_add m r s) (rects_add M r S).
Proof.
  unfold rects_sim, rects_add. intros [Ho|(Ho&Eb&Hl&Eo)]; rewrite Ho; [by left|]. rewrite Eb.
  destruct (merge_last (rs_out S) r) as [out|] eqn:Hm.
  - apply merge_last_length in Hm as El. right. destruct (rs_overflow s) eqn:Hs; cbn.
    + split_and!; try done. rewrite El. tauto.
    + rewrite (Eo eq_refl), Hm. cbn. rewrite El. split_and!; try done.
  - destruct (Z.of_nat (length (rs_out S)) <? M) eqn:HM; [right|by left].
    destruct (rs_overflow s) eqn:Hs; cbn; rewrite length_app; cbn [length].
    + split_and!; try done. split; [|done]. intros _. destruct Hl as [Hl _]. specialize (Hl eq_refl). lia.
    + rewrite (Eo eq_refl), Hm. assert (¬ m < Z.of_nat (length (rs_out S))) by (intros Hx; by apply Hl in Hx).
      destruct (_ <? m) eqn:Hx; cbn; split_and!; try done; split; try done; lia.
Qed.

Lemma rects_row_sim fuel row ty tx s S :
  rects_sim s S → rects_sim (rects_row fuel st m row ty tx s) (rects_row fuel st M row ty tx S).
Proof.
  revert tx s S. induction fuel as [|fuel IH]; intros tx s S Hs; cbn [rects_row]; [done|].
  destruct (tx <? W); [|done]. destruct (_ =? 0); [by apply IH|]. cbv zeta. by apply IH, rects_add_sim.
Qed.

(** A limit as large as the number of tiles is never hit. *)
Definition rects_few (n : Z) (s : rects_st) : Prop :=
  rs_overflow s = false ∧ Z.of_nat (length (rs_out s)) ≤ n.

Lemma rects_row_few fuel row ty tx s :
  0 ≤ tx → ty * W + W ≤ M → rects_few (ty * W + Z.min tx W) s →
  rects_few (ty * W + W) (rects_row fuel st M row ty tx s).
Proof.
  intros Htx HM. revert tx s Htx. induction fuel as [|fuel IH]; intros tx s Htx [Ho Hl]; cbn [rects_row].
  { split; [done|lia]. }
  destruct (tx <? W) eqn:Hlt; [|split; [done|lia]].
  destruct (_ =? 0) eqn:Hz; [apply IH; [lia|split; [done|lia]]|]. cbv zeta.
  apply Z.eqb_neq in Hz. destruct (run_end_spec st (Z.to_nat W) row tx ltac:(lia) Hz Htx) as [He _].
  set (e := run_end _ row W tx) in *. clearbody e. apply IH; [lia|].
  unfold rects_few, rects_add. rewrite Ho. destruct (merge_last _ _) as [out|] eqn:Hm.
  - apply merge_last_length in Hm. cbn. split; [done|lia].
  - destruct (_ <? M) eqn:Hx; [|lia]. cbn. rewrite length_app. cbn. split; [done|lia].
Qed.
End limits.

(** The rects needed without a limit, and what a limit makes of them: they
    are exactly the dirty pixels when they fit, and are replaced by the
    smallest rect around these when they do not. *)
Definition all_rects (st : SremfbKvmState) : list sremfb_rect :=
  sremfb_kvm_rects st (k_tiles_x st * k_tiles_y st).

Lemma rects_exact st d max :
  tiles_ok st → k_tile_dirty st = Some d → 0 < max →
  let out := sremfb_kvm_rects st max in
  if Z.of_nat (length (all_rects st)) <=? max
  then out = all_rects st ∧ (∀ r x y, r ∈ out → inside r x y → pixel_dirty st d x y)
  else ∃ bb, out = [bb] ∧ ∀ b, rect_in st b → (∀ x y, pixel_dirty st d x y → inside b x y) → rect_le bb b.
Proof.
  intros Hok Hd Hmax. destruct (tiles_pos st Hok) as [HW HH].
  assert (HM : 0 < k_tiles_x st * k_tiles_y st) by nia.
  set (M := k_tiles_x st * k_tiles_y st) in *. cbv zeta. unfold all_rects. fold M.
  set (body := λ lim ty s, rects_row (Z.to_nat (k_tiles_x st)) st lim
    (slice (ty * k_tiles_x st) (k_tiles_x st) d) ty 0 s).
  set (s0 := mk_rects [] false (mk_rect (k_src_w st) (k_src_h st) 0 0)).
  assert (Es : ∀ lim, 0 < lim → sremfb_kvm_rects st lim =
    let s := for_ 0 (k_tiles_y st) (body lim) s0 in if rs_overflow s then [rs_bb s] else rs_out s).
  { intros lim Hlim. unfold sremfb_kvm_rects. rewrite Hd. by rewrite (proj2 (Z.leb_gt lim 0)). }
  rewrite !Es by done. cbv zeta. clear Es.
  pose proof (rects_loop_inv st max Hok Hmax d) as Hi.
  change (for_ 0 (k_tiles_y st) _ _) with (for_ 0 (k_tiles_y st) (body max) s0) in Hi.
  assert (Hf : rects_few (k_tiles_y st * k_tiles_x st) (for_ 0 (k_tiles_y st) (body M) s0)).
  { apply (for_ind0 (λ n s, rects_few (n * k_tiles_x st) s)); [lia|by split|].
    intros ty s Hty Hs. replace ((ty + 1) * k_tiles_x st) with (ty * k_tiles_x st + k_tiles_x st) by lia.
    apply rects_row_few; [lia|subst M; nia|]. by rewrite Z.min_l, Z.add_0_r by lia. }
  assert (Hsim : rects_sim max (for_ 0 (k_tiles_y st) (body max) s0) (for_ 0 (k_tiles_y st) (body M) s0)).
  { apply for_rel; [intros ty s S; apply rects_row_sim|]. right. subst s0. cbn. split_and!; [done|done| |done]. split; [done|lia]. }
  set (s := for_ 0 (k_tiles_y st) (body max) s0) in *.
  set (S := for_ 0 (k_tiles_y st) (body M) s0) in *. clearbody s S.
  destruct Hf as [Hf _]. destruct Hsim as [Hsim|(_&_&Hl&Eo)]; [congruence|]. rewrite Hf.
  destruct (rs_overflow s) eqn:Hs.
  - destruct (_ <=? max) eqn:Hle; [exfalso; destruct Hl as [Hl _]; specialize (Hl eq_refl); lia|].
    exists (rs_bb s). split; [done|]. apply (ri_tight _ _ _ _ Hi).
  - assert (¬ max < Z.of_nat (length (rs_out S))) by (intros Hx; by apply Hl in Hx).
    destruct (_ <=? max) eqn:Hle; [|lia]. split; [by apply Eo|]. by apply (ri_sound _ _ _ _ Hi).
Qed.
