(* ===== verification/KvmMaster.v ===== *)
(** * The master image (kvm/convert_uyvy.c with kvm/diff.c)

    [kvm_converted] is the whole captured frame converted to BGRx.  Only
    the rectangles of the dirty tiles are converted, and the master image
    is the converted frame nevertheless. *)
From S2P Require Import Prelude Binary64 Protocol Core Convert ViewH264 ViewNet Blit Kvm KvmDiff.
From stdpp Require Import list.
#[local] Open Scope list_scope.
#[local] Open Scope Z_scope.

(** ** The reference: every row converted *)
Definition kvm_coef (st : SremfbKvmState) : yuv_coef :=
  if k_full_range st then COEF_FULL else COEF_LIMITED.

Definition kvm_row (st : SremfbKvmState) (frame : bytes) (y : Z) : bytes :=
  let src := drop (Z.to_nat (y * kvm_stride st)) frame in
  if k_src_fourcc st =? V4L2_PIX_FMT_RGB24 then rgb24_row src (k_src_w st)
  else uyvy_row src (k_src_w st / 2) (kvm_coef st).

Definition kvm_converted (st : SremfbKvmState) (frame : bytes) : bytes :=
  rows 0 (k_src_h st) (kvm_row st frame).

(** UYVY stores pixels by pairs: the width is even. *)
Definition format_ok (st : SremfbKvmState) : Prop :=
  0 < k_src_w st ∧ 0 < k_src_h st ∧ 0 ≤ k_src_stride st ∧
  (k_src_fourcc st = V4L2_PIX_FMT_RGB24 ∨ k_src_w st mod 2 = 0).

Lemma byte_of_drop n src i : 0 ≤ n → 0 ≤ i → byte_of (drop (Z.to_nat n) src) i = byte_of src (n + i).
Proof.
  intros. unfold byte_of. rewrite !nth_lookup, lookup_drop. do 2 f_equal. lia.
Qed.

Lemma land_even a : Z.land a (Z.lnot 1) = 2 * (a / 2).
Proof.
  rewrite <- Z.ldiff_land. change 1 with (Z.ones 1) at 1. rewrite Z.ldiff_ones_r by lia.
  rewrite Z.shiftl_mul_pow2, Z.shiftr_div_pow2 by lia. change (2 ^ 1) with 2. lia.
Qed.

Lemma length_uyvy_row src n k : 0 ≤ n → Z.of_nat (length (uyvy_row src n k)) = n * 8.
Proof. intros. unfold uyvy_row. rewrite (length_rows 0 n 8); [lia|done]. Qed.

Lemma length_rgb24_row src n : 0 ≤ n → Z.of_nat (length (rgb24_row src n)) = n * 4.
Proof. intros. unfold rgb24_row. rewrite (length_rows 0 n 4); [lia|done]. Qed.

Lemma lookup_uyvy_row src n k (i : nat) :
  Z.of_nat i < n * 8 →
  let p := 4 * (Z.of_nat i / 8) in
  uyvy_row src n k !! i =
    uyvy_pair k (byte_of src p) (byte_of src (p + 1)) (byte_of src (p + 2)) (byte_of src (p + 3))
      !! Z.to_nat (Z.of_nat i mod 8).
Proof. intros Hi. unfold uyvy_row. rewrite (rows_lookup 0 n 8) by (done || lia). done. Qed.

Lemma lookup_rgb24_row src n (i : nat) :
  Z.of_nat i < n * 4 →
  let p := 3 * (Z.of_nat i / 4) in
  rgb24_row src n !! i =
    [byte_of src (p + 2); byte_of src (p + 1); byte_of src p; 0xFF]
      !! Z.to_nat (Z.of_nat i mod 4).
Proof. intros Hi. unfold rgb24_row. rewrite (rows_lookup 0 n 4) by (done || lia). done. Qed.

Section master.
Variable st : SremfbKvmState.
Hypothesis Hf : format_ok st.
#[local] Abbreviation w := (k_src_w st).
#[local] Abbreviation S4 := (k_src_w st * 4).

Lemma kvm_stride_pos : 0 ≤ kvm_stride st.
Proof.
  destruct Hf as (?&?&?&_). unfold kvm_stride, sremfb_kvm_src_bpp. repeat case_match; lia.
Qed.

Lemma length_kvm_row frame y : Z.of_nat (length (kvm_row st frame y)) = S4.
Proof.
  destruct Hf as (?&?&?&Hev). unfold kvm_row. case_match.
  - by rewrite length_rgb24_row by lia.
  - rewrite length_uyvy_row by (apply Z.div_pos; lia). destruct Hev; [lia|]. dlia.
Qed.

Lemma length_converted frame : Z.of_nat (length (kvm_converted st frame)) = k_src_h st * S4.
Proof.
  destruct Hf as (?&?&_). unfold kvm_converted.
  rewrite (length_rows 0 _ (Z.to_nat S4)); [nia|]. intros i _.
  pose proof (length_kvm_row frame i). lia.
Qed.

(** A part of a row converted on its own is that part of the row. *)
Lemma rgb24_part frame y x n (i : nat) :
  k_src_fourcc st = V4L2_PIX_FMT_RGB24 → 0 ≤ y → 0 ≤ x → x + n ≤ w → Z.of_nat i < n * 4 →
  rgb24_row (drop (Z.to_nat (y * kvm_stride st + x * 3)) frame) n !! i =
    kvm_row st frame y !! Z.to_nat (x * 4 + Z.of_nat i).
Proof.
  intros Hfc Hy Hx Hn Hi. pose proof kvm_stride_pos.
  unfold kvm_row. rewrite Hfc, Z.eqb_refl. rewrite !lookup_rgb24_row by lia. cbv zeta.
  rewrite !byte_of_drop by dlia. rewrite Z2Nat.id by lia.
  replace ((x * 4 + Z.of_nat i) / 4) with (x + Z.of_nat i / 4) by dlia.
  replace ((x * 4 + Z.of_nat i) mod 4) with (Z.of_nat i mod 4) by dlia.
  f_equal. repeat (f_equal; try lia).
Qed.

Lemma uyvy_part frame y q n (i : nat) :
  k_src_fourcc st ≠ V4L2_PIX_FMT_RGB24 → 0 ≤ y → 0 ≤ q → q + n ≤ w / 2 → Z.of_nat i < n * 8 →
  uyvy_row (drop (Z.to_nat (y * kvm_stride st + 2 * q * 2)) frame) n (kvm_coef st) !! i =
    kvm_row st frame y !! Z.to_nat (2 * q * 4 + Z.of_nat i).
Proof.
  intros Hfc Hy Hq Hn Hi. pose proof kvm_stride_pos. apply Z.eqb_neq in Hfc.
  unfold kvm_row. rewrite Hfc. rewrite !lookup_uyvy_row by lia. cbv zeta.
  rewrite !byte_of_drop by dlia. rewrite Z2Nat.id by lia.
  replace ((2 * q * 4 + Z.of_nat i) / 8) with (q + Z.of_nat i / 8) by dlia.
  replace ((2 * q * 4 + Z.of_nat i) mod 8) with (Z.of_nat i mod 8) by dlia.
  f_equal. f_equal; f_equal; lia.
Qed.

Lemma converted_lookup frame (j : nat) :
  Z.of_nat j < k_src_h st * S4 →
  kvm_converted st frame !! j =
    kvm_row st frame (Z.of_nat j / S4) !! Z.to_nat (Z.of_nat j mod S4).
Proof.
  destruct Hf as (?&?&_). intros Hj. unfold kvm_converted.
  rewrite (rows_lookup 0 _ S4); [done| |lia|done]. intros. apply length_kvm_row.
Qed.

(** ** One rectangle *)
Lemma blit_rows_converted frame m xa xb y1 y2 (f : Z → bytes) :
  Z.of_nat (length m) = k_src_h st * S4 → 0 ≤ xa ≤ xb → xb ≤ w → 0 ≤ y1 ≤ y2 → y2 ≤ k_src_h st →
  (∀ k, 0 ≤ k < y2 - y1 → Z.of_nat (length (f k)) = (xb - xa) * 4 ∧
     ∀ i : nat, Z.of_nat i < (xb - xa) * 4 →
       f k !! i = kvm_row st frame (y1 + k) !! Z.to_nat (xa * 4 + Z.of_nat i)) →
  let m' := for_ 0 (y2 - y1) (λ i m, blit m ((y1 + i) * S4 + xa * 4) (f i)) m in
  length m' = length m ∧
  ∀ j : nat, Z.of_nat j < k_src_h st * S4 →
    m' !! j = if decide (in_block S4 (xa * 4) (xb * 4) y1 (y2 - y1) (Z.of_nat j))
              then kvm_converted st frame !! j else m !! j.
Proof.
  intros Hlen Hx Hxw Hy Hyh Hfk. pose proof Hf as (Hw&Hh&_). cbv zeta.
  destruct (blit_rows_spec S4 (xa * 4) ((xb - xa) * 4) y1 (y2 - y1) m m f) as [H1 H2];
    try lia; [nia|intros; by apply Hfk|].
  replace (xa * 4 + (xb - xa) * 4) with (xb * 4) in H2 by lia.
  split; [done|]. intros j Hj. rewrite H2. case_decide as Hin; [|done].
  rewrite converted_lookup by done. destruct Hin as [Hr Hc].
  destruct (Hfk (Z.of_nat j / S4 - y1)) as [_ Hlk]; [lia|]. rewrite Hlk by lia.
  replace (y1 + (Z.of_nat j / S4 - y1)) with (Z.of_nat j / S4) by lia.
  f_equal. lia.
Qed.

(** The pixels a conversion of [r] writes: the columns rounded to pairs. *)
Definition conv_x1 (r : sremfb_rect) : Z :=
  if k_src_fourcc st =? V4L2_PIX_FMT_RGB24 then x1 r else 2 * (x1 r / 2).
Definition conv_x2 (r : sremfb_rect) : Z :=
  if k_src_fourcc st =? V4L2_PIX_FMT_RGB24 then x2 r else 2 * ((x2 r + 1) / 2).

Lemma conv_cols r : rect_in st r →
  0 ≤ conv_x1 r ≤ x1 r ∧ x2 r ≤ conv_x2 r ∧ conv_x2 r ≤ w.
Proof.
  destruct Hf as (?&?&?&Hev). unfold rect_in, conv_x1, conv_x2. intros.
  case_match; [lia|]. destruct Hev as [Hev|Hev]; [lia|]. dlia.
Qed.

Lemma convert_rect_spec frame m r :
  rect_in st r → k_master st = Some m → Z.of_nat (length m) = k_src_h st * S4 →
  ∃ m', sremfb_kvm_convert_rect st frame r = st⟨k_master := Some m'⟩ ∧
    length m' = length m ∧
    ∀ j : nat, Z.of_nat j < k_src_h st * S4 →
      m' !! j = if decide (in_block S4 (conv_x1 r * 4) (conv_x2 r * 4) (y1 r) (y2 r - y1 r) (Z.of_nat j))
                then kvm_converted st frame !! j else m !! j.
Proof.
  intros Hr Hm Hlen. pose proof (conv_cols r Hr) as Hcc. pose proof Hr as (Hx1&Hx2&Hy1&Hy2).
  pose proof Hf as (Hw&Hh&_&Hev). unfold sremfb_kvm_convert_rect. rewrite Hm.
  rewrite (Z.max_l (x1 r)), (Z.max_l (y1 r)), (Z.min_l (x2 r)), (Z.min_l (y2 r)) by lia.
  destruct (_ || _) eqn:E; [lia|]. clear E. unfold conv_x1, conv_x2 in *.
  destruct (k_src_fourcc st =? V4L2_PIX_FMT_RGB24) eqn:Hfc.
  - eexists. split; [done|]. apply blit_rows_converted; try done; try lia.
    intros k Hk. split; [apply length_rgb24_row; lia|]. intros i Hi.
    apply rgb24_part; lia.
  - destruct Hev as [Hev|Hev]; [lia|]. rewrite !land_even.
    replace (2 * (w / 2)) with w by dlia. rewrite (Z.min_l (2 * ((x2 r + 1) / 2))) by lia.
    set (q := x1 r / 2) in *. set (e := (x2 r + 1) / 2) in *.
    destruct (2 * e <=? 2 * q) eqn:E; [lia|]. fold (kvm_coef st).
    replace ((2 * e - 2 * q) / 2) with (e - q) by dlia.
    eexists. split; [done|]. apply blit_rows_converted; try done; try lia.
    intros k Hk. split; [rewrite length_uyvy_row by lia; lia|]. intros i Hi.
    apply uyvy_part; dlia.
Qed.

(** ** All of them *)
Definition in_conv (r : sremfb_rect) (j : Z) : Prop :=
  in_block S4 (conv_x1 r * 4) (conv_x2 r * 4) (y1 r) (y2 r - y1 r) j.

(** The pixels of [r] itself. *)
Definition in_pix (r : sremfb_rect) (j : Z) : Prop :=
  in_block S4 (x1 r * 4) (x2 r * 4) (y1 r) (y2 r - y1 r) j.

Lemma pix_conv r j : rect_in st r → in_pix r j → in_conv r j.
Proof. intros Hr. pose proof (conv_cols r Hr). unfold in_pix, in_conv, in_block. lia. Qed.

Definition convert_all (frame : bytes) (rs : list sremfb_rect) (k : SremfbKvmState) :=
  foldl (λ k r, sremfb_kvm_convert_rect k frame r) k rs.
End master.

Lemma convert_all_spec st frame rs m :
  format_ok st → Forall (rect_in st) rs → k_master st = Some m →
  Z.of_nat (length m) = k_src_h st * (k_src_w st * 4) →
  ∃ m', convert_all frame rs st = st⟨k_master := Some m'⟩ ∧ length m' = length m ∧
    ∀ j : nat, Z.of_nat j < k_src_h st * (k_src_w st * 4) →
      m' !! j = kvm_converted st frame !! j ∨
      (∀ r, r ∈ rs → ¬ in_conv st r (Z.of_nat j)) ∧ m' !! j = m !! j.
Proof.
  intros Hf Hrs. revert st m Hf Hrs. induction rs as [|r rs IH]; intros st m Hf Hrs Hm Hlen.
  { exists m. split_and!; [by destruct st; cbn in *; subst|done|]. intros j Hj. right.
    split; [|done]. by intros r []%not_elem_of_nil. }
  apply Forall_cons in Hrs as [Hr Hrs]. cbn [convert_all foldl].
  destruct (convert_rect_spec st Hf frame m r Hr Hm Hlen) as (m1&->&Hl1&Hlk1).
  set (st1 := st⟨k_master := Some m1⟩). assert (E1 : k_master st1 = Some m1) by reflexivity.
  destruct (IH st1 m1 Hf Hrs E1) as (m'&Heq&Hl'&Hlk'); [cbn; lia|].
  exists m'. unfold convert_all in Heq. rewrite Heq. split_and!; [done|lia|].
  intros j Hj. destruct (Hlk' j Hj) as [Hc|[Hno Hold]]; [by left|].
  rewrite Hlk1 in Hold by done. case_decide as Hin; [by left|right].
  split; [|done]. intros r' [->|Hr']%elem_of_cons; [done|by apply Hno].
Qed.

(** ** Clean tiles *)
Section clean.
Variable st : SremfbKvmState.
Variables cur prev : bytes.
Hypothesis Hf : format_ok st.
Hypothesis Hok : tiles_ok st.
#[local] Abbreviation t := (k_tile st).
#[local] Abbreviation bpp := (sremfb_kvm_src_bpp (k_src_fourcc st)).

Lemma nth_tile_map tx ty :
  0 ≤ tx < k_tiles_x st → 0 ≤ ty < k_tiles_y st →
  nth (Z.to_nat (ty * k_tiles_x st + tx)) (tile_map st cur prev) 0 =
    Z.b2z (tile_differs st cur prev ty tx).
Proof.
  intros Htx Hty. rewrite nth_lookup. unfold tile_map.
  rewrite (rows_lookup 0 _ (k_tiles_x st)); [| |lia|rewrite Z2Nat.id by nia; nia].
  2:{ intros. apply length_tile_map_row. lia. }
  rewrite Z2Nat.id by nia.
  replace ((ty * k_tiles_x st + tx) / k_tiles_x st) with ty by (apply Z.div_unique_pos with tx; lia).
  replace ((ty * k_tiles_x st + tx) mod k_tiles_x st) with tx
    by (apply Z.mod_unique_pos with ty; lia).
  unfold tile_map_row. rewrite (row_lookup st (tile_differs st cur prev (0 + ty))).
  rewrite Z2Nat.id, decide_True by lia. done.
Qed.

Lemma clean_bytes x y e :
  in_source st x y → tile_differs st cur prev (y / t) (x / t) = false → 0 ≤ e < bpp →
  byte_of cur (y * kvm_stride st + x * bpp + e) = byte_of prev (y * kvm_stride st + x * bpp + e).
Proof.
  intros Hin Hd He. pose proof (tile_of st Hok x y Hin) as (Ht1&Ht2&Ht3&Ht4).
  destruct Hin as [Hx Hy]. pose proof (kvm_stride_pos st Hf).
  unfold tile_differs in Hd. pose proof (existsb_exists
    (λ y0, tile_row_differs st cur prev y0 (x / t))
    (seqZ (y / t * t) (Z.min (y / t * t + t) (k_src_h st) - y / t * t))) as [_ Hex].
  cbv zeta in Hd. rewrite Hd in Hex.
  assert (Hrow : tile_row_differs st cur prev y (x / t) = false).
  { destruct (tile_row_differs _ _ _ _ _) eqn:E; [|done]. discriminate Hex. exists y.
    split; [|done]. apply list_elem_of_In, elem_of_seqZ. lia. }
  unfold tile_row_differs in Hrow. apply negb_false_iff, bool_decide_eq_true_1 in Hrow.
  assert (0 < bpp) by (unfold sremfb_kvm_src_bpp; case_match; lia).
  unfold byte_of. rewrite !nth_lookup.
  rewrite (slice_eq_lookup _ _ cur prev (Z.to_nat (y * kvm_stride st + x * bpp + e)) Hrow); [done| |].
  - rewrite Z2Nat.id by nia. nia.
  - destruct Hok as (Ht&_). assert (0 ≤ x / t * t) by nia. nia.
Qed.

(** A byte of the converted frame depends on one pixel, or on a pair. *)
Lemma converted_clean (j : nat) :
  Z.of_nat j < k_src_h st * (k_src_w st * 4) →
  (∀ x y, in_source st x y → y = Z.of_nat j / (k_src_w st * 4) →
     (if k_src_fourcc st =? V4L2_PIX_FMT_RGB24
      then x = Z.of_nat j mod (k_src_w st * 4) / 4
      else x / 2 = Z.of_nat j mod (k_src_w st * 4) / 4 / 2) →
     tile_differs st cur prev (y / t) (x / t) = false) →
  kvm_converted st cur !! j = kvm_converted st prev !! j.
Proof.
  intros Hj Hcl. rewrite !converted_lookup by done. pose proof Hf as (Hw&Hh&_&Hev).
  pose proof (kvm_stride_pos st Hf).
  set (S4 := k_src_w st * 4) in *. set (y := Z.of_nat j / S4) in *.
  set (c := Z.of_nat j mod S4) in *.
  assert (Hc : 0 ≤ c < S4) by (apply Z.mod_pos_bound; lia).
  assert (Hy : 0 ≤ y < k_src_h st).
  { split; [apply Z.div_pos; lia|apply Z.div_lt_upper_bound; lia]. }
  clearbody y c. unfold kvm_row. pose proof clean_bytes as Hb.
  unfold sremfb_kvm_src_bpp in Hb.
  destruct (k_src_fourcc st =? V4L2_PIX_FMT_RGB24) eqn:Hfc.
  - assert (Hin : in_source st (c / 4) y) by (split; [subst S4; dlia|lia]).
    pose proof (Hcl _ _ Hin eq_refl eq_refl) as Hd.
    rewrite !lookup_rgb24_row by (subst S4; lia). cbv zeta. rewrite Z2Nat.id by lia.
    rewrite !byte_of_drop by dlia.
    pose proof (Hb _ _ 0 Hin Hd ltac:(lia)) as B0. pose proof (Hb _ _ 1 Hin Hd ltac:(lia)) as B1.
    pose proof (Hb _ _ 2 Hin Hd ltac:(lia)) as B2. rewrite Z.add_0_r in B0.
    rewrite !(Z.mul_comm 3), !Z.add_assoc, B0, B1, B2. done.
  - destruct Hev as [Hev|Hev]; [lia|]. set (q := c / 4 / 2).
    assert (Hin0 : in_source st (2 * q) y) by (split; [subst S4 q; dlia|lia]).
    assert (Hin1 : in_source st (2 * q + 1) y) by (split; [subst S4 q; dlia|lia]).
    pose proof (Hcl _ _ Hin0 eq_refl ltac:(subst q; dlia)) as Hd0.
    pose proof (Hcl _ _ Hin1 eq_refl ltac:(subst q; dlia)) as Hd1.
    pose proof (Hb _ _ 0 Hin0 Hd0 ltac:(lia)) as B0. pose proof (Hb _ _ 1 Hin0 Hd0 ltac:(lia)) as B1.
    pose proof (Hb _ _ 0 Hin1 Hd1 ltac:(lia)) as B2. pose proof (Hb _ _ 1 Hin1 Hd1 ltac:(lia)) as B3.
    rewrite !lookup_uyvy_row by (rewrite ?Z2Nat.id; subst S4; dlia). cbv zeta.
    rewrite Z2Nat.id by lia. rewrite !byte_of_drop by dlia.
    assert (Hq : c / 8 = q) by (subst q; rewrite Z.div_div by lia; done). rewrite Hq.
    replace (y * kvm_stride st + 4 * q) with (y * kvm_stride st + 2 * q * 2 + 0) by lia.
    replace (y * kvm_stride st + (4 * q + 1)) with (y * kvm_stride st + 2 * q * 2 + 1) by lia.
    replace (y * kvm_stride st + (4 * q + 2)) with (y * kvm_stride st + (2 * q + 1) * 2 + 0) by lia.
    replace (y * kvm_stride st + (4 * q + 3)) with (y * kvm_stride st + (2 * q + 1) * 2 + 1) by lia.
    by rewrite B0, B1, B2, B3.
Qed.
End clean.

(** ** The rectangles cover what changed *)
Lemma changed_covered st cur prev max (j : nat) :
  format_ok st → tiles_ok st → k_tile st mod 2 = 0 → 0 < max →
  Z.of_nat j < k_src_h st * (k_src_w st * 4) →
  (∀ r, r ∈ sremfb_kvm_rects (st⟨k_tile_dirty := Some (tile_map st cur prev)⟩) max →
     ¬ in_pix st r (Z.of_nat j)) →
  kvm_converted st cur !! j = kvm_converted st prev !! j.
Proof.
  intros Hf Hok Heven Hmax Hj Hno. pose proof Hf as (Hw&_). pose proof Hok as (Ht&_).
  set (st1 := st⟨k_tile_dirty := Some (tile_map st cur prev)⟩) in *.
  assert (Hd : k_tile_dirty st1 = Some (tile_map st cur prev)) by reflexivity.
  assert (Hok1 : tiles_ok st1) by exact Hok.
  destruct (rects_cover st1 _ max Hok1 Hd Hmax) as (_&Hin&Hcov).
  set (S4 := k_src_w st * 4) in *.
  assert (Hc : 0 ≤ Z.of_nat j mod S4 < S4) by (apply Z.mod_pos_bound; lia).
  set (x0 := Z.of_nat j mod S4 / 4). set (y0 := Z.of_nat j / S4).
  assert (Hsrc0 : in_source st x0 y0).
  { split; [subst S4 x0; dlia|]. split; [apply Z.div_pos; lia|].
    apply Z.div_lt_upper_bound; lia. }
  apply converted_clean; [done|done|done|]. intros x y Hsrc Hy Hx.
  assert (Hy0 : y = y0) by exact Hy.
  assert (Hx0 : x / k_tile st = x0 / k_tile st).
  { fold S4 in Hx. fold x0 in Hx. case_match; [congruence|]. clear -Hx Heven Ht.
    replace (k_tile st) with (2 * (k_tile st / 2)) by dlia.
    rewrite <- !Z.div_div by dlia. by rewrite Hx. }
  rewrite Hx0, Hy0. destruct (tile_differs _ _ _ _ _) eqn:Htd; [exfalso|done].
  pose proof (tile_of st Hok x0 y0 Hsrc0) as (Ht1&Ht2&_).
  destruct (Hcov x0 y0) as (r&Hr&Hix&Hiy).
  { split; [exact Hsrc0|].
    change (nth (Z.to_nat (y0 / k_tile st * k_tiles_x st + x0 / k_tile st))
      (tile_map st cur prev) 0 ≠ 0). rewrite nth_tile_map, Htd by done. done. }
  apply (Hno r Hr). unfold in_pix, in_block. fold S4. fold y0. split; [lia|].
  subst x0. dlia.
Qed.

Lemma list_eq_len {A} (l k : list A) :
  length l = length k → (∀ i, (i < length l)%nat → l !! i = k !! i) → l = k.
Proof.
  intros Hl Hi. apply list_eq. intros i. destruct (decide (i < length l)%nat); [by apply Hi|].
  by rewrite !lookup_ge_None_2 by lia.
Qed.

Lemma convert_dirty st cur m max :
  format_ok st → tiles_ok st → 0 < max → k_master st = Some m →
  Z.of_nat (length m) = k_src_h st * (k_src_w st * 4) →
  (∀ j : nat, Z.of_nat j < k_src_h st * (k_src_w st * 4) →
    (∀ r, r ∈ sremfb_kvm_rects st max → ¬ in_pix st r (Z.of_nat j)) →
    m !! j = kvm_converted st cur !! j) →
  ∀ d, k_tile_dirty st = Some d →
  convert_all cur (sremfb_kvm_rects st max) st = st⟨k_master := Some (kvm_converted st cur)⟩.
Proof.
  intros Hf Hok Hmax Hm Hlen Hcl d Hd.
  destruct (rects_cover st d max Hok Hd Hmax) as (_&Hin&_).
  destruct (convert_all_spec st cur _ m Hf Hin Hm Hlen) as (m'&->&Hl'&Hlk).
  pose proof (length_converted st Hf cur) as Hlc.
  assert (m' = kvm_converted st cur) as ->; [|done].
  apply list_eq_len; [lia|]. intros j Hj.
  destruct (Hlk j ltac:(lia)) as [Hc|[Hno Hold]]; [done|].
  rewrite Hold. apply Hcl; [lia|]. intros r Hr Hp. apply (Hno r Hr).
  rewrite Forall_forall in Hin. apply (pix_conv st Hf); auto.
Qed.

(** Without a previous frame, every tile is dirty and everything is covered. *)
Lemma all_covered st max (j : nat) :
  format_ok st → tiles_ok st → 0 < max →
  k_tile_dirty st = Some (replicate (Z.to_nat (k_tiles_x st * k_tiles_y st)) 1) →
  Z.of_nat j < k_src_h st * (k_src_w st * 4) →
  ∃ r, r ∈ sremfb_kvm_rects st max ∧ in_pix st r (Z.of_nat j).
Proof.
  intros Hf Hok Hmax Hd Hj. pose proof Hf as (Hw&_).
  destruct (rects_cover st _ max Hok Hd Hmax) as (_&Hin&Hcov).
  set (S4 := k_src_w st * 4) in *.
  assert (Hc : 0 ≤ Z.of_nat j mod S4 < S4) by (apply Z.mod_pos_bound; lia).
  assert (Hsrc : in_source st (Z.of_nat j mod S4 / 4) (Z.of_nat j / S4)).
  { split; [subst S4; dlia|]. split; [apply Z.div_pos; lia|].
    apply Z.div_lt_upper_bound; lia. }
  pose proof (tile_of st Hok _ _ Hsrc) as (T1&T2&_).
  destruct (Hcov (Z.of_nat j mod S4 / 4) (Z.of_nat j / S4)) as (r&Hr&Hix&Hiy).
  { split; [exact Hsrc|]. rewrite nth_lookup, lookup_replicate_2; [done|nia]. }
  exists r. split; [done|]. unfold in_pix, in_block. fold S4. split; [lia|]. dlia.
Qed.
