(* ===== verification/Capture.v ===== *)
(** * kvm/capture.c: the HDMI capture source

    Letterbox, per-client blit, the path of a frame (diff, convert,
    fan-out), the stream and signal state machine and the frame-source
    operations.  A client of the server is its [SremfbClient] with its
    [SremfbKvmClient] ([None] is a NULL src_ctx).

    V4L2 is the driver's: each ioctl(2) appears as its answer, an argument
    of the step that makes it.  The synthetic source (testsrc.c) is the
    class [TestSrc].  Timers are ids: 0 is "not armed". *)
From S2P Require Import Prelude Binary64 Protocol Core Convert Encoder Net Xmit Control Drain.
From S2P Require Import HidReport Kvm.
From stdpp Require Import list.
#[local] Open Scope list_scope.
#[local] Open Scope Z_scope.

Definition SREMFB_KVM_NBUF : Z := 4.
Definition KVM_MAX_RECTS : Z := 16.
Definition KVM_DEBOUNCE_US : Z := 300000.

(** SremfbKvmClient *)
Record SremfbKvmClient := mk_kvm_client {
  kc_streaming : bool; kc_fit : sremfb_kvm_fit; kc_repaint : bool;
  kc_st_since_us : Z; kc_st_frames : Z; kc_st_frames_dirty : Z; kc_st_tiles : Z }.
#[export] Instance eta_kvm_client : Eta SremfbKvmClient := λ k,
  mk_kvm_client (kc_streaming k) (kc_fit k) (kc_repaint k) (kc_st_since_us k)
    (kc_st_frames k) (kc_st_frames_dirty k) (kc_st_tiles k).

(** KvmMode, without the timings block handed back to the driver *)
Record KvmMode := mk_mode { km_w : Z; km_h : Z; km_fps : Z; km_have_timings : bool }.

(** ** Letterbox *)
Definition kvm_fit (sw sh dw dh : Z) : sremfb_kvm_fit :=
  if (sw <=? 0) || (sh <=? 0) || (dw <=? 0) || (dh <=? 0) || ((sw =? dw) && (sh =? dh))
  then mk_fit sw sh dw dh (D_of_Z 1) 0 0 dw dh
  else
    let rx := Ddiv (D_of_Z dw) (D_of_Z sw) in
    let ry := Ddiv (D_of_Z dh) (D_of_Z sh) in
    let s := if Dltb rx ry then rx else ry in
    let fw := Z.min (D_trunc (Dadd (Dmul (D_of_Z sw) s) (D_lit 5 1))) dw in
    let fh := Z.min (D_trunc (Dadd (Dmul (D_of_Z sh) s) (D_lit 5 1))) dh in
    mk_fit sw sh dw dh s (Z.quot (dw - fw) 2) (Z.quot (dh - fh) 2) fw fh.

Definition fit_identity (f : sremfb_kvm_fit) : bool :=
  Deqb (f_s f) (D_of_Z 1) && (f_ox f =? 0) && (f_oy f =? 0) &&
  (f_src_w f =? f_dst_w f) && (f_src_h f =? f_dst_h f).

(** ** Blit: the grab buffer written and the rect touched, [None] for FALSE *)
Definition blit_1to1 (st : SremfbKvmState) (f : sremfb_kvm_fit) (gw : Z) (master gb : bytes)
    (sx sy sx2 sy2 : Z) : option (bytes * sremfb_rect) :=
  let pstride := k_src_w st * 4 in
  let dx := f_ox f + sx in
  let dy := f_oy f + sy in
  let w := Z.min sx2 (sx + (f_dst_w f - dx)) - sx in
  let h := Z.min sy2 (sy + (f_dst_h f - dy)) - sy in
  if (w <=? 0) || (h <=? 0) then None
  else
    Some (for_ 0 h (λ row gb,
            blit gb (((dy + row) * gw + dx) * 4)
              (slice ((sy + row) * pstride + sx * 4) (w * 4) master)) gb,
          mk_rect dx dy (dx + w) (dy + h)).

(** The nearest-neighbour source column (or row) of destination [d]. *)
Definition nearest (d o : Z) (s : double) (n : Z) : Z :=
  CLAMP (D_trunc (Ddiv (D_of_Z (d - o)) s)) 0 (n - 1).

Definition blit_scaled (st : SremfbKvmState) (f : sremfb_kvm_fit) (gw : Z) (master gb : bytes)
    (sx sy sx2 sy2 : Z) : option (bytes * sremfb_rect) :=
  let pw := k_src_w st in
  let ph := k_src_h st in
  let s := f_s f in
  let at0 o v := D_trunc (Dadd (D_of_Z o) (Dmul (D_of_Z v) s)) in
  let at1 o v := D_trunc (Dadd (Dadd (D_of_Z o) (Dmul (D_of_Z v) s)) (D_lit 999 3)) in
  let dx0 := Z.max (at0 (f_ox f) sx) (f_ox f) in
  let dy0 := Z.max (at0 (f_oy f) sy) (f_oy f) in
  let dx1 := Z.min (at1 (f_ox f) sx2) (f_ox f + f_dw f) in
  let dy1 := Z.min (at1 (f_oy f) sy2) (f_oy f + f_dh f) in
  if (dx1 <=? dx0) || (dy1 <=? dy0) then None
  else
    Some (for_ dy0 (dy1 - dy0) (λ dy gb,
            let syy := nearest dy (f_oy f) s ph in
            blit gb ((dy * gw + dx0) * 4)
              (rows dx0 (dx1 - dx0) (λ dx,
                 slice ((syy * pw + nearest dx (f_ox f) s pw) * 4) 4 master))) gb,
          mk_rect dx0 dy0 dx1 dy1).

Section capture.
Context `{X264} `{Platform}.
Implicit Types (c : SremfbClient) (st : SremfbKvmState).

Definition client_bpp (c : SremfbClient) : Z :=
  if ch_pixfmt (c_hello c) =? SREMFB_PIX_RGB565 then 2 else 4.

Definition blit_rect (st : SremfbKvmState) (c : SremfbClient) (f : sremfb_kvm_fit)
    (r : sremfb_rect) : option (SremfbClient * sremfb_rect) :=
  let pw := k_src_w st in
  let ph := k_src_h st in
  let sx := Z.max (x1 r) 0 in
  let sy := Z.max (y1 r) 0 in
  let sx2 := Z.min (x2 r) pw in
  let sy2 := Z.min (y2 r) ph in
  match k_master st, c_grabbuf c with
  | Some master, Some gb =>
    if negb (f_src_w f =? pw) || negb (f_src_h f =? ph) || (sx2 <=? sx) || (sy2 <=? sy) then None
    else
      '(gb, out) ← (if Deqb (f_s f) (D_of_Z 1) then blit_1to1 else blit_scaled)
                     st f (g_width (c_geom c)) master gb sx sy sx2 sy2;
      Some (c⟨c_grabbuf := Some gb⟩, out)
  | _, _ => None
  end.

Definition send_ctrl (c : SremfbClient) (encoding : Z) : SremfbClient :=
  if (c_fd c <? 0) || negb (bool_decide (c_state c = STREAMING)) || negb (c_lost_id c =? 0)
  then c
  else sremfb_xmit_ctrl c (frame_hdr_bytes (frame_hdr_for encoding)).

Definition black (c : SremfbClient) : bytes :=
  replicate (Z.to_nat (g_width (c_geom c) * g_height (c_geom c) * 4)) 0.

(** ** One client of the fan-out *)
Abbreviation client := (SremfbClient * option SremfbKvmClient)%type.

Definition repaint_client (st : SremfbKvmState) (c : SremfbClient) (kc : SremfbKvmClient)
    : SremfbClient * SremfbKvmClient :=
  let full := mk_rect 0 0 (k_src_w st) (k_src_h st) in
  if negb (k_signal st) || negb (bool_decide (is_Some (k_master st))) || (k_prev st <? 0)
  then (c, kc⟨kc_repaint := true⟩)
  else
    let kc := kc⟨kc_repaint := false⟩ in
    let c := if negb (fit_identity (kc_fit kc)) then c⟨c_grabbuf := Some (black c)⟩ else c in
    let c := match blit_rect st c (kc_fit kc) full with Some (c, _) => c | None => c end in
    let c := send_ctrl c SREMFB_ENC_UNBLANK in
    (sremfb_xmit_kick c⟨c_dirty_all := true⟩, kc).

(** [for (j < n && k < KVM_MAX_RECTS)]: the rects blitted so far in [out] *)
Fixpoint blit_rects (st : SremfbKvmState) (f : sremfb_kvm_fit) (rects : list sremfb_rect)
    (c : SremfbClient) (out : list sremfb_rect) : SremfbClient * list sremfb_rect :=
  match rects with
  | [] => (c, out)
  | r :: rects =>
    if Z.of_nat (length out) <? KVM_MAX_RECTS then
      match blit_rect st c f r with
      | Some (c, o) => blit_rects st f rects c (out ++ [o])
      | None => blit_rects st f rects c out
      end
    else (c, out)
  end.

Definition fanout_client (st : SremfbKvmState) (rects : list sremfb_rect) (cl : client) : client :=
  match cl with
  | (c, None) => (c, None)
  | (c, Some kc) =>
    if negb (kc_streaming kc) then (c, Some kc)
    else if kc_repaint kc then
      let '(c, kc) := repaint_client st c⟨c_st_grabs ::= Z.succ⟩ kc in (c, Some kc)
    else
      let '(c, out) := blit_rects st (kc_fit kc) rects c [] in
      match out with
      | [] => (c, Some kc)
      | _ => (sremfb_xmit_damage c⟨c_st_grabs ::= Z.succ⟩ out (client_bpp c), Some kc)
      end
  end.
Definition fanout (st : SremfbKvmState) (rects : list sremfb_rect) (cls : list client)
    : list client := fanout_client st rects <$> cls.

Definition blank_client (cl : client) : client :=
  match cl with
  | (c, Some kc) =>
    if kc_streaming kc then (send_ctrl c SREMFB_ENC_BLANK, Some kc⟨kc_repaint := false⟩) else cl
  | _ => cl
  end.
Definition blank_all (cls : list client) : list client := blank_client <$> cls.

Definition resize_client (st : SremfbKvmState) (cl : client) : client :=
  match cl with
  | (c, Some kc) =>
    if negb (kc_streaming kc) then cl
    else
      let same := (g_width (c_geom c) =? k_src_w st) && (g_height (c_geom c) =? k_src_h st) in
      if negb same && bool_decide (k_resize st = KVM_RESIZE_RECONNECT) &&
         bool_decide (k_geometry st = KVM_GEOM_SOURCE)
      then (sremfb_schedule_client_lost c, Some kc)
      else
        (c⟨c_grabbuf := Some (black c)⟩,
         Some kc⟨kc_fit := kvm_fit (k_src_w st) (k_src_h st) (g_width (c_geom c))
                             (g_height (c_geom c))⟩⟨kc_repaint := true⟩)
  | _ => cl
  end.
Definition apply_resize (st : SremfbKvmState) (cls : list client) : list client :=
  resize_client st <$> cls.

(** ** Frames *)
(** [ok] is the answer of VIDIOC_QBUF. *)
Definition release_buf (st : SremfbKvmState) (idx : Z) (ok : bool) : SremfbKvmState :=
  if (idx <? 0) || (k_nbuf st <=? idx) then st
  else if (0 <=? k_fd st) && negb ok then st
  else st⟨k_buf ::= alter (λ b, b⟨kb_queued := true⟩) (Z.to_nat idx)⟩.

Definition buf_map (st : SremfbKvmState) (idx : Z) : option bytes :=
  k_buf st !! Z.to_nat idx ≫= kb_map.

Definition sremfb_kvm_frame (st : SremfbKvmState) (cls : list client) (idx : Z) (qbuf_ok : bool)
    : SremfbKvmState * list client :=
  match buf_map st idx with
  | None => (st, cls)
  | Some cur =>
    let prev := if 0 <=? k_prev st then buf_map st (k_prev st) else None in
    let st := st⟨k_buf ::= alter (λ b, b⟨kb_queued := false⟩) (Z.to_nat idx)⟩
                ⟨k_frames ::= (λ n, u64 (n + 1))⟩ in
    let '(st, n) := sremfb_kvm_diff st cur prev in
    let '(st, rects) :=
      if 0 <? n then
        let st := st⟨k_frames_dirty ::= (λ n, u64 (n + 1))⟩
                    ⟨k_tiles_dirty_total ::= (λ t, u64 (t + n))⟩ in
        let rects := sremfb_kvm_rects st KVM_MAX_RECTS in
        (foldl (λ st r, sremfb_kvm_convert_rect st cur r) st rects, rects)
      else (st, []) in
    let st := release_buf st (k_prev st) qbuf_ok in
    let st := st⟨k_prev := idx⟩ in
    (st, fanout st rects cls)
  end.
End capture.
