(* ===== verification/CaptureCtl.v ===== *)
(** * kvm/capture.c: the stream, the signal and the frame-source operations

    Second half of capture.c.  The driver's answers to one step are a
    record ([start_ans], [query_ans], [dq_ans]); an ioctl that fails leaves
    its argument as the caller filled it.  A timer or watch that is armed
    has the id 1: the code only compares these ids with 0. *)
From S2P Require Import Prelude Binary64 Protocol Core Convert Encoder Net Xmit Control Drain.
From S2P Require Import HidReport Kvm Capture.
From S2P Require Import Served.
From stdpp Require Import list.
#[local] Open Scope list_scope.
#[local] Open Scope Z_scope.

Definition armed : Z := 1.

(** ** What the driver answers *)
(** struct v4l2_pix_format, the fields used *)
Record pix_format := mk_pix {
  px_width : Z; px_height : Z; px_pixelformat : Z; px_bytesperline : Z;
  px_sizeimage : Z; px_full_range : bool }.

(** v4l2_start(): the REQBUFS count, QUERYBUF and mmap() of each buffer
    (its length and content; [None] when either fails), the QBUFs and
    STREAMON. *)
Record start_ans := mk_start_ans {
  sa_formats : list (option pix_format);
  sa_reqbufs : option Z;
  sa_buffers : list (option bytes);
  sa_qbuf : list bool;
  sa_streamon : bool;
  sa_test : option (list bytes) }.

(** The detection of a mode. *)
Inductive query_ans :=
  | QTest (mode : option (Z * Z * Z))
  | QTimings (is_bt : bool) (width height pixelclock frame : Z)
  | QNoTimings (fmt : option (Z * Z))
  | QError.

(** VIDIOC_DQBUF *)
Inductive dq_ans :=
  | DqAgain
  | DqError
  | DqBuf (index : Z) (error : bool) (bytesused : Z) (content : bytes).

Section ctl.
Context `{X264} `{Platform}.
Implicit Types st : SremfbKvmState.

(** ** Stream *)
Definition buf0 : sremfb_kvm_buf := mk_kvm_buf None false.
Definition bufs0 : list sremfb_kvm_buf := replicate (Z.to_nat SREMFB_KVM_NBUF) buf0.

Definition stop_stream (st : SremfbKvmState) : SremfbKvmState :=
  st⟨k_frame_watch_id := 0⟩⟨k_buf := bufs0⟩⟨k_nbuf := 0⟩⟨k_prev := -1⟩
    ⟨k_streaming := false⟩⟨k_signal := false⟩.

(** The formats asked for in turn, as long as they are not 0: the last
    v4l2_format, as the driver left it. *)
Fixpoint try_formats (want : list Z) (m : KvmMode) (fmt : pix_format)
    (ans : list (option pix_format)) : pix_format :=
  match want with
  | [] => fmt
  | f :: want =>
    if f =? 0 then fmt
    else
      let fmt := mk_pix (u32 (km_w m)) (u32 (km_h m)) f 0 0 false in
      match ans with
      | Some got :: ans =>
        if px_pixelformat got =? f then got else try_formats want m got ans
      | None :: ans => try_formats want m fmt ans
      | [] => try_formats want m fmt []
      end
  end.

Definition v4l2_set_format (st : SremfbKvmState) (m : KvmMode) (ans : list (option pix_format))
    : bool * SremfbKvmState :=
  let want := [k_pixfmt st;
               if k_pixfmt st =? V4L2_PIX_FMT_UYVY then V4L2_PIX_FMT_RGB24 else 0] in
  let fmt := try_formats want m (mk_pix 0 0 0 0 0 false) ans in
  let got := px_pixelformat fmt in
  if negb (got =? V4L2_PIX_FMT_UYVY) && negb (got =? V4L2_PIX_FMT_RGB24) then (false, st)
  else
    let st := st⟨k_src_fourcc := got⟩⟨k_src_w := s32 (px_width fmt)⟩
                ⟨k_src_h := s32 (px_height fmt)⟩ in
    let st := st⟨k_src_stride :=
      if negb (px_bytesperline fmt =? 0) then px_bytesperline fmt
      else k_src_w st * sremfb_kvm_src_bpp got⟩ in
    let st := st⟨k_src_size := px_sizeimage fmt⟩
      ⟨k_full_range := (got =? V4L2_PIX_FMT_UYVY) && px_full_range fmt⟩ in
    ((0 <? k_src_w st) && (0 <? k_src_h st), st).

(** The mapping loop: [None] when a buffer cannot be used. *)
Fixpoint map_buffers (n : nat) (need : Z) (ans : list (option bytes))
    : option (list sremfb_kvm_buf) :=
  match n, ans with
  | O, _ => Some []
  | S n, Some b :: ans =>
    if Z.of_nat (length b) <? need then None
    else l ← map_buffers n need ans; Some (mk_kvm_buf (Some b) false :: l)
  | S _, _ => None
  end.

(** [for (i < nbuf) release_buf(st, i)] *)
Fixpoint release_all_bufs (i : Z) (ans : list bool) (st : SremfbKvmState) : SremfbKvmState :=
  match ans with
  | [] => st
  | ok :: ans => release_all_bufs (i + 1) ans (release_buf st i ok)
  end.

Definition v4l2_start (st : SremfbKvmState) (a : start_ans) : bool * SremfbKvmState :=
  match sa_reqbufs a with
  | None => (false, st)
  | Some count =>
    let st := st⟨k_nbuf := Z.min count SREMFB_KVM_NBUF⟩ in
    if k_nbuf st <? 2 then (false, st)
    else
      match map_buffers (Z.to_nat (k_nbuf st)) (k_src_stride st * k_src_h st) (sa_buffers a) with
      | None => (false, st)
      | Some l =>
        let rest := replicate (Z.to_nat (SREMFB_KVM_NBUF - k_nbuf st)) buf0 in
        let st := st⟨k_buf := l ++ rest⟩ in
        let st := release_all_bufs 0 (take (Z.to_nat (k_nbuf st)) (sa_qbuf a)) st in
        if negb (sa_streamon a) then (false, st)
        else (true, st⟨k_frame_watch_id := armed⟩)
      end
  end.

(** The master image and the tiles of the mode. *)
Definition stream_setup (st : SremfbKvmState) (m : KvmMode) : SremfbKvmState :=
  let master := replicate (Z.to_nat (k_src_w st * k_src_h st * 4)) 0 in
  let st := sremfb_kvm_tiles_alloc st⟨k_src_fps := km_fps m⟩⟨k_master := Some master⟩ in
  st⟨k_prev := -1⟩⟨k_streaming := true⟩.

(** The format of the mode: from the driver, or of the synthetic source. *)
Definition stream_format (st : SremfbKvmState) (m : KvmMode) (a : start_ans)
    : bool * SremfbKvmState :=
  if 0 <=? k_fd st then v4l2_set_format st m (sa_formats a)
  else
    (true,
     st⟨k_src_w := km_w m⟩⟨k_src_h := km_h m⟩⟨k_src_fourcc := V4L2_PIX_FMT_UYVY⟩
       ⟨k_src_stride := km_w m * 2⟩⟨k_src_size := km_w m * 2 * km_h m⟩
       ⟨k_full_range := false⟩).

Definition stream_buffers (st : SremfbKvmState) (a : start_ans) : bool * SremfbKvmState :=
  if 0 <=? k_fd st then v4l2_start st a
  else
    let st := st⟨k_nbuf := SREMFB_KVM_NBUF⟩ in
    match sa_test a with
    | None => (false, st)
    | Some maps => (true, st⟨k_buf := (λ b, mk_kvm_buf (Some b) true) <$> maps⟩)
    end.

Definition start_stream (st : SremfbKvmState) (m : KvmMode) (a : start_ans)
    : bool * SremfbKvmState :=
  let '(ok, st) := stream_format st m a in
  if negb ok then (false, st)
  else
    let '(ok, st) := stream_buffers (stream_setup st m) a in
    if ok then (true, st) else (false, stop_stream st).

(** ** Signal *)
Definition arm_poll (st : SremfbKvmState) : SremfbKvmState :=
  if k_poll_id st =? 0 then st⟨k_poll_id := armed⟩ else st.

(** No mode, and the loss has been logged. *)
Definition no_mode (st : SremfbKvmState) : SremfbKvmState :=
  st⟨k_src_w := 0⟩⟨k_src_h := 0⟩⟨k_src_fps := 0⟩⟨k_lost_logged := true⟩.

Definition signal_lost (st : SremfbKvmState) (cls : list (SremfbClient * option SremfbKvmClient))
    : SremfbKvmState * list (SremfbClient * option SremfbKvmClient) :=
  let was := k_signal st || k_streaming st in
  let blank := was || (0 <? k_src_w st) in
  (arm_poll (no_mode (stop_stream st)), if blank then blank_all cls else cls).

Definition query_mode (st : SremfbKvmState) (q : query_ans) : option KvmMode :=
  if k_fd st <? 0 then
    match q with
    | QTest (Some (w, h, fps)) =>
      if k_test st then Some (mk_mode w h fps false) else None
    | _ => None
    end
  else
    match q with
    | QTimings is_bt w h pixelclock frame =>
      if negb is_bt then None
      else
        let fps := if negb (frame =? 0) then u32 ((pixelclock + frame / 2) / frame) else 0 in
        let w := s32 w in
        let h := s32 h in
        if (w <=? 0) || (h <=? 0) then None else Some (mk_mode w h fps true)
    | QNoTimings (Some (w, h)) =>
      let w := s32 w in
      let h := s32 h in
      if (0 <? w) && (0 <? h) then Some (mk_mode w h 0 false) else None
    | _ => None
    end.

Definition signal_found (st : SremfbKvmState) (now : Z) : SremfbKvmState :=
  st⟨k_signal := true⟩⟨k_lost_logged := false⟩⟨k_last_restream_us := now⟩⟨k_poll_id := 0⟩.

(** [now] is the reading of the clock after a successful restart. *)
Definition probe_signal (st : SremfbKvmState)
    (cls : list (SremfbClient * option SremfbKvmClient)) (q : query_ans) (a : start_ans) (now : Z)
    : SremfbKvmState * list (SremfbClient * option SremfbKvmClient) :=
  match query_mode st q with
  | None => signal_lost st cls
  | Some m =>
    if k_streaming st && k_signal st && (km_w m =? k_src_w st) && (km_h m =? k_src_h st)
    then (st, cls)
    else
      let '(ok, st) := start_stream (stop_stream st) m a in
      if negb ok then signal_lost st cls
      else
        let st := signal_found st now in
        (st, apply_resize st cls)
  end.

Definition poll_cb (st : SremfbKvmState) (cls : list (SremfbClient * option SremfbKvmClient))
    (q : query_ans) (a : start_ans) (now : Z)
    : SremfbKvmState * list (SremfbClient * option SremfbKvmClient) :=
  let '(st, cls) := probe_signal st⟨k_poll_id := 0⟩ cls q a now in
  (if k_signal st then st else arm_poll st, cls).

Definition debounce_cb (st : SremfbKvmState) (cls : list (SremfbClient * option SremfbKvmClient))
    (q : query_ans) (a : start_ans) (now : Z)
    : SremfbKvmState * list (SremfbClient * option SremfbKvmClient) :=
  probe_signal st⟨k_debounce_id := 0⟩ cls q a now.

(** The delay armed, in milliseconds, is [debounce_ms]. *)
Definition debounce_ms (st : SremfbKvmState) (now : Z) : Z :=
  Z.max (Z.quot (k_last_restream_us st + KVM_DEBOUNCE_US - now) 1000) 20.

Definition sremfb_kvm_source_changed (st : SremfbKvmState) : SremfbKvmState :=
  if negb (k_debounce_id st =? 0) then st else st⟨k_debounce_id := armed⟩.

(** [changed]: a SOURCE_CHANGE event was dequeued. *)
Definition on_event (st : SremfbKvmState) (changed : bool) : SremfbKvmState :=
  if changed then sremfb_kvm_source_changed st else st.

Definition on_frame_ready (st : SremfbKvmState)
    (cls : list (SremfbClient * option SremfbKvmClient)) (cond_err : bool) (dq : dq_ans)
    (qbuf_ok : bool)
    : SremfbKvmState * list (SremfbClient * option SremfbKvmClient) :=
  let broken :=
    sremfb_kvm_source_changed st⟨k_frame_watch_id := 0⟩⟨k_signal := false⟩ in
  match dq with
  | DqAgain => if cond_err then (broken, cls) else (st, cls)
  | DqError => (broken, cls)
  | DqBuf index error bytesused content =>
    if k_nbuf st <=? index then (st, cls)
    else
      let st := st⟨k_buf ::= alter (λ b, b⟨kb_map := Some content⟩⟨kb_queued := false⟩)
                               (Z.to_nat index)⟩ in
      if error || (bytesused =? 0) || (bytesused <? k_src_stride st * k_src_h st)
      then (release_buf st index qbuf_ok, cls)
      else sremfb_kvm_frame st cls index qbuf_ok
  end.

(** ** Frame-source operations *)
(** stats_cb(), for the client's counters *)
Definition stats_client (now : Z) (st : SremfbKvmState)
    (cl : SremfbClient * option SremfbKvmClient) : SremfbClient * option SremfbKvmClient :=
  match cl with
  | (c, Some kc) =>
    let dt := Ddiv (D_of_Z (now - kc_st_since_us kc)) (D_of_Z 1000000) in
    if negb (kc_streaming kc) || Dleb dt (D_lit 5 1) then cl
    else
      (c⟨c_st_grabs := 0⟩⟨c_st_rects := 0⟩⟨c_st_wire_bytes := 0⟩⟨c_st_raw_bytes := 0⟩,
       Some kc⟨kc_st_since_us := now⟩⟨kc_st_frames := k_frames st⟩
              ⟨kc_st_frames_dirty := k_frames_dirty st⟩⟨kc_st_tiles := k_tiles_dirty_total st⟩)
  | _ => cl
  end.
Definition stats_cb (now : Z) (st : SremfbKvmState)
    (cls : list (SremfbClient * option SremfbKvmClient))
    : list (SremfbClient * option SremfbKvmClient) := stats_client now st <$> cls.

Context `{!InputStart}.

Definition alloc_buffers (c : SremfbClient) : SremfbClient :=
  c⟨c_grabbuf := Some (black c)⟩⟨c_shadowbuf := Some (black c)⟩⟨c_sendbuf := true⟩.
Definition free_buffers (c : SremfbClient) : SremfbClient :=
  c⟨c_grabbuf := None⟩⟨c_shadowbuf := None⟩⟨c_sendbuf := false⟩.

Definition acquire_buffers (st : SremfbKvmState) (c : SremfbClient) (have : bool) : SremfbClient :=
  alloc_buffers c⟨c_geom :=
    if bool_decide (k_geometry st = KVM_GEOM_SOURCE) && have
    then mk_geom (k_src_w st) (k_src_h st)
    else mk_geom (ch_xres (c_hello c)) (ch_yres (c_hello c))⟩.

Definition acquire_flags (c : SremfbClient) : Z :=
  let flags := if c_feedback c then SREMFB_SRV_FLAG_PING else 0 in
  if c_feedback c && c_h264_cap c && negb (c_h264_failed c) && negb getenv_NO_H264
  then Z.lor flags SREMFB_SRV_FLAG_H264 else flags.

(** From the state to sremfb_ctl_start(), with the time it started. *)
Definition acquire_stream (c : SremfbClient) : Z * SremfbClient :=
  let c := c⟨c_state := STREAMING⟩⟨c_st_grabs := 0⟩⟨c_st_rects := 0⟩⟨c_st_wire_bytes := 0⟩
            ⟨c_st_raw_bytes := 0⟩ in
  let (now, c) := g_get_monotonic_time c in
  (now, sremfb_ctl_start c⟨c_st_since_us := now⟩).

Definition kvm_acquire (st : SremfbKvmState) (c : SremfbClient)
    : Z * SremfbClient * option SremfbKvmClient :=
  let have := k_signal st && (0 <? k_src_w st) && (0 <? k_src_h st) in
  if (k_fd st <? 0) && negb (k_test st) then (SREMFB_STATUS_SERVER_FAIL, c, None)
  else
    let c := acquire_buffers st c have in
    let fit := kvm_fit (if have then k_src_w st else 0) (if have then k_src_h st else 0)
                 (g_width (c_geom c)) (g_height (c_geom c)) in
    let flags := acquire_flags c in
    let '(fi, c) := sremfb_input_start_op c in
    let c := sremfb_xmit_hello c (Z.lor flags fi) in
    let (now, c) := acquire_stream c in
    let kc := mk_kvm_client true fit false now (k_frames st) (k_frames_dirty st)
                (k_tiles_dirty_total st) in
    let '(c, kc) := if have then repaint_client st c kc
                    else (send_ctrl c SREMFB_ENC_BLANK, kc) in
    (SREMFB_STATUS_OK, c, Some kc).

Definition kvm_release (cl : SremfbClient * option SremfbKvmClient) : SremfbClient :=
  match cl with
  | (c, None) => c
  | (c, Some _) => free_buffers (sremfb_ctl_stop (sremfb_xmit_reset c))
  end.

(** sremfb_kvm_start() after the device is open, and sremfb_kvm_stop(). *)
Definition kvm_start (st : SremfbKvmState)
    (cls : list (SremfbClient * option SremfbKvmClient)) (q : query_ans) (a : start_ans) (now : Z)
    : SremfbKvmState * list (SremfbClient * option SremfbKvmClient) :=
  probe_signal st⟨k_prev := -1⟩ cls q a now.

Definition kvm_stop (st : SremfbKvmState) : SremfbKvmState :=
  let st := stop_stream st⟨k_poll_id := 0⟩⟨k_debounce_id := 0⟩ in
  st⟨k_fd := -1⟩⟨k_test := false⟩⟨k_master := None⟩⟨k_tile_dirty := None⟩.
End ctl.
