(* ===== verification/CaptureInv.v ===== *)
(** * The capture state machine (kvm/capture.c): its invariant

    [stream_ok] is what holds of the capture state while it streams: the
    formats and sizes agree, and the master image is the conversion of the
    frame that is held back from the driver.  [cap_inv] adds the signal, the
    watch and the timers; every callback preserves it. *)
From S2P Require Import Prelude Binary64 Protocol Core Convert Encoder Net Xmit Control Drain.
From S2P Require Import Dirty ViewH264 ViewNet Blit HidReport Kvm KvmDiff KvmMaster.
From S2P Require Import Capture CaptureCtl.
From S2P Require Import Served.
From stdpp Require Import list relations.
#[local] Open Scope list_scope.
#[local] Open Scope Z_scope.

(** A mode the clients can be sent: the hello has 16-bit sizes, LZ4 a limit
    on its input, and a UYVY row is made of pairs. *)
Definition mode_fits (w h : Z) : Prop :=
  0 < w < 65536 ∧ 0 < h < 65536 ∧ w * h * 4 ≤ LZ4_MAX_INPUT_SIZE ∧ w mod 2 = 0.

(** main-kvm.c only lets even tile sizes through. *)
Definition tile_size_ok (t : Z) : Prop := 0 < t ∧ t mod 2 = 0.

(** What the driver's answers satisfy. *)
Definition pix_ok (p : pix_format) : Prop :=
  (0 < px_width p → 0 < px_height p → mode_fits (px_width p) (px_height p)) ∧
  0 ≤ px_width p < 65536 ∧ 0 ≤ px_height p < 65536 ∧ 0 ≤ px_bytesperline p.
Definition start_ok (a : start_ans) : Prop :=
  Forall (from_option pix_ok True) (sa_formats a) ∧
  (sa_reqbufs a = None ∨ Z.of_nat (length (sa_buffers a)) ≤ 32).
Definition query_ok (q : query_ans) : Prop :=
  match q with
  | QTimings _ w h _ _ => 0 ≤ w ∧ 0 ≤ h ∧ (0 < w → 0 < h → mode_fits w h)
  | QNoTimings (Some (w, h)) => 0 ≤ w ∧ 0 ≤ h ∧ (0 < w → 0 < h → mode_fits w h)
  | _ => True
  end.

Definition prev_ok (st : SremfbKvmState) : Prop :=
  k_prev st = -1 ∨
  0 ≤ k_prev st < k_nbuf st ∧ ∃ p, k_buf st !! Z.to_nat (k_prev st) = Some (mk_kvm_buf (Some p) false) ∧
    k_master st = Some (kvm_converted st p).

Record stream_ok (st : SremfbKvmState) : Prop := {
  so_format : format_ok st;
  so_fits : mode_fits (k_src_w st) (k_src_h st);
  so_tiles : tiles_ok st;
  so_even : k_tile st mod 2 = 0;
  so_dirty : is_Some (k_tile_dirty st);
  so_master : ∃ m, k_master st = Some m ∧
    Z.of_nat (length m) = k_src_h st * (k_src_w st * 4);
  so_nbuf : 2 ≤ k_nbuf st ≤ SREMFB_KVM_NBUF;
  so_bufs : Z.of_nat (length (k_buf st)) = SREMFB_KVM_NBUF;
  so_prev : prev_ok st }.

Lemma release_buf_bufs st i ok : ∃ bufs, release_buf st i ok = st⟨k_buf := bufs⟩ ∧
  length bufs = length (k_buf st) ∧
  ∀ j, j ≠ Z.to_nat i ∨ i < 0 → bufs !! j = k_buf st !! j.
Proof.
  unfold release_buf. repeat case_match.
  1,2: exists (k_buf st); by destruct st.
  exists (alter (λ b, b⟨kb_queued := true⟩) (Z.to_nat i) (k_buf st)).
  split_and!; [done|by rewrite length_alter|]. intros j Hj. rewrite list_lookup_alter_ne; [done|lia].
Qed.

(** ** One frame *)
(** No tile differs: the frames convert to the same image. *)
Lemma no_change st cur prev :
  format_ok st → tiles_ok st → sumZ (tile_map st cur prev) ≤ 0 →
  kvm_converted st cur = kvm_converted st prev.
Proof.
  intros Hf Hok Hs. pose proof Hf as (Hw&Hh&_). pose proof Hok as (Ht&_).
  apply list_eq_len; [pose proof (length_converted st Hf cur); pose proof (length_converted st Hf prev); lia|].
  intros j Hj. pose proof (length_converted st Hf cur).
  apply (converted_clean st cur prev Hf Hok); [lia|]. intros x y Hin _ _.
  pose proof (tile_of st Hok x y Hin) as (T1&T2&_).
  destruct (tile_differs _ _ _ _ _) eqn:Hd; [exfalso|done].
  pose proof (nth_tile_map st cur prev _ _ T1 T2) as Hn. rewrite Hd in Hn. cbn in Hn.
  pose proof (tile_map_bits st cur prev) as Hb.
  pose proof (sumZ_nth (tile_map st cur prev)
    (Z.to_nat (y / k_tile st * k_tiles_x st + x / k_tile st)) Hb) as Hge.
  rewrite Hn in Hge. lia.
Qed.

(** What sremfb_kvm_frame() does to the state before it releases a buffer:
    the damage and the new state. *)
Definition frame_damage (st : SremfbKvmState) (cur : bytes) (prev : option bytes)
    : SremfbKvmState * list sremfb_rect :=
  let '(st1, n) := sremfb_kvm_diff st cur prev in
  if 0 <? n then
    let st1 := st1⟨k_frames_dirty ::= (λ n, u64 (n + 1))⟩
                  ⟨k_tiles_dirty_total ::= (λ t, u64 (t + n))⟩ in
    let rects := sremfb_kvm_rects st1 KVM_MAX_RECTS in
    (foldl (λ st r, sremfb_kvm_convert_rect st cur r) st1 rects, rects)
  else (st1, []).

(** The fields the conversion of a frame leaves alone. *)
Definition same_setup (st st' : SremfbKvmState) : Prop :=
  st' = st⟨k_master := k_master st'⟩⟨k_tile_dirty := k_tile_dirty st'⟩
          ⟨k_frames_dirty := k_frames_dirty st'⟩⟨k_tiles_dirty_total := k_tiles_dirty_total st'⟩.

Lemma diff_setup st cur prev : same_setup st (sremfb_kvm_diff st cur prev).1.
Proof.
  unfold sremfb_kvm_diff. destruct (k_tile_dirty st) eqn:Hd; [|by destruct st].
  case_match; [by destruct st|]. destruct prev; [|by destruct st].
  destruct (for_ _ _ _ _). by destruct st.
Qed.

Lemma convert_setup st cur r : sremfb_kvm_convert_rect st cur r =
  st⟨k_master := k_master (sremfb_kvm_convert_rect st cur r)⟩.
Proof. unfold sremfb_kvm_convert_rect. repeat case_match; by destruct st. Qed.

Lemma converts_setup st cur rs : same_setup st (foldl (λ st r, sremfb_kvm_convert_rect st cur r) st rs).
Proof.
  assert (E : foldl (λ st r, sremfb_kvm_convert_rect st cur r) st rs =
    st⟨k_master := k_master (foldl (λ st r, sremfb_kvm_convert_rect st cur r) st rs)⟩).
  { revert st. induction rs as [|r rs IH]; intros st; [by destruct st|]. cbn [foldl].
    rewrite (convert_setup st cur r). set (m := k_master (sremfb_kvm_convert_rect st cur r)).
    rewrite (IH st⟨k_master := m⟩). by destruct st. }
  unfold same_setup. rewrite E. by destruct st.
Qed.

Lemma same_setup_trans st1 st2 st3 :
  same_setup st1 st2 → same_setup st2 st3 → same_setup st1 st3.
Proof. unfold same_setup. intros H1 H2. rewrite H2, H1. by destruct st1. Qed.

Lemma damage_setup st cur prev : same_setup st (frame_damage st cur prev).1.
Proof.
  unfold frame_damage. pose proof (diff_setup st cur prev) as Hd.
  destruct (sremfb_kvm_diff st cur prev) as [st1 n]. cbn [fst] in Hd.
  destruct (0 <? n); [|done]. cbn [fst]. eapply same_setup_trans; [exact Hd|].
  eapply same_setup_trans; [|apply converts_setup]. by destruct st1.
Qed.

(** Converting the rects of the dirty tiles, when they cover the change. *)
Lemma convert_damage st cur m d :
  format_ok st → tiles_ok st → k_tile_dirty st = Some d → k_master st = Some m →
  Z.of_nat (length m) = k_src_h st * (k_src_w st * 4) →
  (∀ j : nat, Z.of_nat j < k_src_h st * (k_src_w st * 4) →
    (∀ r, r ∈ sremfb_kvm_rects st KVM_MAX_RECTS → ¬ in_pix st r (Z.of_nat j)) →
    m !! j = kvm_converted st cur !! j) →
  let rects := sremfb_kvm_rects st KVM_MAX_RECTS in
  let st' := foldl (λ st r, sremfb_kvm_convert_rect st cur r) st rects in
  k_master st' = Some (kvm_converted st cur) ∧ is_Some (k_tile_dirty st') ∧
  Forall (rect_in st) rects ∧ Z.of_nat (length rects) ≤ KVM_MAX_RECTS.
Proof.
  intros Hf Hok Hd Hm Hlen Hcov. cbv zeta.
  destruct (rects_cover st d KVM_MAX_RECTS Hok Hd) as (Hn&Hin&_); [done|].
  pose proof (convert_dirty st cur m KVM_MAX_RECTS Hf Hok) as E.
  unfold convert_all in E. rewrite (E ltac:(done) Hm Hlen Hcov d Hd).
  split_and!; [done| |done|done]. cbn. by rewrite Hd.
Qed.

(** The damage: rects inside the source that cover every pixel (every pair
    of pixels, in UYVY) the master image changed at. *)
Lemma damage_spec st cur prev m :
  stream_ok st → k_master st = Some m →
  match prev with Some p => m = kvm_converted st p | None => True end →
  let '(st', rects) := frame_damage st cur prev in
  k_master st' = Some (kvm_converted st cur) ∧ is_Some (k_tile_dirty st') ∧
  Forall (rect_in st) rects ∧ Z.of_nat (length rects) ≤ KVM_MAX_RECTS ∧
  ∀ j : nat, Z.of_nat j < k_src_h st * (k_src_w st * 4) →
    (∀ r, r ∈ rects → ¬ in_pix st r (Z.of_nat j)) →
    m !! j = kvm_converted st cur !! j.
Proof.
  intros Hs Hm Hp. destruct Hs as [Hf _ Hok Hev [d Hd] (m'&Hm'&Hlen) _ _ _].
  rewrite Hm in Hm'. injection Hm' as <-. unfold frame_damage.
  pose proof (tiles_pos st Hok) as [Hx Hy]. destruct prev as [p|].
  - rewrite (diff_tile_map st cur p d) by done.
    destruct (0 <? sumZ (tile_map st cur p)) eqn:Hn; [cbv zeta|].
    + set (st1 := _⟨_ ::= _⟩).
      assert (Hcov : ∀ j : nat, Z.of_nat j < k_src_h st * (k_src_w st * 4) →
        (∀ r, r ∈ sremfb_kvm_rects st1 KVM_MAX_RECTS → ¬ in_pix st r (Z.of_nat j)) →
        m !! j = kvm_converted st cur !! j).
      { intros j Hj Hno. subst m. symmetry.
        assert (Er : sremfb_kvm_rects st1 KVM_MAX_RECTS =
          sremfb_kvm_rects st⟨k_tile_dirty := Some (tile_map st cur p)⟩ KVM_MAX_RECTS)
          by (by apply rects_fields).
        rewrite Er in Hno.
        exact (changed_covered st cur p KVM_MAX_RECTS j Hf Hok Hev ltac:(done) Hj Hno). }
      destruct (convert_damage st1 cur m (tile_map st cur p) Hf Hok eq_refl Hm Hlen Hcov)
        as (E1&E2&E3&E4). by split_and!.
    + assert (E : m = kvm_converted st cur) by
        (rewrite Hp; symmetry; apply (no_change st cur p Hf Hok); by apply Z.ltb_ge in Hn).
      split_and!; [cbn; congruence|done|constructor|done|]. intros. congruence.
  - unfold sremfb_kvm_diff. rewrite Hd. destruct (_ =? 0) eqn:Hz; [nia|].
    destruct (0 <? k_tiles_x st * k_tiles_y st) eqn:Hn; [cbv zeta|nia].
    set (st1 := _⟨_ ::= _⟩).
    set (ones := replicate (Z.to_nat (k_tiles_x st * k_tiles_y st)) 1) in *.
    assert (Hcov : ∀ j : nat, Z.of_nat j < k_src_h st * (k_src_w st * 4) →
        (∀ r, r ∈ sremfb_kvm_rects st1 KVM_MAX_RECTS → ¬ in_pix st r (Z.of_nat j)) →
        m !! j = kvm_converted st cur !! j).
    { intros j Hj Hno. exfalso. destruct (all_covered st1 KVM_MAX_RECTS j) as (r&Hr&Hc); try done.
      by apply (Hno r). }
    destruct (convert_damage st1 cur m ones Hf Hok eq_refl Hm Hlen Hcov) as (E1&E2&E3&E4).
    by split_and!.
Qed.

Abbreviation kvm_state := (SremfbKvmState * list (SremfbClient * option SremfbKvmClient))%type.

(** ** sremfb_kvm_frame() *)
Section inv.
Context `{X264} `{Platform}.
#[local] Abbreviation clients := (list (SremfbClient * option SremfbKvmClient)).
Implicit Types (st : SremfbKvmState) (cls : clients).

(** The setup of the stream: all of the state but the frames and counters. *)
Definition setup st :=
  ((k_fd st, k_tile st, k_geometry st, k_resize st, k_streaming st, k_signal st),
   (k_src_w st, k_src_h st, k_src_fourcc st, k_src_stride st, k_full_range st),
   (k_tiles_x st, k_tiles_y st, k_nbuf st),
   (k_poll_id st, k_debounce_id st, k_frame_watch_id st)).

Lemma setup_converted st st' frame :
  setup st' = setup st → kvm_converted st' frame = kvm_converted st frame.
Proof.
  unfold setup. intros E. injection E as. unfold kvm_converted, kvm_row, kvm_coef, kvm_stride.
  assert (k_src_w st' = k_src_w st ∧ k_src_h st' = k_src_h st ∧ k_src_fourcc st' = k_src_fourcc st ∧
    k_src_stride st' = k_src_stride st ∧ k_full_range st' = k_full_range st)
    as (E1&E2&E3&E4&E5) by (split_and!; congruence).
  by rewrite E1, E2, E3, E4, E5.
Qed.

(** [stream_ok] depends on the setup and on what the frame changes. *)
Lemma setup_stream_ok st st' :
  stream_ok st → setup st' = setup st → length (k_buf st') = length (k_buf st) →
  is_Some (k_tile_dirty st') →
  (∃ m, k_master st' = Some m ∧ Z.of_nat (length m) = k_src_h st * (k_src_w st * 4)) →
  prev_ok st' → stream_ok st'.
Proof.
  intros [Hf Hfit Hok Hev _ _ Hnb Hlb _] E El Hd Hm Hp. unfold setup in E. injection E as.
  constructor; try done; unfold format_ok, tiles_ok in *; try congruence;
    repeat match goal with Hx : _ st' = _ st |- _ => rewrite ?Hx; clear Hx end; try done.
Qed.

Lemma setup_view st st' : setup st' = setup st →
  (k_signal st' = k_signal st ∧ k_src_w st' = k_src_w st ∧ k_src_h st' = k_src_h st) ∧
  k_resize st' = k_resize st ∧ k_geometry st' = k_geometry st.
Proof. unfold setup. intros E. injection E as. split_and!; congruence. Qed.

Definition frame_taken st (idx : Z) : SremfbKvmState :=
  st⟨k_buf ::= alter (λ b, b⟨kb_queued := false⟩) (Z.to_nat idx)⟩
    ⟨k_frames ::= (λ n, u64 (n + 1))⟩.

Lemma frame_unfold st cls idx ok cur :
  buf_map st idx = Some cur →
  let prev := if 0 <=? k_prev st then buf_map st (k_prev st) else None in
  let '(st1, rects) := frame_damage (frame_taken st idx) cur prev in
  let st2 := (release_buf st1 (k_prev st1) ok)⟨k_prev := idx⟩ in
  sremfb_kvm_frame st cls idx ok = (st2, fanout st2 rects cls).
Proof.
  intros Hm. unfold sremfb_kvm_frame. rewrite Hm. cbv zeta. unfold frame_damage, frame_taken.
  destruct (sremfb_kvm_diff _ _ _) as [st1 n]. by destruct (0 <? n).
Qed.

Lemma frame_ok st cls idx ok cur :
  stream_ok st → 0 ≤ idx < k_nbuf st → idx ≠ k_prev st → buf_map st idx = Some cur →
  let '(st', cls') := sremfb_kvm_frame st cls idx ok in
  ∃ rects m, stream_ok st' ∧ setup st' = setup st ∧ k_prev st' = idx ∧ cls' = fanout st' rects cls ∧
    k_master st = Some m ∧ k_master st' = Some (kvm_converted st cur) ∧
    Forall (rect_in st) rects ∧ Z.of_nat (length rects) ≤ KVM_MAX_RECTS ∧
    (0 ≤ k_prev st → ∀ j : nat, Z.of_nat j < k_src_h st * (k_src_w st * 4) →
      (∀ r, r ∈ rects → ¬ in_pix st r (Z.of_nat j)) → m !! j = kvm_converted st cur !! j).
Proof.
  intros Hs Hidx Hne Hcur. pose proof (frame_unfold st cls idx ok cur Hcur) as Hu. cbv zeta in Hu.
  set (prev := if 0 <=? k_prev st then _ else _) in *. set (st0 := frame_taken st idx) in *.
  assert (Hs0 : stream_ok st0).
  { destruct Hs as [??????? Hb Hp]. constructor; try done; [cbn; by rewrite length_alter|].
    destruct Hp as [Hp|(Hp&p&Hbuf&Hmas)]; [by left|right]. split; [done|]. exists p.
    split; [|exact Hmas]. change (alter (λ b, b⟨kb_queued := false⟩) (Z.to_nat idx) (k_buf st) !!
      Z.to_nat (k_prev st) = Some (mk_kvm_buf (Some p) false)).
    rewrite list_lookup_alter_ne; [done|lia]. }
  destruct (so_master _ Hs) as (m&Hm&Hlen).
  assert (Hp : match prev with Some p => m = kvm_converted st0 p | None => True end).
  { subst prev. destruct (so_prev _ Hs) as [->|(Hp&p&Hbuf&Hmas)]; [done|].
    rewrite (proj2 (Z.leb_le _ _)) by lia. unfold buf_map. rewrite Hbuf. cbn.
    rewrite Hm in Hmas. injection Hmas as ->. done. }
  pose proof (damage_spec st0 cur prev m Hs0 Hm Hp) as Hd.
  pose proof (damage_setup st0 cur prev) as Hset.
  destruct (frame_damage st0 cur prev) as [st1 rects]. cbn [fst] in Hset.
  destruct Hd as (Hmas&Hdirty&Hin&Hnum&Hcov). rewrite Hu.
  assert (E1 : setup st1 = setup st ∧ k_prev st1 = k_prev st ∧ k_buf st1 = k_buf st0)
    by (by rewrite Hset).
  destruct E1 as (E1&E2&E3). clear Hset.
  destruct (release_buf_bufs st1 (k_prev st1) ok) as (bufs&Er&El&Elk). rewrite Er.
  set (st2 := st1⟨k_buf := bufs⟩⟨k_prev := idx⟩).
  exists rects, m. assert (E4 : setup st2 = setup st) by exact E1.
  pose proof (setup_converted st st2 cur E4) as Ec.
  assert (Hlast : prev_ok st2).
  { right. split; [cbn; unfold setup in E1; injection E1 as; lia|]. exists cur.
    split; [|rewrite Ec; exact Hmas].
    unfold buf_map in Hcur. destruct (k_buf st !! Z.to_nat idx) as [[mp q]|] eqn:Hb; [|done].
    cbn in Hcur. subst mp. change (bufs !! Z.to_nat idx = Some (mk_kvm_buf (Some cur) false)).
    rewrite Elk, E3 by lia. change (alter (λ b, b⟨kb_queued := false⟩) (Z.to_nat idx) (k_buf st) !!
      Z.to_nat idx = Some (mk_kvm_buf (Some cur) false)).
    by rewrite list_lookup_alter_eq, Hb. }
  split_and!; try done.
  apply (setup_stream_ok st); [done|done|cbn; rewrite El, E3; apply length_alter|done| |done].
  exists (kvm_converted st cur). split; [done|].
  pose proof (length_converted st (so_format _ Hs) cur). lia.
Qed.

(** ** Starting a stream *)
Definition base st := (k_fd st, k_tile st, k_geometry st, k_resize st, k_poll_id st, k_debounce_id st).

Definition frame_setup st := (k_src_w st, k_src_h st, k_src_stride st, k_src_fourcc st).
(** What queueing the buffers and starting the stream leave alone. *)
Definition run st :=
  (base st, frame_setup st, (k_signal st, k_streaming st, k_prev st),
   (k_master st, k_tile_dirty st, k_tiles_x st, k_tiles_y st, k_full_range st)).

Lemma try_formats_ok want m fmt ans :
  mode_fits (km_w m) (km_h m) → Forall (from_option pix_ok True) ans → pix_ok fmt →
  pix_ok (try_formats want m fmt ans).
Proof.
  intros Hm. pose proof Hm as (Hw&Hh&_).
  assert (Hask : ∀ f, pix_ok (mk_pix (u32 (km_w m)) (u32 (km_h m)) f 0 0 false)).
  { intros f. unfold pix_ok. cbn. rewrite !u32_small by lia. split_and!; [done|lia..]. }
  revert fmt ans. induction want as [|f want IH]; intros fmt ans Ha Hf; cbn [try_formats]; [done|].
  case_match; [done|]. destruct ans as [|[got|] ans]; [by apply IH|..];
    apply Forall_cons in Ha as [Hg Ha]; cbn in Hg; [case_match; [done|]|]; by apply IH.
Qed.

Lemma set_format_ok st m ans :
  mode_fits (km_w m) (km_h m) → Forall (from_option pix_ok True) ans →
  let '(ok, st') := v4l2_set_format st m ans in
  base st' = base st ∧ k_frame_watch_id st' = k_frame_watch_id st ∧
  k_streaming st' = k_streaming st ∧ k_signal st' = k_signal st ∧
  (ok = true → format_ok st' ∧ mode_fits (k_src_w st') (k_src_h st')).
Proof.
  intros Hm Ha. unfold v4l2_set_format. set (want := [_; _]).
  pose proof (try_formats_ok want m (mk_pix 0 0 0 0 0 false) ans Hm Ha) as Hp.
  destruct (try_formats _ _ _ _) as [w h f bpl sz fr]. cbn [px_width px_height px_pixelformat
    px_bytesperline px_sizeimage px_full_range] in *. cbv zeta.
  destruct (_ && _) eqn:Hgot; [done|].
  destruct Hp as (Hfit&Hw&Hh&Hb); [by unfold pix_ok; cbn; split_and!; [lia..]|].
  cbn [px_width px_height px_bytesperline] in *.
  split_and!; [done..|]. intros Hpos. cbn in Hpos. apply andb_true_iff in Hpos as [Hw0 Hh0].
  rewrite !s32_small in * by lia. apply Z.ltb_lt in Hw0, Hh0. specialize (Hfit Hw0 Hh0).
  split; cbn; rewrite ?s32_small by lia; [|done]. unfold format_ok. cbn. rewrite ?s32_small by lia.
  split_and!; [done|done| |right; apply Hfit].
  destruct (bpl =? 0); [|done]. cbn. unfold sremfb_kvm_src_bpp. case_match; lia.
Qed.

Lemma map_buffers_length n need ans l : map_buffers n need ans = Some l → length l = n.
Proof.
  revert ans l. induction n as [|n IH]; intros ans l; cbn [map_buffers].
  - by intros [= <-].
  - destruct ans as [|[b|] ans]; [done| |done]. case_match; [done|].
    destruct (map_buffers n need ans) as [l'|] eqn:El; [|done]. intros [= <-].
    cbn. by rewrite (IH _ _ El).
Qed.

Lemma release_all_bufs_only i ans st : ∃ bufs,
  release_all_bufs i ans st = st⟨k_buf := bufs⟩ ∧ length bufs = length (k_buf st).
Proof.
  revert i st. induction ans as [|ok ans IH]; intros i st; cbn [release_all_bufs].
  - exists (k_buf st). by destruct st.
  - destruct (release_buf_bufs st i ok) as (b1&->&L1&_).
    destruct (IH (i + 1) st⟨k_buf := b1⟩) as (b2&->&L2). exists b2.
    split; [by destruct st|]. cbn in L2. lia.
Qed.

Lemma v4l2_start_ok st a :
  let '(ok, st') := v4l2_start st a in
  run st' = run st ∧
  (ok = true → k_frame_watch_id st' ≠ 0 ∧ 2 ≤ k_nbuf st' ≤ SREMFB_KVM_NBUF ∧
     Z.of_nat (length (k_buf st')) = SREMFB_KVM_NBUF).
Proof.
  unfold v4l2_start. destruct (sa_reqbufs a) as [count|]; [|done].
  cbv zeta. set (st1 := st⟨k_nbuf := _⟩).
  assert (E1 : k_nbuf st1 = Z.min count SREMFB_KVM_NBUF) by reflexivity.
  assert (R1 : run st1 = run st) by reflexivity. clearbody st1.
  destruct (k_nbuf st1 <? 2) eqn:Hn; [done|]. apply Z.ltb_ge in Hn.
  destruct (map_buffers _ _ _) as [l|] eqn:Hl; [|done].
  apply map_buffers_length in Hl. set (rest := replicate _ buf0).
  assert (Lr : Z.of_nat (length (l ++ rest)) = SREMFB_KVM_NBUF).
  { rewrite length_app, Hl. subst rest. rewrite length_replicate.
    unfold SREMFB_KVM_NBUF in *. lia. }
  set (st2 := st1⟨k_buf := l ++ rest⟩).
  destruct (release_all_bufs_only 0 (take (Z.to_nat (k_nbuf st2)) (sa_qbuf a)) st2)
    as (bufs&->&Lb). cbn [k_buf] in Lb. change (k_buf st2) with (l ++ rest) in Lb.
  set (st3 := st2⟨k_buf := bufs⟩).
  assert (E3 : k_nbuf st3 = k_nbuf st1 ∧ run st3 = run st1 ∧ k_buf st3 = bufs) by done.
  clearbody st3. destruct E3 as (E3&R3&B3).
  destruct (sa_streamon a); cbn [negb]; [|split; [congruence|done]].
  split; [rewrite <- R1, <- R3; reflexivity|]. intros _. cbn. rewrite E3, B3.
  split_and!; [done|lia|lia|lia].
Qed.

Lemma tiles_alloc_ok st :
  0 < k_tile st → 0 < k_src_w st → 0 < k_src_h st →
  let st' := sremfb_kvm_tiles_alloc st in
  tiles_ok st' ∧ is_Some (k_tile_dirty st') ∧
  st' = st⟨k_tile_dirty := k_tile_dirty st'⟩⟨k_tiles_x := k_tiles_x st'⟩⟨k_tiles_y := k_tiles_y st'⟩.
Proof.
  intros Ht Hw Hh. cbv zeta. unfold sremfb_kvm_tiles_alloc. cbv zeta.
  rewrite (proj2 (Z.ltb_lt 0 (k_tile st)) Ht). cbn [k_src_w k_src_h k_tiles_x k_tiles_y].
  change (k_src_w (st⟨k_tile_dirty := None⟩)) with (k_src_w st).
  set (st1 := _⟨k_tiles_y := _⟩).
  assert (E : tiles_ok st1).
  { unfold tiles_ok. subst st1. cbn. rewrite !(proj2 (Z.ltb_lt 0 _)) by done. done. }
  pose proof (tiles_pos st1 E) as [Hx Hy].
  rewrite !(proj2 (Z.eqb_neq _ _)) by lia. cbn [negb andb].
  split_and!; [exact E|done|]. by destruct st.
Qed.

Definition quiet_stop st : Prop :=
  k_streaming st = false ∧ k_signal st = false ∧ k_frame_watch_id st = 0.

Lemma setup_format st st' :
  frame_setup st' = frame_setup st → format_ok st → mode_fits (k_src_w st) (k_src_h st) →
  format_ok st' ∧ mode_fits (k_src_w st') (k_src_h st').
Proof.
  unfold frame_setup. intros E. injection E as E1 E2 E3 E4. unfold format_ok.
  by rewrite E1, E2, E3, E4.
Qed.

Lemma alloc_stage st m :
  0 < k_tile st → format_ok st → mode_fits (k_src_w st) (k_src_h st) →
  let st' := stream_setup st m in
  base st' = base st ∧ k_signal st' = k_signal st ∧ k_frame_watch_id st' = k_frame_watch_id st ∧
  k_streaming st' = true ∧ k_prev st' = -1 ∧ format_ok st' ∧
  mode_fits (k_src_w st') (k_src_h st') ∧ tiles_ok st' ∧ is_Some (k_tile_dirty st') ∧
  ∃ mst, k_master st' = Some mst ∧ Z.of_nat (length mst) = k_src_h st' * (k_src_w st' * 4).
Proof.
  intros Ht Hf Hfit. pose proof Hf as (Hw&Hh&_). cbv zeta. unfold stream_setup.
  set (st2 := st⟨_ := _⟩⟨_ := _⟩).
  assert (F2 : base st2 = base st ∧ k_signal st2 = k_signal st ∧
    k_frame_watch_id st2 = k_frame_watch_id st ∧ frame_setup st2 = frame_setup st ∧
    k_tile st2 = k_tile st ∧
    k_master st2 = Some (replicate (Z.to_nat (k_src_w st * k_src_h st * 4)) 0)) by done.
  clearbody st2. destruct F2 as (F1&F2&F3&F4&F5&F6).
  destruct (setup_format _ _ F4 Hf Hfit) as [Hf2 Hfit2]. pose proof Hf2 as (Hw2&Hh2&_).
  rewrite <- F5 in Ht. destruct (tiles_alloc_ok st2 Ht Hw2 Hh2) as (T1&T2&T3).
  set (st3 := sremfb_kvm_tiles_alloc st2) in *. clearbody st3.
  assert (F : base st3 = base st2 ∧ k_signal st3 = k_signal st2 ∧
    k_frame_watch_id st3 = k_frame_watch_id st2 ∧ frame_setup st3 = frame_setup st2 ∧
    k_master st3 = k_master st2) by (by rewrite T3).
  clear T3. destruct F as (G1&G2&G3&G4&G5). set (st4 := st3⟨_ := _⟩⟨_ := _⟩).
  assert (H4 : base st4 = base st3 ∧ k_signal st4 = k_signal st3 ∧
    k_frame_watch_id st4 = k_frame_watch_id st3 ∧ k_streaming st4 = true ∧ k_prev st4 = -1 ∧
    frame_setup st4 = frame_setup st3 ∧ k_master st4 = k_master st3 ∧
    k_tile_dirty st4 = k_tile_dirty st3 ∧ (tiles_ok st3 → tiles_ok st4)) by done.
  clearbody st4. destruct H4 as (H1&H2&H3&H4&H5&H6&H7&H8&H9).
  assert (E : frame_setup st4 = frame_setup st) by congruence.
  destruct (setup_format _ _ E Hf Hfit) as [Hf4 Hfit4].
  split_and!; try congruence; try done; [by apply H9|].
  eexists. split; [by rewrite H7, G5|]. rewrite length_replicate.
  unfold frame_setup in E. injection E as E1 E2 E3 E4. rewrite E1, E2. rewrite Z2Nat.id by nia. lia.
Qed.

Lemma starting_ok st st' :
  run st' = run st → k_prev st = -1 → format_ok st → mode_fits (k_src_w st) (k_src_h st) →
  tiles_ok st → k_tile st mod 2 = 0 → is_Some (k_tile_dirty st) →
  (∃ mst, k_master st = Some mst ∧ Z.of_nat (length mst) = k_src_h st * (k_src_w st * 4)) →
  2 ≤ k_nbuf st' ≤ SREMFB_KVM_NBUF → Z.of_nat (length (k_buf st')) = SREMFB_KVM_NBUF →
  stream_ok st'.
Proof.
  unfold run. intros Hr Hp Hf Hfit Hti Hev Hd Hm Hn Hb.
  injection Hr as B1 B2 B3 B4 B5 B6 S1 S2 S3 S4 R3 R4 R5 R6 R7 R8 R9 R10.
  assert (Es : frame_setup st' = frame_setup st) by (unfold frame_setup; congruence).
  destruct (setup_format _ _ Es Hf Hfit) as [Hf' Hfit'].
  constructor; try done.
  - unfold tiles_ok in *. by rewrite B2, S1, S2, R8, R9.
  - by rewrite B2.
  - by rewrite R7.
  - by rewrite R6, S1, S2.
  - left. congruence.
Qed.

Lemma run_fields st st' : run st' = run st →
  base st' = base st ∧ k_signal st' = k_signal st ∧ k_streaming st' = k_streaming st ∧
  k_prev st' = k_prev st.
Proof.
  unfold run, base. intros Hr.
  injection Hr as B1 B2 B3 B4 B5 B6 S1 S2 S3 S4 R3 R4 R5 R6 R7 R8 R9 R10.
  split_and!; congruence.
Qed.

Lemma start_stream_ok st m a :
  0 ≤ k_fd st → tile_size_ok (k_tile st) → mode_fits (km_w m) (km_h m) →
  Forall (from_option pix_ok True) (sa_formats a) → quiet_stop st →
  let '(ok, st') := start_stream st m a in
  base st' = base st ∧ k_signal st' = false ∧
  if ok then stream_ok st' ∧ k_streaming st' = true ∧ k_prev st' = -1 ∧ k_frame_watch_id st' ≠ 0
  else quiet_stop st'.
Proof.
  intros Hfd Ht Hm Ha (Q1&Q2&Q3). unfold start_stream.
  assert (Ef : stream_format st m a = v4l2_set_format st m (sa_formats a)).
  { unfold stream_format. by rewrite (proj2 (Z.leb_le 0 (k_fd st)) Hfd). }
  rewrite Ef. clear Ef.
  pose proof (set_format_ok st m (sa_formats a) Hm Ha) as Hfmt.
  destruct (v4l2_set_format st m (sa_formats a)) as [ok st1].
  destruct Hfmt as (B1&W1&S1&G1&Hok). destruct ok; cbn [negb].
  2:{ split_and!; [done|congruence|]. split_and!; congruence. }
  destruct (Hok eq_refl) as [Hf Hfit].
  assert (Ht1 : tile_size_ok (k_tile st1)) by (unfold base in B1; injection B1 as; congruence).
  pose proof (alloc_stage st1 m (proj1 Ht1) Hf Hfit) as Hal. cbv zeta in Hal.
  set (st4 := stream_setup st1 m) in *. clearbody st4.
  destruct Hal as (A1&A2&A3&A4&A5&A6&A7&A8&A9&A10).
  assert (Hfd4 : 0 ≤ k_fd st4) by (unfold base in *; injection A1 as; injection B1 as; congruence).
  assert (Ef : stream_buffers st4 a = v4l2_start st4 a).
  { unfold stream_buffers. by rewrite (proj2 (Z.leb_le 0 (k_fd st4)) Hfd4). }
  rewrite Ef. clear Ef.
  pose proof (v4l2_start_ok st4 a) as Hst. destruct (v4l2_start st4 a) as [ok st5].
  destruct Hst as [Hr Hst]. destruct (run_fields _ _ Hr) as (R1&R3&R4&R5).
  destruct ok.
  - destruct (Hst eq_refl) as (Hwt&Hnb&Hlb). split_and!; try congruence.
    apply (starting_ok st4); try done. unfold base in A1. injection A1 as. destruct Ht1. congruence.
  - change (base (stop_stream st5)) with (base st5). split_and!; [congruence|done|].
    unfold quiet_stop. by split_and!.
Qed.

(** ** The invariant *)
Record cap_core st : Prop := {
  cc_fd : 0 ≤ k_fd st;
  cc_tile : tile_size_ok (k_tile st);
  cc_stream : k_streaming st = true → stream_ok st;
  cc_signal : k_signal st = true → k_streaming st = true;
  cc_watch : k_frame_watch_id st ≠ 0 ↔ k_signal st = true }.

(** Nothing is lost sight of: a signal, or a timer that looks for one. *)
Definition cap_live st : Prop :=
  k_signal st = true ∨ k_poll_id st ≠ 0 ∨ k_debounce_id st ≠ 0.
Definition cap_inv st : Prop := cap_core st ∧ cap_live st.

Definition answers_ok (q : query_ans) (a : start_ans) : Prop :=
  query_ok q ∧ Forall (from_option pix_ok True) (sa_formats a).

Lemma query_mode_ok st q m : 0 ≤ k_fd st → query_ok q → query_mode st q = Some m →
  mode_fits (km_w m) (km_h m).
Proof.
  intros Hfd Hq. unfold query_mode. rewrite (proj2 (Z.ltb_ge _ _) Hfd).
  assert (Hs : ∀ w h, 0 ≤ w → 0 ≤ h → (0 < w → 0 < h → mode_fits w h) →
    0 < s32 w → 0 < s32 h → mode_fits (s32 w) (s32 h)).
  { intros w h Hw Hh Hf Hw' Hh'. unfold mode_fits in Hf.
    destruct (decide (w = 0)) as [->|]; [done|]. destruct (decide (h = 0)) as [->|]; [done|].
    rewrite !s32_small by lia. apply Hf; lia. }
  destruct q as [|bt w h pc fr|[[w h]|]|]; try done; cbn [query_ok] in Hq; destruct Hq as (H1&H2&H3).
  - destruct bt; cbn [negb]; [|done]. destruct (_ || _) eqn:E; [done|].
    apply orb_false_iff in E as [E1%Z.leb_gt E2%Z.leb_gt]. intros [= <-]. by apply Hs.
  - destruct (_ && _) eqn:E; [|done]. apply andb_true_iff in E as [E1%Z.ltb_lt E2%Z.ltb_lt].
    intros [= <-]. by apply Hs.
Qed.

(** What is kept by a restart. *)
Definition kept st := (k_fd st, k_tile st, k_geometry st, k_resize st, k_debounce_id st).

Lemma quiet_core st st' : kept st' = kept st → quiet_stop st' → cap_core st → cap_core st'.
Proof.
  unfold kept, quiet_stop. intros E (Q1&Q2&Q3) [Hfd Ht _ _ _]. injection E as E1 E2 E3 E4 E5.
  constructor; [congruence|congruence|congruence|congruence|]. rewrite Q2, Q3. done.
Qed.

Lemma arm_poll_ok st :
  kept (arm_poll st) = kept st ∧ (quiet_stop st → quiet_stop (arm_poll st)) ∧
  k_poll_id (arm_poll st) ≠ 0.
Proof. unfold arm_poll. case_match; [done|]. split_and!; [done|done|by apply Z.eqb_neq]. Qed.

Lemma stop_ok st : kept (stop_stream st) = kept st ∧ quiet_stop (stop_stream st).
Proof. unfold quiet_stop. by split_and!. Qed.

Lemma no_mode_ok st : kept (no_mode st) = kept st ∧ (quiet_stop st → quiet_stop (no_mode st)).
Proof. done. Qed.

Lemma lost_ok st cls :
  let '(st', cls') := signal_lost st cls in
  kept st' = kept st ∧ quiet_stop st' ∧ k_poll_id st' ≠ 0 ∧ (cls' = cls ∨ cls' = blank_all cls).
Proof.
  unfold signal_lost. destruct (stop_ok st) as [S1 S2].
  destruct (no_mode_ok (stop_stream st)) as [N1 N2].
  destruct (arm_poll_ok (no_mode (stop_stream st))) as (A1&A2&A3).
  split_and!; [congruence|by apply A2, N2|done|]. case_match; auto.
Qed.

Inductive probe_result st cls st' : list (SremfbClient * option SremfbKvmClient) → Prop :=
  | pr_same : st' = st → k_signal st = true → probe_result st cls st' cls
  | pr_lost cls' : quiet_stop st' → k_poll_id st' ≠ 0 → cls' = cls ∨ cls' = blank_all cls →
      probe_result st cls st' cls'
  | pr_started : k_signal st' = true → k_streaming st' = true → stream_ok st' →
      k_prev st' = -1 → k_frame_watch_id st' ≠ 0 → probe_result st cls st' (apply_resize st' cls).

Lemma found_ok st now :
  let st' := signal_found st now in
  kept st' = kept st ∧ k_signal st' = true ∧ k_streaming st' = k_streaming st ∧
  k_prev st' = k_prev st ∧ k_frame_watch_id st' = k_frame_watch_id st ∧
  (stream_ok st → stream_ok st').
Proof. split_and!; try done. intros []. by constructor. Qed.

Lemma probe_ok st cls q a now :
  0 ≤ k_fd st → tile_size_ok (k_tile st) → answers_ok q a →
  let '(st', cls') := probe_signal st cls q a now in
  kept st' = kept st ∧ probe_result st cls st' cls'.
Proof.
  intros Hfd Ht [Hq Ha]. unfold probe_signal.
  assert (Hlost : ∀ st1, kept st1 = kept st → let '(st', cls') := signal_lost st1 cls in
    kept st' = kept st ∧ probe_result st cls st' cls').
  { intros st1 Ek. pose proof (lost_ok st1 cls) as Hl. destruct (signal_lost st1 cls) as [st' cls'].
    destruct Hl as (L1&L2&L3&L4). split; [congruence|]. by apply pr_lost. }
  destruct (query_mode st q) as [m|] eqn:Hm; [|by apply Hlost].
  apply query_mode_ok in Hm; [|done..]. destruct (_ && _ && _ && _) eqn:Hsame.
  { apply andb_true_iff in Hsame as [[[_ Hs]%andb_true_iff _]%andb_true_iff _].
    split; [done|]. by apply pr_same. }
  destruct (stop_ok st) as [E1 E2]. set (st1 := stop_stream st) in *. clearbody st1.
  assert (k_fd st1 = k_fd st ∧ k_tile st1 = k_tile st) as [E3 E4]
    by (unfold kept in E1; injection E1 as; split; congruence).
  rewrite <- E3 in Hfd. rewrite <- E4 in Ht.
  pose proof (start_stream_ok st1 m a Hfd Ht Hm Ha E2) as Hs.
  destruct (start_stream st1 m a) as [ok st2]. destruct Hs as (B2&G2&Hok).
  assert (Ek : kept st2 = kept st).
  { rewrite <- E1. unfold base in B2. injection B2 as. unfold kept. congruence. }
  destruct ok; cbn [negb]; [|by apply Hlost]. destruct Hok as (O1&O2&O3&O4).
  destruct (found_ok st2 now) as (F1&F2&F3&F4&F5&F6).
  split; [congruence|]. apply pr_started; [done|congruence|by apply F6|congruence|congruence].
Qed.

(** ** The frame watch *)
(** The driver only hands back buffers it was given. *)
Definition dq_ok st (dq : dq_ans) : Prop :=
  match dq with
  | DqBuf index _ _ _ => 0 ≤ index ∧ (index < k_nbuf st → ∃ b, k_buf st !! Z.to_nat index = Some b ∧ kb_queued b = true)
  | _ => True
  end.

Inductive frame_result st cls st' : list (SremfbClient * option SremfbKvmClient) → Prop :=
  | fr_idle : stream_ok st' → setup st' = setup st → k_prev st' = k_prev st →
      k_master st' = k_master st → frame_result st cls st' cls
  | fr_broken : kept st' = (k_fd st, k_tile st, k_geometry st, k_resize st, k_debounce_id st') →
      k_signal st' = false → k_frame_watch_id st' = 0 → k_debounce_id st' ≠ 0 →
      (k_streaming st' = true → stream_ok st') → frame_result st cls st' cls
  | fr_frame rects m cur : stream_ok st' → setup st' = setup st → 0 ≤ k_prev st' →
      k_master st = Some m → k_master st' = Some (kvm_converted st cur) →
      Forall (rect_in st) rects → Z.of_nat (length rects) ≤ KVM_MAX_RECTS →
      (0 ≤ k_prev st → ∀ j : nat, Z.of_nat j < k_src_h st * (k_src_w st * 4) →
        (∀ r, r ∈ rects → ¬ in_pix st r (Z.of_nat j)) → m !! j = kvm_converted st cur !! j) →
      frame_result st cls st' (fanout st' rects cls).

(** Changes of the buffers that spare the one held back. *)
Lemma bufs_stream_ok st bufs :
  stream_ok st → length bufs = length (k_buf st) →
  (0 ≤ k_prev st → bufs !! Z.to_nat (k_prev st) = k_buf st !! Z.to_nat (k_prev st)) →
  stream_ok st⟨k_buf := bufs⟩.
Proof.
  intros Hs Hl Hp. apply (setup_stream_ok st); try done; [by destruct Hs|by destruct Hs|].
  destruct (so_prev _ Hs) as [Hn|(Hn&p&Hb&Hm)]; [by left|right]. split; [done|].
  exists p. split; [|done]. rewrite <- Hb. apply Hp. lia.
Qed.

Lemma broken_ok st cls :
  (k_streaming st = true → stream_ok st) →
  frame_result st cls (sremfb_kvm_source_changed st⟨k_frame_watch_id := 0⟩⟨k_signal := false⟩) cls.
Proof.
  intros Hs. set (st1 := st⟨_ := _⟩⟨_ := _⟩).
  assert (Hs1 : k_streaming st1 = true → stream_ok st1).
  { intros Ht. destruct (Hs Ht). by constructor. }
  assert (E1 : kept st1 = kept st ∧ k_signal st1 = false ∧ k_frame_watch_id st1 = 0) by done.
  clearbody st1. destruct E1 as (E1&E2&E3). unfold kept in E1. injection E1 as K1 K2 K3 K4 K5.
  unfold sremfb_kvm_source_changed. destruct (k_debounce_id st1 =? 0) eqn:Hd; cbn [negb].
  - apply fr_broken; try done; [unfold kept; cbn; congruence|].
    intros Ht. destruct (Hs1 Ht). by constructor.
  - apply fr_broken; try done; [unfold kept; congruence|by apply Z.eqb_neq].
Qed.

Lemma frame_ready_ok st cls cond_err dq ok :
  stream_ok st → dq_ok st dq →
  let '(st', cls') := on_frame_ready st cls cond_err dq ok in frame_result st cls st' cls'.
Proof.
  intros Hs Hdq. unfold on_frame_ready. pose proof (broken_ok st cls (λ _, Hs)) as Hbr.
  destruct dq as [| |index error used content]; [destruct cond_err; [done|by apply fr_idle]|done|].
  destruct (k_nbuf st <=? index) eqn:Hi; [by apply fr_idle|].
  apply Z.leb_gt in Hi. destruct Hdq as [Hi0 Hb]. destruct (Hb Hi) as (b&Hlk&Hq).
  assert (Hne : 0 ≤ k_prev st → Z.to_nat index ≠ Z.to_nat (k_prev st)).
  { intros Hp E. destruct (so_prev _ Hs) as [?|(_&p&Hpb&_)]; [lia|].
    rewrite <- E, Hlk in Hpb. injection Hpb as ->. done. }
  set (bufs := alter (λ b, b⟨kb_map := Some content⟩⟨kb_queued := false⟩) (Z.to_nat index) (k_buf st)).
  change (st⟨k_buf ::= alter (λ b, b⟨kb_map := Some content⟩⟨kb_queued := false⟩) (Z.to_nat index)⟩)
    with (st⟨k_buf := bufs⟩).
  assert (Hs1 : stream_ok st⟨k_buf := bufs⟩).
  { apply bufs_stream_ok; [done|apply length_alter|]. intros Hp. subst bufs.
    rewrite list_lookup_alter_ne; [done|by apply Hne]. }
  assert (Hmap : buf_map st⟨k_buf := bufs⟩ index = Some content).
  { unfold buf_map. change (k_buf st⟨k_buf := bufs⟩) with bufs. subst bufs.
    by rewrite list_lookup_alter_eq, Hlk. }
  set (st1 := st⟨k_buf := bufs⟩) in *.
  assert (E1 : setup st1 = setup st ∧ k_prev st1 = k_prev st ∧ k_master st1 = k_master st ∧
    k_nbuf st1 = k_nbuf st) by done.
  clearbody st1 bufs. destruct E1 as (E1&E2&E3&E4). destruct (error || _ || _).
  - destruct (release_buf_bufs st1 index ok) as (b2&->&L2&K2). apply fr_idle; try done.
    apply bufs_stream_ok; [done|done|]. intros Hp. apply K2. left. intros E.
    rewrite E2 in *. by apply (Hne Hp).
  - assert (Hr : 0 ≤ index < k_nbuf st1) by (rewrite E4; lia).
    assert (Hn : index ≠ k_prev st1).
    { rewrite E2. intros E. rewrite E in Hi0. by apply (Hne Hi0); rewrite E. }
    pose proof (frame_ok st1 cls index ok content Hs1 Hr Hn Hmap) as Hf.
    destruct (sremfb_kvm_frame st1 cls index ok) as [st' cls'].
    destruct Hf as (rects&m&F1&F2&F3&->&F5&F6&F7&F8&F9).
    assert (Ec := setup_converted _ _ content E1).
    pose proof E1 as E1'. unfold setup in E1'. injection E1' as. rewrite Ec in F6, F9.
    rewrite E2 in F9. rewrite E3 in F5.
    assert (k_src_w st1 = k_src_w st ∧ k_src_h st1 = k_src_h st) as [W1 W2] by (split; congruence).
    unfold in_pix in F9. rewrite W1, W2 in F9.
    apply fr_frame with m content; try done; try congruence.
    eapply Forall_impl; [exact F7|]. intros r. unfold rect_in. by rewrite W1, W2.
Qed.

(** ** Every callback keeps the invariant *)
Lemma setup_inv st st' :
  setup st' = setup st → (k_streaming st' = true → stream_ok st') → cap_inv st → cap_inv st'.
Proof.
  unfold setup. intros E Hs [[C1 C2 _ C4 C5] Hl].
  injection E as E1 E2 _ _ E3 E4 _ _ _ _ _ _ _ _ E5 E6 E7.
  split; [constructor; [congruence|congruence|done|by rewrite E4, E3|by rewrite E7, E4]|].
  unfold cap_live. by rewrite E4, E5, E6.
Qed.

Lemma probe_core st cls st' cls' :
  cap_core st → kept st' = kept st → probe_result st cls st' cls' →
  cap_core st' ∧ (k_signal st' = true ∨ k_poll_id st' ≠ 0).
Proof.
  intros Hc Ek Hr. destruct Hr as [-> Hs|cls' Hq Hp _|Hs Hst Hok Hp Hw].
  - auto.
  - split; [by eapply quiet_core|by right].
  - split; [|by left]. destruct Hc as [C1 C2 _ _ _]. unfold kept in Ek. injection Ek as.
    constructor; [congruence|congruence|done|done|done].
Qed.

(** Forgetting that a timer was armed. *)
Lemma timer_core st st' :
  cap_core st → setup st' = setup st⟨k_poll_id := k_poll_id st'⟩⟨k_debounce_id := k_debounce_id st'⟩ →
  (stream_ok st → stream_ok st') → cap_core st'.
Proof.
  intros [C1 C2 C3 C4 C5] E Hs. unfold setup in E. injection E as E1 E2 E3 E4 E5 E6 E7 E8 E9
    E10 E11 E12 E13 E14 E15.
  cbn in *. constructor; [congruence|congruence|intros; apply Hs, C3; congruence|by rewrite E6, E5|].
  by rewrite E15, E6.
Qed.

(** ** Runs *)
Inductive cap_step : kvm_state → kvm_state → Prop :=
  | cs_frame st cls cond_err dq ok : k_frame_watch_id st ≠ 0 → dq_ok st dq →
      cap_step (st, cls) (on_frame_ready st cls cond_err dq ok)
  | cs_poll st cls q a now : k_poll_id st ≠ 0 → answers_ok q a →
      cap_step (st, cls) (poll_cb st cls q a now)
  | cs_debounce st cls q a now : k_debounce_id st ≠ 0 → answers_ok q a →
      cap_step (st, cls) (debounce_cb st cls q a now)
  | cs_event st cls changed : cap_step (st, cls) (on_event st changed, cls).

Lemma poll_inv st cls q a now :
  cap_inv st → answers_ok q a → cap_inv (poll_cb st cls q a now).1.
Proof.
  intros [Hc _] Ha. unfold poll_cb. set (st1 := st⟨k_poll_id := 0⟩).
  assert (Hc1 : cap_core st1).
  { apply (timer_core st); [done|done|]. intros []. by constructor. }
  clearbody st1. pose proof (probe_ok st1 cls q a now) as Hp.
  destruct (probe_signal st1 cls q a now) as [st' cls'].
  destruct Hp as [Ek Hr]; [apply Hc1|apply Hc1|done|]. cbn [fst].
  destruct (probe_core st1 cls st' cls' Hc1 Ek Hr) as [Hc' Hl].
  destruct (k_signal st') eqn:Hs; [split; [done|by left]|].
  destruct Hl as [|Hp]; [done|]. unfold arm_poll. rewrite (proj2 (Z.eqb_neq _ _) Hp).
  split; [done|]. right. by left.
Qed.

Lemma debounce_inv st cls q a now :
  cap_inv st → answers_ok q a → cap_inv (debounce_cb st cls q a now).1.
Proof.
  intros [Hc _] Ha. unfold debounce_cb. set (st1 := st⟨k_debounce_id := 0⟩).
  assert (Hc1 : cap_core st1).
  { apply (timer_core st); [done|done|]. intros []. by constructor. }
  clearbody st1. pose proof (probe_ok st1 cls q a now) as Hp.
  destruct (probe_signal st1 cls q a now) as [st' cls'].
  destruct Hp as [Ek Hr]; [apply Hc1|apply Hc1|done|]. cbn [fst].
  destruct (probe_core st1 cls st' cls' Hc1 Ek Hr) as [Hc' Hl].
  split; [done|]. unfold cap_live. tauto.
Qed.

Lemma event_inv st changed : cap_inv st → cap_inv (on_event st changed).
Proof.
  intros [Hc Hl]. unfold on_event, sremfb_kvm_source_changed.
  destruct changed; [|done]. destruct (k_debounce_id st =? 0) eqn:Hd; cbn [negb]; [|done].
  split; [|by right; right]. apply (timer_core st); [done|done|]. intros []. by constructor.
Qed.

Lemma frame_inv st cls st' cls' :
  cap_inv st → k_streaming st = true → frame_result st cls st' cls' → cap_inv st'.
Proof.
  intros Hi Hst Hr. destruct Hr as [Hs E _ _|Ek Hs Hw Hd Hok|rects m cur Hs E _ _ _ _ _ _].
  - by apply (setup_inv st).
  - destruct Hi as [[C1 C2 _ _ _] _]. unfold kept in Ek. injection Ek as E1 E2 E3 E4.
    split; [|by right; right].
    constructor; [congruence|congruence|done|congruence|rewrite Hw, Hs; done].
  - by apply (setup_inv st).
Qed.

Lemma cap_step_inv s s' : cap_step s s' → cap_inv s.1 → cap_inv s'.1.
Proof.
  destruct 1 as [st cls e dq ok Hw Hdq|st cls q a now Hp Ha|st cls q a now Hp Ha|st cls ch];
    cbn [fst]; intros Hi; [|by apply poll_inv|by apply debounce_inv|by apply event_inv].
  pose proof Hi as [[C1 C2 C3 C4 C5] _]. apply C5, C4 in Hw.
  pose proof (frame_ready_ok st cls e dq ok (C3 Hw) Hdq) as Hr.
  destruct (on_frame_ready st cls e dq ok) as [st' cls']. by apply (frame_inv st cls st' cls').
Qed.
End inv.
