(* ===== verification/CaptureTx.v ===== *)
(** * Letterbox and blit (kvm/capture.c): what a blit changes

    For the fit kvm_fit() computes, blit_rect() stays inside the client's
    frame, reports a rect that covers every byte it changed, and for a
    client of the size of the source copies the master image. *)

From S2P Require Import Prelude Binary64 Protocol Core Convert Encoder Net Xmit Control.
From S2P Require Import Drain XmitSpec Dirty Coverage ViewH264 ViewNet Blit.
From S2P Require Import ViewRead Paint Stream OutReady Link Mirror.
From S2P Require Import HidReport Served Kvm KvmDiff KvmMaster Capture.
From S2P Require Import CaptureCtl CaptureInv.
From stdpp Require Import list relations.
#[local] Open Scope list_scope.
#[local] Open Scope Z_scope.

(** ** The fit *)
(** The letterboxed image lies inside the destination. *)
Record fit_ok (f : sremfb_kvm_fit) : Prop := {
  fo_ox : 0 ≤ f_ox f; fo_oy : 0 ≤ f_oy f;
  fo_w : f_ox f + f_dw f ≤ f_dst_w f; fo_h : f_oy f + f_dh f ≤ f_dst_h f }.

Lemma kvm_fit_fields sw sh dw dh :
  let f := kvm_fit sw sh dw dh in
  f_src_w f = sw ∧ f_src_h f = sh ∧ f_dst_w f = dw ∧ f_dst_h f = dh.
Proof. unfold kvm_fit. cbv zeta. by case_match. Qed.

Lemma kvm_fit_ok sw sh dw dh : 0 ≤ dw → 0 ≤ dh → fit_ok (kvm_fit sw sh dw dh).
Proof.
  intros Hw Hh. unfold kvm_fit. case_match; [constructor; cbn; lia|]. cbv zeta.
  set (a := D_trunc _). set (b := D_trunc _). clearbody a b.
  assert (E : ∀ x d, 0 ≤ d → x ≤ d → 0 ≤ Z.quot (d - x) 2 ∧ Z.quot (d - x) 2 + x ≤ d).
  { intros x d Hd Hx. rewrite Z.quot_div_nonneg by lia. dlia. }
  destruct (E (Z.min a dw) dw) as [A1 A2]; [lia..|].
  destruct (E (Z.min b dh) dh) as [B1 B2]; [lia..|].
  constructor; cbn [f_ox f_oy f_dw f_dh f_dst_w f_dst_h]; lia.
Qed.

Lemma kvm_fit_same w h : kvm_fit w h w h = mk_fit w h w h (D_of_Z 1) 0 0 w h.
Proof. unfold kvm_fit. rewrite !Z.eqb_refl. cbn. by rewrite !orb_true_r. Qed.

Lemma fit_identity_same w h : fit_identity (kvm_fit w h w h) = true.
Proof. rewrite kvm_fit_same. unfold fit_identity. cbn. rewrite !Z.eqb_refl. done. Qed.

(** ** The copies *)
(** Bytes of [gb'] that differ from [gb] lie in [out], which lies in the frame. *)
Definition blit_ok (gw gh : Z) (gb gb' : bytes) (out : sremfb_rect) : Prop :=
  length gb' = length gb ∧
  0 ≤ x1 out < x2 out ∧ x2 out ≤ gw ∧ 0 ≤ y1 out < y2 out ∧ y2 out ≤ gh ∧
  ∀ j : nat, ¬ in_rect (gw * 4) out (Z.of_nat j) → gb' !! j = gb !! j.

Lemma rows_blit_ok gw gh gb x y w h (f : Z → bytes) :
  0 < gw → Z.of_nat (length gb) = gw * gh * 4 →
  0 ≤ x → 0 < w → x + w ≤ gw → 0 ≤ y → 0 < h → y + h ≤ gh →
  (∀ k, 0 ≤ k < h → Z.of_nat (length (f k)) = w * 4) →
  blit_ok gw gh gb (for_ 0 h (λ k gb, blit gb (((y + k) * gw + x) * 4) (f k)) gb)
    (mk_rect x y (x + w) (y + h)) ∧
  ∀ j : nat, in_rect (gw * 4) (mk_rect x y (x + w) (y + h)) (Z.of_nat j) →
    for_ 0 h (λ k gb, blit gb (((y + k) * gw + x) * 4) (f k)) gb !! j =
      f (Z.of_nat j / (gw * 4) - y) !! Z.to_nat (Z.of_nat j mod (gw * 4) - x * 4).
Proof.
  intros Hgw Hlen Hx Hw Hxw Hy Hh Hyh Hf.
  rewrite (for_ext 0 h _ (λ k gb, blit gb ((y + k) * (gw * 4) + x * 4) (f k)))
    by (intros; f_equal; lia).
  destruct (blit_rows_spec (gw * 4) (x * 4) (w * 4) y h gb gb f) as [L B]; try lia; [nia|done|].
  set (gb' := for_ 0 h _ gb) in *. clearbody gb'.
  split.
  - unfold blit_ok. cbn. split_and!; try done; try lia.
    intros j Hj. rewrite B, decide_False; [done|]. intros Hin. apply Hj.
    unfold in_rect, in_block in *. cbn. lia.
  - intros j Hj. rewrite B, decide_True; [done|].
    unfold in_rect, in_block in *. cbn in Hj. lia.
Qed.

Lemma length_px_slice (m : bytes) off n :
  0 ≤ off → 0 ≤ n → off + n ≤ Z.of_nat (length m) → Z.of_nat (length (slice off n m)) = n.
Proof. intros. unfold slice. rewrite length_take, length_drop. lia. Qed.

Lemma nearest_range d o s n : 0 < n → 0 ≤ nearest d o s n < n.
Proof. intros. unfold nearest, CLAMP. repeat case_match; lia. Qed.

Section blit.
Variable st : SremfbKvmState.
Variables gw gh : Z.
Variables master gb : bytes.
Hypothesis Hsrc : 0 < k_src_w st ∧ 0 < k_src_h st.
Hypothesis Hgeom : 0 < gw ∧ 0 < gh.
Hypothesis Hm : Z.of_nat (length master) = k_src_h st * (k_src_w st * 4).
Hypothesis Hg : Z.of_nat (length gb) = gw * gh * 4.

Lemma blit_1to1_ok f sx sy sx2 sy2 gb' out :
  fit_ok f → f_dst_w f = gw → f_dst_h f = gh →
  0 ≤ sx < sx2 → sx2 ≤ k_src_w st → 0 ≤ sy < sy2 → sy2 ≤ k_src_h st →
  blit_1to1 st f gw master gb sx sy sx2 sy2 = Some (gb', out) →
  blit_ok gw gh gb gb' out.
Proof.
  intros [Ox Oy _ _] Ew Eh Hx Hx2 Hy Hy2. unfold blit_1to1. cbv zeta. rewrite Ew, Eh.
  set (w := Z.min sx2 _ - sx). set (h := Z.min sy2 _ - sy).
  destruct (_ || _) eqn:E; [done|]. apply orb_false_iff in E as [Hw%Z.leb_gt Hh%Z.leb_gt].
  intros [= <- <-].
  apply (rows_blit_ok gw gh gb (f_ox f + sx) (f_oy f + sy) w h); try lia.
  intros k Hk. apply length_px_slice; [nia|lia|]. rewrite Hm.
  assert ((sy + k + 1) * (k_src_w st * 4) ≤ k_src_h st * (k_src_w st * 4)) by nia. nia.
Qed.

Lemma blit_scaled_ok f sx sy sx2 sy2 gb' out :
  fit_ok f → f_dst_w f = gw → f_dst_h f = gh →
  blit_scaled st f gw master gb sx sy sx2 sy2 = Some (gb', out) →
  blit_ok gw gh gb gb' out.
Proof.
  intros [Ox Oy Ow Oh] Ew Eh. unfold blit_scaled. cbv zeta.
  set (dx0 := Z.max _ _). set (dy0 := Z.max _ _). set (dx1 := Z.min _ _). set (dy1 := Z.min _ _).
  assert (B : 0 ≤ dx0 ∧ 0 ≤ dy0 ∧ dx1 ≤ gw ∧ dy1 ≤ gh) by lia. clearbody dx0 dy0 dx1 dy1.
  destruct (_ || _) eqn:E; [done|]. apply orb_false_iff in E as [Hw%Z.leb_gt Hh%Z.leb_gt].
  intros [= <- <-]. rewrite for_shift.
  replace (mk_rect dx0 dy0 dx1 dy1) with (mk_rect dx0 dy0 (dx0 + (dx1 - dx0)) (dy0 + (dy1 - dy0)))
    by (f_equal; lia).
  apply (rows_blit_ok gw gh gb dx0 dy0 (dx1 - dx0) (dy1 - dy0)); try lia.
  intros k Hk. rewrite (length_rows _ _ 4); [lia|]. intros i _.
  pose proof (nearest_range (dy0 + k) (f_oy f) (f_s f) _ (proj2 Hsrc)) as Ny.
  pose proof (nearest_range i (f_ox f) (f_s f) _ (proj1 Hsrc)) as Nx.
  set (a := nearest _ _ _ _) in *. set (b := nearest _ _ _ _) in *. clearbody a b.
  apply Nat2Z.inj. rewrite length_px_slice; [done|nia|lia|]. rewrite Hm.
  assert ((a + 1) * (k_src_w st * 4) ≤ k_src_h st * (k_src_w st * 4)) by nia. nia.
Qed.

(** A client of the source's size: the rect is copied as it is. *)
Lemma blit_1to1_copy sx sy sx2 sy2 :
  gw = k_src_w st → gh = k_src_h st →
  0 ≤ sx < sx2 → sx2 ≤ k_src_w st → 0 ≤ sy < sy2 → sy2 ≤ k_src_h st →
  ∃ gb', blit_1to1 st (kvm_fit gw gh gw gh) gw master gb sx sy sx2 sy2 =
      Some (gb', mk_rect sx sy sx2 sy2) ∧
    ∀ j : nat, in_rect (gw * 4) (mk_rect sx sy sx2 sy2) (Z.of_nat j) → gb' !! j = master !! j.
Proof.
  intros Ew Eh Hx Hx2 Hy Hy2. rewrite kvm_fit_same. unfold blit_1to1. cbv zeta.
  cbn [f_ox f_oy f_dst_w f_dst_h]. rewrite !Z.add_0_l.
  replace (Z.min sx2 (sx + (gw - sx)) - sx) with (sx2 - sx) by lia.
  replace (Z.min sy2 (sy + (gh - sy)) - sy) with (sy2 - sy) by lia.
  rewrite !(proj2 (Z.leb_gt _ _)) by lia. cbn [orb].
  set (f := λ k, slice ((sy + k) * (k_src_w st * 4) + sx * 4) ((sx2 - sx) * 4) master).
  assert (Hb : ∀ k, 0 ≤ k < sy2 - sy →
    (sy + k) * (k_src_w st * 4) + sx * 4 + (sx2 - sx) * 4 ≤ Z.of_nat (length master)).
  { intros k Hk. rewrite Hm.
    assert ((sy + k + 1) * (k_src_w st * 4) ≤ k_src_h st * (k_src_w st * 4)) by nia. nia. }
  destruct (rows_blit_ok gw gh gb sx sy (sx2 - sx) (sy2 - sy) f) as [_ B]; try lia.
  { intros k Hk. apply length_px_slice; [nia|lia|by apply Hb]. }
  replace (sx + (sx2 - sx)) with sx2 in * by lia. replace (sy + (sy2 - sy)) with sy2 in * by lia.
  eexists. split; [done|]. intros j Hj. etrans; [exact (B j Hj)|].
  unfold in_rect in Hj. cbn in Hj. rewrite Ew in *.
  set (S := k_src_w st * 4) in *. set (q := Z.of_nat j / S) in *.
  pose proof (Z.div_mod (Z.of_nat j) S ltac:(lia)) as Hdm. fold q in Hdm.
  unfold f. rewrite lookup_slice by lia. f_equal. fold S.
  replace (sy + (q - sy)) with q by lia. nia.
Qed.
End blit.

(** * What the capture source does to its clients (kvm/capture.c)

    Fan-out, repaint, blanking and a change of mode are runs of [tx_step]:
    the capture source keeps the contract of the transmit queue.  For a
    client of the size of the source the grab buffer is the master image. *)
Section tx.
Context `{X : X264} `{L : LZ4} `{P : Platform}.
Implicit Types (c : SremfbClient) (st : SremfbKvmState) (kc : SremfbKvmClient).

(** The capture state as the fan-out sees it. *)
Definition source_ok st (master : bytes) : Prop :=
  0 < k_src_w st ∧ 0 < k_src_h st ∧ k_master st = Some master ∧
  Z.of_nat (length master) = k_src_h st * (k_src_w st * 4).

Definition same_size st c : Prop :=
  g_width (c_geom c) = k_src_w st ∧ g_height (c_geom c) = k_src_h st.

Lemma blit_rect_ok st master c gb sw sh r c' out :
  source_ok st master → grab_ok c gb → rect_in st r →
  blit_rect st c (kvm_fit sw sh (g_width (c_geom c)) (g_height (c_geom c))) r = Some (c', out) →
  ∃ gb', c' = c⟨c_grabbuf := Some gb'⟩ ∧
    blit_ok (g_width (c_geom c)) (g_height (c_geom c)) gb gb' out.
Proof.
  intros (Hw&Hh&Hm&Hlm) (Hge&Hg&Hlg) (Hx&Hx2&Hy&Hy2). unfold geom_ok in Hge.
  unfold frame_size in Hlg. unfold blit_rect. rewrite Hm, Hg. cbv zeta.
  rewrite (Z.max_l (x1 r)), (Z.max_l (y1 r)), (Z.min_l (x2 r)), (Z.min_l (y2 r)) by lia.
  destruct (kvm_fit_fields sw sh (g_width (c_geom c)) (g_height (c_geom c))) as (Ew&Eh&Dw&Dh).
  pose proof (kvm_fit_ok sw sh (g_width (c_geom c)) (g_height (c_geom c))) as Hfit.
  set (f := kvm_fit _ _ _ _) in *. clearbody f. destruct (_ || _); [done|].
  set (gw := g_width (c_geom c)) in *. set (gh := g_height (c_geom c)) in *.
  destruct (Deqb _ _).
  - destruct (blit_1to1 _ _ _ _ _ _ _ _ _) as [[gb' o]|] eqn:E; [|done]. cbn.
    intros [= <- <-]. exists gb'. split; [done|].
    eapply (blit_1to1_ok st gw gh master gb); [..|exact E]; try done; try lia. apply Hfit; lia.
  - destruct (blit_scaled _ _ _ _ _ _ _ _ _) as [[gb' o]|] eqn:E; [|done]. cbn.
    intros [= <- <-]. exists gb'. split; [done|].
    eapply (blit_scaled_ok st gw gh master gb); [..|exact E]; try done; try lia. apply Hfit; lia.
Qed.

Lemma blit_rect_copy st master c gb r :
  source_ok st master → grab_ok c gb → rect_in st r → same_size st c →
  ∃ gb', blit_rect st c (kvm_fit (k_src_w st) (k_src_h st) (g_width (c_geom c)) (g_height (c_geom c))) r =
      Some (c⟨c_grabbuf := Some gb'⟩, r) ∧
    ∀ j : nat, in_rect (stride_of c) r (Z.of_nat j) → gb' !! j = master !! j.
Proof.
  intros (Hw&Hh&Hm&Hlm) (Hge&Hg&Hlg) (Hx&Hx2&Hy&Hy2) [Sw Sh]. unfold geom_ok in Hge.
  unfold frame_size in Hlg. unfold blit_rect. rewrite Hm, Hg. cbv zeta.
  rewrite (Z.max_l (x1 r)), (Z.max_l (y1 r)), (Z.min_l (x2 r)), (Z.min_l (y2 r)) by lia.
  rewrite <- Sw, <- Sh, kvm_fit_same. cbn [f_src_w f_src_h f_s]. rewrite !Z.eqb_refl.
  rewrite !(proj2 (Z.leb_gt _ _)) by lia. cbn [negb orb].
  replace (Deqb (D_of_Z 1) (D_of_Z 1)) with true by reflexivity.
  rewrite <- kvm_fit_same. unfold stride_of.
  destruct (blit_1to1_copy st (g_width (c_geom c)) (g_height (c_geom c)) master gb)
    with (sx := x1 r) (sy := y1 r) (sx2 := x2 r) (sy2 := y2 r) as (gb'&E&Hc); try done; try lia.
  rewrite E. exists gb'. destruct r. done.
Qed.

(** ** Several rects *)
Lemma blit_rects_ok st master sw sh rects c gb out :
  source_ok st master → grab_ok c gb → Forall (rect_in st) rects →
  let '(c', out') := blit_rects st (kvm_fit sw sh (g_width (c_geom c)) (g_height (c_geom c)))
                       rects c out in
  ∃ gb' new, c' = c⟨c_grabbuf := Some gb'⟩ ∧ out' = out ++ new ∧ length gb' = length gb ∧
    ∀ j : nat, (∀ r, r ∈ new → ¬ in_rect (stride_of c) r (Z.of_nat j)) → gb' !! j = gb !! j.
Proof.
  intros Hs Hg Hr. revert c gb out Hg. induction Hr as [|r rects Hr Hrs IH]; intros c gb out Hg.
  { exists gb, []. destruct Hg as (_&E&_). split_and!; [by destruct c; cbn in *; subst| |done|done].
    by rewrite app_nil_r. }
  cbn [blit_rects]. destruct (_ <? _).
  2:{ exists gb, []. destruct Hg as (_&E&_). split_and!; [by destruct c; cbn in *; subst| |done|done].
      by rewrite app_nil_r. }
  destruct (blit_rect _ _ _ _) as [[c1 o]|] eqn:E; [|by apply IH].
  destruct (blit_rect_ok st master c gb sw sh r c1 o Hs Hg Hr E) as (gb1&->&L1&O1&O2&O3&O4&B1).
  set (c1 := c⟨c_grabbuf := Some gb1⟩).
  assert (Hg1 : grab_ok c1 gb1).
  { destruct Hg as (G1&G2&G3). split_and!; [done|done|]. rewrite L1. exact G3. }
  pose proof (IH c1 gb1 (out ++ [o]) Hg1) as Hi.
  change (kvm_fit sw sh (g_width (c_geom c1)) (g_height (c_geom c1)))
    with (kvm_fit sw sh (g_width (c_geom c)) (g_height (c_geom c))) in Hi.
  destruct (blit_rects _ _ _ c1 _) as [c2 out2]. destruct Hi as (gb2&new&->&->&L2&B2).
  exists gb2, (o :: new). split_and!; [by destruct c|by rewrite <- app_assoc|lia|].
  intros j Hj. rewrite B2, B1; [done|..].
  - apply Hj, list_elem_of_here.
  - intros r' Hr'. by apply Hj, list_elem_of_further.
Qed.

Lemma blit_rects_copy st master rects c gb out :
  source_ok st master → grab_ok c gb → Forall (rect_in st) rects → same_size st c →
  Z.of_nat (length out + length rects) ≤ KVM_MAX_RECTS →
  ∃ gb', blit_rects st (kvm_fit (k_src_w st) (k_src_h st) (g_width (c_geom c)) (g_height (c_geom c)))
      rects c out = (c⟨c_grabbuf := Some gb'⟩, out ++ rects) ∧ length gb' = length gb ∧
    ∀ j : nat, gb' !! j = master !! j ∨
      (∀ r, r ∈ rects → ¬ in_rect (stride_of c) r (Z.of_nat j)) ∧ gb' !! j = gb !! j.
Proof.
  intros Hs Hg Hr. revert c gb out Hg. induction Hr as [|r rects Hr Hrs IH];
    intros c gb out Hg Hsz Hn.
  { exists gb. destruct Hg as (_&E&_). rewrite app_nil_r.
    split_and!; [by destruct c; cbn in *; subst|done|]. intros j. right. split; [|done].
    by intros r []%not_elem_of_nil. }
  cbn [blit_rects length] in *. rewrite (proj2 (Z.ltb_lt _ _)) by lia.
  destruct (blit_rect_copy st master c gb r Hs Hg Hr Hsz) as (gb1&E&C1). rewrite E.
  destruct (blit_rect_ok st master c gb _ _ r _ r Hs Hg Hr E) as (gb1'&Eg&L1&_&_&_&_&B1).
  assert (gb1' = gb1) as -> by (apply (f_equal c_grabbuf) in Eg; cbn in Eg; congruence).
  clear Eg E. set (c1 := c⟨c_grabbuf := Some gb1⟩).
  assert (Hg1 : grab_ok c1 gb1).
  { destruct Hg as (G1&G2&G3). split_and!; [done|done|]. rewrite L1. exact G3. }
  destruct (IH c1 gb1 (out ++ [r]) Hg1 Hsz) as (gb2&E2&L2&C2); [rewrite length_app; cbn; lia|].
  change (kvm_fit (k_src_w st) (k_src_h st) (g_width (c_geom c1)) (g_height (c_geom c1)))
    with (kvm_fit (k_src_w st) (k_src_h st) (g_width (c_geom c)) (g_height (c_geom c))) in E2.
  exists gb2. rewrite E2. split_and!; [|lia|].
  - by rewrite <- app_assoc; destruct c.
  - intros j. change (stride_of c1) with (stride_of c) in C2.
    destruct (C2 j) as [C|[Hno C]]; [by left|]. destruct (decide (in_rect (stride_of c) r (Z.of_nat j))).
    + left. rewrite C. by apply C1.
    + right. split; [|rewrite C; by apply B1]. intros r' [->|Hr']%elem_of_cons; [done|by apply Hno].
Qed.

(** ** Operations as runs of the client *)
Lemma grab_tx c g : ∀ e, send_ctrl c⟨c_grabbuf := g⟩ e = (send_ctrl c e)⟨c_grabbuf := g⟩.
Proof.
  intros e. unfold send_ctrl. cbn. case_match; [done|].
  unfold sremfb_xmit_ctrl. cbn. case_match; [done|]. unfold sremfb_xmit_kick. cbn.
  case_match; [done|]. unfold xmit_idle, dirty_n. cbn. by case_match.
Qed.

Lemma send_ctrl_tx c e :
  e = SREMFB_ENC_BLANK ∨ e = SREMFB_ENC_UNBLANK → rtc tx_step c (send_ctrl c e).
Proof.
  intros He. unfold send_ctrl. case_match; [done|]. apply rtc_once.
  destruct He as [->| ->]; [apply (tx_blank c true)|apply (tx_blank c false)].
Qed.

Lemma send_ctrl_fields c e :
  c_geom (send_ctrl c e) = c_geom c ∧ c_grabbuf (send_ctrl c e) = c_grabbuf c.
Proof.
  unfold send_ctrl. case_match; [done|]. unfold sremfb_xmit_ctrl. case_match; [done|].
  unfold sremfb_xmit_kick. cbv zeta. case_match; [done|]. by case_match.
Qed.

Lemma repaint_run c g e :
  e = SREMFB_ENC_BLANK ∨ e = SREMFB_ENC_UNBLANK → Z.of_nat (length g) = frame_size c →
  ∀ b, rtc tx_any (c, b)
    (sremfb_xmit_kick (send_ctrl c⟨c_grabbuf := Some g⟩ e)⟨c_dirty_all := true⟩, false).
Proof.
  intros He Hl b. eapply rtc_r; [by apply steps_any, (send_ctrl_tx c e)|]. rewrite grab_tx.
  apply ta_repaint. destruct (send_ctrl_fields c e) as [E _].
  unfold frame_size in *. by rewrite E.
Qed.

Lemma kick_grab c : c_grabbuf (sremfb_xmit_kick c) = c_grabbuf c ∧ c_geom (sremfb_xmit_kick c) = c_geom c.
Proof. unfold sremfb_xmit_kick. case_match; [done|]. by case_match. Qed.

Lemma black_length c : geom_ok (c_geom c) → Z.of_nat (length (black c)) = frame_size c.
Proof. unfold geom_ok, frame_size, black. intros. rewrite length_replicate. nia. Qed.

(** When a repaint can be done at all. *)
Definition paintable st : bool :=
  k_signal st && bool_decide (is_Some (k_master st)) && (0 <=? k_prev st).

(** The blit of the whole source. *)
Lemma full_blit st master c gb sw sh :
  source_ok st master → grab_ok c gb →
  let full := mk_rect 0 0 (k_src_w st) (k_src_h st) in
  let f := kvm_fit sw sh (g_width (c_geom c)) (g_height (c_geom c)) in
  ∃ g2, match blit_rect st c f full with Some (c2, _) => c2 | None => c end =
      c⟨c_grabbuf := Some g2⟩ ∧ Z.of_nat (length g2) = frame_size c ∧
    (same_size st c → sw = k_src_w st → sh = k_src_h st → g2 = master).
Proof.
  intros Hs Hg. cbv zeta. set (full := mk_rect 0 0 _ _). pose proof Hs as (Hw&Hh&Hm&Hlm).
  assert (Hfull : rect_in st full) by (unfold rect_in; cbn; lia).
  pose proof Hg as (_&Hgr&Hlg). set (f := kvm_fit _ _ _ _).
  destruct (blit_rect st c f full) as [[c2 o]|] eqn:E.
  2:{ exists gb. split_and!; [rewrite <- Hgr; by destruct c|done|]. intros Hsz -> ->. exfalso.
      destruct (blit_rect_copy st master c gb full Hs Hg Hfull Hsz) as (g2&E2&_).
      fold f in E2. congruence. }
  destruct (blit_rect_ok st master c gb sw sh full c2 o Hs Hg Hfull E) as (g2&->&L2&_).
  exists g2. split_and!; [done|lia|]. intros Hsz -> ->.
  destruct (blit_rect_copy st master c gb full Hs Hg Hfull Hsz) as (g2'&E2&Hc).
  fold f in E2. rewrite E in E2. injection E2 as <- _. destruct Hsz as [Sw Sh]. unfold frame_size in Hlg.
  rewrite Sw, Sh in Hlg. apply list_eq_len; [lia|].
  intros j Hj. apply Hc. unfold in_rect, stride_of. cbn. rewrite Sw.
  assert (0 < k_src_w st * 4) by lia.
  pose proof (Z.mod_pos_bound (Z.of_nat j) (k_src_w st * 4)).
  pose proof (Z.div_pos (Z.of_nat j) (k_src_w st * 4)).
  assert (Z.of_nat j / (k_src_w st * 4) < k_src_h st) by (apply Z.div_lt_upper_bound; lia). lia.
Qed.

Lemma repaint_ok st master c kc gb sw sh :
  source_ok st master → grab_ok c gb →
  kc_fit kc = kvm_fit sw sh (g_width (c_geom c)) (g_height (c_geom c)) →
  let '(c', kc') := repaint_client st c kc in
  (∀ b, rtc tx_any (c, b) (c', b && negb (paintable st))) ∧ c_geom c' = c_geom c ∧ kc_streaming kc' = kc_streaming kc ∧
  kc_fit kc' = kc_fit kc ∧ kc_repaint kc' = negb (paintable st) ∧
  (paintable st = true → same_size st c → sw = k_src_w st → sh = k_src_h st →
   c_grabbuf c' = Some master).
Proof.
  intros Hs Hg Hfit. pose proof Hs as (Hw&Hh&Hm&Hlm). pose proof Hg as (Hge&Hgr&Hlg).
  unfold repaint_client, paintable. rewrite Hm.
  destruct (k_signal st); cbn [negb orb andb]; [|split_and!; try done; intros b; by rewrite andb_true_r].
  rewrite bool_decide_eq_true_2 by done. cbn [negb orb andb].
  destruct (k_prev st <? 0) eqn:Hp; [rewrite (proj2 (Z.leb_gt 0 _)) by lia; cbn [negb];
    split_and!; try done; intros b; by rewrite andb_true_r|].
  rewrite (proj2 (Z.leb_le 0 _)) by lia. cbn [negb]. cbv zeta.
  change (kc_fit kc⟨kc_repaint := false⟩) with (kc_fit kc). rewrite Hfit.
  set (f := kvm_fit sw sh _ _). set (g1 := if negb (fit_identity f) then black c else gb).
  assert (E1 : (if negb (fit_identity f) then c⟨c_grabbuf := Some (black c)⟩ else c) =
    c⟨c_grabbuf := Some g1⟩).
  { subst g1. case_match; [done|]. rewrite <- Hgr. by destruct c. }
  rewrite E1. clear E1. set (c1 := c⟨c_grabbuf := Some g1⟩).
  assert (Hg1 : grab_ok c1 g1).
  { split_and!; [done|done|]. subst g1. case_match; [exact (black_length c Hge)|done]. }
  destruct (full_blit st master c1 g1 sw sh Hs Hg1) as (g2&Eb&Hl2&Hcopy).
  change (kvm_fit sw sh (g_width (c_geom c1)) (g_height (c_geom c1))) with f in Eb.
  rewrite Eb. clear Eb. change (c1⟨c_grabbuf := Some g2⟩) with (c⟨c_grabbuf := Some g2⟩).
  set (c2 := send_ctrl _ _).
  destruct (send_ctrl_fields c⟨c_grabbuf := Some g2⟩ SREMFB_ENC_UNBLANK) as [F1 F2]. fold c2 in F1, F2.
  destruct (kick_grab c2⟨c_dirty_all := true⟩) as [K1 K2].
  split_and!; try done;
    [intros b; rewrite andb_false_r; apply repaint_run; [by right|exact Hl2]|rewrite K2; exact F1|].
  intros _ Hsz E1 E2. rewrite K1. etrans; [exact F2|]. cbn. f_equal. by apply Hcopy.
Qed.

(** ** The invariant of a client of the capture source *)
(** The client is kept when the mode changes. *)
Definition follows st c : Prop :=
  same_size st c ∨ ¬ (k_resize st = KVM_RESIZE_RECONNECT ∧ k_geometry st = KVM_GEOM_SOURCE).

Definition kc_fits st c kc : Prop :=
  kc_streaming kc = true ∧
  (∃ sw sh, kc_fit kc = kvm_fit sw sh (g_width (c_geom c)) (g_height (c_geom c))) ∧
  (k_signal st = true → follows st c →
   kc_fit kc = kvm_fit (k_src_w st) (k_src_h st) (g_width (c_geom c)) (g_height (c_geom c))).

(** [b]: the grab buffer changed and a repaint is due. *)
Definition kc_ok st c (b : bool) kc : Prop :=
  kc_fits st c kc ∧
  (k_signal st = true → follows st c →
   (k_prev st < 0 ∨ b = true → kc_repaint kc = true) ∧
   (kc_repaint kc = false → same_size st c → c_grabbuf c = k_master st)).

Definition client_inv st (cl : SremfbClient * option SremfbKvmClient) : Prop :=
  ∃ b, served cl.1 b ∧ match cl.2 with Some kc => kc_ok st cl.1 b kc | None => True end.

Context `{!X264Laws X}.

Lemma fit_same sw sh sw' sh' dw dh :
  kvm_fit sw sh dw dh = kvm_fit sw' sh' dw dh → sw = sw' ∧ sh = sh'.
Proof.
  intros E. destruct (kvm_fit_fields sw sh dw dh) as (E1&E2&_),
    (kvm_fit_fields sw' sh' dw dh) as (E3&E4&_). split; congruence.
Qed.

Lemma repaint_inv st master c b kc :
  source_ok st master → served c b → kc_fits st c kc → paintable st = true →
  let '(c', kc') := repaint_client st c kc in client_inv st (c', Some kc').
Proof.
  intros Hs Hc (K1&(sw&sh&K2)&K3) Hp. destruct (served_grab c b Hc) as (gb&Hg).
  pose proof (repaint_ok st master c kc gb sw sh Hs Hg K2) as Hr.
  destruct (repaint_client st c kc) as [c' kc']. destruct Hr as (R1&R2&R3&R4&R5&R6).
  exists false. specialize (R1 b). rewrite Hp, andb_false_r in R1.
  split; [by eapply served_run|]. cbn. pose proof Hs as (_&_&Hm&_).
  unfold paintable in Hp. rewrite !andb_true_iff, Z.leb_le in Hp.
  unfold kc_ok, kc_fits, follows, same_size in *. rewrite R2 in *.
  split_and!; [congruence|exists sw, sh; by rewrite R4|intros; rewrite R4; auto|].
  intros Hsig Hfo. split; [intros [?|?]; [lia|done]|].
  intros _ Hsz. specialize (K3 Hsig Hfo). rewrite K3 in K2. apply fit_same in K2 as [<- <-].
  rewrite Hm. apply R6; [unfold paintable; rewrite !andb_true_iff, Z.leb_le; tauto|done..].
Qed.

(** The damage of a fan-out, whatever the size of the client. *)
Lemma damage_tx c b gb gb' rects :
  served c b → c_grabbuf c = Some gb → length gb' = length gb →
  (∀ j : nat, (∀ r, r ∈ rects → ¬ in_rect (stride_of c) r (Z.of_nat j)) → gb' !! j = gb !! j) →
  let c' := sremfb_xmit_damage c⟨c_grabbuf := Some gb'⟩⟨c_st_grabs ::= Z.succ⟩ rects
              (client_bpp c⟨c_grabbuf := Some gb'⟩⟨c_st_grabs ::= Z.succ⟩) in
  rtc tx_step c c'.
Proof.
  intros Hc Hgr Hl Hd. cbv zeta. destruct (served_grab c b Hc) as (gb0&_&Hgr0&Hlg).
  rewrite Hgr in Hgr0. injection Hgr0 as <-.
  apply rtc_l with (c⟨c_st_grabs ::= Z.succ⟩); [apply quiet_grabs|]. apply rtc_once.
  assert (E1 : c⟨c_grabbuf := Some gb'⟩⟨c_st_grabs ::= Z.succ⟩ =
    c⟨c_st_grabs ::= Z.succ⟩⟨c_grabbuf := Some gb'⟩) by reflexivity.
  assert (E2 : client_bpp c⟨c_st_grabs ::= Z.succ⟩⟨c_grabbuf := Some gb'⟩ =
    client_bytespp c⟨c_st_grabs ::= Z.succ⟩) by reflexivity.
  rewrite E1, E2. apply tx_damage. split; [rewrite Hl; exact Hlg|].
  intros old Hold i Hne. cbn in Hold. rewrite Hgr in Hold. injection Hold as <-.
  destruct (decide (Exists (λ r, in_rect (stride_of c) r (Z.of_nat i)) rects)) as [Hex|Hno].
  - apply Exists_exists in Hex as (r&Hr&Hin). by exists r.
  - exfalso. apply Hne, Hd. intros r Hr Hin. apply Hno, Exists_exists. eauto.
Qed.

(** The blits of a frame's rects bring a client of the source's size from
    the old master image to the new one. *)
Lemma fanout_copy st master m rects c gb gb' out :
  source_ok st master → grab_ok c gb → same_size st c → gb = m →
  Forall (rect_in st) rects → Z.of_nat (length rects) ≤ KVM_MAX_RECTS →
  (∀ j : nat, Z.of_nat j < k_src_h st * (k_src_w st * 4) →
    (∀ r, r ∈ rects → ¬ in_rect (k_src_w st * 4) r (Z.of_nat j)) → m !! j = master !! j) →
  blit_rects st (kvm_fit (k_src_w st) (k_src_h st) (g_width (c_geom c)) (g_height (c_geom c)))
    rects c [] = (c⟨c_grabbuf := Some gb'⟩, out) →
  gb' = master.
Proof.
  intros Hs Hg Hsz -> Hr Hn Hcov Eb.
  destruct (blit_rects_copy st master rects c m [] Hs Hg Hr Hsz Hn) as (gb2&E2&L2&C2).
  rewrite E2 in Eb. cbn [app] in Eb. assert (gb2 = gb') as -> by (injection Eb; congruence).
  destruct Hg as (_&Hgc&Hlg), Hs as (_&_&_&Hlm), Hsz as [Sw Sh]. unfold frame_size in Hlg.
  rewrite Sw, Sh in Hlg. apply list_eq_len; [lia|]. intros j Hj.
  destruct (C2 j) as [C|[Hno C]]; [done|].
  rewrite C. apply Hcov; [lia|]. intros r Hin. unfold stride_of in Hno. rewrite Sw in Hno.
  by apply Hno.
Qed.

(** One frame for one client: [st0] is the state before it. *)
Lemma fanout_inv st0 st master m rects c b kc :
  source_ok st master → served c b → kc_ok st0 c b kc → setup st = setup st0 →
  k_master st0 = Some m → paintable st = true →
  Forall (rect_in st) rects → Z.of_nat (length rects) ≤ KVM_MAX_RECTS →
  (0 ≤ k_prev st0 → ∀ j : nat, Z.of_nat j < k_src_h st * (k_src_w st * 4) →
    (∀ r, r ∈ rects → ¬ in_rect (k_src_w st * 4) r (Z.of_nat j)) → m !! j = master !! j) →
  client_inv st (fanout_client st rects (c, Some kc)).
Proof.
  intros Hs Hc ((K1&(sw&sh&K2)&KF)&K3) Es Hm0 Hp Hr Hn Hcov. unfold fanout_client. rewrite K1.
  cbn [negb]. assert (Hp' := Hp). unfold paintable in Hp'.
  rewrite !andb_true_iff, bool_decide_eq_true, Z.leb_le in Hp'. destruct Hp' as [[Hsig _] Hprev].
  assert (E : k_signal st = k_signal st0 ∧ k_src_w st = k_src_w st0 ∧ k_src_h st = k_src_h st0 ∧
    k_resize st = k_resize st0 ∧ k_geometry st = k_geometry st0)
    by (unfold setup in Es; injection Es as; split_and!; congruence).
  destruct E as (Ei&Ew&Eh&Er&Eg). unfold follows, same_size in K3, KF.
  rewrite <- Ei, <- Ew, <- Eh, <- Er, <- Eg in K3, KF.
  destruct (kc_repaint kc) eqn:Hrep.
  { assert (Hk : kc_fits st c⟨c_st_grabs ::= Z.succ⟩ kc)
      by (split_and!; [done|by exists sw, sh|exact KF]).
    assert (Hc1 : served c⟨c_st_grabs ::= Z.succ⟩ b)
      by (eapply served_step; [done|apply rtc_once, quiet_grabs]).
    pose proof (repaint_inv st master _ b kc Hs Hc1 Hk Hp) as Hi.
    by destruct (repaint_client st c⟨c_st_grabs ::= Z.succ⟩ kc). }
  destruct (served_grab c b Hc) as (gb&Hg). rewrite K2.
  pose proof (blit_rects_ok st master sw sh rects c gb [] Hs Hg Hr) as Hb.
  destruct (blit_rects _ _ _ _ _) as [c1 out] eqn:Eb.
  destruct Hb as (gb'&new&->&Eo&Lb&Bb). cbn [app] in Eo. subst new.
  assert (Hk : ∀ c', c_geom c' = c_geom c → c_grabbuf c' = Some gb' → kc_ok st c' b kc).
  { intros c' G1 G2. unfold kc_ok, kc_fits, follows, same_size. rewrite G1.
    split_and!; [done|by exists sw, sh|exact KF|]. intros _ Hfo.
    pose proof (KF Hsig Hfo) as F. destruct (K3 Hsig Hfo) as (Hneg&Hgr).
    split; [intros [?|Hbt]; [lia|by specialize (Hneg (or_intror Hbt))]|]. intros _ Hsz.
    destruct (Z_lt_le_dec (k_prev st0) 0) as [Hlt|Hge]; [by specialize (Hneg (or_introl Hlt))|].
    rewrite F in K2. rewrite <- K2 in Eb. specialize (Hgr eq_refl Hsz).
    assert (gb = m) by (destruct Hg as (_&Hgc&_); congruence).
    rewrite (fanout_copy st master m rects c gb gb' out) in G2; try done; [|by apply Hcov].
    destruct Hs as (_&_&Hm&_). congruence. }
  exists b. destruct out as [|r out].
  - assert (gb' = gb) as ->.
    { apply list_eq. intros j. apply Bb. by intros r []%not_elem_of_nil. }
    assert (Ec : c⟨c_grabbuf := Some gb⟩ = c).
    { destruct Hg as (_&Hg&_). rewrite <- Hg. by destruct c. }
    rewrite Ec. split; [done|]. apply Hk; [done|apply Hg].
  - split; [|apply Hk; [exact (proj2 (damage_grab _ _ _))|exact (proj1 (damage_grab _ _ _))]].
    eapply served_step; [exact Hc|]. apply (damage_tx c b gb gb' (r :: out) Hc); [apply Hg|done|done].
Qed.

(** ** Blanking and a change of mode *)
Lemma blank_inv st cl : k_signal st = false → client_inv st cl → client_inv st (blank_client cl).
Proof.
  intros Hsig (b&Hc&Hk). destruct cl as [c [kc|]]; [|by exists b]. cbn [fst snd] in *.
  destruct Hk as ((K1&(sw&sh&K2)&K3)&_). unfold blank_client. rewrite K1.
  exists b. cbn [fst snd]. split; [eapply served_step, send_ctrl_tx; auto|].
  split; [|congruence]. destruct (send_ctrl_fields c SREMFB_ENC_BLANK) as [E _].
  split_and!; [done|exists sw, sh; by rewrite E|congruence].
Qed.

(** The mode changed: [st] is the state with the new one. *)
Lemma resize_inv st0 st cl :
  k_resize st = k_resize st0 → client_inv st0 cl → k_prev st = -1 →
  client_inv st (resize_client st cl).
Proof.
  intros Er (b&Hc&Hk) Hprev. destruct cl as [c [kc|]]; [|by exists b]. cbn [fst snd] in *.
  destruct Hk as ((K1&(sw&sh&K2)&K3)&_). unfold resize_client. rewrite K1. cbn [negb].
  destruct (negb _ && _ && _) eqn:Hrec.
  - exists b. cbn [fst snd]. split; [eapply served_step; [done|apply rtc_once, tx_lost]|].
    rewrite !andb_true_iff, negb_true_iff, andb_false_iff, !bool_decide_eq_true, !Z.eqb_neq in Hrec.
    destruct Hrec as [[Hsz Hre] Hge].
    assert (E : c_geom (sremfb_schedule_client_lost c) = c_geom c)
      by (unfold sremfb_schedule_client_lost; by case_match).
    assert (Hno : ¬ follows st (sremfb_schedule_client_lost c)).
    { unfold follows, same_size. rewrite E. tauto. }
    split; [|done]. split_and!; [done|exists sw, sh; by rewrite E|done].
  - exists true. cbn [fst snd]. destruct (served_grab c b Hc) as (gb&(Hg&_)).
    split; [eapply served_run; [done|apply rtc_once, ta_silent, black_length, Hg]|].
    split; [split_and!; [done|by eexists _, _|done]|]. intros _ _. split; [done|done].
Qed.

(** The invariant depends on this part of the capture state. *)
Definition kview st :=
  ((k_signal st, k_src_w st, k_src_h st), (k_resize st, k_geometry st), (k_prev st, k_master st)).

Lemma client_inv_view st st' cl : kview st' = kview st → client_inv st cl → client_inv st' cl.
Proof.
  unfold kview. intros E (b&Hc&Hk). exists b. split; [done|]. destruct (cl.2) as [kc|]; [|done].
  injection E as E1 E2 E3 E4 E5 E6 E7. unfold kc_ok, kc_fits, follows, same_size in *.
  by rewrite E1, E2, E3, E4, E5, E6, E7.
Qed.

Lemma client_inv_dark st st' cl :
  k_signal st' = false → client_inv st cl → client_inv st' cl.
Proof.
  intros E (b&Hc&Hk). exists b. split; [done|]. destruct (cl.2) as [kc|]; [|done].
  destruct Hk as ((K1&K2&_)&_). unfold kc_ok, kc_fits. rewrite E. done.
Qed.
End tx.
