(* ===== verification/CaptureSys.v ===== *)
(** * The capture source with its clients

    [sys_step] is what can happen to the capture source and the clients it
    serves: the callbacks of CaptureInv.v, a client's own transmit steps, a
    client acquired or released.  [sys_inv] holds in every reachable
    state. *)
From S2P Require Import Prelude Binary64 Protocol Core Convert Encoder Net Xmit Control Drain.
From S2P Require Import XmitSpec Dirty Coverage ViewH264 ViewNet Blit Paint.
From S2P Require Import Stream OutReady Link ViewRead Mirror HidReport Kvm KvmDiff KvmMaster.
From S2P Require Import Capture CaptureCtl CaptureInv CaptureTx.
From S2P Require Import Served.
From stdpp Require Import list relations.
#[local] Open Scope list_scope.
#[local] Open Scope Z_scope.

Section sys.
Context `{X : X264} `{L : LZ4} `{P : Platform} `{!X264Laws X} `{I : !InputStart} `{!InputLaws I}.
Implicit Types (c : SremfbClient) (st : SremfbKvmState).

Inductive sys_step : kvm_state → kvm_state → Prop :=
  | ss_capture s s' : cap_step s s' → sys_step s s'
  | ss_client st l1 c c' okc l2 : tx_step c c' → c_grabbuf c' = c_grabbuf c →
      sys_step (st, l1 ++ (c, okc) :: l2) (st, l1 ++ (c', okc) :: l2)
  | ss_acquire st cls c c' kc : new_conn c →
      kvm_acquire st c = (SREMFB_STATUS_OK, c', Some kc) →
      sys_step (st, cls) (st, cls ++ [(c', Some kc)])
  | ss_release st l1 cl l2 : sys_step (st, l1 ++ cl :: l2) (st, l1 ++ l2).

Definition sys_inv (s : kvm_state) : Prop := cap_inv s.1 ∧ Forall (client_inv s.1) s.2.

(** ** The callbacks *)
Lemma stream_source st m :
  stream_ok st → k_master st = Some m → source_ok st m.
Proof.
  intros Hs Hm. pose proof (so_format _ Hs) as (Hw&Hh&_).
  destruct (so_master _ Hs) as (m'&Hm'&Hl). rewrite Hm in Hm'. injection Hm' as <-. done.
Qed.

Lemma frame_clients st cls st' cls' :
  k_signal st = true → frame_result st cls st' cls' → Forall (client_inv st) cls →
  Forall (client_inv st') cls'.
Proof.
  intros Hsig Hr Hcl. destruct Hr as [Hs E Ep Em|Ek Hs Hw Hd Hok|rects m cur Hs E Hp Hm Hm' Hin Hn Hcov].
  - eapply Forall_impl; [exact Hcl|]. intros cl. apply client_inv_view.
    destruct (setup_view _ _ E) as ((G1&G2&G3)&G4&G5). unfold kview. congruence.
  - eapply Forall_impl; [exact Hcl|]. intros cl. by apply client_inv_dark.
  - unfold fanout. apply Forall_fmap. eapply Forall_impl; [exact Hcl|]. intros [c [kc|]] (b&Hc&Hk).
    2:{ by exists b. }
    destruct (setup_view _ _ E) as ((G1&G2&G3)&_&_).
    change (client_inv st' (fanout_client st' rects (c, Some kc))).
    apply (fanout_inv st st' (kvm_converted st cur) m rects c b kc);
      [by apply stream_source|exact Hc|exact Hk|exact E|exact Hm| | |exact Hn|].
    + unfold paintable. rewrite G1, Hsig, Hm', bool_decide_eq_true_2 by done.
      by apply Z.leb_le.
    + eapply Forall_impl; [exact Hin|]. intros r. unfold rect_in. by rewrite G2, G3.
    + rewrite G2, G3. intros Hp0 j Hj Hno. apply Hcov; [done|done|]. intros r Hr Hpix.
      apply (Hno r Hr). rewrite Forall_forall in Hin. destruct (Hin r Hr) as (?&?&?&?).
      unfold in_pix, in_block, in_rect in *. lia.
Qed.

Lemma probe_clients st0 st cls st' cls' :
  kview st = kview st0 → kept st' = kept st → probe_result st cls st' cls' →
  Forall (client_inv st0) cls → Forall (client_inv st') cls'.
Proof.
  intros Ev Ek Hr Hcl. destruct Hr as [-> Hs|cls' (_&Hs&_) Hp Hb|Hs Hst Hok Hprev Hw].
  - eapply Forall_impl; [exact Hcl|]. intros cl. by apply client_inv_view.
  - assert (Hcl' : Forall (client_inv st') cls)
      by (eapply Forall_impl; [exact Hcl|]; intros cl; by apply client_inv_dark).
    destruct Hb as [->| ->]; [done|]. unfold blank_all. apply Forall_fmap.
    eapply Forall_impl; [exact Hcl'|]. intros cl. exact (blank_inv st' cl Hs).
  - unfold apply_resize. apply Forall_fmap. eapply Forall_impl; [exact Hcl|]. intros cl Hi.
    change (client_inv st' (resize_client st' cl)). apply (resize_inv st0); [|exact Hi|exact Hprev]. unfold kept, kview in *. injection Ek as. injection Ev as.
    congruence.
Qed.

Lemma cap_step_clients s s' : cap_step s s' → sys_inv s → Forall (client_inv s'.1) s'.2.
Proof.
  intros Hst [Hi Hcl]. destruct Hst as [st cls e dq ok Hw Hdq|st cls q a now Hp Ha|st cls q a now Hp Ha|st cls ch];
    cbn [fst snd] in *.
  - pose proof Hi as [[C1 C2 C3 C4 C5] _]. pose proof (proj1 C5 Hw) as Hsig.
    pose proof (frame_ready_ok st cls e dq ok (C3 (C4 Hsig)) Hdq) as Hr.
    destruct (on_frame_ready st cls e dq ok) as [st' cls']. by eapply frame_clients.
  - pose proof (probe_ok st⟨k_poll_id := 0⟩ cls q a now) as Hr. unfold poll_cb.
    destruct (probe_signal _ cls q a now) as [st' cls'].
    destruct Hr as [Ek Hr]; [apply Hi|apply Hi|done|]. cbn [fst snd].
    assert (Ev : kview st⟨k_poll_id := 0⟩ = kview st) by reflexivity.
    assert (Hcl' : Forall (client_inv st') cls')
      by (exact (probe_clients st st⟨k_poll_id := 0⟩ cls st' cls' Ev Ek Hr Hcl)).
    eapply Forall_impl; [exact Hcl'|]. intros cl. apply client_inv_view.
    destruct (k_signal st'); [done|]. unfold arm_poll. by case_match.
  - pose proof (probe_ok st⟨k_debounce_id := 0⟩ cls q a now) as Hr. unfold debounce_cb.
    destruct (probe_signal _ cls q a now) as [st' cls'].
    destruct Hr as [Ek Hr]; [apply Hi|apply Hi|done|].
    assert (Ev : kview st⟨k_debounce_id := 0⟩ = kview st) by reflexivity.
    exact (probe_clients st st⟨k_debounce_id := 0⟩ cls st' cls' Ev Ek Hr Hcl).
  - eapply Forall_impl; [exact Hcl|]. intros cl. apply client_inv_view.
    unfold on_event, sremfb_kvm_source_changed. by repeat case_match.
Qed.

(** ** A client's own steps *)
Lemma client_step_inv st c c' okc :
  tx_step c c' → c_grabbuf c' = c_grabbuf c → client_inv st (c, okc) → client_inv st (c', okc).
Proof.
  intros Ht Hg (b&Hc&Hk). exists b. cbn [fst snd] in *.
  split; [eapply served_step; [done|by apply rtc_once]|]. destruct okc as [kc|]; [|done].
  destruct (tx_any_link _ _ (ta_step c c' b Ht) (served_link c b Hc)) as (_&ss&((_&(G&_)&_)&_)).
  cbn [fst] in G. unfold kc_ok, kc_fits, follows, same_size in *. by rewrite G, Hg.
Qed.
(** ** Acquiring a client *)
Lemma black_frame c : black c = replicate (Z.to_nat (frame_size c)) 0.
Proof. done. Qed.

Lemma acquire_flags_byte c : 0 ≤ acquire_flags c < 256.
Proof. unfold acquire_flags. by repeat case_match. Qed.

(** The geometry of the connection fits the wire. *)
Lemma acquire_fresh st c have :
  new_conn c → (have = true → mode_fits (k_src_w st) (k_src_h st)) →
  let c1 := acquire_buffers st c have in
  fresh_client c1 (black c1) ∧ c_fd c1 = c_fd c ∧ c_lost_id c1 = 0 ∧ c_audio_token c1 = c_audio_token c.
Proof.
  intros (N1&N2&N3&N4&N5&N6&N7&N8&N9&N10&N11&N12&N13&N14) Hf. cbv zeta.
  unfold acquire_buffers. set (g := if _ && have then _ else _).
  assert (Hg : geom_ok g ∧ g_width g * g_height g * 4 ≤ LZ4_MAX_INPUT_SIZE).
  { unfold geom_ok. subst g. destruct (bool_decide _); [|done]. destruct have; [|done].
    cbn. destruct (Hf eq_refl) as (?&?&?&_). done. }
  clearbody g. destruct Hg as [Hg1 Hg2]. set (c0 := c⟨c_geom := g⟩).
  assert (Ec : c_geom c0 = g ∧ c_xmit_mode c0 = XMIT_RAW ∧ c_outq c0 = [] ∧ c_outq_off c0 = 0 ∧
    c_out_active c0 = false ∧ c_wire c0 = [] ∧ c_dirty c0 = [] ∧ c_hello c0 = c_hello c ∧
    c_fd c0 = c_fd c ∧ c_lost_id c0 = 0 ∧ c_audio_token c0 = c_audio_token c) by done.
  clearbody c0. destruct Ec as (E1&E2&E3&E4&E5&E6&E7&E8&E9&E10&E11).
  rewrite <- E1 in Hg1, Hg2. rewrite <- E8 in N11. split; [|done].
  unfold fresh_client, session_ok. split_and!; [exact Hg1|exact Hg2|exact N11|exact E2|exact E3|exact E4
    |exact E5|exact E6|exact E7|right; reflexivity|reflexivity|exact (black_length c0 Hg1)|reflexivity].
Qed.

Lemma acquire_quiet c :
  c_xmit_mode c = XMIT_RAW →
  let c' := (acquire_stream c).2 in
  vis c' = vis c⟨c_state := c_state c'⟩ ∧ c_geom c' = c_geom c ∧ c_grabbuf c' = c_grabbuf c.
Proof.
  intros Hm. unfold acquire_stream, g_get_monotonic_time. cbv zeta. cbn [snd].
  set (c1 := _⟨c_st_since_us := _⟩).
  assert (E : vis c1 = vis c⟨c_state := STREAMING⟩ ∧ c_state c1 = STREAMING ∧ c_xmit_mode c1 = XMIT_RAW)
    by done.
  clearbody c1. destruct E as (E1&E2&E3). destruct (ctl_start_quiet c1 E3) as [V S].
  rewrite V, S, E2, E1. split; [done|].
  assert (E4 : vis (sremfb_ctl_start c1) = vis c⟨c_state := STREAMING⟩) by congruence.
  unfold vis in E4. injection E4 as. split; assumption.
Qed.

Lemma hello_served c g flags :
  fresh_client c g → session_start c flags →
  let c' := (acquire_stream (sremfb_xmit_hello c flags)).2 in
  served c' false ∧ c_geom c' = c_geom c ∧ c_grabbuf c' = Some g.
Proof.
  intros Hf Hst. cbv zeta. destruct (hello_fields c flags) as (E1&E2&E3).
  assert (Hs : served (sremfb_xmit_hello c flags) false)
    by (exists c, g, flags; split_and!; [done|done|apply rtc_refl]).
  set (c3 := sremfb_xmit_hello c flags) in *. clearbody c3.
  destruct Hf as (_&Hm&_&_&_&_&_&_&Hg&_).
  pose proof (acquire_quiet c3 ltac:(congruence)) as Hq. cbv zeta in Hq.
  destruct Hq as (Q1&Q2&Q3). set (c4 := (acquire_stream c3).2) in *. clearbody c4.
  split; [|split; congruence]. eapply served_step; [exact Hs|]. apply rtc_once, tx_quiet. exact Q1.
Qed.

(** From the acquired buffers to the start of the stream. *)
Lemma acquire_served c g :
  fresh_client c g → 0 ≤ c_fd c → c_lost_id c = 0 → 0 ≤ c_audio_token c < 65536 →
  let '(fi, c2) := sremfb_input_start_op c in
  let c' := (acquire_stream (sremfb_xmit_hello c2 (Z.lor (acquire_flags c) fi))).2 in
  served c' false ∧ c_geom c' = c_geom c ∧ c_grabbuf c' = Some g.
Proof.
  intros Hf Hfd Hl Ht. pose proof (input_fresh c g Hf Hfd Hl Ht) as Hi. cbv zeta in Hi.
  pose proof (input_flags c) as Hfi. pose proof (acquire_flags_byte c) as Hb.
  set (a := acquire_flags c) in *. clearbody a.
  destruct (sremfb_input_start_op c) as [fi c2]. cbn [fst snd] in Hi, Hfi.
  destruct Hi as (Hf2&Eg&Hst). specialize (Hst _ (lor_flags_byte a fi Hb Hfi)).
  destruct (hello_served c2 g _ Hf2 Hst) as (S1&S2&S3). split_and!; [done|congruence|done].
Qed.
Lemma repaint_acquired st master c kc :
  source_ok st master → served c false → kc_fits st c kc →
  let '(c', kc') := repaint_client st c kc in client_inv st (c', Some kc').
Proof.
  intros Hs Hc Hk. destruct (paintable st) eqn:Hp; [by eapply repaint_inv|].
  destruct (served_grab c false Hc) as (gb&Hg). destruct Hk as (K1&(sw&sh&K2)&K3).
  pose proof (repaint_ok st master c kc gb sw sh Hs Hg K2) as Hr.
  destruct (repaint_client st c kc) as [c' kc']. destruct Hr as (R1&R2&R3&R4&R5&_).
  rewrite Hp in R5. exists false. split; [by eapply served_run|]. cbn [fst snd].
  unfold kc_ok, kc_fits, follows, same_size in *. rewrite R2, R3, R4, R5.
  split_and!; [done|by exists sw, sh|done|]. intros _ _. by split.
Qed.

Lemma have_stream st : cap_inv st →
  k_signal st && (0 <? k_src_w st) && (0 <? k_src_h st) = k_signal st ∧
  (k_signal st = true → stream_ok st).
Proof.
  intros [[C1 C2 C3 C4 C5] _]. destruct (k_signal st) eqn:Hs; [|done].
  pose proof (C3 (C4 eq_refl)) as Hok. pose proof (so_format _ Hok) as (Hw&Hh&_).
  rewrite !(proj2 (Z.ltb_lt _ _)) by done. done.
Qed.

Lemma acquire_inv st c c' kc :
  cap_inv st → new_conn c → kvm_acquire st c = (SREMFB_STATUS_OK, c', Some kc) →
  client_inv st (c', Some kc).
Proof.
  intros Hi Hn. destruct (have_stream st Hi) as [Hh Hok]. unfold kvm_acquire. cbv zeta. rewrite Hh.
  destruct ((k_fd st <? 0) && negb (k_test st)); [by intros E; injection E|].
  destruct (acquire_fresh st c (k_signal st) Hn) as (Hf&F1&F2&F3); [intros Hs; apply (Hok Hs)|].
  set (c1 := acquire_buffers st c (k_signal st)) in *. clearbody c1.
  destruct Hn as (N1&_&_&_&_&_&_&_&_&N10&_). rewrite <- F1 in N1. rewrite <- F3 in N10.
  pose proof (acquire_served c1 _ Hf N1 F2 N10) as Hs.
  destruct (sremfb_input_start_op c1) as [fi c2]. cbv zeta in Hs.
  destruct (acquire_stream _) as [now c3]. cbn [snd] in Hs. destruct Hs as (S1&S2&_).
  rewrite <- S2. set (kc0 := mk_kvm_client _ _ _ _ _ _ _). destruct (k_signal st) eqn:Hsig.
  - assert (Hk : kc_fits st c3 kc0) by (split_and!; [done|by eexists _, _|done]).
    destruct (so_master _ (Hok eq_refl)) as (m&Hm&_).
    pose proof (repaint_acquired st m c3 kc0 (stream_source st m (Hok eq_refl) Hm) S1 Hk) as Hr.
    destruct (repaint_client st c3 kc0) as [c4 kc4]. intros [= <- <-]. exact Hr.
  - intros [= <- <-]. exists false. cbn [fst snd].
    split; [eapply served_step; [exact S1|apply send_ctrl_tx; by left]|].
    destruct (send_ctrl_fields c3 SREMFB_ENC_BLANK) as [E _].
    unfold kc_ok, kc_fits. rewrite E, Hsig. split_and!; [done|by eexists _, _|done|done].
Qed.

(** ** Every reachable state *)
Lemma sys_step_inv s s' : sys_step s s' → sys_inv s → sys_inv s'.
Proof.
  intros Hst Hi. pose proof Hi as [Hc Hcl].
  destruct Hst as [s s' Hs|st l1 c c' okc l2 Ht Hg|st cls c c' kc Hn Ha|st l1 cl l2];
    cbn [fst snd] in *.
  - split; [by eapply cap_step_inv|by eapply cap_step_clients].
  - split; [done|]. cbn [fst snd]. apply Forall_app in Hcl as [H1 [H2 H3]%Forall_cons].
    apply Forall_app. split; [done|]. constructor; [|done]. by eapply client_step_inv.
  - split; [done|]. cbn [fst snd]. apply Forall_app. split; [done|]. constructor; [|done].
    by eapply acquire_inv.
  - split; [done|]. cbn [fst snd]. apply Forall_app in Hcl as [H1 [H2 H3]%Forall_cons].
    by apply Forall_app.
Qed.

Lemma sys_run_inv s s' : rtc sys_step s s' → sys_inv s → sys_inv s'.
Proof. induction 1 as [s|s s1 s' Hs _ IH]; [done|]. intros Hi. by apply IH, (sys_step_inv s). Qed.

(** The device is open, the tile size is the configuration's. *)
Definition kvm_off st : Prop :=
  0 ≤ k_fd st ∧ tile_size_ok (k_tile st) ∧ quiet_stop st.

Lemma kvm_start_inv st q a now :
  kvm_off st → answers_ok q a → sys_inv (kvm_start st [] q a now).
Proof.
  intros (Hfd&Ht&Hq) Ha. unfold kvm_start. set (st1 := st⟨k_prev := -1⟩).
  assert (E : k_fd st1 = k_fd st ∧ k_tile st1 = k_tile st ∧ quiet_stop st1) by done.
  clearbody st1. destruct E as (E1&E2&(Q1&Q2&Q3)). rewrite <- E1 in Hfd. rewrite <- E2 in Ht.
  assert (Hc : cap_core st1).
  { constructor; [done|done|congruence|congruence|by rewrite Q2, Q3]. }
  pose proof (probe_ok st1 [] q a now Hfd Ht Ha) as Hp.
  destruct (probe_signal st1 [] q a now) as [st' cls']. destruct Hp as [Ek Hr].
  destruct (probe_core st1 [] st' cls' Hc Ek Hr) as [Hc' Hl]. split.
  - split; [done|]. unfold cap_live. cbn [fst]. tauto.
  - exact (probe_clients st1 st1 [] st' cls' eq_refl Ek Hr (Forall_nil_2 _)).
Qed.
End sys.
