(* ===== verification/KvmSamples.v ===== *)
(** * A concrete capture for the witnesses

    A 2x2 source in UYVY with one 2x2 tile and two capture buffers, and the
    client of Samples.v that it serves: signal, connection, hello, first
    frame, snapshot. *)
From S2P Require Import Prelude Binary64 Protocol Core Convert Encoder Net Xmit Control Drain.
From S2P Require Import XmitSpec Dirty Coverage ViewH264 ViewNet Blit Paint.
From S2P Require Import Stream OutReady Link ViewRead Mirror Samples.
From S2P Require Import HidReport Kvm KvmDiff KvmMaster.
From S2P Require Import Capture CaptureCtl CaptureInv CaptureTx CaptureSys.
From S2P Require Import Served.
From stdpp Require Import list relations.
#[local] Open Scope list_scope.
#[local] Open Scope Z_scope.

(** sremfb_input_start() without any device. *)
Definition sample_input : @InputStart sample_x264 := λ c, (0, c).
#[export] Instance sample_input_laws : @InputLaws sample_x264 sample_input.
Proof.
  split; intros c; [cbn; lia|]. split; [|done]. unfold sample_input, sremfb_input_start_op. cbn [snd].
  by destruct c.
Qed.

Definition kvm_boot : SremfbKvmState :=
  mk_kvm V4L2_PIX_FMT_UYVY 2 KVM_GEOM_SOURCE KVM_RESIZE_SCALE 3 false false 0 0 0 0 0
    [] (-1) None None 0 0 0 false 0 0 0 0 0 false 0 0 0 false.

Definition sample_query : query_ans := QTimings true 2 2 240 4.
Definition sample_start : start_ans :=
  mk_start_ans [Some (mk_pix 2 2 V4L2_PIX_FMT_UYVY 4 8 false)] (Some 2)
    [Some (replicate 8 0); Some (replicate 8 0)] [true; true] true None.
(** Black, then white on the first row. *)
Definition sample_uyvy1 : bytes := [128; 16; 128; 16; 128; 16; 128; 16].
Definition sample_uyvy2 : bytes := [128; 235; 128; 235; 128; 16; 128; 16].

#[local] Abbreviation client := (@SremfbClient sample_x264).
#[local] Abbreviation state := (SremfbKvmState * list (client * option SremfbKvmClient))%type.

(** The signal is there. *)
Definition sample_s0 : state :=
  kvm_start (H := sample_x264) kvm_boot [] sample_query sample_start 7.

Definition sample_conn : client :=
  (client_new0 5 (sample_hello SREMFB_PIX_XRGB8888 1) "192.0.2.7:40000")⟨c_lz4 := true⟩.
Definition sample_acquired : Z * client * option SremfbKvmClient :=
  @kvm_acquire sample_x264 sample_platform sample_input sample_s0.1 sample_conn.
Definition sample_kc : SremfbKvmClient :=
  default (mk_kvm_client false (kvm_fit 0 0 0 0) false 0 0 0 0) sample_acquired.2.
Definition sample_s1 : state := (sample_s0.1, [(sample_acquired.1.2, Some sample_kc)]).

Definition sample_dq (index : Z) (content : bytes) (s : state) : state :=
  @on_frame_ready sample_x264 sample_platform s.1 s.2 false (DqBuf index false 8 content) true.
Definition sample_s2 : state := sample_dq 0 sample_uyvy1 sample_s1.
Definition sample_s3 : state := sample_dq 1 sample_uyvy2 sample_s2.

(** The client's socket takes everything, three times. *)
Definition sample_send (s : state) : state :=
  (s.1, (λ cl : client * option SremfbKvmClient,
           ((@on_out_ready sample_x264 sample_lz4 sample_platform cl.1 false
              (replicate 8 (SSent 100))).2, cl.2)) <$> s.2).
Definition sample_s4 : state := sample_send sample_s3.
Definition sample_s5 : state := sample_send sample_s4.
Definition sample_s6 : state := sample_send sample_s5.

(** ** The run *)
#[local] Abbreviation step := (@sys_step sample_x264 sample_lz4 sample_platform sample_input).

Lemma dq_step i content (s : state) :
  k_frame_watch_id s.1 ≠ 0 → dq_ok s.1 (DqBuf i false 8 content) → step s (sample_dq i content s).
Proof. destruct s as [st cls]. intros Hw Hd. apply ss_capture. by apply cs_frame. Qed.

Lemma send_step (s : state) (cl : client * option SremfbKvmClient) :
  s.2 = [cl] →
  c_grabbuf (@on_out_ready sample_x264 sample_lz4 sample_platform cl.1 false
    (replicate 8 (SSent 100))).2 = c_grabbuf cl.1 →
  step s (sample_send s).
Proof.
  destruct s as [st cls], cl as [c kc]. cbn [fst snd]. intros -> Hg.
  apply (ss_client st [] c _ kc []); [apply tx_out_ready|exact Hg].
Qed.

Definition sample_client_at (s : state) : client * option SremfbKvmClient :=
  default (sample_conn, None) (head s.2).

Lemma boot_off : kvm_off kvm_boot.
Proof. unfold kvm_off, tile_size_ok, quiet_stop. cbn. repeat split; lia. Qed.

Lemma sample_answers : answers_ok sample_query sample_start.
Proof.
  split.
  - split_and!; [lia..|]. intros _ _. unfold mode_fits, LZ4_MAX_INPUT_SIZE. split_and!; (lia || done).
  - constructor; [|constructor]. unfold pix_ok, mode_fits, LZ4_MAX_INPUT_SIZE. cbn.
    split_and!; try lia; intros; split_and!; (lia || done).
Qed.

(** The conditions of the steps, evaluated. *)
Lemma sample_dq1 : k_frame_watch_id sample_s1.1 ≠ 0 ∧
  dq_ok sample_s1.1 (DqBuf 0 false 8 sample_uyvy1).
Proof.
  split; [vm_compute; discriminate|]. split; [lia|]. intros _.
  exists (mk_kvm_buf (Some (replicate 8 0)) true). split; vm_compute; reflexivity.
Qed.

Lemma sample_dq2 : k_frame_watch_id sample_s2.1 ≠ 0 ∧
  dq_ok sample_s2.1 (DqBuf 1 false 8 sample_uyvy2).
Proof.
  split; [vm_compute; discriminate|]. split; [lia|]. intros _.
  exists (mk_kvm_buf (Some (replicate 8 0)) true). split; vm_compute; reflexivity.
Qed.

Lemma sample_acquire_step : step sample_s0 sample_s1.
Proof.
  assert (Hn : new_conn sample_conn)
    by (unfold new_conn, LZ4_MAX_INPUT_SIZE; cbn; split_and!; (lia || done || by left)).
  assert (Ha : @kvm_acquire sample_x264 sample_platform sample_input sample_s0.1 sample_conn =
               (SREMFB_STATUS_OK, sample_acquired.1.2, Some sample_kc)) by (vm_compute; reflexivity).
  assert (E0 : sample_s0 = (sample_s0.1, [])) by (vm_compute; reflexivity).
  rewrite E0.
  exact (@ss_acquire sample_x264 sample_lz4 sample_platform sample_input sample_s0.1 []
    sample_conn _ _ Hn Ha).
Qed.

Lemma sample_send3 : step sample_s3 sample_s4.
Proof.
  exact (send_step sample_s3 (sample_client_at sample_s3) ltac:(vm_compute; reflexivity)
    ltac:(vm_compute; reflexivity)).
Qed.

Lemma sample_send4 : step sample_s4 sample_s5.
Proof.
  exact (send_step sample_s4 (sample_client_at sample_s4) ltac:(vm_compute; reflexivity)
    ltac:(vm_compute; reflexivity)).
Qed.

Lemma sample_send5 : step sample_s5 sample_s6.
Proof.
  exact (send_step sample_s5 (sample_client_at sample_s5) ltac:(vm_compute; reflexivity)
    ltac:(vm_compute; reflexivity)).
Qed.

Lemma sample_frame1 : step sample_s1 sample_s2.
Proof.
  unfold sample_s2. destruct sample_dq1 as [Hw Hd].
  exact (dq_step 0 sample_uyvy1 sample_s1 Hw Hd).
Qed.

Lemma sample_frame2 : step sample_s2 sample_s3.
Proof.
  unfold sample_s3. destruct sample_dq2 as [Hw Hd].
  exact (dq_step 1 sample_uyvy2 sample_s2 Hw Hd).
Qed.

Lemma sample_sys_run : rtc step sample_s0 sample_s6.
Proof.
  exact (rtc_l step _ _ _ sample_acquire_step (rtc_l step _ _ _ sample_frame1
    (rtc_l step _ _ _ sample_frame2 (rtc_l step _ _ _ sample_send3
    (rtc_l step _ _ _ sample_send4 (rtc_once _ _ sample_send5)))))).
Qed.

Lemma sample_stream_ok : stream_ok sample_s0.1.
Proof.
  pose proof (@kvm_start_inv sample_x264 sample_lz4 sample_platform sample_x264_laws kvm_boot sample_query sample_start 7
    boot_off sample_answers) as [[Hc _] _].
  apply Hc. vm_compute. reflexivity.
Qed.
