(* ===== verification/KvmProps.v ===== *)
(** * Properties of the captured frames (kvm/diff.c, convert_uyvy.c, capture.c)

    The tile comparison, the damage rectangles, the master image and the
    blit into the clients' frames; [sample_kvm] is a 4x2 source in UYVY with
    2x2 tiles. *)
From S2P Require Import Prelude Binary64 Protocol Core Convert Encoder Net Xmit Control Drain.
From S2P Require Import XmitSpec Dirty Coverage ViewH264 ViewNet Blit Paint.
From S2P Require Import Stream OutReady Link Samples HidReport Kvm KvmDiff KvmMaster.
From S2P Require Import Capture CaptureCtl CaptureInv CaptureTx KvmSamples.
From S2P Require Import Served.
From stdpp Require Import list.
#[local] Open Scope list_scope.
#[local] Open Scope Z_scope.

(** ** The comparison *)
(** Byte [e] of pixel [(x, y)] of a captured frame. *)
Definition pixel_byte (st : SremfbKvmState) (x y e : Z) : nat :=
  Z.to_nat (y * kvm_stride st + x * sremfb_kvm_src_bpp (k_src_fourcc st) + e).

Section diff.
Variable st : SremfbKvmState.
Variables cur prev : bytes.
Hypothesis Hf : format_ok st.
Hypothesis Hok : tiles_ok st.
#[local] Abbreviation t := (k_tile st).
#[local] Abbreviation bpp := (sremfb_kvm_src_bpp (k_src_fourcc st)).

Definition tile_changed (tx ty : Z) : Prop :=
  ∃ x y e, in_source st x y ∧ x / t = tx ∧ y / t = ty ∧ 0 ≤ e < bpp ∧
    cur !! pixel_byte st x y e ≠ prev !! pixel_byte st x y e.

Lemma row_changed tx y :
  0 ≤ tx < k_tiles_x st → 0 ≤ y < k_src_h st → tile_row_differs st cur prev y tx = true →
  tile_changed tx (y / t).
Proof.
  intros Htx Hy. unfold tile_row_differs. rewrite negb_true_iff, bool_decide_eq_false.
  intros (i&Hi)%list_ne_lookup. pose proof (tile_col_pos st Hok tx Htx) as Hcol.
  pose proof (kvm_stride_pos st Hf) as Hst. destruct Hok as (Ht&_).
  assert (Hb : 0 < bpp) by (unfold sremfb_kvm_src_bpp; case_match; lia).
  set (x0 := tx * t) in *. set (x1 := Z.min (x0 + t) (k_src_w st)) in *.
  assert (Hlt : Z.of_nat i < (x1 - x0) * bpp).
  { destruct (decide (Z.of_nat i < (x1 - x0) * bpp)); [done|]. destruct Hi.
    rewrite !lookup_ge_None_2; [done|..]; unfold slice; rewrite length_take; lia. }
  rewrite !lookup_slice in Hi by done.
  exists (x0 + Z.of_nat i / bpp), y, (Z.of_nat i mod bpp).
  pose proof (Z.div_mod (Z.of_nat i) bpp ltac:(lia)) as Hdm.
  pose proof (Z.mod_pos_bound (Z.of_nat i) bpp Hb) as Hm.
  assert (Hq : 0 ≤ Z.of_nat i / bpp < x1 - x0)
    by (split; [apply Z.div_pos; lia|apply Z.div_lt_upper_bound; lia]).
  set (q := Z.of_nat i / bpp) in *. set (e := Z.of_nat i mod bpp) in *.
  split; [unfold in_source; nia|]. split; [symmetry; apply (Z.div_unique_pos _ _ _ q); lia|].
  split; [done|]. split; [lia|]. unfold pixel_byte.
  replace (Z.to_nat (y * kvm_stride st + (x0 + q) * bpp + e))
    with (Z.to_nat (y * kvm_stride st + x0 * bpp) + i)%nat; [done|].
  rewrite <- (Nat2Z.id i) at 1. rewrite Hdm. rewrite <- Z2Nat.inj_add by nia. f_equal. lia.
Qed.

Lemma changed_row x y e :
  in_source st x y → 0 ≤ e < bpp →
  cur !! pixel_byte st x y e ≠ prev !! pixel_byte st x y e →
  tile_differs st cur prev (y / t) (x / t) = true.
Proof.
  intros Hin He Hne. pose proof (tile_of st Hok x y Hin) as (T1&T2&T3&T4).
  destruct Hin as [Hx Hy]. pose proof (kvm_stride_pos st Hf) as Hst.
  unfold tile_differs. cbv zeta. apply existsb_exists. exists y. split.
  { apply list_elem_of_In, elem_of_seqZ. lia. }
  unfold tile_row_differs. rewrite negb_true_iff, bool_decide_eq_false. intros Heq. apply Hne.
  assert (Hb : 0 < bpp) by lia. pose proof (proj1 Hok) as Ht.
  assert (0 ≤ x / t * t) by nia. set (x0 := x / t * t) in *.
  assert (Hx1 : x < Z.min (x0 + t) (k_src_w st)) by lia.
  apply (slice_eq_lookup _ _ _ _ _ Heq); unfold pixel_byte; [|nia].
  rewrite Z2Nat.id by nia. nia.
Qed.

Lemma differs_changed tx ty :
  0 ≤ tx < k_tiles_x st → 0 ≤ ty < k_tiles_y st →
  tile_differs st cur prev ty tx = true ↔ tile_changed tx ty.
Proof.
  intros Htx Hty. split.
  - unfold tile_differs. cbv zeta. intros (y&Hy&Hd)%existsb_exists.
    apply list_elem_of_In, elem_of_seqZ in Hy. pose proof (proj1 Hok) as Ht.
    assert (y / t = ty) as <- by (symmetry; apply (Z.div_unique_pos _ _ _ (y - ty * t)); lia).
    apply row_changed; [done| |done]. nia.
  - intros (x&y&e&Hin&<-&<-&He&Hne). by apply (changed_row x y e).
Qed.
End diff.

(** (C29) The tile comparison is exact: with a previous frame a tile's byte
    is 1 when some byte of some pixel of the tile differs between the two
    frames, and 0 otherwise; the value returned is the number of such
    tiles. *)
Theorem kvm_diff_exact st cur prev d :
  format_ok st → tiles_ok st → k_tile_dirty st = Some d →
  ∃ d', sremfb_kvm_diff st cur (Some prev) = (st⟨k_tile_dirty := Some d'⟩, sumZ d') ∧
  ∀ tx ty, 0 ≤ tx < k_tiles_x st → 0 ≤ ty < k_tiles_y st →
    let b := nth (Z.to_nat (ty * k_tiles_x st + tx)) d' 0 in
    (b = 1 ↔ tile_changed st cur prev tx ty) ∧ (b = 0 ∨ b = 1).
Proof.
  intros Hf Hok Hd. destruct (tiles_pos st Hok) as [Hx Hy]. exists (tile_map st cur prev).
  split; [by apply (diff_tile_map st cur prev d)|]. intros tx ty Htx Hty. cbv zeta.
  rewrite (nth_tile_map st cur prev tx ty Htx Hty).
  rewrite <- (differs_changed st cur prev Hf Hok tx ty Htx Hty).
  destruct (tile_differs _ _ _ _ _); cbn; split; [done|by right| |by left]. by split.
Qed.

(** (C30) Damage rectangles lose nothing: every pixel of a dirty tile is in
    one of the (at most [max]) non-empty rectangles, which stay inside the
    source. Let [all_rects] be the rectangles a limit of one per tile gives.
    When there are at most [max] of them, the result is these and they cover
    no pixel of a clean tile; otherwise, and only then, the result is a single
    rectangle, the smallest that contains the dirty pixels. *)
Theorem kvm_rects_cover st d max :
  tiles_ok st → k_tile_dirty st = Some d → 0 < max →
  let out := sremfb_kvm_rects st max in
  Z.of_nat (length out) ≤ max ∧ Forall (rect_in st) out ∧
  (∀ x y, pixel_dirty st d x y → ∃ r, r ∈ out ∧ inside r x y) ∧
  (if Z.of_nat (length (all_rects st)) <=? max
   then out = all_rects st ∧ ∀ r x y, r ∈ out → inside r x y → pixel_dirty st d x y
   else ∃ bb, out = [bb] ∧
     ∀ b, rect_in st b → (∀ x y, pixel_dirty st d x y → inside b x y) → rect_le bb b).
Proof.
  intros Hok Hd Hmax. cbv zeta. destruct (rects_cover st d max Hok Hd Hmax) as (H1&H2&H3).
  split_and!; [done|done|done|by apply rects_exact].
Qed.

(** (C27) Incremental conversion is full conversion: whatever tiles changed,
    after sremfb_kvm_frame() the master image is the whole current frame
    converted to BGRx, in both formats and both ranges, and the current
    buffer is held back from the driver for the next comparison. *)
Theorem kvm_frame_converts `{X264} `{Platform} st cls idx ok cur :
  stream_ok st → 0 ≤ idx < k_nbuf st → idx ≠ k_prev st → buf_map st idx = Some cur →
  let '(st', cls') := sremfb_kvm_frame st cls idx ok in
  k_master st' = Some (kvm_converted st cur) ∧ k_prev st' = idx ∧
  (∃ b, k_buf st' !! Z.to_nat idx = Some b ∧ kb_queued b = false) ∧ stream_ok st'.
Proof.
  intros Hs Hi Hne Hc. pose proof (frame_ok st cls idx ok cur Hs Hi Hne Hc) as Hf.
  destruct (sremfb_kvm_frame st cls idx ok) as [st' cls'].
  destruct Hf as (rects&m&F1&F2&F3&_&_&F6&_). split_and!; [done|done| |done].
  destruct (so_prev _ F1) as [Hp|(_&p&Hb&_)]; [lia|]. rewrite F3 in Hb. eauto.
Qed.

(** (C31) A blit never leaves the client's frame: for the letterbox
    kvm_fit() computes, of any source in any client, blit_rect() keeps the
    size of the grab buffer and changes no byte outside the rectangle it
    reports, which is not empty and lies inside the frame. *)
Theorem kvm_blit_inside `{X264} (st : SremfbKvmState) (c : SremfbClient) m gb r c' out :
  0 < k_src_w st → 0 < k_src_h st → k_master st = Some m →
  Z.of_nat (length m) = k_src_h st * (k_src_w st * 4) →
  geom_ok (c_geom c) → c_grabbuf c = Some gb → Z.of_nat (length gb) = frame_size c →
  rect_in st r →
  blit_rect st c (kvm_fit (k_src_w st) (k_src_h st) (g_width (c_geom c)) (g_height (c_geom c))) r =
    Some (c', out) →
  rect_ok (c_geom c) out ∧ ∃ gb', c' = c⟨c_grabbuf := Some gb'⟩ ∧ length gb' = length gb ∧
    ∀ j : nat, gb' !! j ≠ gb !! j → in_rect (stride_of c) out (Z.of_nat j).
Proof.
  intros Hw Hh Hm Hlm Hg Hgr Hlg Hr Hb.
  assert (Hs : source_ok st m) by (by split_and!).
  assert (Hgb : grab_ok c gb) by (by split_and!).
  destruct (blit_rect_ok st m c gb _ _ r c' out Hs Hgb Hr Hb) as (gb'&->&L&O1&O2&O3&O4&B).
  split; [done|]. exists gb'. split_and!; [done|done|]. intros j Hne.
  destruct (decide (in_rect (stride_of c) out (Z.of_nat j))); [done|]. by destruct Hne; apply B.
Qed.

(** ** Concrete cases *)
Definition sample_kst : SremfbKvmState :=
  kvm_boot⟨k_src_w := 4⟩⟨k_src_h := 2⟩⟨k_src_stride := 8⟩⟨k_tiles_x := 2⟩⟨k_tiles_y := 1⟩
    ⟨k_tile_dirty := Some [0; 0]⟩⟨k_master := Some (replicate 32 7)⟩.
Definition sample_kdirty : SremfbKvmState := sample_kst⟨k_tile_dirty := Some [0; 1]⟩.
Definition sample_prev : bytes := replicate 16 16.
Definition sample_cur : bytes := <[13%nat := 200]> sample_prev.

Lemma sample_kformat : format_ok sample_kst.
Proof. unfold format_ok. cbn. split_and!; try lia. by right. Qed.
Lemma sample_ktiles : tiles_ok sample_kst.
Proof. unfold tiles_ok. cbn. split_and!; (lia || done). Qed.

Lemma kvm_diff_exact_witness :
  ∃ d', sremfb_kvm_diff sample_kst sample_cur (Some sample_prev) =
    (sample_kst⟨k_tile_dirty := Some d'⟩, sumZ d') ∧
  ∀ tx ty, 0 ≤ tx < k_tiles_x sample_kst → 0 ≤ ty < k_tiles_y sample_kst →
    let b := nth (Z.to_nat (ty * k_tiles_x sample_kst + tx)) d' 0 in
    (b = 1 ↔ tile_changed sample_kst sample_cur sample_prev tx ty) ∧ (b = 0 ∨ b = 1).
Proof.
  exact (kvm_diff_exact sample_kst sample_cur sample_prev [0; 0] sample_kformat sample_ktiles eq_refl).
Defined.

(** One dirty tile of two needs one rectangle; both neighbours of a clean
    tile need two, and a limit of one gives the rectangle around them. *)
Lemma kvm_rects_cover_witness :
  let out := sremfb_kvm_rects sample_kdirty 16 in
  Z.of_nat (length out) ≤ 16 ∧ out = all_rects sample_kdirty ∧
  (∀ x y, pixel_dirty sample_kdirty [0; 1] x y ↔ ∃ r, r ∈ out ∧ inside r x y).
Proof.
  destruct (kvm_rects_cover sample_kdirty [0; 1] 16 sample_ktiles eq_refl ltac:(lia))
    as (H1&_&H3&H4).
  change (_ <=? 16) with true in H4. destruct H4 as [H4 H5].
  split_and!; [exact H1|exact H4|]. intros x y. split; [apply H3|].
  intros (r&Hr&Hi). exact (H5 r x y Hr Hi).
Defined.

Lemma kvm_frame_converts_witness :
  let '(st', cls') := @sremfb_kvm_frame sample_x264 sample_platform sample_s0.1 [] 0 true in
  k_master st' = Some (kvm_converted sample_s0.1 (replicate 8 0)) ∧ k_prev st' = 0 ∧
  (∃ b, k_buf st' !! Z.to_nat 0 = Some b ∧ kb_queued b = false) ∧ stream_ok st'.
Proof.
  refine (@kvm_frame_converts sample_x264 sample_platform sample_s0.1 [] 0 true (replicate 8 0)
    sample_stream_ok _ _ _).
  - change (k_nbuf sample_s0.1) with 2. lia.
  - vm_compute. discriminate.
  - vm_compute. reflexivity.
Defined.

(** A 4x2 source in a 2x2 client. *)
Definition sample_target : @SremfbClient sample_x264 :=
  @sample_client sample_x264 SREMFB_PIX_XRGB8888 sample_frame.
Definition sample_blit : option (@SremfbClient sample_x264 * sremfb_rect) :=
  @blit_rect sample_x264 sample_kst sample_target
    (kvm_fit (k_src_w sample_kst) (k_src_h sample_kst) (g_width (c_geom sample_target))
      (g_height (c_geom sample_target))) (mk_rect 0 0 4 2).
Definition sample_blitted : @SremfbClient sample_x264 * sremfb_rect :=
  default (sample_target, mk_rect 0 0 0 0) sample_blit.

Lemma sample_blit_eq : sample_blit = Some (sample_blitted.1, sample_blitted.2).
Proof. vm_compute. reflexivity. Qed.

Lemma kvm_blit_inside_witness :
  rect_ok (c_geom sample_target) sample_blitted.2 ∧ ∃ gb',
    sample_blitted.1 = sample_target⟨c_grabbuf := Some gb'⟩ ∧
    length gb' = length sample_frame ∧
    ∀ j : nat, gb' !! j ≠ sample_frame !! j →
      in_rect (stride_of sample_target) sample_blitted.2 (Z.of_nat j).
Proof.
  pose proof sample_blit_eq as E. unfold sample_blit in E.
  refine (@kvm_blit_inside sample_x264 sample_kst sample_target (replicate 32 7) sample_frame
    (mk_rect 0 0 4 2) sample_blitted.1 sample_blitted.2 _ _ eq_refl _ _ eq_refl eq_refl _ E).
  - cbn. lia.
  - cbn. lia.
  - reflexivity.
  - unfold geom_ok. cbn. lia.
  - unfold rect_in. cbn. lia.
Defined.
