(* ===== verification/CaptureProps.v ===== *)
(** * Properties of the capture source (kvm/capture.c) with its clients *)
From S2P Require Import Prelude Binary64 Protocol Core Convert Encoder Net Xmit Control Drain.
From S2P Require Import XmitSpec Dirty Coverage ViewH264 ViewNet Blit Paint.
From S2P Require Import Stream OutReady Link ViewRead Mirror Samples EndToEnd.
From S2P Require Import HidReport Kvm KvmDiff KvmMaster.
From S2P Require Import Capture CaptureCtl CaptureInv CaptureTx CaptureSys KvmSamples.
From S2P Require Import Served.
From stdpp Require Import list relations.
#[local] Open Scope list_scope.
#[local] Open Scope Z_scope.

Section props.
Context `{X : X264} `{L : LZ4} `{P : Platform} `{V : ViewSys} `{A : AvCodec}.
Context `{!X264Laws X} `{!LZ4Laws L} `{I : !InputStart} `{!InputLaws I}.
Implicit Types (st : SremfbKvmState) (c : SremfbClient).

(** (C19) The capture never loses sight of the source, whatever the driver
    answers and the clients do: it has a signal, or a timer that will look
    for one is armed; the frame watch is armed exactly when there is a
    signal, and then the stream runs. *)
Theorem capture_watches_source st0 q a now st cls :
  kvm_off st0 → answers_ok q a → rtc sys_step (kvm_start st0 [] q a now) (st, cls) →
  (k_signal st = true ∨ k_poll_id st ≠ 0 ∨ k_debounce_id st ≠ 0) ∧
  (k_frame_watch_id st ≠ 0 ↔ k_signal st = true) ∧
  (k_signal st = true → k_streaming st = true).
Proof.
  intros Ho Ha Hr. pose proof (sys_run_inv _ _ Hr (kvm_start_inv st0 q a now Ho Ha)) as [[Hc Hl] _].
  by destruct Hc.
Qed.

(** (C18) While it streams, the capture state is consistent: the sizes, the
    tiles and the master image agree, and the frame held back for the next
    comparison is in a buffer the driver does not have, and is the frame
    the master image shows. *)
Theorem capture_invariant st0 q a now st cls :
  kvm_off st0 → answers_ok q a → rtc sys_step (kvm_start st0 [] q a now) (st, cls) →
  k_streaming st = true →
  tiles_ok st ∧ 2 ≤ k_nbuf st ≤ SREMFB_KVM_NBUF ∧
  (∃ m, k_master st = Some m ∧ Z.of_nat (length m) = k_src_h st * (k_src_w st * 4)) ∧
  (k_prev st = -1 ∨
   0 ≤ k_prev st < k_nbuf st ∧ ∃ frame,
     k_buf st !! Z.to_nat (k_prev st) = Some (mk_kvm_buf (Some frame) false) ∧
     k_master st = Some (kvm_converted st frame)).
Proof.
  intros Ho Ha Hr Hst. pose proof (sys_run_inv _ _ Hr (kvm_start_inv st0 q a now Ho Ha)) as [[Hc _] _].
  destruct (cc_stream _ Hc Hst) as [_ _ Ht _ _ Hm Hn _ Hp].
  split; [exact Ht|]. split; [exact Hn|]. split; [exact Hm|exact Hp].
Qed.

(** (C3) From the HDMI source to the screen: in every reachable state of
    the capture with its clients, what a client of the source's size with
    nothing left to repaint or to send, in RAW mode, was sent is a hello
    and whole well-formed messages; a viewer that reads these bytes accepts
    the hello, takes the messages one by one and shows exactly the wire
    conversion of the last captured frame, whatever happened in between
    (partial damage, signal losses, changes of mode, restarts, other
    clients). Only a failing H.264 decoder makes the viewer stop before. *)
Theorem kvm_viewer_shows_capture st0 q a now st cls c kc n :
  view_live → kvm_off st0 → answers_ok q a →
  rtc sys_step (kvm_start st0 [] q a now) (st, cls) →
  (c, Some kc) ∈ cls → k_signal st = true → same_size st c → kc_repaint kc = false →
  xmit_idle c = true → c_xmit_mode c = XMIT_RAW →
  viewer_for c n → rx_data (n_rx n) = c_wire c →
  ∃ sh ss frame n1, buf_map st (k_prev st) = Some frame ∧
    c_wire c = server_hello_bytes sh ++ mjoin (sent_bytes <$> ss) ∧
    Forall (sent_ok (c_geom c) (bytespp_of (pixfmt_of c)) (c_lz4 c)) ss ∧
    hello_exchange n = (Some (k_src_w st, k_src_h st), n1) ∧
    let '(go, s') := stream_run (length ss) (stream_start n1 (k_src_w st) (k_src_h st)) in
    (go = true →
       fb_pixels (n_fb (s_n s')) =
         Some (conv_frame (k_src_w st) (k_src_h st) (pixfmt_of c) (kvm_converted st frame)) ∧
       rx_data (n_rx (s_n s')) = []) ∧
    (Forall (λ m, ¬ is_h264 m) ss → go = true).
Proof.
  intros Hlive Ho Ha Hr Hin Hsig Hsz Hrep Hidle Hraw Hv Hrx.
  pose proof (sys_run_inv _ _ Hr (kvm_start_inv st0 q a now Ho Ha)) as [[Hc _] Hcl].
  rewrite Forall_forall in Hcl. destruct (Hcl _ Hin) as (b&Hs&(_&Hk)). cbn [fst snd] in *.
  destruct (Hk Hsig (or_introl Hsz)) as [Hb Hg].
  assert (b = false) as -> by (destruct b; [|done]; specialize (Hb (or_intror eq_refl)); congruence).
  pose proof (cc_stream _ Hc (cc_signal _ Hc Hsig)) as Hok.
  destruct (so_prev _ Hok) as [Hp|(Hp&frame&Hbuf&Hm)].
  { assert (Hneg : k_prev st < 0) by lia. specialize (Hb (or_introl Hneg)). congruence. }
  specialize (Hg Hrep Hsz). rewrite Hm in Hg.
  pose proof Hs as (c0&g0&fl&Hf&Hst&Hrun).
  destruct (start_link (U := (false = true : Stale)) c0 g0 fl Hf Hst) as (Hl0&(G0&H0&L0)&_).
  destruct (any_run _ _ Hrun Hl0) as (_&ss0&((_&(G1&H1&L1)&_)&_)). cbn [fst] in *.
  assert (Hv0 : viewer_for c0 n) by (unfold viewer_for in *; by rewrite <- H0, <- H1, <- L0, <- L1).
  destruct (screen_run c0 g0 fl c n Hlive Hf Hst Hrun Hidle Hraw Hv0 Hrx)
    as (ss&grab&n1&Egr&Hw&Hok'&Hx&Hrest).
  rewrite Hg in Egr. injection Egr as <-. destruct Hsz as [Sw Sh].
  assert (Eg : c_geom c0 = c_geom c) by congruence.
  assert (Ep : pixfmt_of c0 = pixfmt_of c) by (unfold pixfmt_of; congruence).
  assert (El : c_lz4 c0 = c_lz4 c) by congruence.
  exists (hello_of c0 fl), ss, frame, n1. rewrite Eg, Ep, El in Hok'.
  rewrite Eg, Ep, Sw, Sh in *. split_and!; [|done|done|done|exact Hrest].
  unfold buf_map. by rewrite Hbuf.
Qed.
End props.

(** ** The concrete capture of KvmSamples.v *)
#[local] Abbreviation sst := (sample_s6.1).

Lemma rtc_pair {A B} (R : A * B → A * B → Prop) x y : rtc R x y → rtc R x (y.1, y.2).
Proof. by destruct y. Qed.

Lemma sample_reach :
  rtc (@sys_step sample_x264 sample_lz4 sample_platform sample_input)
    (kvm_start (H := sample_x264) kvm_boot [] sample_query sample_start 7)
    (sst, sample_s6.2).
Proof.
  assert (E : kvm_start (H := sample_x264) kvm_boot [] sample_query sample_start 7 = sample_s0)
    by (vm_compute; reflexivity).
  rewrite E. exact (rtc_pair _ _ _ sample_sys_run).
Qed.

Lemma capture_watches_source_witness :
  (k_signal sst = true ∨ k_poll_id sst ≠ 0 ∨ k_debounce_id sst ≠ 0) ∧
  (k_frame_watch_id sst ≠ 0 ↔ k_signal sst = true) ∧
  (k_signal sst = true → k_streaming sst = true).
Proof.
  exact (@capture_watches_source sample_x264 sample_lz4 sample_platform sample_x264_laws sample_input
    sample_input_laws kvm_boot sample_query sample_start 7 sst sample_s6.2
    boot_off sample_answers sample_reach).
Defined.

Lemma capture_invariant_witness :
  tiles_ok sst ∧ 2 ≤ k_nbuf sst ≤ SREMFB_KVM_NBUF ∧
  (∃ m, k_master sst = Some m ∧ Z.of_nat (length m) = k_src_h sst * (k_src_w sst * 4)) ∧
  (k_prev sst = -1 ∨
   0 ≤ k_prev sst < k_nbuf sst ∧ ∃ frame,
     k_buf sst !! Z.to_nat (k_prev sst) = Some (mk_kvm_buf (Some frame) false) ∧
     k_master sst = Some (kvm_converted sst frame)).
Proof.
  refine (@capture_invariant sample_x264 sample_lz4 sample_platform sample_x264_laws sample_input
    sample_input_laws kvm_boot sample_query sample_start 7 sst sample_s6.2
    boot_off sample_answers sample_reach _).
  vm_compute. reflexivity.
Defined.

Definition sample_c6 : @SremfbClient sample_x264 := (sample_client_at sample_s6).1.
Definition sample_kc6 : SremfbKvmClient :=
  default (mk_kvm_client false (kvm_fit 0 0 0 0) false 0 0 0 0) (sample_client_at sample_s6).2.
(** The viewer receives the bytes in two pieces. *)
Definition sample_kvm_view : view_net :=
  sample_view SREMFB_PIX_XRGB8888
    [RData (slice 0 20 (c_wire sample_c6)); RData (slice 20 52 (c_wire sample_c6))].

Lemma kvm_viewer_shows_capture_witness :
  ∃ sh ss frame n1, buf_map sst (k_prev sst) = Some frame ∧
    c_wire sample_c6 = server_hello_bytes sh ++ mjoin (@sent_bytes sample_lz4 <$> ss) ∧
    Forall (@sent_ok sample_lz4 (c_geom sample_c6) (bytespp_of (pixfmt_of sample_c6)) (c_lz4 sample_c6)) ss ∧
    @hello_exchange sample_view_sys sample_kvm_view = (Some (k_src_w sst, k_src_h sst), n1) ∧
    let '(go, s') := @stream_run sample_view_sys sample_lz4 sample_av (length ss)
                       (@stream_start sample_view_sys sample_av n1 (k_src_w sst) (k_src_h sst)) in
    (go = true →
       fb_pixels (n_fb (s_n s')) =
         Some (@conv_frame sample_platform (k_src_w sst) (k_src_h sst) (pixfmt_of sample_c6)
           (kvm_converted sst frame)) ∧
       rx_data (n_rx (s_n s')) = []) ∧
    (Forall (λ m, ¬ is_h264 m) ss → go = true).
Proof.
  refine (@kvm_viewer_shows_capture sample_x264 sample_lz4 sample_platform sample_view_sys sample_av
    sample_x264_laws sample_lz4_laws sample_input
    sample_input_laws kvm_boot sample_query sample_start 7 sst sample_s6.2 sample_c6 sample_kc6
    sample_kvm_view sample_live boot_off sample_answers sample_reach _ _ _ _ _ _ _ _).
  - assert (E : sample_s6.2 = [(sample_c6, Some sample_kc6)]) by (vm_compute; reflexivity).
    rewrite E. left.
  - vm_compute. reflexivity.
  - split; vm_compute; reflexivity.
  - vm_compute. reflexivity.
  - vm_compute. reflexivity.
  - vm_compute. reflexivity.
  - split_and!; vm_compute; reflexivity.
  - vm_compute. reflexivity.
Defined.
