(* ===== verification/EvdiGate.v ===== *)
(** * evdi.h and evdi/evdi.c: the plug gate

    The history of plugs, lit connectors and mode timeouts of the EVDI
    backend, and the decision taken from it before a connector is plugged.
    [shell] is compositor_pid()'s answer and [now] the clock's, at each
    call.  A client pointer is its number in Session.v, a device pointer
    its place in the array of devices (which only grows). *)
From S2P Require Import Prelude Protocol Core Control.
From stdpp Require Import list.
#[local] Open Scope list_scope.
#[local] Open Scope Z_scope.

Definition SELFHEAL_BUDGET : Z := 8.
Definition BACKOFF_MIN_S : Z := 60.
Definition BACKOFF_MAX_S : Z := 30 * 60.
Definition FAILS_PER_HOUR : Z := 16.
Definition PLUGS_PER_HOUR : Z := 60.
Definition PLUG_WINDOW_US : Z := 3600 * G_USEC_PER_SEC.
Definition PLUG_EVENTS_MAX : Z := 1024.

Definition SREMFB_PLUG_EV_PLUG : Z := 0.
Definition SREMFB_PLUG_EV_LIT : Z := 1.
Definition SREMFB_PLUG_EV_FAIL : Z := 2.
Definition GATE_OPEN : Z := 0.
Definition GATE_BACKOFF : Z := 1.
Definition GATE_FAIL_CAP : Z := 2.
Definition GATE_PLUG_CAP : Z := 3.

Record SremfbEvdiDevice := mk_dev {
  dv_card : Z; dv_lock_fd : Z; dv_watch_id : Z; dv_owner : option nat; dv_suspect : bool }.
#[export] Instance eta_dev : Eta SremfbEvdiDevice := λ d,
  mk_dev (dv_card d) (dv_lock_fd d) (dv_watch_id d) (dv_owner d) (dv_suspect d).

Record SremfbPlugEvent := mk_plug { pe_t : Z; pe_kind : Z }.

Record SremfbEvdiState := mk_evs {
  es_devices : list SremfbEvdiDevice; es_wedge_seen : bool;
  es_plug_events : list SremfbPlugEvent; es_plug_shell : Z; es_gate_logged : Z }.
#[export] Instance eta_evs : Eta SremfbEvdiState := λ s,
  mk_evs (es_devices s) (es_wedge_seen s) (es_plug_events s) (es_plug_shell s)
    (es_gate_logged s).

Record PlugGate := mk_gate { pg_verdict : Z; pg_until : Z; pg_fail_run : Z }.
#[export] Instance eta_gate : Eta PlugGate := λ g,
  mk_gate (pg_verdict g) (pg_until g) (pg_fail_run g).

(** The index of the last lit connector from index [i] on, else [acc]. *)
Fixpoint last_lit (i : Z) (ev : list SremfbPlugEvent) (acc : Z) : Z :=
  match ev with
  | [] => acc
  | e :: ev => last_lit (i + 1) ev (if pe_kind e =? SREMFB_PLUG_EV_LIT then i else acc)
  end.

(** The events kept, [ev] starting at index [i]. *)
Fixpoint prune_keep (now lit i : Z) (ev : list SremfbPlugEvent) : list SremfbPlugEvent :=
  match ev with
  | [] => []
  | e :: ev =>
    let rest := prune_keep now lit (i + 1) ev in
    if (now - PLUG_WINDOW_US <=? pe_t e) ||
       ((pe_kind e =? SREMFB_PLUG_EV_FAIL) && (lit <? i))
    then e :: rest else rest
  end.

Definition prune_events (now : Z) (ev : list SremfbPlugEvent) : list SremfbPlugEvent :=
  let ev := prune_keep now (last_lit 0 ev (-1)) 0 ev in
  drop (Z.to_nat (Z.of_nat (length ev) - PLUG_EVENTS_MAX)) ev.

Definition plug_prune (s : SremfbEvdiState) (shell now : Z) : SremfbEvdiState :=
  if negb (shell =? es_plug_shell s)
  then s⟨es_plug_events := []⟩⟨es_plug_shell := shell⟩⟨es_gate_logged := GATE_OPEN⟩
  else s⟨es_plug_events ::= prune_events now⟩.

Definition plug_record (s : SremfbEvdiState) (shell now kind : Z) : SremfbEvdiState :=
  (plug_prune s shell now)⟨es_plug_events ::= λ ev, ev ++ [mk_plug now kind]⟩.

Definition in_window (kind now : Z) (e : SremfbPlugEvent) : bool :=
  (pe_kind e =? kind) && (now - PLUG_WINDOW_US <=? pe_t e).

Fixpoint window_count (kind now : Z) (ev : list SremfbPlugEvent) (n : Z) : Z :=
  match ev with
  | [] => n
  | e :: ev => window_count kind now ev (if in_window kind now e then u32 (n + 1) else n)
  end.

(** The second loop: [++k == want] *)
Fixpoint window_nth (kind now want : Z) (ev : list SremfbPlugEvent) (k : Z) : Z :=
  match ev with
  | [] => 0
  | e :: ev =>
    if in_window kind now e then
      let k := u32 (k + 1) in
      if k =? want then pe_t e + PLUG_WINDOW_US else window_nth kind now want ev k
    else window_nth kind now want ev k
  end.

Definition window_free_at (ev : list SremfbPlugEvent) (kind now cap : Z) : Z :=
  let n := window_count kind now ev 0 in
  if n <? cap then 0 else window_nth kind now (u32 (n - cap + 1)) ev 0.

(** The failure run and the time of the last failure. *)
Definition fail_step (s : Z * Z) (e : SremfbPlugEvent) : Z * Z :=
  let '(run, last) := s in
  if pe_kind e =? SREMFB_PLUG_EV_LIT then (0, last)
  else if pe_kind e =? SREMFB_PLUG_EV_FAIL then (u32 (run + 1), pe_t e)
  else (run, last).
Definition fail_run (ev : list SremfbPlugEvent) : Z * Z := foldl fail_step (0, 0) ev.

Definition backoff_us (run : Z) : Z :=
  let shift := Z.min (run - SELFHEAL_BUDGET - 1) 16 in
  Z.min (Z.shiftl BACKOFF_MIN_S shift) BACKOFF_MAX_S * G_USEC_PER_SEC.

(** [if (t > now && t > g.until)] *)
Definition gate_cap (now t verdict : Z) (g : PlugGate) : PlugGate :=
  if (now <? t) && (pg_until g <? t) then g⟨pg_verdict := verdict⟩⟨pg_until := t⟩ else g.

Definition gate_of (ev : list SremfbPlugEvent) (now : Z) : PlugGate :=
  let '(run, last) := fail_run ev in
  let g := mk_gate GATE_OPEN 0 run in
  let g := if (SELFHEAL_BUDGET <? run) && (now <? last + backoff_us run)
           then g⟨pg_verdict := GATE_BACKOFF⟩⟨pg_until := last + backoff_us run⟩ else g in
  let g := gate_cap now (window_free_at ev SREMFB_PLUG_EV_FAIL now FAILS_PER_HOUR)
             GATE_FAIL_CAP g in
  gate_cap now (window_free_at ev SREMFB_PLUG_EV_PLUG now PLUGS_PER_HOUR) GATE_PLUG_CAP g.

Definition plug_gate (s : SremfbEvdiState) (shell now : Z) : SremfbEvdiState * PlugGate :=
  let s := plug_prune s shell now in
  (s, gate_of (es_plug_events s) now).

Definition evdi_source_admit (s : SremfbEvdiState) (shell now : Z) : Z * SremfbEvdiState :=
  let '(s, g) := plug_gate s shell now in
  let s := if negb (pg_verdict g =? es_gate_logged s)
           then s⟨es_gate_logged := pg_verdict g⟩ else s in
  (if pg_verdict g =? GATE_OPEN then SREMFB_STATUS_OK else SREMFB_STATUS_SERVER_FAIL, s).

(** The two clock readings, each with the compositor found then. *)
Definition plug_lit (s : SremfbEvdiState) (shell now shell' now' : Z) : SremfbEvdiState :=
  let s := (plug_gate s shell now).1 in
  (plug_record s shell' now' SREMFB_PLUG_EV_LIT)⟨es_gate_logged := GATE_OPEN⟩.

(** Whether self_heal_add() goes on to evdi_add_usable(). *)
Definition self_heal_allowed (s : SremfbEvdiState) (shell now : Z) : bool * SremfbEvdiState :=
  let '(s, g) := plug_gate s shell now in
  (negb (SELFHEAL_BUDGET <? pg_fail_run g), s).

(** ** The verdict of one tick of the mode timer (evdi.h) *)
Definition SREMFB_MODE_WAIT_FAIL : Z := 0.
Definition SREMFB_MODE_WAIT_PARK : Z := 1.
Definition SREMFB_PS_GRACE_US : Z := 15 * G_USEC_PER_SEC.
Definition SREMFB_PS_UNKNOWN_GRACE_US : Z := 60 * G_USEC_PER_SEC.
Definition sremfb_mode_wait_verdict (power_save now ps_seen : Z) : Z :=
  if 0 <? power_save then SREMFB_MODE_WAIT_PARK
  else if (0 <? ps_seen) &&
          (now - ps_seen <? (if power_save <? 0 then SREMFB_PS_UNKNOWN_GRACE_US
                             else SREMFB_PS_GRACE_US))
  then SREMFB_MODE_WAIT_PARK else SREMFB_MODE_WAIT_FAIL.
