(* ===== verification/GateSpec.v ===== *)
(** * The plug gate's decision, exactly (evdi/evdi.c)

    [live k now ev] are the events of kind [k] of the last hour; the gate is
    open when the caps on plugs and failures hold and the backoff is over
    ([gate_fine]), and the time it announces is the first at which that is
    the case. *)
From S2P Require Import Prelude Protocol Core Control EvdiGate.
From stdpp Require Import list sorting.
#[local] Open Scope list_scope.
#[local] Open Scope Z_scope.

Abbreviation event := SremfbPlugEvent.
Definition chron (ev : list event) : Prop := StronglySorted (λ a b, pe_t a ≤ pe_t b) ev.

Definition recent (now : Z) (ev : list event) : list event :=
  filter (λ e, now - PLUG_WINDOW_US < pe_t e) ev.
Definition live (k now : Z) (ev : list event) : list event :=
  filter (λ e, pe_kind e = k ∧ now - PLUG_WINDOW_US < pe_t e) ev.

Lemma window_pos : 0 < PLUG_WINDOW_US.
Proof. done. Qed.
#[local] Opaque PLUG_WINDOW_US.

(** ** Sorted lists *)
Lemma chron_filter (P : event → Prop) `{∀ e, Decision (P e)} ev : chron ev → chron (filter P ev).
Proof.
  unfold chron. induction 1 as [|e ev _ IH Hf]; [constructor|]. rewrite filter_cons.
  case_decide; [|done]. constructor; [done|]. rewrite Forall_forall in *. intros x Hx.
  apply list_elem_of_filter in Hx as [_ Hx]. by apply Hf.
Qed.

Lemma filter_all (P : event → Prop) `{∀ e, Decision (P e)} ev : Forall P ev → filter P ev = ev.
Proof. induction 1; [done|]. rewrite filter_cons_True by done. by f_equal. Qed.

Lemma filter_none (P : event → Prop) `{∀ e, Decision (P e)} ev :
  Forall (λ e, ¬ P e) ev → filter P ev = [].
Proof. induction 1; [done|]. by rewrite filter_cons_False. Qed.

(** The events after [x] are the last ones. *)
Lemma late_at x ev (i : nat) e :
  chron ev → ev !! i = Some e →
  (pe_t e ≤ x → Z.of_nat (length (filter (λ e, x < pe_t e) ev)) < Z.of_nat (length ev) - Z.of_nat i) ∧
  (x < pe_t e → Z.of_nat (length ev) - Z.of_nat i ≤ Z.of_nat (length (filter (λ e, x < pe_t e) ev))).
Proof.
  intros Hs Hi. apply list_elem_of_split_length in Hi as (l1&l2&->&->).
  unfold chron in Hs. apply StronglySorted_app in Hs as (H12&_&[H2 _]%StronglySorted_cons).
  rewrite filter_app, !length_app. cbn [length]. split; intros Hx.
  - rewrite (filter_none _ l1), filter_cons_False by
      (lia || (apply Forall_forall; intros y Hy; specialize (H12 y e Hy (list_elem_of_here _ _)); lia)).
    pose proof (length_filter (λ e, x < pe_t e) l2). cbn. lia.
  - rewrite (filter_all _ (e :: l2)); [cbn; lia|]. constructor; [done|].
    eapply Forall_impl; [exact H2|]. cbn. intros; lia.
Qed.

(** ** window_free_at() *)
Lemma window_count_eq k now ev n :
  0 ≤ n → n + Z.of_nat (length ev) < 4294967296 →
  window_count k now ev n = n + Z.of_nat (length (filter (λ e, in_window k now e = true) ev)).
Proof.
  revert n. induction ev as [|e ev IH]; intros n Hn Hl; [cbn; lia|]. cbn [window_count length] in *.
  rewrite filter_cons. destruct (in_window k now e) eqn:E; case_decide; try congruence; cbn [length].
  - rewrite u32_small by lia. rewrite IH by lia. lia.
  - apply IH; lia.
Qed.

Lemma window_nth_eq k now want ev n :
  0 ≤ n < want → n + Z.of_nat (length ev) < 4294967296 →
  window_nth k now want ev n =
    match filter (λ e, in_window k now e = true) ev !! Z.to_nat (want - n - 1) with
    | Some e => pe_t e + PLUG_WINDOW_US
    | None => 0
    end.
Proof.
  revert n. induction ev as [|e ev IH]; intros n Hn Hl; [done|]. cbn [window_nth length] in *.
  rewrite filter_cons. destruct (in_window k now e) eqn:E; case_decide; try congruence.
  2:{ apply IH; lia. }
  rewrite u32_small by lia. destruct (n + 1 =? want) eqn:Ew.
  - by replace (Z.to_nat (want - n - 1)) with 0%nat by lia.
  - rewrite IH by lia. replace (Z.to_nat (want - n - 1)) with (S (Z.to_nat (want - (n + 1) - 1))) by lia.
    done.
Qed.

Lemma live_window k now t ev :
  now ≤ t → live k t ev =
    filter (λ e, t - PLUG_WINDOW_US < pe_t e) (filter (λ e, in_window k now e = true) ev).
Proof.
  intros Ht. unfold live, in_window. rewrite list_filter_filter. apply list_filter_iff. intros e.
  rewrite andb_true_iff, Z.eqb_eq, Z.leb_le. lia.
Qed.

(** The time announced is the first at which fewer than [cap] are left. *)
Lemma window_free_exact ev k now cap t :
  chron ev → Z.of_nat (length ev) < 4294967295 → 0 < cap < 4294967296 → 0 ≤ now ≤ t →
  window_free_at ev k now cap ≤ t ↔ Z.of_nat (length (live k t ev)) < cap.
Proof.
  intros Hs Hl Hc Ht. rewrite (live_window k now t) by lia. unfold window_free_at. cbv zeta.
  rewrite window_count_eq by lia. rewrite Z.add_0_l.
  set (l := filter (λ e, in_window k now e = true) ev).
  assert (Hls : chron l) by by apply chron_filter.
  assert (Hll : (length l ≤ length ev)%nat) by apply length_filter.
  destruct (Z.of_nat (length l) <? cap) eqn:En.
  { pose proof (length_filter (λ e, t - PLUG_WINDOW_US < pe_t e) l). lia. }
  rewrite u32_small by lia. rewrite window_nth_eq by lia. fold l.
  set (i := Z.to_nat (Z.of_nat (length l) - cap + 1 - 0 - 1)).
  destruct (lookup_lt_is_Some_2 l i) as [e He]; [lia|]. rewrite He.
  pose proof (late_at (t - PLUG_WINDOW_US) l i e Hls He) as [H1 H2].
  destruct (decide (pe_t e ≤ t - PLUG_WINDOW_US)); [specialize (H1 ltac:(lia))|specialize (H2 ltac:(lia))]; lia.
Qed.

Lemma window_free_range ev k now cap :
  Forall (λ e, pe_t e ≤ now) ev → Z.of_nat (length ev) < 4294967295 → 0 < cap < 4294967296 →
  0 ≤ now → window_free_at ev k now cap ≤ now + PLUG_WINDOW_US.
Proof.
  intros Hf Hl Hc Hn. pose proof window_pos. unfold window_free_at. cbv zeta.
  rewrite window_count_eq by lia. destruct (_ <? cap) eqn:En; [lia|].
  pose proof (length_filter (λ e, in_window k now e = true) ev).
  rewrite u32_small by lia. rewrite window_nth_eq by lia.
  destruct (_ !! _) as [e|] eqn:He; [|lia].
  apply list_elem_of_lookup_2, list_elem_of_filter in He as [_ He].
  rewrite Forall_forall in Hf. specialize (Hf e He). cbn in Hf. lia.
Qed.

(** ** The gate *)
(** When the backoff of the failure run ends. *)
Definition backoff_end (ev : list event) : Z :=
  let '(run, last) := fail_run ev in if SELFHEAL_BUDGET <? run then last + backoff_us run else 0.

Definition gate_fine (ev : list event) (t : Z) : Prop :=
  backoff_end ev ≤ t ∧
  Z.of_nat (length (live SREMFB_PLUG_EV_FAIL t ev)) < FAILS_PER_HOUR ∧
  Z.of_nat (length (live SREMFB_PLUG_EV_PLUG t ev)) < PLUGS_PER_HOUR.

Lemma gate_of_eq ev now :
  0 ≤ now →
  let m := Z.max (backoff_end ev)
             (Z.max (window_free_at ev SREMFB_PLUG_EV_FAIL now FAILS_PER_HOUR)
                    (window_free_at ev SREMFB_PLUG_EV_PLUG now PLUGS_PER_HOUR)) in
  let g := gate_of ev now in
  pg_fail_run g = (fail_run ev).1 ∧
  (pg_verdict g = GATE_OPEN ∧ m ≤ now ∨ pg_verdict g ≠ GATE_OPEN ∧ pg_until g = m ∧ now < m).
Proof.
  intros Hn. cbv zeta. unfold gate_of, backoff_end. destruct (fail_run ev) as [run last].
  set (b := window_free_at _ _ _ _). set (c := window_free_at _ _ _ _).
  set (a := last + backoff_us run). unfold gate_cap.
  unfold GATE_OPEN, GATE_BACKOFF, GATE_FAIL_CAP, GATE_PLUG_CAP.
  destruct (SELFHEAL_BUDGET <? run); cbn [andb];
    repeat (match goal with |- context [?x <? ?y] => destruct (Z.ltb_spec x y) end; cbn [andb pg_until pg_verdict pg_fail_run upd] in * );
    cbn in *; lia.
Qed.

Lemma gate_exact ev now t :
  chron ev → Z.of_nat (length ev) < 4294967295 → 0 ≤ now ≤ t →
  gate_fine ev t ↔
    Z.max (backoff_end ev)
      (Z.max (window_free_at ev SREMFB_PLUG_EV_FAIL now FAILS_PER_HOUR)
             (window_free_at ev SREMFB_PLUG_EV_PLUG now PLUGS_PER_HOUR)) ≤ t.
Proof.
  intros Hs Hl Ht. unfold gate_fine.
  rewrite <- (window_free_exact ev SREMFB_PLUG_EV_FAIL now FAILS_PER_HOUR t) by
    (done || unfold FAILS_PER_HOUR; lia).
  rewrite <- (window_free_exact ev SREMFB_PLUG_EV_PLUG now PLUGS_PER_HOUR t) by
    (done || unfold PLUGS_PER_HOUR; lia). lia.
Qed.

(** ** Pruning *)
Lemma keep_live k now t lit i ev : now ≤ t → live k t (prune_keep now lit i ev) = live k t ev.
Proof.
  intros Ht. unfold live. revert i. induction ev as [|e ev IH]; intros i; [done|]. cbn [prune_keep].
  rewrite (filter_cons _ e ev). destruct (_ || _) eqn:E.
  - rewrite filter_cons. by case_decide; rewrite IH.
  - apply orb_false_iff in E as [E _]. rewrite decide_False by lia. apply IH.
Qed.

Lemma keep_recent now t lit i ev : now ≤ t → recent t (prune_keep now lit i ev) = recent t ev.
Proof.
  intros Ht. unfold recent. revert i. induction ev as [|e ev IH]; intros i; [done|]. cbn [prune_keep].
  rewrite (filter_cons _ e ev). destruct (_ || _) eqn:E.
  - rewrite filter_cons. by case_decide; rewrite IH.
  - apply orb_false_iff in E as [E _]. rewrite decide_False by lia. apply IH.
Qed.

Lemma live_recent k t ev : live k t ev = filter (λ e, pe_kind e = k) (recent t ev).
Proof. unfold live, recent. rewrite list_filter_filter. done. Qed.

Lemma keep_sub now lit i ev : sublist (prune_keep now lit i ev) ev.
Proof.
  revert i. induction ev as [|e ev IH]; intros i; cbn [prune_keep]; [done|].
  case_match; by constructor.
Qed.

Lemma sublist_chron l ev : sublist l ev → chron ev → chron l.
Proof.
  unfold chron. induction 1 as [|e l ev Hs IH|e l ev Hs IH]; intros Hc; [done|..];
    apply StronglySorted_cons in Hc as [Hf Hc]; [|by apply IH].
  constructor; [by apply IH|]. rewrite Forall_forall in *. intros x Hx. apply Hf.
  by eapply elem_of_sublist.
Qed.

Lemma prune_sub now ev : sublist (prune_events now ev) ev.
Proof.
  unfold prune_events. cbv zeta. etrans; [apply sublist_drop|]. apply keep_sub.
Qed.

Lemma recent_drop t n l :
  chron l → (length (recent t l) ≤ length l - n)%nat → recent t (drop n l) = recent t l.
Proof.
  intros Hs Hn. rewrite <- (take_drop n l) at 2. unfold recent in *. rewrite filter_app.
  destruct (decide (n ≤ length l)%nat) as [Hle|]; [|rewrite drop_ge, take_ge in * by lia].
  2:{ cbn. rewrite app_nil_r. destruct (filter _ l); [done|cbn in Hn; lia]. }
  rewrite (filter_none _ (take n l)); [done|]. rewrite Forall_lookup. intros i e Hi Hlt.
  assert (Hin : (i < n)%nat) by (apply lookup_lt_Some in Hi; rewrite length_take in Hi; lia).
  rewrite lookup_take_lt in Hi by done.
  pose proof (late_at (t - PLUG_WINDOW_US) l i e Hs Hi) as [_ H2]. specialize (H2 ltac:(lia)). lia.
Qed.

(** What the gate looks at survives, as long as the last hour fits. *)
Lemma prune_recent now t ev :
  chron ev → now ≤ t → Z.of_nat (length (recent t ev)) ≤ PLUG_EVENTS_MAX →
  recent t (prune_events now ev) = recent t ev.
Proof.
  intros Hs Ht Hl. unfold prune_events. cbv zeta. set (lit := last_lit 0 ev (-1)).
  rewrite recent_drop.
  - by apply keep_recent.
  - eapply sublist_chron; [apply keep_sub|done].
  - rewrite keep_recent by done. unfold recent in *.
    assert (H : (length (recent t (prune_keep now lit 0 ev)) ≤ length (prune_keep now lit 0 ev))%nat)
      by apply length_filter.
    rewrite keep_recent in H by done. unfold recent in H. unfold PLUG_EVENTS_MAX in *. lia.
Qed.

Lemma prune_length now ev : Z.of_nat (length (prune_events now ev)) ≤ PLUG_EVENTS_MAX.
Proof. unfold prune_events, PLUG_EVENTS_MAX. cbv zeta. rewrite length_drop. lia. Qed.

(** ** The failure run *)
Lemma last_lit_app i ev e acc :
  last_lit i (ev ++ [e]) acc =
    if pe_kind e =? SREMFB_PLUG_EV_LIT then i + Z.of_nat (length ev) else last_lit i ev acc.
Proof.
  revert i acc. induction ev as [|x ev IH]; intros i acc; cbn [app last_lit length]; [by rewrite Z.add_0_r|].
  rewrite IH. case_match; [lia|done].
Qed.

Lemma keep_app now lit i l1 l2 :
  prune_keep now lit i (l1 ++ l2) =
    prune_keep now lit i l1 ++ prune_keep now lit (i + Z.of_nat (length l1)) l2.
Proof.
  revert i. induction l1 as [|e l1 IH]; intros i; [cbn; by rewrite Z.add_0_r|].
  cbn [app prune_keep length]. rewrite IH.
  replace (i + 1 + Z.of_nat (length l1)) with (i + Z.of_nat (S (length l1))) by lia. by case_match.
Qed.

Definition not_lit (e : event) : Prop := pe_kind e ≠ SREMFB_PLUG_EV_LIT.

(** Either no connector lit up or the list splits at the last one. *)
Lemma lit_split ev acc :
  (Forall not_lit ev ∧ last_lit 0 ev acc = acc) ∨
  ∃ l1 e l2, ev = l1 ++ e :: l2 ∧ pe_kind e = SREMFB_PLUG_EV_LIT ∧ Forall not_lit l2 ∧
    last_lit 0 ev acc = Z.of_nat (length l1).
Proof.
  induction ev as [|x ev IH] using rev_ind; [by left|]. rewrite last_lit_app.
  destruct (pe_kind x =? SREMFB_PLUG_EV_LIT) eqn:E.
  - right. exists ev, x, []. split_and!; [done|lia|constructor|lia].
  - assert (Hx : not_lit x) by (unfold not_lit; lia).
    destruct IH as [[Hf Hl]|(l1&e&l2&->&He&Hf&Hl)].
    + left. split; [|done]. apply Forall_app. by split; [|constructor].
    + right. exists l1, e, (l2 ++ [x]). rewrite <- app_assoc. split_and!; try done.
      apply Forall_app. by split; [|constructor].
Qed.

Lemma keep_run now lit i l s :
  Forall not_lit l → lit < i → foldl fail_step s (prune_keep now lit i l) = foldl fail_step s l.
Proof.
  intros Hf. revert i s. induction Hf as [|e l He _ IH]; intros i s Hi; [done|]. cbn [prune_keep].
  rewrite (proj2 (Z.ltb_lt lit i)) by done. rewrite andb_true_r.
  destruct (_ || _) eqn:E; cbn [foldl]; rewrite IH by lia; [done|].
  apply orb_false_iff in E as [_ E]. destruct s as [run last]. unfold fail_step at 3.
  unfold not_lit in He. rewrite E. by rewrite (proj2 (Z.eqb_neq _ _) He).
Qed.

(** The time of the last failure only matters after one. *)
Lemma run_start l x y :
  Forall not_lit l →
  (foldl fail_step (0, x) l).1 = (foldl fail_step (0, y) l).1 ∧
  (foldl fail_step (0, x) l = foldl fail_step (0, y) l ∨
   (foldl fail_step (0, x) l).1 = 0).
Proof.
  intros Hf. assert (H : ∀ l s s', Forall not_lit l → s.1 = s'.1 → (s = s' ∨ s.1 = 0) →
    (foldl fail_step s l).1 = (foldl fail_step s' l).1 ∧
    (foldl fail_step s l = foldl fail_step s' l ∨ (foldl fail_step s l).1 = 0)).
  { clear. intros l. induction l as [|e l IH]; intros [r a] [r' a'] Hf Hr Ho; [done|]. cbn in Hr.
    subst r'. apply Forall_cons in Hf as [He Hf]. cbn [foldl]. apply IH; [done|..];
      unfold fail_step; rewrite (proj2 (Z.eqb_neq _ _) He); (case_match; [cbn; by try left|done]). }
  apply H; [done|done|by right].
Qed.

Lemma keep_none now lit i l :
  Forall (λ e, pe_t e < now - PLUG_WINDOW_US) l → i + Z.of_nat (length l) ≤ lit + 1 →
  prune_keep now lit i l = [].
Proof.
  intros Hf. revert i. induction Hf as [|e l He _ IH]; intros i Hi; [done|]. cbn [prune_keep length] in *.
  rewrite IH by lia. rewrite (proj2 (Z.leb_gt _ _)) by lia.
  rewrite (proj2 (Z.ltb_ge lit i)) by lia. by rewrite andb_false_r.
Qed.

Lemma prune_backoff now ev :
  chron ev → Z.of_nat (length ev) ≤ PLUG_EVENTS_MAX →
  backoff_end (prune_events now ev) = backoff_end ev ∧
  (fail_run (prune_events now ev)).1 = (fail_run ev).1.
Proof.
  intros Hs Hl. unfold prune_events. cbv zeta.
  pose proof (sublist_length _ _ (keep_sub now (last_lit 0 ev (-1)) 0 ev)).
  replace (Z.to_nat _) with 0%nat by lia. rewrite drop_0.
  assert (H1 : ∀ s s' : Z * Z, s.1 = s'.1 → (s = s' ∨ s.1 = 0) →
    (let '(run, last) := s in if SELFHEAL_BUDGET <? run then last + backoff_us run else 0) =
    (let '(run, last) := s' in if SELFHEAL_BUDGET <? run then last + backoff_us run else 0) ∧ s.1 = s'.1).
  { intros [r a] [r' a'] Hr [Ho|Ho]; [by injection Ho as -> ->|]. cbn in *. subst r r'. done. }
  unfold backoff_end, fail_run.
  destruct (lit_split ev (-1)) as [[Hf ->]|(l1&e&l2&E&He&Hf&El)].
  { rewrite keep_run by (done || lia). done. }
  rewrite El, E. rewrite keep_app. cbn [prune_keep].
  rewrite !foldl_app. cbn [foldl].
  assert (Estep : ∀ s, fail_step s e = (0, s.2)) by (intros [r a]; unfold fail_step; by rewrite He).
  rewrite Estep. set (y := (foldl _ (0, 0) l1).2). destruct (_ || _) eqn:Ek; cbn [foldl].
  - rewrite Estep, keep_run by (done || lia). set (x := (foldl _ _ (prune_keep _ _ _ l1)).2).
    destruct (run_start l2 x y Hf) as [R1 R2]. by apply H1.
  - apply orb_false_iff in Ek as [Ek _]. rewrite keep_none.
    + cbn [app foldl]. rewrite keep_run by (done || lia).
      destruct (run_start l2 0 y Hf) as [R1 R2]. by apply H1.
    + rewrite E in Hs. apply StronglySorted_app in Hs as (Hs&_&_). apply Forall_forall. intros z Hz.
      specialize (Hs z e Hz (list_elem_of_here _ _)). cbn in Hs. lia.
    + lia.
Qed.

Lemma prune_fine now t ev :
  chron ev → Z.of_nat (length ev) ≤ PLUG_EVENTS_MAX → now ≤ t →
  gate_fine (prune_events now ev) t ↔ gate_fine ev t.
Proof.
  intros Hs Hl Ht. unfold gate_fine. rewrite (proj1 (prune_backoff now ev Hs Hl)).
  assert (Hr : Z.of_nat (length (recent t ev)) ≤ PLUG_EVENTS_MAX)
    by (assert (length (recent t ev) ≤ length ev)%nat by apply length_filter; lia).
  rewrite !live_recent, (prune_recent now t ev Hs Ht Hr). done.
Qed.
