(* ===== verification/GateProps.v ===== *)
(** * The plug gate bounds the hotplugs and always reopens (evdi/evdi.c)

    [gate_step] is what happens to the plug history while the server runs;
    [gw_hist] remembers every event since the history was last cleared,
    [gw_now] the last reading of the clock, [gw_wait] counts the plugged
    connectors that are still dark and [gw_open] says that the gate was
    found open and nothing was plugged since. *)
From S2P Require Import Prelude Protocol Core Control EvdiGate GateSpec.
From stdpp Require Import list sorting relations.
#[local] Open Scope list_scope.
#[local] Open Scope Z_scope.

Record gate_world := mk_world {
  gw_st : SremfbEvdiState; gw_hist : list event; gw_now : Z; gw_wait : Z; gw_open : bool }.

(** What remains of the history once the code has looked at it. *)
Definition forget (w : gate_world) (shell : Z) : list event :=
  if shell =? es_plug_shell (gw_st w) then gw_hist w else [].

Inductive gate_step : gate_world → gate_world → Prop :=
  (** evdi_source_admit(), the gate in front of the self-heal, plug_prune() *)
  | gs_admit w shell t : gw_now w ≤ t →
      gate_step w (mk_world (evdi_source_admit (gw_st w) shell t).2 (forget w shell) t (gw_wait w)
        (gw_open w))
  (** evdi_source_acquire() finds the gate open (or looks again) *)
  | gs_gate w shell t : gw_now w ≤ t →
      let '(s, g) := plug_gate (gw_st w) shell t in
      gate_step w (mk_world s (forget w shell) t (gw_wait w)
        ((pg_verdict g =? GATE_OPEN) || gw_open w))
  (** then plugs a connector *)
  | gs_plug w shell t : gw_now w ≤ t → gw_open w = true → gw_wait w < SREMFB_MAX_CLIENTS →
      gate_step w (mk_world (plug_record (gw_st w) shell t SREMFB_PLUG_EV_PLUG)
        (forget w shell ++ [mk_plug t SREMFB_PLUG_EV_PLUG]) t (gw_wait w + 1) false)
  (** a plugged connector lights up, times out, or its client leaves *)
  | gs_end w shell t kind : gw_now w ≤ t → 0 < gw_wait w →
      kind = SREMFB_PLUG_EV_LIT ∨ kind = SREMFB_PLUG_EV_FAIL →
      gate_step w (mk_world (plug_record (gw_st w) shell t kind)
        (forget w shell ++ [mk_plug t kind]) t (gw_wait w - 1) (gw_open w))
  | gs_gone w : 0 < gw_wait w →
      gate_step w (mk_world (gw_st w) (gw_hist w) (gw_now w) (gw_wait w - 1) (gw_open w)).

(** The plugs of the hour that ends at [t]. *)
Definition plugs_in_hour (t : Z) (hist : list event) : list event :=
  filter (λ e, pe_kind e = SREMFB_PLUG_EV_PLUG ∧ t - PLUG_WINDOW_US < pe_t e ≤ t) hist.

Definition count_plugs (l : list event) : Z :=
  Z.of_nat (length (filter (λ e, pe_kind e = SREMFB_PLUG_EV_PLUG) l)).

Record gate_inv (w : gate_world) : Prop := {
  gi_now : 0 ≤ gw_now w;
  gi_chron : chron (es_plug_events (gw_st w));
  gi_past : Forall (λ e, pe_t e ≤ gw_now w) (es_plug_events (gw_st w));
  gi_len : Z.of_nat (length (es_plug_events (gw_st w))) ≤ PLUG_EVENTS_MAX + 1;
  gi_hchron : chron (gw_hist w);
  gi_hpast : Forall (λ e, pe_t e ≤ gw_now w) (gw_hist w);
  gi_same : recent (gw_now w) (es_plug_events (gw_st w)) = recent (gw_now w) (gw_hist w);
  gi_wait : 0 ≤ gw_wait w ≤ SREMFB_MAX_CLIENTS;
  (** every event that is not a plug ends one *)
  gi_balance l1 l2 : gw_hist w = l1 ++ l2 →
    Z.of_nat (length l2) + gw_wait w ≤ 2 * count_plugs l2 + SREMFB_MAX_CLIENTS;
  gi_rate t : t ≤ gw_now w → Z.of_nat (length (plugs_in_hour t (gw_hist w))) ≤ PLUGS_PER_HOUR;
  gi_open : gw_open w = true →
    Z.of_nat (length (live SREMFB_PLUG_EV_PLUG (gw_now w) (gw_hist w))) < PLUGS_PER_HOUR }.
#[local] Opaque PLUG_WINDOW_US.

(** ** The clock advances *)
Lemma recent_later t t' ev : t ≤ t' → recent t' (recent t ev) = recent t' ev.
Proof.
  intros Ht. unfold recent. rewrite list_filter_filter. apply list_filter_iff. intros e. lia.
Qed.

Lemma live_hour t hist :
  Forall (λ e, pe_t e ≤ t) hist → plugs_in_hour t hist = live SREMFB_PLUG_EV_PLUG t hist.
Proof.
  intros Hf. unfold plugs_in_hour, live. induction Hf as [|e l He _ IH]; [done|].
  rewrite !filter_cons, IH. repeat case_decide; try done; lia.
Qed.

Lemma live_later k t t' ev : t ≤ t' → (length (live k t' ev) ≤ length (live k t ev))%nat.
Proof.
  intros Ht. assert (E : live k t' ev = recent t' (live k t ev)).
  { unfold live, recent. rewrite list_filter_filter. apply list_filter_iff. intros e. lia. }
  rewrite E. apply length_filter.
Qed.

Lemma rate_later hist now t :
  Forall (λ e, pe_t e ≤ now) hist →
  (∀ t, t ≤ now → Z.of_nat (length (plugs_in_hour t hist)) ≤ PLUGS_PER_HOUR) →
  Z.of_nat (length (plugs_in_hour t hist)) ≤ PLUGS_PER_HOUR.
Proof.
  intros Hf Hr. destruct (decide (t ≤ now)); [by apply Hr|]. specialize (Hr now ltac:(lia)).
  rewrite (live_hour now) in Hr by done. rewrite live_hour.
  2:{ eapply Forall_impl; [exact Hf|]. cbn. lia. }
  pose proof (live_later SREMFB_PLUG_EV_PLUG now t hist). lia.
Qed.

(** ** The last hour fits in the array *)
Lemma chron_recent_suffix t ev : chron ev → ∃ l, ev = l ++ recent t ev.
Proof.
  unfold chron, recent. induction 1 as [|e ev Hs [l IH] Hf]; [by exists []|]. rewrite filter_cons.
  case_decide as Hd.
  - exists []. cbn. f_equal. rewrite filter_all; [done|]. eapply Forall_impl; [exact Hf|].
    cbn. intros; lia.
  - exists (e :: l). cbn. by f_equal.
Qed.

Lemma recent_fits w t :
  gate_inv w → gw_now w ≤ t → Z.of_nat (length (recent t (gw_hist w))) ≤ PLUG_EVENTS_MAX.
Proof.
  intros Hi Ht. destruct (chron_recent_suffix t (gw_hist w) (gi_hchron _ Hi)) as [l Hl].
  pose proof (gi_balance _ Hi _ _ Hl) as Hb. pose proof (gi_wait _ Hi).
  unfold count_plugs in Hb. rewrite <- live_recent in Hb.
  pose proof (live_later SREMFB_PLUG_EV_PLUG (gw_now w) t (gw_hist w) Ht).
  pose proof (gi_rate _ Hi (gw_now w) ltac:(lia)) as Hr. rewrite live_hour in Hr by apply Hi.
  unfold PLUGS_PER_HOUR, SREMFB_MAX_CLIENTS, PLUG_EVENTS_MAX in *. lia.
Qed.

(** ** Looking *)
Definition looked (w : gate_world) (shell t : Z) : gate_world :=
  mk_world (plug_prune (gw_st w) shell t) (forget w shell) t (gw_wait w) (gw_open w).

Lemma forget_suffix w shell : ∃ l, gw_hist w = l ++ forget w shell.
Proof.
  unfold forget. case_match; [by exists []|]. exists (gw_hist w). by rewrite app_nil_r.
Qed.

Lemma prune_same w shell t :
  gate_inv w → gw_now w ≤ t →
  recent t (es_plug_events (plug_prune (gw_st w) shell t)) = recent t (forget w shell).
Proof.
  intros Hi Ht. unfold plug_prune, forget. destruct (shell =? _); [|done].
  change (recent t (prune_events t (es_plug_events (gw_st w))) = recent t (gw_hist w)).
  assert (E : recent t (es_plug_events (gw_st w)) = recent t (gw_hist w)).
  { rewrite <- (recent_later (gw_now w) t), (gi_same _ Hi), recent_later by lia. done. }
  rewrite prune_recent; [done|apply Hi|done|]. rewrite E. by apply recent_fits.
Qed.

Lemma prune_events_fields w shell t :
  gate_inv w → gw_now w ≤ t →
  let ev := es_plug_events (plug_prune (gw_st w) shell t) in
  chron ev ∧ Forall (λ e, pe_t e ≤ t) ev ∧ Z.of_nat (length ev) ≤ PLUG_EVENTS_MAX.
Proof.
  intros Hi Ht. cbv zeta. unfold plug_prune. destruct (negb _); [by split_and!; [constructor..|]|].
  change (es_plug_events (gw_st w)⟨es_plug_events ::= prune_events t⟩)
    with (prune_events t (es_plug_events (gw_st w))).
  split_and!; [|apply Forall_forall; intros e He|apply prune_length].
  - eapply sublist_chron; [apply prune_sub|apply Hi].
  - pose proof (gi_past _ Hi) as Hp. rewrite Forall_forall in Hp.
    specialize (Hp e (elem_of_sublist _ _ _ He (prune_sub t _))). cbn in Hp. lia.
Qed.

Lemma suffix_live k t l1 l2 : (length (live k t l2) ≤ length (live k t (l1 ++ l2)))%nat.
Proof. unfold live. rewrite filter_app, length_app. lia. Qed.

Lemma looked_inv w shell t : gate_inv w → gw_now w ≤ t → gate_inv (looked w shell t).
Proof.
  intros Hi Ht. destruct (prune_events_fields w shell t Hi Ht) as (P1&P2&P3).
  destruct (forget_suffix w shell) as [l0 Hl]. pose proof Hi as [Hn _ _ _ Hc Hp _ Hw Hb Hr Ho].
  rewrite Hl in Hc, Hp, Hb, Hr, Ho. unfold chron in Hc. apply StronglySorted_app in Hc as (_&_&Hc).
  apply Forall_app in Hp as [Hp0 Hp].
  constructor; cbn [gw_st gw_hist gw_now gw_wait gw_open looked]; try done; try lia.
  - eapply Forall_impl; [exact Hp|]. cbn. lia.
  - by apply prune_same.
  - intros l1 l2 E. apply (Hb (l0 ++ l1)). by rewrite E, app_assoc.
  - intros t' _. assert (H1 : Z.of_nat (length (plugs_in_hour t' (l0 ++ forget w shell))) ≤ PLUGS_PER_HOUR)
      by (apply (rate_later _ (gw_now w)); [by apply Forall_app|exact Hr]).
    unfold plugs_in_hour in *. rewrite filter_app, length_app in H1. lia.
  - intros E. specialize (Ho E).
    pose proof (live_later SREMFB_PLUG_EV_PLUG (gw_now w) t (forget w shell) Ht).
    pose proof (suffix_live SREMFB_PLUG_EV_PLUG (gw_now w) l0 (forget w shell)). lia.
Qed.

(** ** Recording *)
Lemma record_chron ev t kind : chron ev → Forall (λ e, pe_t e ≤ t) ev → chron (ev ++ [mk_plug t kind]).
Proof.
  intros Hc Hf. unfold chron. apply StronglySorted_app. split_and!; [|done|by repeat constructor].
  intros x y Hx ->%list_elem_of_singleton. rewrite Forall_forall in Hf. by apply Hf.
Qed.

Lemma suffix_snoc {A} (l l1 l2 : list A) x :
  l ++ [x] = l1 ++ l2 → (l2 = [] ∨ ∃ l3, l2 = l3 ++ [x] ∧ l = l1 ++ l3).
Proof.
  intros E. destruct l2 as [|y l2 _] using rev_ind; [by left|]. right. exists l2.
  rewrite app_assoc in E. by apply app_inj_tail in E as [-> ->].
Qed.

Lemma count_plugs_app l1 l2 : count_plugs (l1 ++ l2) = count_plugs l1 + count_plugs l2.
Proof. unfold count_plugs. rewrite filter_app, length_app. lia. Qed.

(** An event after a look; [d] is its effect on the connectors waiting. *)
Lemma record_inv w t kind d op :
  gate_inv w → gw_now w = t → Z.of_nat (length (es_plug_events (gw_st w))) ≤ PLUG_EVENTS_MAX →
  0 ≤ gw_wait w + d ≤ SREMFB_MAX_CLIENTS →
  (kind = SREMFB_PLUG_EV_PLUG ∧ gw_open w = true ∧ d = 1 ∧ op = false ∨
   kind ≠ SREMFB_PLUG_EV_PLUG ∧ d = -1 ∧ op = gw_open w) →
  gate_inv (mk_world (gw_st w)⟨es_plug_events ::= λ ev, ev ++ [mk_plug t kind]⟩
    (gw_hist w ++ [mk_plug t kind]) t (gw_wait w + d) op).
Proof.
  intros [Hn Hc Hp Hl Hhc Hhp Hs Hw Hb Hr Ho] <- Hlen Hd Hk. pose proof window_pos.
  assert (Hsnoc : Forall (λ e, pe_t e ≤ gw_now w) [mk_plug (gw_now w) kind])
    by (repeat constructor; cbn; lia).
  constructor; cbn [gw_st gw_hist gw_now gw_wait gw_open]; try done.
  - by apply record_chron.
  - by apply Forall_app.
  - cbn. rewrite length_app. cbn. lia.
  - by apply record_chron.
  - by apply Forall_app.
  - cbn. unfold recent in *. rewrite !filter_app. by rewrite Hs.
  - intros l1 l2 E. apply suffix_snoc in E as [->|(l3&->&E)];
      [change (length (@nil event)) with 0%nat; change (count_plugs []) with 0; lia|].
    specialize (Hb _ _ E). rewrite length_app, count_plugs_app.
    assert (Ek : count_plugs [mk_plug (gw_now w) kind] =
      if decide (kind = SREMFB_PLUG_EV_PLUG) then 1 else 0)
      by (unfold count_plugs; rewrite filter_cons; by case_decide; case_decide).
    rewrite Ek. change (length [mk_plug (gw_now w) kind]) with 1%nat.
    destruct Hk as [(->&_&->&_)|(Hk&->&_)];
      [rewrite decide_True by done|rewrite decide_False by done]; lia.
  - intros t' Ht'. specialize (Hr t' Ht'). unfold plugs_in_hour in *. rewrite filter_app, filter_cons.
    rewrite length_app. case_decide as Hin; cbn in *; [|lia]. destruct Hin as [-> Hin].
    assert (t' = gw_now w) as -> by lia. destruct Hk as [(_&Hop&_)|(Hk&_)]; [|done].
    specialize (Ho Hop). rewrite <- live_hour in Ho by done. unfold plugs_in_hour in Ho. lia.
  - intros ->. destruct Hk as [(_&_&_&?)|(Hk&_&Hop)]; [done|]. unfold live in *.
    rewrite filter_app, filter_cons, decide_False by (cbn; tauto). cbn. rewrite app_nil_r. by apply Ho.
Qed.

(** ** Every step *)
Lemma gate_inv_ext s s' hist now w op :
  es_plug_events s' = es_plug_events s →
  gate_inv (mk_world s hist now w op) → gate_inv (mk_world s' hist now w op).
Proof. intros E [? H1 H2 H3 ? ? H4 ? ? ? ?]. cbn in *. constructor; cbn; rewrite ?E; done. Qed.

Lemma gate_open_iff ev t :
  chron ev → Z.of_nat (length ev) ≤ PLUG_EVENTS_MAX → 0 ≤ t →
  pg_verdict (gate_of ev t) = GATE_OPEN ↔ gate_fine ev t.
Proof.
  intros Hc Hl Ht. unfold PLUG_EVENTS_MAX in *. rewrite (gate_exact ev t t) by (done || lia).
  destruct (gate_of_eq ev t Ht) as [_ [[Hv Hm]|(Hv&_&Hm)]]; [tauto|].
  split; [done|]. intros. lia.
Qed.

Lemma looked_live w k shell t :
  gate_inv w → gw_now w ≤ t →
  live k t (es_plug_events (plug_prune (gw_st w) shell t)) = live k t (forget w shell).
Proof. intros Hi Ht. by rewrite !live_recent, prune_same. Qed.

Lemma gate_step_inv w w' : gate_step w w' → gate_inv w → gate_inv w'.
Proof.
  intros Hst Hi. destruct Hst as [w shell t Ht|w shell t Ht|w shell t Ht Hop Hw|w shell t kind Ht Hw Hk|w Hw].
  - pose proof (looked_inv w shell t Hi Ht) as Hl. eapply gate_inv_ext; [|exact Hl].
    unfold evdi_source_admit, plug_gate. set (s := plug_prune _ _ _). clearbody s. cbn [snd].
    by destruct (negb _).
  - destruct (plug_gate (gw_st w) shell t) as [s g] eqn:Eg. unfold plug_gate in Eg.
    injection Eg as <- <-. pose proof (looked_inv w shell t Hi Ht) as Hl. pose proof (gi_now _ Hi).
    destruct (prune_events_fields w shell t Hi Ht) as (P1&_&P3).
    destruct Hl as [? ? ? ? ? ? ? ? ? ? Ho]. constructor; try done. cbn [gw_open gw_now gw_hist looked] in *.
    intros [Hv|Hv]%orb_true_iff; [|exact (Ho Hv)].
    apply Z.eqb_eq, gate_open_iff in Hv as (_&_&Hv); [|done|done|lia].
    by rewrite looked_live in Hv.
  - pose proof (looked_inv w shell t Hi Ht) as Hl. destruct (prune_events_fields w shell t Hi Ht) as (_&_&P3).
    pose proof (gi_wait _ Hi).
    apply (record_inv (looked w shell t) t SREMFB_PLUG_EV_PLUG 1 false Hl eq_refl P3); [cbn; lia|].
    by left.
  - pose proof (looked_inv w shell t Hi Ht) as Hl. destruct (prune_events_fields w shell t Hi Ht) as (_&_&P3).
    pose proof (gi_wait _ Hi).
    apply (record_inv (looked w shell t) t kind (-1) (gw_open w) Hl eq_refl P3); [cbn; lia|].
    right. split_and!; [by destruct Hk as [->| ->]|done|done].
  - destruct Hi as [? ? ? ? ? ? ? ? Hb ? ?]. constructor; try done; [cbn; lia|].
    intros l1 l2 E. specialize (Hb l1 l2 E). cbn in *. lia.
Qed.

(** The server starts with an empty history. *)
Definition gate_start (w : gate_world) : Prop :=
  es_plug_events (gw_st w) = [] ∧ gw_hist w = [] ∧ 0 ≤ gw_now w ∧ gw_wait w = 0 ∧ gw_open w = false.

Lemma gate_start_inv w : gate_start w → gate_inv w.
Proof.
  intros (E1&E2&E3&E4&E5). constructor; rewrite ?E1, ?E2, ?E4, ?E5; try done; try constructor.
  - intros l1 l2 E. symmetry in E. apply app_nil in E as [_ ->]. done.
Qed.

Lemma gate_reach w0 w : gate_start w0 → rtc gate_step w0 w → gate_inv w.
Proof.
  intros Hs Hr. apply gate_start_inv in Hs. induction Hr as [w|w w1 w' Hst _ IH]; [done|].
  apply IH. by eapply gate_step_inv.
Qed.

Lemma fail_last ev t : 0 ≤ t → Forall (λ e, pe_t e ≤ t) ev → (fail_run ev).2 ≤ t.
Proof.
  intros Ht. unfold fail_run. induction ev as [|e ev IH] using rev_ind; intros Hf; [done|].
  apply Forall_app in Hf as [Hf [He _]%Forall_cons]. rewrite foldl_app. cbn [foldl].
  specialize (IH Hf). destruct (foldl fail_step (0, 0) ev) as [r a]. unfold fail_step.
  by repeat case_match.
Qed.

Lemma backoff_max run : backoff_us run ≤ BACKOFF_MAX_S * G_USEC_PER_SEC.
Proof. unfold backoff_us. cbv zeta. unfold G_USEC_PER_SEC. lia. Qed.

Lemma backoff_end_le ev t :
  0 ≤ t → Forall (λ e, pe_t e ≤ t) ev → backoff_end ev ≤ t + BACKOFF_MAX_S * G_USEC_PER_SEC.
Proof.
  intros Ht Hf. unfold backoff_end. pose proof (fail_last ev t Ht Hf) as H.
  destruct (fail_run ev) as [run last]. pose proof (backoff_max run). cbn in H.
  assert (0 ≤ BACKOFF_MAX_S * G_USEC_PER_SEC) by done. case_match; lia.
Qed.

(** (C24) The night of the leaked buffers cannot come back: however the
    clients, the compositor and the clock behave, no hour sees more than 60
    hotplugs of a compositor. *)
Theorem plug_rate_limited w0 w t :
  gate_start w0 → rtc gate_step w0 w →
  Z.of_nat (length (plugs_in_hour t (gw_hist w))) ≤ PLUGS_PER_HOUR.
Proof.
  intros Hs Hr. pose proof (gate_reach w0 w Hs Hr) as Hi. apply (rate_later _ (gw_now w)); apply Hi.
Qed.

(** (C25) The gate is exact and never closes for good: it is open when the
    backoff of the failure run is over and both hourly caps hold; when it is
    closed, the time it announces is at most an hour ahead, and without
    further events it is the first time at which the gate is open. *)
Theorem plug_gate_reopens w0 w shell t :
  gate_start w0 → rtc gate_step w0 w → gw_now w ≤ t →
  let '(s, g) := plug_gate (gw_st w) shell t in
  (pg_verdict g = GATE_OPEN ↔ gate_fine (es_plug_events s) t) ∧
  (pg_verdict g ≠ GATE_OPEN →
     t < pg_until g ≤ t + PLUG_WINDOW_US ∧
     ∀ t', t ≤ t' → (pg_verdict (plug_gate s shell t').2 = GATE_OPEN ↔ pg_until g ≤ t')).
Proof.
  intros Hs Hr Ht. pose proof (gate_reach w0 w Hs Hr) as Hi. pose proof (gi_now _ Hi).
  destruct (prune_events_fields w shell t Hi Ht) as (P1&P2&P3).
  unfold plug_gate at 1. set (s := plug_prune (gw_st w) shell t) in *.
  assert (Esh : es_plug_shell s = shell).
  { subst s. unfold plug_prune. destruct (shell =? _) eqn:E; cbn; [lia|done]. }
  clearbody s. set (ev := es_plug_events s) in *. split; [by apply gate_open_iff; [| |lia]|].
  intros Hv. unfold PLUG_EVENTS_MAX in P3. destruct (gate_of_eq ev t ltac:(lia)) as [_ [[Hv' _]|(_&Hu&Hm)]]; [done|].
  rewrite Hu. split.
  - pose proof (backoff_end_le ev t ltac:(lia) P2) as B1.
    pose proof (window_free_range ev SREMFB_PLUG_EV_FAIL t FAILS_PER_HOUR P2 ltac:(lia) ltac:(done) ltac:(lia)).
    pose proof (window_free_range ev SREMFB_PLUG_EV_PLUG t PLUGS_PER_HOUR P2 ltac:(lia) ltac:(done) ltac:(lia)).
    assert (BACKOFF_MAX_S * G_USEC_PER_SEC ≤ PLUG_WINDOW_US) by done. lia.
  - intros t' Ht'. unfold plug_gate. cbn [snd].
    assert (E : es_plug_events (plug_prune s shell t') = prune_events t' ev).
    { unfold plug_prune. rewrite Esh, Z.eqb_refl. done. }
    rewrite E. rewrite gate_open_iff.
    + rewrite prune_fine by (done || lia). apply gate_exact; [done|lia|lia].
    + eapply sublist_chron; [apply prune_sub|done].
    + apply prune_length.
    + lia.
Qed.

(** ** A compositor that never lights up: nine plugs, nine mode timeouts *)
Definition sample_evs : SremfbEvdiState := mk_evs [] false [] 4242 GATE_OPEN.
Definition sample_w0 : gate_world := mk_world sample_evs [] 1000 0 false.

Definition sample_gate (t : Z) (w : gate_world) : gate_world :=
  mk_world (plug_gate (gw_st w) 4242 t).1 (forget w 4242) t (gw_wait w)
    ((pg_verdict (plug_gate (gw_st w) 4242 t).2 =? GATE_OPEN) || gw_open w).
Definition sample_plug (t : Z) (w : gate_world) : gate_world :=
  mk_world (plug_record (gw_st w) 4242 t SREMFB_PLUG_EV_PLUG)
    (forget w 4242 ++ [mk_plug t SREMFB_PLUG_EV_PLUG]) t (gw_wait w + 1) false.
Definition sample_fail (t : Z) (w : gate_world) : gate_world :=
  mk_world (plug_record (gw_st w) 4242 t SREMFB_PLUG_EV_FAIL)
    (forget w 4242 ++ [mk_plug t SREMFB_PLUG_EV_FAIL]) t (gw_wait w - 1) (gw_open w).
(** A plug every 16 seconds, dark for 10. *)
Definition sample_cycle (w : gate_world) : gate_world :=
  sample_fail (gw_now w + 16000000)
    (sample_plug (gw_now w + 6000000) (sample_gate (gw_now w + 6000000) w)).
Definition sample_w9 : gate_world := Nat.iter 9 sample_cycle sample_w0.

Lemma sample_cycle_step w :
  gw_open (sample_gate (gw_now w + 6000000) w) = true → gw_wait w = 0 →
  rtc gate_step w (sample_cycle w).
Proof.
  intros Ho Hw. eapply rtc_l; [exact (gs_gate w 4242 (gw_now w + 6000000) ltac:(lia))|].
  eapply rtc_l; [apply (gs_plug (sample_gate (gw_now w + 6000000) w) 4242 (gw_now w + 6000000))|].
  - cbn. lia.
  - exact Ho.
  - change (gw_wait w < SREMFB_MAX_CLIENTS). unfold SREMFB_MAX_CLIENTS. lia.
  - apply rtc_once. apply (gs_end (sample_plug _ _) 4242 (gw_now w + 16000000) SREMFB_PLUG_EV_FAIL).
    + cbn. lia.
    + change (0 < gw_wait w + 1). lia.
    + by right.
Qed.

Lemma sample_w9_reach : rtc gate_step sample_w0 sample_w9.
Proof.
  unfold sample_w9.
  assert (H : ∀ n, (n < 9)%nat → gw_wait (Nat.iter n sample_cycle sample_w0) = 0 ∧
    gw_open (sample_gate (gw_now (Nat.iter n sample_cycle sample_w0) + 6000000)
      (Nat.iter n sample_cycle sample_w0)) = true).
  { intros n Hn. do 9 (destruct n as [|n]; [split; vm_compute; reflexivity|]). lia. }
  assert (Hn : ∀ n, (n ≤ 9)%nat → rtc gate_step sample_w0 (Nat.iter n sample_cycle sample_w0)).
  { induction n as [|n IH]; intros Hn; [apply rtc_refl|]. etrans; [apply IH; lia|].
    destruct (H n ltac:(lia)) as [H1 H2]. exact (sample_cycle_step _ H2 H1). }
  exact (Hn 9%nat ltac:(lia)).
Qed.

Lemma sample_w0_start : gate_start sample_w0.
Proof. by split_and!. Qed.

Lemma plug_rate_limited_witness :
  length (plugs_in_hour 144001000 (gw_hist sample_w9)) = 9%nat ∧
  Z.of_nat (length (plugs_in_hour 144001000 (gw_hist sample_w9))) ≤ PLUGS_PER_HOUR.
Proof.
  split; [vm_compute; reflexivity|].
  exact (plug_rate_limited sample_w0 sample_w9 144001000 sample_w0_start sample_w9_reach).
Defined.

(** The tenth attempt, five seconds later, waits for 55 more. *)
Lemma plug_gate_reopens_witness :
  let '(s, g) := plug_gate (gw_st sample_w9) 4242 149001000 in
  pg_verdict g = GATE_BACKOFF ∧ pg_until g = 204001000 ∧
  ∀ t', 149001000 ≤ t' →
    (pg_verdict (plug_gate s 4242 t').2 = GATE_OPEN ↔ pg_until g ≤ t').
Proof.
  assert (Hn : gw_now sample_w9 ≤ 149001000) by (vm_compute; congruence).
  pose proof (plug_gate_reopens sample_w0 sample_w9 4242 149001000 sample_w0_start
    sample_w9_reach Hn) as H.
  assert (E1 : pg_verdict (plug_gate (gw_st sample_w9) 4242 149001000).2 = GATE_BACKOFF)
    by (vm_compute; reflexivity).
  assert (E2 : pg_until (plug_gate (gw_st sample_w9) 4242 149001000).2 = 204001000)
    by (vm_compute; reflexivity).
  destruct (plug_gate (gw_st sample_w9) 4242 149001000) as [s g]. cbn [snd] in E1, E2.
  destruct H as [_ H]. destruct H as [_ H]; [rewrite E1; discriminate|].
  split; [exact E1|]. split; [exact E2|exact H].
Defined.
