(* ===== verification/EvdiCursor.v ===== *)
(** * evdi/evdi.c: the cursor

    The client's EVDI state and the cursor blended into its grab buffer:
    what it covers is saved in [ec_cur_under] (bytes, as the buffers it is
    copied from and to) and put back by cursor_lift().  Functions take and
    return the core's client and the backend's part of it. *)
From S2P Require Import Prelude Binary64 Protocol Core Convert Encoder Net Xmit Control Drain.
From S2P Require Import EvdiGate.
From stdpp Require Import list.
#[local] Open Scope list_scope.
#[local] Open Scope Z_scope.

(** SremfbEvdiClient; [ec_dev] is the place of the device in the array. *)
Record SremfbEvdiClient := mk_evc {
  ec_dev : option nat; ec_plugged : bool; ec_edid : bytes; ec_mode_valid : bool;
  ec_grab_registered : bool; ec_update_pending : bool; ec_kick_id : Z;
  ec_mode_timeout_id : Z; ec_ps_seen : Z; ec_usb_early : bool;
  ec_cur_on : bool; ec_cur_x : Z; ec_cur_y : Z; ec_cur_w : Z; ec_cur_h : Z;
  ec_cur_stride : Z; ec_cur_pix : option bytes; ec_cur_drawn : bool;
  ec_cur_rect : sremfb_rect; ec_cur_under : bytes; ec_cur_under_size : Z }.
#[export] Instance eta_evc : Eta SremfbEvdiClient := λ e,
  mk_evc (ec_dev e) (ec_plugged e) (ec_edid e) (ec_mode_valid e) (ec_grab_registered e)
    (ec_update_pending e) (ec_kick_id e) (ec_mode_timeout_id e) (ec_ps_seen e)
    (ec_usb_early e) (ec_cur_on e) (ec_cur_x e) (ec_cur_y e) (ec_cur_w e) (ec_cur_h e)
    (ec_cur_stride e) (ec_cur_pix e) (ec_cur_drawn e) (ec_cur_rect e) (ec_cur_under e)
    (ec_cur_under_size e).

(** Pixel [i] of a buffer of uint32_t. *)
Definition px32 (b : bytes) (i : Z) : Z := of_le (slice (4 * i) 4 b).

Definition over8 (s d ia : Z) : Z :=
  let t := u32 (d * ia + 128) in
  let t := u32 (s + Z.shiftr (u32 (t + Z.shiftr t 8)) 8) in
  if 255 <? t then 255 else t.

(** One pixel [s] of the cursor over [d]. *)
Definition over_px (s d : Z) : Z :=
  let a := Z.shiftr s 24 in
  if a =? 0 then d
  else if a =? 255 then Z.land s 0x00ffffff
  else
    let ia := 255 - a in
    Z.lor (Z.lor (over8 (Z.land s 0xff) (Z.land d 0xff) ia)
      (Z.shiftl (over8 (Z.land (Z.shiftr s 8) 0xff) (Z.land (Z.shiftr d 8) 0xff) ia) 8))
      (Z.shiftl (over8 (Z.land (Z.shiftr s 16) 0xff) (Z.land (Z.shiftr d 16) 0xff) ia) 16).

Section cursor.
Context `{X264} `{Platform}.
Implicit Types (c : SremfbClient) (e : SremfbEvdiClient).

Definition cursor_rect c e : option sremfb_rect :=
  if negb (ec_cur_on e) || negb (bool_decide (is_Some (c_grabbuf c))) || negb (ec_mode_valid e)
  then None
  else
    let r := mk_rect (Z.max (ec_cur_x e) 0) (Z.max (ec_cur_y e) 0)
               (Z.min (ec_cur_x e + ec_cur_w e) (g_width (c_geom c)))
               (Z.min (ec_cur_y e + ec_cur_h e) (g_height (c_geom c))) in
    if (x1 r <? x2 r) && (y1 r <? y2 r) then Some r else None.

Definition lift_rows (W : Z) (r : sremfb_rect) (under gb : bytes) : bytes :=
  let w := x2 r - x1 r in
  for_ (y1 r) (y2 r - y1 r) (λ y gb,
    blit gb ((y * W + x1 r) * 4) (slice ((y - y1 r) * w * 4) (w * 4) under)) gb.

Definition cursor_lift c e : option sremfb_rect * SremfbClient * SremfbEvdiClient :=
  let r := ec_cur_rect e in
  if negb (ec_cur_drawn e) then (None, c, e)
  else
    let e := e⟨ec_cur_drawn := false⟩ in
    match c_grabbuf c with
    | None => (None, c, e)
    | Some gb =>
      (Some r, c⟨c_grabbuf := Some (lift_rows (g_width (c_geom c)) r (ec_cur_under e) gb)⟩, e)
    end.

(** The [w] pixels of a row under the cursor, the first one at pixel [i] of
    the cursor's image. *)
Definition blend_row (pix : bytes) (i w : Z) (row : bytes) : bytes :=
  rows 0 w (λ x, Prelude.le 4 (over_px (px32 pix (i + x)) (px32 row x))).

(** The rows blended in the frame and saved in [under]. *)
Definition draw_rows (W : Z) (e : SremfbEvdiClient) (pix : bytes) (r : sremfb_rect)
    (gb under : bytes) : bytes * bytes :=
  let w := x2 r - x1 r in
  for_ (y1 r) (y2 r - y1 r) (λ y s,
    let '(gb, under) := s in
    let off := (y * W + x1 r) * 4 in
    let row := slice off (w * 4) gb in
    let src := (y - ec_cur_y e) * ec_cur_stride e + (x1 r - ec_cur_x e) in
    (blit gb off (blend_row pix src w row), blit under ((y - y1 r) * w * 4) row))
    (gb, under).

(** A new array for the covered pixels holds what malloc() left there; the
    rows saved fill the part that is used. *)
Definition under_grow e (need : Z) : SremfbEvdiClient :=
  if ec_cur_under_size e <? need
  then e⟨ec_cur_under := replicate (Z.to_nat (need * 4)) 0⟩⟨ec_cur_under_size := need⟩
  else e.

Definition cursor_draw c e : option sremfb_rect * SremfbClient * SremfbEvdiClient :=
  if ec_cur_drawn e then (None, c, e)
  else
    match cursor_rect c e, c_grabbuf c, ec_cur_pix e with
    | Some r, Some gb, Some pix =>
      let e := under_grow e ((x2 r - x1 r) * (y2 r - y1 r)) in
      let '(gb, under) := draw_rows (g_width (c_geom c)) e pix r gb (ec_cur_under e) in
      (Some r, c⟨c_grabbuf := Some gb⟩,
       e⟨ec_cur_under := under⟩⟨ec_cur_rect := r⟩⟨ec_cur_drawn := true⟩)
    | _, _, _ => (None, c, e)
    end.

Definition cursor_reset e : SremfbEvdiClient :=
  e⟨ec_cur_pix := None⟩⟨ec_cur_on := false⟩⟨ec_cur_drawn := false⟩⟨ec_cur_under := []⟩
    ⟨ec_cur_under_size := 0⟩.

(** [old] is what cursor_lift() returned before the change. *)
Definition cursor_repaint c e (old : option sremfb_rect) : SremfbClient * SremfbEvdiClient :=
  let '(new, c, e) := cursor_draw c e in
  let rects := (match old with Some r => [r] | None => [] end) ++
               (match new with Some r => [r] | None => [] end) in
  if bool_decide (rects = []) || negb (ec_grab_registered e) || (c_fd c <? 0) ||
     negb (bool_decide (c_state c = STREAMING)) || negb (c_lost_id c =? 0)
  then (c, e)
  else (sremfb_xmit_damage c rects (client_bytespp c), e).

(** struct evdi_cursor_set, the fields used; the buffer and its length *)
Record evdi_cursor_set := mk_cursor_set {
  cs_enabled : bool; cs_width : Z; cs_height : Z; cs_stride : Z;
  cs_buffer : option bytes; cs_buffer_length : Z }.

Definition on_cursor_set c e (cs : evdi_cursor_set) : SremfbClient * SremfbEvdiClient :=
  let '(old, c, e) := cursor_lift c e in
  let e := e⟨ec_cur_pix := None⟩⟨ec_cur_on := false⟩ in
  let e :=
    if cs_enabled cs && bool_decide (is_Some (cs_buffer cs)) &&
       (0 <? cs_width cs) && (0 <? cs_height cs) && (cs_width cs <=? 512) &&
       (cs_height cs <=? 512) && (u32 (cs_width cs * 4) <=? cs_stride cs) &&
       (cs_stride cs mod 4 =? 0) && (u64 (cs_stride cs * cs_height cs) <=? cs_buffer_length cs)
    then e⟨ec_cur_pix := cs_buffer cs⟩⟨ec_cur_w := s32 (cs_width cs)⟩
          ⟨ec_cur_h := s32 (cs_height cs)⟩⟨ec_cur_stride := cs_stride cs / 4⟩⟨ec_cur_on := true⟩
    else e in
  cursor_repaint c e old.

Definition on_cursor_move c e (x y : Z) : SremfbClient * SremfbEvdiClient :=
  let '(old, c, e) := cursor_lift c e in
  cursor_repaint c e⟨ec_cur_x := x⟩⟨ec_cur_y := y⟩ old.
End cursor.
