(* ===== verification/EvdiBlend.v ===== *)
(** * The cursor is blended exactly and lifted without a trace (evdi/evdi.c)

    What cursor_draw() and cursor_lift() do to every byte of the frame, and
    which bytes can change when the desktop, the cursor's image or its place
    does. *)
From S2P Require Import Prelude Binary64 Protocol Core Convert Encoder Net Xmit Control Drain.
From S2P Require Import Dirty ViewH264 ViewNet Blit EvdiGate EvdiCursor.
From stdpp Require Import list.
#[local] Open Scope list_scope.
#[local] Open Scope Z_scope.

(** ** The blend of one channel *)
Lemma div255 p :
  0 ≤ p < 65026 → Z.shiftr (p + 128 + Z.shiftr (p + 128) 8) 8 = (2 * p + 255) / 510.
Proof.
  intros Hp. rewrite !Z.shiftr_div_pow2 by lia. change (2 ^ 8) with 256.
  apply (Z.div_unique_pos _ _ _ (2 * p + 255 - 510 * ((p + 128 + (p + 128) / 256) / 256))); dlia.
Qed.

(** [s] over [d] is exactly [s + d * ia / 255], rounded to nearest, and
    saturated. *)
Lemma over8_exact s d ia :
  0 ≤ s ≤ 255 → 0 ≤ d ≤ 255 → 0 ≤ ia ≤ 255 →
  over8 s d ia = Z.min 255 (s + (2 * (d * ia) + 255) / 510).
Proof.
  intros Hs Hd Hi. unfold over8. cbv zeta.
  assert (Hp : 0 ≤ d * ia < 65026) by nia. set (p := d * ia) in *.
  pose proof (div255 p Hp) as E.
  assert (B : 0 ≤ (2 * p + 255) / 510 < 256) by dlia.
  rewrite (u32_small (p + 128)) by lia.
  rewrite (u32_small (p + 128 + _)).
  2:{ rewrite Z.shiftr_div_pow2 by lia. dlia. }
  rewrite E, u32_small by lia. case_match; lia.
Qed.

(** Premultiplied source [s] of alpha [a] over [d], rounded to nearest. *)
Definition blend_channel (s a d : Z) : Z :=
  if a =? 0 then d else if a =? 255 then s
  else Z.min 255 (s + (2 * (d * (255 - a)) + 255) / 510).

Lemma lor_disjoint b h k : 0 ≤ k → 0 ≤ b < 2 ^ k → Z.lor b (Z.shiftl h k) = b + h * 2 ^ k.
Proof.
  intros Hk Hb. rewrite <- Z.shiftl_mul_pow2 by done.
  assert (E : Z.land b (Z.shiftl h k) = 0).
  { apply Z.bits_inj'. intros i Hi. rewrite Z.land_spec, Z.shiftl_spec, Z.bits_0 by done.
    destruct (decide (i < k)).
    - rewrite (Z.testbit_neg_r h) by lia. apply andb_false_r.
    - replace b with (b mod 2 ^ k) by (by apply Z.mod_small). by rewrite Z.mod_pow2_bits_high by lia. }
  pose proof (Z.add_lor_land b (Z.shiftl h k)). lia.
Qed.

Lemma bytes4 b0 b1 b2 b3 :
  is_byte b0 → is_byte b1 → is_byte b2 → is_byte b3 →
  let p := of_le [b0; b1; b2; b3] in
  Z.land p 255 = b0 ∧ Z.land (Z.shiftr p 8) 255 = b1 ∧ Z.land (Z.shiftr p 16) 255 = b2 ∧
  Z.shiftr p 24 = b3 ∧ Z.land p 16777215 = of_le [b0; b1; b2; 0].
Proof.
  unfold is_byte. intros H0 H1 H2 H3. cbv zeta. cbn [of_le].
  change 255 with (Z.ones 8). change 16777215 with (Z.ones 24).
  rewrite !Z.land_ones, !Z.shiftr_div_pow2 by lia.
  change (2 ^ 8) with 256. change (2 ^ 16) with 65536. change (2 ^ 24) with 16777216.
  split_and!; dlia.
Qed.

Lemma over8_blend s a d :
  is_byte s → is_byte a → is_byte d → a ≠ 0 → a ≠ 255 →
  over8 s d (255 - a) = blend_channel s a d ∧ is_byte (blend_channel s a d).
Proof.
  unfold is_byte. intros Hs Ha Hd H0 H1. rewrite over8_exact by lia. unfold blend_channel.
  rewrite (proj2 (Z.eqb_neq a 0)), (proj2 (Z.eqb_neq a 255)) by done. split; [done|].
  assert (0 ≤ d * (255 - a)) by nia. dlia.
Qed.

Lemma over_px_channels s0 s1 s2 a d0 d1 d2 d3 :
  bytes_ok [s0; s1; s2; a] → bytes_ok [d0; d1; d2; d3] →
  over_px (of_le [s0; s1; s2; a]) (of_le [d0; d1; d2; d3]) =
  of_le [blend_channel s0 a d0; blend_channel s1 a d1; blend_channel s2 a d2; if a =? 0 then d3 else 0].
Proof.
  intros Hs Hd. rewrite !Forall_cons in Hs, Hd.
  destruct Hs as (S0&S1&S2&S3&_), Hd as (D0&D1&D2&D3&_).
  destruct (bytes4 s0 s1 s2 a S0 S1 S2 S3) as (E0&E1&E2&E3&E4).
  destruct (bytes4 d0 d1 d2 d3 D0 D1 D2 D3) as (F0&F1&F2&_).
  unfold over_px. cbv zeta. rewrite E0, E1, E2, E3, E4, F0, F1, F2.
  destruct (Z.eqb_spec a 0) as [->|H0]; [done|].
  destruct (Z.eqb_spec a 255) as [->|H1]; [done|].
  destruct (over8_blend s0 a d0) as [-> B0]; [done..|]. destruct (over8_blend s1 a d1) as [-> B1]; [done..|].
  destruct (over8_blend s2 a d2) as [-> B2]; [done..|].
  unfold is_byte in *.
  rewrite (lor_disjoint _ _ 8) by (change (2 ^ 8) with 256; lia). change (2 ^ 8) with 256.
  rewrite (lor_disjoint _ _ 16) by (change (2 ^ 16) with 65536; lia). change (2 ^ 16) with 65536.
  cbn [of_le]. lia.
Qed.

(** ** The rows *)
Section rows.
Variables (W H : Z).
Hypothesis HW : 0 < W.
#[local] Abbreviation S := (W * 4).

(** The rect lies in the frame. *)
Definition rect_inside (r : sremfb_rect) : Prop :=
  0 ≤ x1 r < x2 r ∧ x2 r ≤ W ∧ 0 ≤ y1 r < y2 r ∧ y2 r ≤ H.

Lemma in_block_rect r j :
  in_block S (x1 r * 4) (x1 r * 4 + (x2 r - x1 r) * 4) (y1 r) (y2 r - y1 r) j ↔ in_rect S r j.
Proof. unfold in_block, in_rect. lia. Qed.

(** The [k]th row of the rect in [gb]. *)
Definition rect_row (r : sremfb_rect) (gb : bytes) (k : Z) : bytes :=
  slice ((y1 r + k) * S + x1 r * 4) ((x2 r - x1 r) * 4) gb.

Lemma length_rect_row r gb k :
  rect_inside r → Z.of_nat (length gb) = W * H * 4 → 0 ≤ k < y2 r - y1 r →
  Z.of_nat (length (rect_row r gb k)) = (x2 r - x1 r) * 4.
Proof.
  intros (R1&R2&R3&R4) Hl Hk. unfold rect_row. rewrite length_slice; [lia|nia|lia|].
  assert ((y1 r + k + 1) * S ≤ H * S) by nia. lia.
Qed.

Lemma rect_row_eq r gb gb' k :
  rect_inside r → 0 ≤ k →
  (∀ j : nat, Z.of_nat j / S = y1 r + k → gb !! j = gb' !! j) → rect_row r gb k = rect_row r gb' k.
Proof.
  intros (R1&R2&R3&R4) Hk Hj. unfold rect_row. apply list_eq. intros i.
  destruct (decide (Z.of_nat i < (x2 r - x1 r) * 4)) as [Hi|Hi].
  - rewrite !lookup_slice by done. apply Hj. symmetry.
    apply (Z.div_unique_pos _ _ _ (x1 r * 4 + Z.of_nat i)); nia.
  - rewrite !lookup_ge_None_2; [done|..]; unfold slice; rewrite length_take; lia.
Qed.

(** The bytes cursor_draw() puts in the [k]th row. *)
Definition drawn_row (e : SremfbEvdiClient) (pix : bytes) (r : sremfb_rect) (gb : bytes) (k : Z)
    : bytes :=
  blend_row pix ((y1 r + k - ec_cur_y e) * ec_cur_stride e + (x1 r - ec_cur_x e)) (x2 r - x1 r)
    (rect_row r gb k).

Lemma length_drawn_row e pix r gb k :
  rect_inside r → Z.of_nat (length (drawn_row e pix r gb k)) = (x2 r - x1 r) * 4.
Proof.
  intros (R1&_). unfold drawn_row, blend_row.
  rewrite (length_rows _ _ 4); [lia|]. intros j _. by rewrite length_le.
Qed.

Definition drawn_frame (e : SremfbEvdiClient) (pix : bytes) (r : sremfb_rect) (gb : bytes) : bytes :=
  for_ 0 (y2 r - y1 r) (λ k g, blit g ((y1 r + k) * S + x1 r * 4) (drawn_row e pix r gb k)) gb.
Definition saved_rows (r : sremfb_rect) (gb under : bytes) : bytes :=
  for_ 0 (y2 r - y1 r) (λ k u, blit u ((0 + k) * ((x2 r - x1 r) * 4) + 0) (rect_row r gb k)) under.

Lemma drawn_lookup_upto e pix r gb n :
  rect_inside r → Z.of_nat (length gb) = W * H * 4 → 0 ≤ n ≤ y2 r - y1 r →
  let g := for_ 0 n (λ k g, blit g ((y1 r + k) * S + x1 r * 4) (drawn_row e pix r gb k)) gb in
  length g = length gb ∧
  ∀ j : nat, g !! j =
    if decide (in_block S (x1 r * 4) (x1 r * 4 + (x2 r - x1 r) * 4) (y1 r) n (Z.of_nat j))
    then drawn_row e pix r gb (Z.of_nat j / S - y1 r) !! Z.to_nat (Z.of_nat j mod S - x1 r * 4)
    else gb !! j.
Proof.
  intros Hr Hl Hn. pose proof Hr as (R1&R2&R3&R4). cbv zeta.
  apply (blit_rows_spec S (x1 r * 4) ((x2 r - x1 r) * 4) (y1 r) n gb gb); try lia; [nia|].
  intros k _. by apply length_drawn_row.
Qed.

(** cursor_draw()'s loop reads every row as it was before. *)
Lemma draw_rows_eq e pix r gb under :
  rect_inside r → Z.of_nat (length gb) = W * H * 4 →
  draw_rows W e pix r gb under = (drawn_frame e pix r gb, saved_rows r gb under).
Proof.
  intros Hr Hl. pose proof Hr as (R1&R2&R3&R4). unfold draw_rows, drawn_frame, saved_rows. cbv zeta.
  rewrite for_shift. set (h := y2 r - y1 r). set (n := (x2 r - x1 r) * 4).
  apply (for_ind0 (λ k s, k ≤ h → s =
    (for_ 0 k (λ k g, blit g ((y1 r + k) * S + x1 r * 4) (drawn_row e pix r gb k)) gb,
     for_ 0 k (λ k u, blit u ((0 + k) * n + 0) (rect_row r gb k)) under))); [lia|done| |lia].
  intros k s Hk IH Hk'. rewrite IH by lia. rewrite !for_snoc by lia. rewrite !Z.add_0_l.
  destruct (drawn_lookup_upto e pix r gb k Hr Hl ltac:(lia)) as [_ B].
  set (g := for_ 0 k _ gb) in *. set (u := for_ 0 k _ under). clearbody g u.
  assert (Erow : slice ((y1 r + k) * S + x1 r * 4) n g = rect_row r gb k).
  { change (rect_row r g k = rect_row r gb k). apply rect_row_eq; [done|lia|]. intros j Hj.
    rewrite B, decide_False; [done|]. unfold in_block. lia. }
  replace ((y1 r + k) * W * 4) with ((y1 r + k) * S) by lia.
  replace (((y1 r + k) * W + x1 r) * 4) with ((y1 r + k) * S + x1 r * 4) by lia.
  replace ((y1 r + k - y1 r) * (x2 r - x1 r) * 4) with (k * n + 0) by (subst n; ring).
  fold n. rewrite Erow. done.
Qed.

(** Lifting puts back exactly what drawing covered. *)
Lemma lift_drawn e pix r gb under :
  rect_inside r → Z.of_nat (length gb) = W * H * 4 →
  (x2 r - x1 r) * (y2 r - y1 r) * 4 ≤ Z.of_nat (length under) →
  lift_rows W r (saved_rows r gb under) (drawn_frame e pix r gb) = gb.
Proof.
  intros Hr Hl Hu. pose proof Hr as (R1&R2&R3&R4). unfold lift_rows. cbv zeta. rewrite for_shift.
  set (h := y2 r - y1 r). set (n := (x2 r - x1 r) * 4).
  destruct (drawn_lookup_upto e pix r gb h Hr Hl ltac:(lia)) as [Lg Bg].
  change (drawn_frame e pix r gb) with
    (for_ 0 h (λ k g, blit g ((y1 r + k) * S + x1 r * 4) (drawn_row e pix r gb k)) gb).
  change (saved_rows r gb under) with
    (for_ 0 h (λ k u, blit u ((0 + k) * n + 0) (rect_row r gb k)) under).
  set (g := for_ 0 h _ gb) in *. clearbody g.
  assert (Hu' : (0 + h) * n ≤ Z.of_nat (length under))
    by (replace ((0 + h) * n) with ((x2 r - x1 r) * (y2 r - y1 r) * 4) by (subst h n; ring); exact Hu).
  destruct (blit_rows_spec n 0 n 0 h gb under (rect_row r gb)) as [Lu Bu]; try lia.
  { intros k Hk. by apply length_rect_row. }
  set (u := for_ 0 h _ under) in *. clearbody u.
  assert (Erow : ∀ k, 0 ≤ k < h → slice (k * n) n u = rect_row r gb k).
  { intros k Hk. pose proof (length_rect_row r gb k Hr Hl Hk). apply list_eq. intros i.
    destruct (decide (Z.of_nat i < n)) as [Hi|Hi].
    - rewrite lookup_slice by done. rewrite Bu. 
      assert (Ediv : Z.of_nat (Z.to_nat (k * n) + i) / n = k)
        by (symmetry; apply (Z.div_unique_pos _ _ _ (Z.of_nat i)); nia).
      assert (Emod : Z.of_nat (Z.to_nat (k * n) + i) mod n = Z.of_nat i)
        by (symmetry; apply (Z.mod_unique_pos _ _ k); nia).
      rewrite decide_True by (unfold in_block; rewrite Ediv, Emod; lia).
      rewrite Ediv, Emod, !Z.sub_0_r, Nat2Z.id. done.
    - rewrite !lookup_ge_None_2; [done|lia|unfold slice; rewrite length_take; lia]. }
  rewrite (for_ext 0 h _ (λ k g, blit g ((y1 r + k) * S + x1 r * 4) (slice (k * n) n u))).
  2:{ intros k s. f_equal; [lia|]. f_equal. unfold n. ring. }
  assert (Hg' : (y1 r + h) * S ≤ Z.of_nat (length g))
    by (rewrite Lg, Hl; replace (y1 r + h) with (y2 r) by lia; nia).
  destruct (blit_rows_spec S (x1 r * 4) n (y1 r) h gb g (λ k, slice (k * n) n u)) as [Ll Bl];
    try lia.
  { intros k Hk. rewrite Erow by done. by apply length_rect_row. }
  apply list_eq. intros j. rewrite Bl.
  case_decide as Hb; [|rewrite Bg, decide_False by exact Hb; done].
  unfold in_block in Hb. rewrite Erow by lia. unfold rect_row.
  rewrite lookup_slice by (fold n; lia). f_equal.
  pose proof (Z.div_mod (Z.of_nat j) S ltac:(lia)). nia.
Qed.

(** ** Byte by byte *)
Lemma drawn_lookup e pix r gb (j : nat) :
  rect_inside r → Z.of_nat (length gb) = W * H * 4 →
  length (drawn_frame e pix r gb) = length gb ∧
  drawn_frame e pix r gb !! j =
    if decide (in_block S (x1 r * 4) (x1 r * 4 + (x2 r - x1 r) * 4) (y1 r) (y2 r - y1 r) (Z.of_nat j))
    then drawn_row e pix r gb (Z.of_nat j / S - y1 r) !! Z.to_nat (Z.of_nat j mod S - x1 r * 4)
    else gb !! j.
Proof.
  intros Hr Hl. pose proof Hr as (R1&R2&R3&R4).
  destruct (drawn_lookup_upto e pix r gb (y2 r - y1 r) Hr Hl ltac:(lia)) as [L B].
  split; [exact L|apply B].
Qed.

Lemma drawn_outside e pix r gb (j : nat) :
  rect_inside r → Z.of_nat (length gb) = W * H * 4 → ¬ in_rect S r (Z.of_nat j) →
  drawn_frame e pix r gb !! j = gb !! j.
Proof.
  intros Hr Hl Hj. destruct (drawn_lookup e pix r gb j Hr Hl) as [_ ->].
  rewrite decide_False; [done|]. by rewrite in_block_rect.
Qed.

Lemma length_saved_rows r gb under :
  rect_inside r → Z.of_nat (length gb) = W * H * 4 →
  (x2 r - x1 r) * (y2 r - y1 r) * 4 ≤ Z.of_nat (length under) →
  length (saved_rows r gb under) = length under.
Proof.
  intros Hr Hl Hu. pose proof Hr as (R1&R2&R3&R4). unfold saved_rows.
  set (n := (x2 r - x1 r) * 4) in *. set (h := y2 r - y1 r) in *.
  assert (Hu' : (0 + h) * n ≤ Z.of_nat (length under))
    by (replace ((0 + h) * n) with ((x2 r - x1 r) * (y2 r - y1 r) * 4) by (subst h n; ring); exact Hu).
  refine (proj1 (blit_rows_spec n 0 n 0 h gb under (rect_row r gb) _ _ _ _ _ _ _ _)); try lia.
  intros k Hk. by apply length_rect_row.
Qed.

(** A byte of the rect comes from the pixel it belongs to. *)
Lemma drawn_pixel e pix r gb (j : nat) :
  rect_inside r → Z.of_nat (length gb) = W * H * 4 → in_rect S r (Z.of_nat j) →
  drawn_frame e pix r gb !! j =
    Prelude.le 4 (over_px
      (px32 pix ((Z.of_nat j / S - ec_cur_y e) * ec_cur_stride e
                 + (Z.of_nat j mod S / 4 - ec_cur_x e)))
      (px32 gb (Z.of_nat j / 4))) !! Z.to_nat (Z.of_nat j mod 4).
Proof.
  intros Hr Hl Hj. destruct (drawn_lookup e pix r gb j Hr Hl) as [_ ->].
  rewrite decide_True by by rewrite in_block_rect. destruct Hr as (R1&R2&R3&R4). destruct Hj as [Hy Hx].
  set (q := Z.of_nat j / S) in *. set (m := Z.of_nat j mod S) in *.
  assert (Hm : Z.of_nat j = S * q + m) by (apply Z.div_mod; lia).
  assert (Hj4 : Z.of_nat j / 4 = W * q + m / 4).
  { symmetry. apply (Z.div_unique_pos _ _ _ (m mod 4)); dlia. }
  assert (Hm4 : Z.of_nat j mod 4 = m mod 4).
  { symmetry. apply (Z.mod_unique_pos _ _ (W * q + m / 4)); dlia. }
  unfold drawn_row, blend_row.
  rewrite (rows_lookup _ _ 4) by (intros; rewrite ?length_le; lia).
  rewrite Z2Nat.id by lia. replace ((m - x1 r * 4) / 4) with (m / 4 - x1 r) by dlia.
  replace ((m - x1 r * 4) mod 4) with (m mod 4) by dlia. rewrite Hj4, Hm4, Z.add_0_l.
  do 2 f_equal. f_equal.
  - f_equal. nia.
  - unfold px32, rect_row. assert (0 ≤ (y1 r + (q - y1 r)) * S) by nia.
    assert (x1 r ≤ m / 4 < x2 r) by dlia.
    rewrite slice_slice by lia. f_equal. f_equal. lia.
Qed.

(** Two bytes of one pixel are in the same rects. *)
Lemma in_rect_pixel r i j : i / 4 = j / 4 → in_rect S r i → in_rect S r j.
Proof.
  intros E [Hy Hx]. unfold in_rect.
  assert (Ei : i / S = (i / 4) / W) by (rewrite Z.div_div by lia; f_equal; lia).
  assert (Ej : j / S = (j / 4) / W) by (rewrite Z.div_div by lia; f_equal; lia).
  assert (Em : ∀ k, k mod S = 4 * ((k / 4) mod W) + k mod 4).
  { intros k. rewrite (Z.mul_comm W 4). rewrite Z.rem_mul_r by lia. lia. }
  rewrite Ei in Hy. rewrite Em in Hx. rewrite Ej, <- E, Em, <- E.
  pose proof (Z.mod_pos_bound i 4). pose proof (Z.mod_pos_bound j 4). lia.
Qed.

(** What changes in the desktop changes nowhere else in the frame. *)
Lemma drawn_change e pix r gb gb' (rects : list sremfb_rect) :
  rect_inside r → Z.of_nat (length gb) = W * H * 4 → length gb' = length gb →
  (∀ j : nat, gb' !! j ≠ gb !! j → ∃ r, r ∈ rects ∧ in_rect S r (Z.of_nat j)) →
  ∀ j : nat, drawn_frame e pix r gb' !! j ≠ drawn_frame e pix r gb !! j →
    ∃ r, r ∈ rects ∧ in_rect S r (Z.of_nat j).
Proof.
  intros Hr Hl Hl' Hd j Hj. assert (Hl2 : Z.of_nat (length gb') = W * H * 4) by lia.
  destruct (decide (in_block S (x1 r * 4) (x1 r * 4 + (x2 r - x1 r) * 4) (y1 r) (y2 r - y1 r)
    (Z.of_nat j))) as [Hin%in_block_rect|Hno].
  - rewrite !drawn_pixel in Hj by done.
    assert (Hp : slice (4 * (Z.of_nat j / 4)) 4 gb' ≠ slice (4 * (Z.of_nat j / 4)) 4 gb).
    { intros E. apply Hj. unfold px32. by rewrite E. }
    apply list_ne_lookup in Hp as [i Hi].
    assert (Hi4 : Z.of_nat i < 4).
    { destruct (decide (Z.of_nat i < 4)); [done|]. destruct Hi.
      rewrite !lookup_ge_None_2; [done|..]; unfold slice; rewrite length_take; lia. }
    rewrite !lookup_slice in Hi by done. apply Hd in Hi as (r'&Hr'&Hin'). exists r'. split; [done|].
    eapply in_rect_pixel; [|exact Hin']. dlia.
  - apply Hd. rewrite in_block_rect in Hno. by rewrite !drawn_outside in Hj by done.
Qed.
End rows.
