(* ===== verification/EvdiCards.v ===== *)
(** * evdi/evdi.c: the card numbers the compositor knows

    The table K of card states with its file, and the search for a card
    number the compositor accepts.  [shell] is compositor_pid()'s answer,
    [file] the content of the cards file; adding a card and looking whether
    the compositor holds it are answers of the system. *)
From S2P Require Import Prelude Net.
From Stdlib Require Import Ascii String.
From stdpp Require Import strings list pretty.
#[local] Open Scope list_scope.
#[local] Open Scope Z_scope.

Definition EVDI_MAX_CARDS : Z := 64.
Definition CARD_UNKNOWN : Z := 0.
Definition CARD_OK : Z := 1.
Definition CARD_DEAD : Z := 2.

Record cards_K := mk_K {
  ck_loaded : bool; ck_shell : Z; ck_state : list Z; ck_no_verify : bool }.
#[export] Instance eta_K : Eta cards_K := λ k,
  mk_K (ck_loaded k) (ck_shell k) (ck_state k) (ck_no_verify k).

Definition K0 : cards_K := mk_K false 0 (replicate (Z.to_nat EVDI_MAX_CARDS) CARD_UNKNOWN) false.

(** ** The cards file *)
Definition newline : ascii := ascii_of_nat 10.

(** g_strsplit(s, newline, -1) of a non-empty string *)
Fixpoint split_lines (s : cstr) : list cstr :=
  match s with
  | [] => [[]]
  | a :: s =>
    if bool_decide (a = newline) then [] :: split_lines s
    else match split_lines s with l :: ls => (a :: l) :: ls | [] => [[a]] end
  end.

(** g_strsplit() gives no line for an empty string. *)
Definition g_strsplit (s : cstr) : list cstr :=
  match s with [] => [] | _ => split_lines s end.

(** atoi(): the number read at the start, 0 without one *)
Definition atoi (s : cstr) : Z := s32 (strtol s).1.

(** sscanf(line, %d %7s): the number and the word, when both are there *)
Definition scan_word (s : cstr) : cstr :=
  let fix go (n : nat) (s : cstr) :=
    match n, s with
    | S n, a :: s => if is_space a then [] else a :: go n s
    | _, _ => []
    end in
  go 7%nat (skip_spaces s).
Definition scan_card (line : cstr) : option (Z * cstr) :=
  let '(v, rest) := strtol line in
  if bool_decide (rest = line) then None
  else
    match scan_word rest with
    | [] => None
    | w => Some (s32 v, w)
    end.

Definition str (s : string) : cstr := list_ascii_of_string s.

Definition load_line (st : list Z) (line : cstr) : list Z :=
  match scan_card line with
  | Some (card, what) =>
    if (0 <=? card) && (card <? EVDI_MAX_CARDS)
    then <[Z.to_nat card := if bool_decide (what = str "ok") then CARD_OK else CARD_DEAD]> st
    else st
  | None => st
  end.

(** [file] is [None] when it cannot be read. *)
Definition cards_load (k : cards_K) (shell : Z) (file : option cstr) : cards_K :=
  if ck_loaded k && (ck_shell k =? shell) then k
  else
    let k := K0⟨ck_loaded := true⟩⟨ck_shell := shell⟩ in
    if negb (shell =? 0) then
      match file with
      | Some txt =>
        match g_strsplit txt with
        | l0 :: lines =>
          if atoi l0 =? s32 shell then k⟨ck_state ::= λ st, foldl load_line st lines⟩ else k
        | [] => k
        end
      | None => k
      end
    else k.

Definition card_line (i : Z) (st : Z) : cstr :=
  if st =? CARD_UNKNOWN then []
  else str (pretty i) ++ str " " ++ str (if st =? CARD_OK then "ok" else "dead") ++ [newline].

Definition cards_text (shell : Z) (st : list Z) : cstr :=
  str (pretty shell) ++ [newline] ++ mjoin (imap (λ i s, card_line (Z.of_nat i) s) st).

(** The file written. *)
Definition cards_save (k : cards_K) : cstr := cards_text (ck_shell k) (ck_state k).

Definition card_state (k : cards_K) (card : Z) : Z := nth (Z.to_nat card) (ck_state k) CARD_UNKNOWN.

(** What follows cards_load() in card_dead(). *)
Definition card_dead (k : cards_K) (card : Z) : bool :=
  (0 <=? card) && (card <? EVDI_MAX_CARDS) && (card_state k card =? CARD_DEAD).

(** ** Adding cards *)
Definition set_card (k : cards_K) (card st : Z) : cards_K :=
  k⟨ck_state ::= <[Z.to_nat card := st]>⟩.

(** compositor_holds(), every 10 ms until it is not 0, 150 times at most *)
Fixpoint poll_held (n : nat) (answers : list Z) : Z :=
  match n, answers with
  | S n, a :: answers => if a =? 0 then poll_held n answers else a
  | _, _ => 0
  end.

(** One turn of the loop: what evdi_add_one() returned and what
    compositor_holds() would answer. *)
Record add_ans := mk_add { aa_card : Z; aa_held : list Z }.

(** The card returned, the table, and the file as last written. *)
Fixpoint add_usable (n : nat) (k : cards_K) (file : option cstr) (unconfirmed : Z)
    (answers : list add_ans) : Z * cards_K * option cstr :=
  match n, answers with
  | S n, a :: answers =>
    let card := aa_card a in
    if card <? 0 then (-1, k, file)
    else if EVDI_MAX_CARDS <=? card then (card, k, file)
    else if negb (card_state k card =? CARD_UNKNOWN) then
      let k := set_card k card CARD_DEAD in
      add_usable n k (Some (cards_save k)) unconfirmed answers
    else if (ck_shell k =? 0) || ck_no_verify k then
      let k := set_card k card CARD_OK in (card, k, Some (cards_save k))
    else
      let held := poll_held 150 (aa_held a) in
      if negb (held =? 0) then
        let k := if held <? 0 then k⟨ck_no_verify := true⟩ else k in
        let k := set_card k card CARD_OK in (card, k, Some (cards_save k))
      else
        let k := set_card k card CARD_DEAD in
        let file := Some (cards_save k) in
        let k := if 3 <=? unconfirmed + 1 then k⟨ck_no_verify := true⟩ else k in
        add_usable n k file (unconfirmed + 1) answers
  | _, _ => (-1, k, file)
  end.

Definition evdi_add_usable (k : cards_K) (shell : Z) (file : option cstr) (answers : list add_ans)
    : Z * cards_K * option cstr :=
  add_usable 24 (cards_load k shell file) file 0 answers.
