(* ===== verification/CardsProps.v ===== *)
(** * Properties of the card numbers (EvdiCards.v)

    The cards file reads back as the table that was written, for the
    compositor it was written for; the search hands out new numbers only. *)
From S2P Require Import Prelude Net EvdiCards.
From Stdlib Require Import Ascii String.
From stdpp Require Import strings list pretty.
#[local] Open Scope list_scope.
#[local] Open Scope Z_scope.

(** ** Decimal numbers read back *)
Lemma digit_char (d : N) :
  (d < 10)%N → is_digit (pretty_N_char d) = true ∧ digit (pretty_N_char d) = Z.of_N d.
Proof.
  intros Hd.
  assert (d = 0 ∨ d = 1 ∨ d = 2 ∨ d = 3 ∨ d = 4 ∨ d = 5 ∨ d = 6 ∨ d = 7 ∨ d = 8 ∨ d = 9)%N as H
    by lia.
  by destruct_or! H; subst.
Qed.

Lemma scan_pretty_go (x : N) : ∃ k : Z, ∀ acc s rest,
  scan_digits acc (str (pretty_N_go x s) ++ rest) =
  scan_digits (acc * k + Z.of_N x) (str s ++ rest).
Proof.
  induction (N.lt_wf_0 x) as [x _ IH]. destruct (decide (x = 0%N)) as [->|Hx].
  { exists 1. intros. rewrite pretty_N_go_0. f_equal. lia. }
  destruct (IH (x `div` 10)%N) as [k Hk]; [apply N.div_lt; lia|].
  exists (k * 10). intros acc s rest. rewrite pretty_N_go_step, Hk by lia.
  destruct (digit_char (x `mod` 10)) as [Hd Hv]; [by apply N.mod_lt|].
  cbn [str list_ascii_of_string app scan_digits]. rewrite Hd, Hv. f_equal.
  pose proof (N.div_mod x 10 ltac:(done)). lia.
Qed.

Definition no_digit (s : cstr) : Prop :=
  match s with a :: _ => is_digit a = false | [] => True end.

Lemma scan_stops acc s : no_digit s → scan_digits acc s = (acc, s).
Proof. destruct s as [|a s]; cbn; [done|]. by intros ->. Qed.

(** The first character of a decimal number is a digit. *)
Lemma pretty_go_head (x : N) s : (0 < x)%N →
  ∃ a t, str (pretty_N_go x s) = a :: t ∧ is_digit a = true.
Proof.
  revert s. induction (N.lt_wf_0 x) as [x _ IH]. intros s Hx. rewrite pretty_N_go_step by done.
  destruct (decide (x `div` 10 = 0)%N) as [E|Hd].
  - rewrite E, pretty_N_go_0. eexists _, _. split; [done|]. apply digit_char. by apply N.mod_lt.
  - apply IH; [apply N.div_lt; lia|]. by apply N.neq_0_lt_0.
Qed.

Lemma pretty_head (z : Z) : 0 ≤ z → ∃ a t, str (pretty z) = a :: t ∧ is_digit a = true.
Proof.
  intros Hz. destruct z as [|p|p]; [by eexists _, _|by apply pretty_go_head|lia].
Qed.

Lemma digit_plain (a : ascii) : is_digit a = true →
  is_space a = false ∧ a ≠ "-"%char ∧ a ≠ "+"%char ∧ a ≠ newline.
Proof.
  intros H. split_and!; [|by intros ->..]. unfold is_digit, is_space in *. cbv zeta in *. lia.
Qed.

Lemma strtol_digits a t : is_digit a = true →
  strtol (a :: t) = let '(v, e) := scan_digits 0 (a :: t) in (CLAMP v (- 2 ^ 63) (2 ^ 63 - 1), e).
Proof.
  intros Ha. destruct (digit_plain a Ha) as (Hs & Hm & Hp & _). unfold strtol.
  cbn [skip_spaces]. rewrite Hs.
  assert (match a :: t with
          | "-"%char :: t => (true, t) | "+"%char :: t => (false, t) | _ => (false, a :: t)
          end = (false, a :: t)) as ->.
  { repeat first [done|case_match; subst]. }
  by rewrite Ha.
Qed.

Lemma scan_pretty (z : Z) rest : 0 ≤ z → no_digit rest →
  scan_digits 0 (str (pretty z) ++ rest) = (z, rest).
Proof.
  intros Hz Hr. destruct z as [|p|p]; [..|lia].
  - exact (scan_stops 0 rest Hr).
  - change (pretty (Z.pos p)) with (pretty_N_go (N.pos p) "").
    destruct (scan_pretty_go (N.pos p)) as [k Hk]. rewrite Hk. cbn [str list_ascii_of_string app].
    by rewrite scan_stops.
Qed.

Lemma strtol_pretty (z : Z) rest :
  0 ≤ z < 2 ^ 31 → no_digit rest → strtol (str (pretty z) ++ rest) = (z, rest).
Proof.
  intros Hz Hr. destruct (pretty_head z ltac:(lia)) as (a & t & Ht & Ha).
  pose proof (scan_pretty z rest ltac:(lia) Hr) as Hs. rewrite Ht in *. cbn [app] in *.
  rewrite strtol_digits, Hs by done. f_equal. unfold CLAMP. repeat case_match; lia.
Qed.

(** ** The lines of the file *)
Lemma split_lines_app l s : newline ∉ l → split_lines (l ++ newline :: s) = l :: split_lines s.
Proof.
  induction l as [|a l IH]; intros Hl; [done|]. apply not_elem_of_cons in Hl as [Ha Hl].
  cbn [app split_lines]. rewrite bool_decide_false by done. by rewrite IH.
Qed.

Lemma go_plain (x : N) s : newline ∉ str s → newline ∉ str (pretty_N_go x s).
Proof.
  revert s. induction (N.lt_wf_0 x) as [x _ IH]. intros s Hs. destruct (decide (x = 0%N)) as [->|Hx].
  { by rewrite pretty_N_go_0. }
  rewrite pretty_N_go_step by lia. apply IH; [apply N.div_lt; lia|].
  apply not_elem_of_cons. split; [|done].
  destruct (digit_char (x `mod` 10)) as [Hd _]; [by apply N.mod_lt|].
  apply not_eq_sym, (digit_plain _ Hd).
Qed.

Lemma pretty_plain (z : Z) : 0 ≤ z → newline ∉ str (pretty z).
Proof.
  intros Hz. destruct z as [|p|p]; [|apply go_plain|lia]; [|apply not_elem_of_nil].
  apply not_elem_of_cons. split; [done|apply not_elem_of_nil].
Qed.

Definition card_text (i st : Z) : cstr :=
  str (pretty i) ++ str " " ++ str (if st =? CARD_OK then "ok" else "dead").

Lemma card_line_text i st : st ≠ CARD_UNKNOWN → card_line i st = card_text i st ++ [newline].
Proof.
  intros Hs. unfold card_line, card_text. rewrite (proj2 (Z.eqb_neq _ _) Hs). by rewrite <- !app_assoc.
Qed.

Lemma card_text_plain i st : 0 ≤ i → newline ∉ card_text i st.
Proof.
  intros Hi. unfold card_text. rewrite not_elem_of_app. split; [by apply pretty_plain|].
  case_match; by apply (bool_decide_eq_true_1 (newline ∉ _)).
Qed.

Lemma load_card_text l i st :
  0 ≤ i < EVDI_MAX_CARDS → st = CARD_OK ∨ st = CARD_DEAD →
  load_line l (card_text i st) = <[Z.to_nat i := st]> l.
Proof.
  intros Hi Hst. unfold load_line, scan_card, card_text. unfold EVDI_MAX_CARDS in Hi.
  rewrite strtol_pretty; [|lia|by destruct Hst; subst].
  rewrite bool_decide_false.
  2:{ intros Hf. apply (f_equal length) in Hf. rewrite !length_app in Hf.
      destruct (pretty_head i ltac:(lia)) as (a & t & Ht & _). rewrite Ht in Hf. cbn in Hf. lia. }
  rewrite s32_small by lia.
  assert (Hr : (0 <=? i) && (i <? EVDI_MAX_CARDS) = true) by (unfold EVDI_MAX_CARDS; lia).
  trans (if (0 <=? i) && (i <? EVDI_MAX_CARDS) then <[Z.to_nat i := st]> l else l);
    [by destruct Hst; subst|by rewrite Hr].
Qed.

Definition card_states (st : list Z) : Prop :=
  Forall (λ s, s = CARD_UNKNOWN ∨ s = CARD_OK ∨ s = CARD_DEAD) st.

Lemma load_rows pre st :
  Z.of_nat (length pre + length st) = EVDI_MAX_CARDS → card_states st →
  foldl load_line (pre ++ replicate (length st) CARD_UNKNOWN)
    (split_lines (mjoin (imap (λ i s, card_line (Z.of_nat (length pre + i)) s) st))) = pre ++ st.
Proof.
  intros Hl Hst. revert pre Hl. induction Hst as [|s st Hs Hst IH]; intros pre Hl; [done|].
  cbn [length] in Hl. specialize (IH (pre ++ [s])). rewrite length_app in IH. cbn [length] in IH.
  rewrite <- !app_assoc in IH. specialize (IH ltac:(lia)). rewrite imap_cons.
  assert (imap ((λ i s, card_line (Z.of_nat (length pre + i)) s) ∘ S) st =
          imap (λ i s, card_line (Z.of_nat (length pre + 1 + i)) s) st) as ->.
  { apply imap_ext. intros i x _. cbn. do 2 f_equal. lia. }
  cbn [mjoin list_join]. rewrite Nat.add_0_r. destruct Hs as [-> | Hs]; [exact IH|].
  assert (Hn : s ≠ CARD_UNKNOWN) by (by destruct Hs; subst).
  rewrite card_line_text, <- app_assoc by done. cbn [app].
  rewrite split_lines_app by (apply card_text_plain; lia). cbn [foldl].
  rewrite load_card_text by (done || lia). rewrite Nat2Z.id.
  cbn [length replicate]. rewrite insert_app_r_alt, Nat.sub_diag by lia. exact IH.
Qed.

Lemma g_strsplit_file shell st : 0 ≤ shell →
  g_strsplit (cards_text shell st) =
  str (pretty shell) :: split_lines (mjoin (imap (λ i s, card_line (Z.of_nat i) s) st)).
Proof.
  intros Hs. unfold cards_text. cbn [app].
  rewrite <- split_lines_app by (by apply pretty_plain).
  destruct (pretty_head shell Hs) as (a & t & -> & _). done.
Qed.

(** The table of a compositor: loaded, complete. *)
Definition cards_wf (k : cards_K) : Prop :=
  ck_loaded k = true ∧ 0 < ck_shell k < 2 ^ 31 ∧
  Z.of_nat (length (ck_state k)) = EVDI_MAX_CARDS ∧ card_states (ck_state k).

(** The file remembers what the compositor knows for exactly as long as
    that compositor lives: another server reading what cards_save() wrote
    gets the same table when the same gnome-shell runs, and an empty table
    when another one does. *)
Theorem cards_roundtrip k shell :
  cards_wf k → 0 < shell < 2 ^ 31 →
  cards_load K0 shell (Some (cards_save k)) =
    if shell =? ck_shell k then k⟨ck_no_verify := false⟩
    else K0⟨ck_loaded := true⟩⟨ck_shell := shell⟩.
Proof.
  intros (Hl & Hk & Hn & Hst) Hs. unfold cards_load, cards_save. cbn [ck_loaded K0 andb].
  rewrite (proj2 (Z.eqb_neq shell 0)) by lia. cbn [negb]. rewrite g_strsplit_file by lia.
  unfold atoi. rewrite <- (app_nil_r (str (pretty (ck_shell k)))), strtol_pretty by (done || lia).
  cbn [fst]. rewrite !s32_small by lia. rewrite Z.eqb_sym. destruct (Z.eqb_spec shell (ck_shell k)); [|done].
  destruct k as [l sh st nv]. cbn in *. subst.
  pose proof (load_rows [] st ltac:(cbn; lia) Hst) as H. cbn [app length] in H.
  unfold EVDI_MAX_CARDS in Hn. replace (length st) with (Z.to_nat 64) in H by lia.
  exact (f_equal (λ s, mk_K true sh s false) H).
Qed.

(** ** The search *)
#[local] Arguments poll_held : simpl never.
Lemma card_state_set k card st i :
  0 ≤ card < Z.of_nat (length (ck_state k)) → 0 ≤ i →
  card_state (set_card k card st) i = if decide (i = card) then st else card_state k i.
Proof.
  intros Hc Hi. unfold card_state, set_card. cbn. rewrite !nth_lookup. case_decide as Hd.
  - subst. by rewrite list_lookup_insert_eq by lia.
  - by rewrite list_lookup_insert_ne by lia.
Qed.

Definition cards_full (k : cards_K) : Prop := Z.of_nat (length (ck_state k)) = EVDI_MAX_CARDS.

Lemma set_card_full k card st : cards_full k → cards_full (set_card k card st).
Proof. unfold cards_full, set_card. cbn. by rewrite length_insert. Qed.

(** What a search did: the card it found, from table [k] to [k']. *)
Record search_ok (answers : list add_ans) (k : cards_K) (file : option cstr) (card : Z)
    (k' : cards_K) (file' : option cstr) : Prop := {
  sk_card : card = -1 ∨ EVDI_MAX_CARDS ≤ card ∨
    0 ≤ card < EVDI_MAX_CARDS ∧ card_state k card = CARD_UNKNOWN ∧ card_state k' card = CARD_OK;
  sk_rest i : 0 ≤ i → i ≠ card →
    card_state k' i = card_state k i ∨ card_state k' i = CARD_DEAD;
  sk_held : 0 ≤ card < EVDI_MAX_CARDS → ck_shell k ≠ 0 → ck_no_verify k' = false →
    ∃ a, a ∈ answers ∧ aa_card a = card ∧ 0 < poll_held 150 (aa_held a);
  sk_file : k' = k ∧ file' = file ∨ file' = Some (cards_save k') }.

Lemma search_dead answers a k k1 file file1 card k' file' :
  (∀ i, 0 ≤ i → card_state k1 i = card_state k i ∨ card_state k1 i = CARD_DEAD) →
  ck_shell k1 = ck_shell k → file1 = Some (cards_save k1) →
  search_ok answers k1 file1 card k' file' → search_ok (a :: answers) k file card k' file'.
Proof.
  intros Hk Hs Hf [Hc Hr Hh Hfile]. split.
  - destruct Hc as [?|[?|(Hi & Hu & Ho)]]; [auto..|]. right. right. split_and!; [lia..| |done].
    destruct (Hk card ltac:(lia)) as [<-|E]; [done|]. by rewrite E in Hu.
  - intros i Hi Hne. destruct (Hr i Hi Hne) as [->|]; auto.
  - rewrite <- Hs. intros H1 H2 H3. destruct (Hh H1 H2 H3) as (b & Hb & ?). exists b.
    split; [by right|done].
  - right. destruct Hfile as [[-> ->]|]; done.
Qed.

Lemma dead_set k card i : cards_full k → 0 ≤ card < EVDI_MAX_CARDS → 0 ≤ i →
  card_state (set_card k card CARD_DEAD) i = card_state k i ∨
  card_state (set_card k card CARD_DEAD) i = CARD_DEAD.
Proof. unfold cards_full. intros. rewrite card_state_set by lia. case_decide; auto. Qed.

Lemma search_found a answers k k1 file card :
  cards_full k → 0 ≤ card < EVDI_MAX_CARDS → card_state k card = CARD_UNKNOWN →
  ck_state k1 = ck_state k →
  (ck_shell k ≠ 0 → ck_no_verify k1 = false → aa_card a = card ∧ 0 < poll_held 150 (aa_held a)) →
  search_ok (a :: answers) k file card (set_card k1 card CARD_OK)
    (Some (cards_save (set_card k1 card CARD_OK))).
Proof.
  unfold cards_full. intros Hk Hc Hu Hs Hh.
  assert (E : ∀ i, 0 ≤ i → card_state (set_card k1 card CARD_OK) i =
                             if decide (i = card) then CARD_OK else card_state k i).
  { intros i Hi. rewrite card_state_set by (rewrite ?Hs; lia). unfold card_state. by rewrite Hs. }
  split; [..|by right].
  - right. right. rewrite E, decide_True by (done || lia). done.
  - intros i Hi Hne. rewrite E, decide_False by done. by left.
  - intros _ H1 H2. exists a. split; [by left|]. by apply Hh.
Qed.

Lemma add_usable_spec n k file u answers card k' file' :
  cards_full k → add_usable n k file u answers = (card, k', file') →
  search_ok answers k file card k' file'.
Proof.
  revert k file u answers. induction n as [|n IH]; intros k file u [|a answers] Hk E; cbn in E.
  1-3: simplify_eq; split; [by left|by left|lia|by left].
  destruct (Z.ltb_spec (aa_card a) 0).
  { simplify_eq. split; [by left|by left|lia|by left]. }
  destruct (Z.leb_spec EVDI_MAX_CARDS (aa_card a)).
  { simplify_eq. split; [by right; left|by left|lia|by left]. }
  destruct (Z.eqb_spec (card_state k (aa_card a)) CARD_UNKNOWN) as [Hu|Hu]; cbn in E.
  2:{ eapply search_dead; [..|eapply IH; [by apply set_card_full|exact E]]; [|done..].
      intros i Hi. by apply dead_set. }
  destruct ((ck_shell k =? 0) || ck_no_verify k) eqn:Ev.
  { simplify_eq. apply search_found; [done..|]. intros ? Hv. rewrite Hv in Ev. lia. }
  destruct (Z.eqb_spec (poll_held 150 (aa_held a)) 0) as [Hh|Hh]; cbn in E.
  - assert (Hdead : ∀ k1, ck_state k1 = ck_state (set_card k (aa_card a) CARD_DEAD) →
      ∀ i, 0 ≤ i → card_state k1 i = card_state k i ∨ card_state k1 i = CARD_DEAD).
    { intros k1 Hk1 i Hi. unfold card_state at 1 3. rewrite Hk1. by apply dead_set. }
    case_match; (eapply search_dead; [..|eapply IH; [|exact E]];
      [by apply Hdead|done|done|by apply set_card_full]).
  - destruct (Z.ltb_spec (poll_held 150 (aa_held a)) 0); cbn in E; simplify_eq.
    + by apply search_found.
    + apply search_found; [done..|]. intros. split; [done|lia].
Qed.

Lemma load_line_length st line : length (load_line st line) = length st.
Proof. unfold load_line. repeat case_match; by rewrite ?length_insert. Qed.

Lemma cards_load_full k shell file : cards_full k → cards_full (cards_load k shell file).
Proof.
  intros Hk. unfold cards_load. case_match; [done|].
  assert (Hl : ∀ lines st, length (foldl load_line st lines) = length st).
  { induction lines as [|l lines IH]; intros st; cbn [foldl]; [done|]. by rewrite IH, load_line_length. }
  repeat case_match; unfold cards_full; cbn; rewrite ?Hl; done.
Qed.

(** A number the compositor already knows is never handed out: the card
    that evdi_add_usable() returns, when it is one of the tracked ones, was
    unknown and is now accepted; every other card keeps its state or is
    dead; while the compositor can be watched, the card was seen in its
    hands; and whatever was decided is in the file. *)
Theorem add_usable_fresh k shell file answers card k' file' :
  cards_full k → evdi_add_usable k shell file answers = (card, k', file') →
  search_ok answers (cards_load k shell file) file card k' file'.
Proof.
  intros Hk. unfold evdi_add_usable. generalize 24%nat. intros n.
  apply add_usable_spec. by apply cards_load_full.
Qed.

(** ** Witnesses *)
(** Card 1 is known from before; the next add gives it again, then card 2,
    which the compositor opens at the third look. *)
Definition sample_K : cards_K := set_card (K0⟨ck_loaded := true⟩⟨ck_shell := 4242⟩) 1 CARD_OK.
Definition sample_adds : list add_ans := [mk_add 1 []; mk_add 2 [0; 0; 1]].

Lemma cards_roundtrip_witness :
  cards_load K0 4242 (Some (cards_save sample_K)) = sample_K ∧
  cards_load K0 4243 (Some (cards_save sample_K)) = K0⟨ck_loaded := true⟩⟨ck_shell := 4243⟩.
Proof.
  assert (H : cards_wf sample_K).
  { split_and!; [done|done|done|done|]. apply (bool_decide_eq_true_1 _). vm_compute. done. }
  split.
  - etrans; [apply (cards_roundtrip sample_K 4242); done|]. done.
  - etrans; [apply (cards_roundtrip sample_K 4243); done|]. done.
Defined.

Lemma add_usable_fresh_witness :
  ∃ k' f', evdi_add_usable sample_K 4242 None sample_adds = (2, k', f') ∧
    card_state k' 1 = CARD_DEAD ∧
    search_ok sample_adds (cards_load sample_K 4242 None) None 2 k' f'.
Proof.
  eexists _, _. split; [vm_compute; reflexivity|]. split; [reflexivity|].
  apply (add_usable_fresh sample_K 4242 None sample_adds); [done|]. vm_compute. reflexivity.
Defined.
