(* ===== verification/Evdi.v ===== *)
(** * evdi/evdi.c: one client's connector

    The update loop, the handlers of the device's events, plugging and
    unplugging, the mode timer.  libevdi's answers are arguments: what a
    grab leaves in the buffer with the rects it reports ([grab_ans]), and
    what evdi_request_update() said ([None]: not ready yet).  The server's
    part of a step is [evdi_srv] ([v_K] is the table K of card states, [v_cards]
    its file); the compositor's pid and the clock at each reading come with
    it. *)
From S2P Require Import Prelude Binary64 Protocol Bits Core Convert Encoder Net Input Xmit Control.
From S2P Require Import Drain Edid XmitSpec Upstream Session Served EvdiGate EvdiCursor EvdiCards.
From Stdlib Require Import Ascii String.
From stdpp Require Import gmap strings list.
#[local] Open Scope list_scope.
#[local] Open Scope Z_scope.

(** sremfb_audio_start() and sremfb_layout_client() *)
Class EvdiPeers `{X264} := {
  sremfb_audio_start_op : SremfbClient → Z * SremfbClient;
  lay_t : Type;
  sremfb_layout_client_op : lay_t → SremfbClient → lay_t }.

(** What a grab reported and left in the buffer. *)
Record grab_ans := mk_grab { ga_rects : list sremfb_rect; ga_buf : bytes }.
(** The compositor and the clock at the two readings of plug_lit(). *)
Record lit_env := mk_lit { le_shell : Z; le_now : Z; le_shell' : Z; le_now' : Z }.
(** struct evdi_mode, the fields used *)
Record evdi_mode := mk_emode { em_width : Z; em_height : Z; em_bpp : Z }.

Section evdi.
Context `{X264} `{Platform} `{Files} `{!InputStart} `{!EvdiPeers}.
Implicit Types (c : SremfbClient) (e : SremfbEvdiClient).

Record evdi_srv := mk_esrv {
  v_es : SremfbEvdiState; v_files : gmap string string; v_lay : lay_t;
  v_K : cards_K; v_cards : option cstr }.
#[export] Instance eta_esrv : Eta evdi_srv := λ v,
  mk_esrv (v_es v) (v_files v) (v_lay v) (v_K v) (v_cards v).

(** ** Frames *)
Definition send_stats c : SremfbClient :=
  let (now, c) := g_get_monotonic_time c in
  let dt := Ddiv (D_of_Z (now - c_st_since_us c)) (D_of_Z G_USEC_PER_SEC) in
  if Dltb dt (D_of_Z 5) then c
  else c⟨c_st_grabs := 0⟩⟨c_st_rects := 0⟩⟨c_st_wire_bytes := 0⟩⟨c_st_raw_bytes := 0⟩
        ⟨c_st_since_us := now⟩.

Definition send_ctrl c (encoding : Z) : SremfbClient :=
  if (c_fd c <? 0) || negb (bool_decide (c_state c = STREAMING)) || negb (c_lost_id c =? 0)
  then c
  else sremfb_xmit_ctrl c (frame_hdr_bytes (frame_hdr_for encoding)).

(** The buffer around a grab: the cursor lifted, the pixels, the cursor. *)
Definition grab_pixels c e (a : grab_ans) : SremfbClient * SremfbEvdiClient :=
  let '(_, c, e) := cursor_lift c e in
  let '(_, c, e) := cursor_draw c⟨c_grabbuf := Some (ga_buf a)⟩ e in
  (c, e).

Definition grab_and_send c e (a : grab_ans) : SremfbClient * SremfbEvdiClient :=
  if negb (ec_grab_registered e) then (c, e)
  else
    let '(c, e) := grab_pixels c e a in
    if bool_decide (ga_rects a = []) || (c_fd c <? 0) || negb (bool_decide (c_state c = STREAMING))
    then (c, e)
    else
      let c := c⟨c_st_grabs ::= Z.succ⟩ in
      (send_stats (sremfb_xmit_damage c (ga_rects a) (client_bytespp c)), e).

(** [if (!kick_id) kick_id = g_idle_add(kick_idle)] *)
Definition arm_kick c e : SremfbClient * SremfbEvdiClient :=
  if ec_kick_id e =? 0
  then let (id, c) := g_source_new c in (c, e⟨ec_kick_id := id⟩) else (c, e).

Definition sremfb_evdi_kick c e (req : option grab_ans) : SremfbClient * SremfbEvdiClient :=
  if negb (bool_decide (c_state c = STREAMING)) || negb (ec_grab_registered e) ||
     (c_fd c <? 0) || ec_update_pending e || negb (c_lost_id c =? 0)
  then (c, e)
  else
    match req with
    | Some a => let '(c, e) := grab_and_send c e a in arm_kick c e
    | None => (c, e⟨ec_update_pending := true⟩)
    end.

Definition kick_idle c e (req : option grab_ans) : SremfbClient * SremfbEvdiClient :=
  sremfb_evdi_kick c e⟨ec_kick_id := 0⟩ req.

(** ** Handlers *)
Definition on_update_ready c e (a : grab_ans) : SremfbClient * SremfbEvdiClient :=
  let '(c, e) := grab_and_send c e⟨ec_update_pending := false⟩ a in arm_kick c e.

(** The new size and its buffers; [junk] is what g_malloc() found in the
    grab buffer. *)
Definition mode_buffers c e (m : evdi_mode) (junk : bytes) : SremfbClient * SremfbEvdiClient :=
  let c := sremfb_xmit_reset c in
  let c :=
    if bool_decide (is_Some (c_enc c)) &&
       (negb (em_width m =? g_width (c_geom c)) || negb (em_height m =? g_height (c_geom c)))
    then c⟨c_enc := None⟩⟨c_yuvbuf := false⟩⟨c_xmit_mode := XMIT_RAW⟩ else c in
  let c := c⟨c_geom := mk_geom (em_width m) (em_height m)⟩ in
  let e := e⟨ec_mode_valid := true⟩⟨ec_grab_registered := true⟩⟨ec_cur_drawn := false⟩
            ⟨ec_update_pending := false⟩ in
  (c⟨c_grabbuf := Some junk⟩
    ⟨c_shadowbuf := Some (replicate (Z.to_nat (em_width m * em_height m * 4)) 0)⟩
    ⟨c_sendbuf := true⟩, e).

Definition mode_flags c : Z :=
  let flags := if c_feedback c then SREMFB_SRV_FLAG_PING else 0 in
  if c_feedback c && c_h264_cap c && negb (c_h264_failed c) && negb getenv_NO_H264
  then Z.lor flags SREMFB_SRV_FLAG_H264 else flags.

(** The hello, and the controller's start. *)
Definition mode_hello c : SremfbClient :=
  let flags := mode_flags c in
  let '(fi, c) := sremfb_input_start_op c in
  let '(fa, c) := sremfb_audio_start_op c in
  let c := sremfb_xmit_hello c (Z.lor (Z.lor flags fi) fa) in
  let c := c⟨c_state := STREAMING⟩⟨c_st_grabs := 0⟩⟨c_st_rects := 0⟩⟨c_st_wire_bytes := 0⟩
            ⟨c_st_raw_bytes := 0⟩ in
  let (now, c) := g_get_monotonic_time c in
  sremfb_ctl_start c⟨c_st_since_us := now⟩.

Definition set_suspect (s : SremfbEvdiState) (dev : option nat) (b : bool) : SremfbEvdiState :=
  match dev with
  | Some d => s⟨es_devices ::= alter (λ x, x⟨dv_suspect := b⟩) d⟩
  | None => s
  end.

Definition on_mode_changed (v : evdi_srv) c e (m : evdi_mode) (junk : bytes) (t : lit_env)
    (req : option grab_ans) : evdi_srv * SremfbClient * SremfbEvdiClient :=
  if (em_width m <=? 0) || (em_height m <=? 0) || negb (em_bpp m =? 32) then (v, c, e)
  else
    let v := v⟨v_es ::= λ s, set_suspect s (ec_dev e) false⟩ in
    let '(c, e) := mode_buffers c e m junk in
    let '(v, c, e) :=
      if bool_decide (c_state c = MODE_WAIT) && (0 <=? c_fd c) then
        let c := mode_hello c in
        let v := v⟨v_es ::= λ s, plug_lit s (le_shell t) (le_now t) (le_shell' t) (le_now' t)⟩ in
        let v := if ec_usb_early e then v else v⟨v_files ::= λ f, sremfb_usb_peer_add f c⟩ in
        (v⟨v_lay ::= λ l, sremfb_layout_client_op l c⟩, c, e⟨ec_mode_timeout_id := 0⟩)
      else (v, c, e) in
    let '(c, e) := sremfb_evdi_kick c e req in
    (v, c, e).

Definition on_dpms c e (on : bool) (req : option grab_ans) : SremfbClient * SremfbEvdiClient :=
  if on then sremfb_evdi_kick (send_ctrl c SREMFB_ENC_UNBLANK) e req
  else (send_ctrl c SREMFB_ENC_BLANK, e).

Definition on_crtc_state c e (state : bool) (req : option grab_ans)
    : SremfbClient * SremfbEvdiClient :=
  if state then sremfb_evdi_kick c e req else (c, e).

(** ** The connector *)
Definition client_serial c : Z :=
  let m := ch_mac (c_hello c) in
  if negb (mac_is_zero m) then
    Z.lor (Z.lor (Z.lor (Z.shiftl (nth 2 m 0) 24) (Z.shiftl (nth 3 m 0) 16))
      (Z.shiftl (nth 4 m 0) 8)) (nth 5 m 0)
  else
    foldl (λ h a, u32 (h * 33 + Z.of_nat (nat_of_ascii a))) 5381 (list_ascii_of_string (c_peer c)).

(** The mode timer's id. *)
Definition mode_timer : Z := 1.

Definition sremfb_evdi_plug (v : evdi_srv) c e (shell now : Z)
    : evdi_srv * SremfbClient * SremfbEvdiClient :=
  let h := c_hello c in
  let e := e⟨ec_edid := sremfb_edid_build (ch_xres h) (ch_yres h) (client_serial c)
                          (Some (ch_model h))⟩⟨ec_plugged := true⟩ in
  let v := v⟨v_es ::= λ s, plug_record s shell now SREMFB_PLUG_EV_PLUG⟩ in
  (v, c⟨c_state := MODE_WAIT⟩, e⟨ec_mode_timeout_id := mode_timer⟩).

Definition sremfb_evdi_unplug c e : SremfbClient * SremfbEvdiClient :=
  let c := sremfb_ctl_stop (sremfb_xmit_reset c) in
  let e := cursor_reset e⟨ec_mode_timeout_id := 0⟩⟨ec_kick_id := 0⟩⟨ec_grab_registered := false⟩ in
  (c⟨c_grabbuf := None⟩⟨c_shadowbuf := None⟩⟨c_sendbuf := false⟩,
   e⟨ec_mode_valid := false⟩⟨ec_update_pending := false⟩⟨ec_plugged := false⟩).

(** One tick of the mode timer: [None] keeps waiting, else what was sent
    to the client, which is then lost.  [ps] is the power-save mode. *)
Definition on_mode_timeout (v : evdi_srv) c e (ps now shell now' : Z) (sends : list send_res)
    : evdi_srv * SremfbEvdiClient * option bytes :=
  let e := if 0 <? ps then e⟨ec_ps_seen := now⟩ else e in
  if sremfb_mode_wait_verdict ps now (ec_ps_seen e) =? SREMFB_MODE_WAIT_PARK then
    if ec_usb_early e then (v, e, None)
    else (v⟨v_files ::= λ f, sremfb_usb_peer_add f c⟩, e⟨ec_usb_early := true⟩, None)
  else
    let e := e⟨ec_mode_timeout_id := 0⟩ in
    let v :=
      match ec_dev e with
      | Some _ => v⟨v_es ::= λ s, (set_suspect s (ec_dev e) true)⟨es_wedge_seen := true⟩⟩
      | None => v
      end in
    let v := v⟨v_es ::= λ s, plug_record s shell now' SREMFB_PLUG_EV_FAIL⟩ in
    (v, e, Some (if 0 <=? c_fd c
                 then (net_send_server_hello 0 0 0 SREMFB_STATUS_SERVER_FAIL 0 sends).1 else [])).
End evdi.
