(* ===== verification/EvdiPool.v ===== *)
(** * evdi/evdi.c: the devices, and the frame-source operations

    The pool of open devices, how a client gets one (a clean one of the
    pool, a fresh one after a wedge, any card that can be opened, a suspect
    one), and the operations the session calls.  [aq_open i] is the lock
    descriptor when card [i] could be opened, locked and handed to libevdi. *)
From S2P Require Import Prelude Binary64 Protocol Bits Core Convert Encoder Net Input Xmit Control.
From S2P Require Import Drain Edid XmitSpec Upstream Session Served EvdiGate EvdiCursor EvdiCards Evdi.
From Stdlib Require Import Ascii String.
From stdpp Require Import gmap strings list.
#[local] Open Scope list_scope.
#[local] Open Scope Z_scope.

(** What the system answers during one evdi_source_acquire(). *)
Record acq_env := mk_acq {
  aq_shell : Z; aq_now : Z; aq_heal_shell : Z; aq_heal_now : Z; aq_adds : list add_ans;
  aq_avail : Z → bool; aq_open : Z → option Z; aq_cards_shell : Z;
  aq_connector : string; aq_plug_shell : Z; aq_plug_now : Z }.

Section pool.
Context `{X264} `{Platform} `{Files} `{!InputStart} `{!EvdiPeers}.
Implicit Types (c : SremfbClient) (e : SremfbEvdiClient) (v : evdi_srv).

Definition new_evdi_client : SremfbEvdiClient :=
  mk_evc None false (replicate 256 0) false false false 0 0 0 false false 0 0 0 0 0 None false
    (mk_rect 0 0 0 0) [] 0.

Definition dev_free (allow_suspect : bool) (d : SremfbEvdiDevice) : Prop :=
  dv_owner d = None ∧ (dv_suspect d = true → allow_suspect = true).
#[export] Instance dev_free_dec b d : Decision (dev_free b d).
Proof. unfold dev_free. apply _. Defined.

Definition acquire_pooled (s : SremfbEvdiState) (p : nat) e (allow_suspect : bool)
    : option (SremfbEvdiState * SremfbEvdiClient) :=
  '(i, _) ← list_find (dev_free allow_suspect) (es_devices s);
  Some (s⟨es_devices ::= alter (λ d, d⟨dv_owner := Some p⟩) i⟩, e⟨ec_dev := Some i⟩).

(** The watch on the device's events. *)
Definition dev_watch : Z := 1.

Definition acquire_card (s : SremfbEvdiState) (p : nat) e (q : acq_env) (i : Z)
    : option (SremfbEvdiState * SremfbEvdiClient) :=
  fd ← aq_open q i;
  Some (s⟨es_devices ::= λ l, l ++ [mk_dev i fd dev_watch (Some p) false]⟩,
        e⟨ec_dev := Some (length (es_devices s))⟩).

(** self_heal_add(): the card, -1 without one *)
Definition self_heal_add v (q : acq_env) : Z * evdi_srv :=
  let '(ok, s) := self_heal_allowed (v_es v) (aq_heal_shell q) (aq_heal_now q) in
  let v := v⟨v_es := s⟩ in
  if negb ok then (-1, v)
  else
    let '(card, k, file) := evdi_add_usable (v_K v) (aq_cards_shell q) (v_cards v) (aq_adds q) in
    (card, v⟨v_K := k⟩⟨v_cards := file⟩).

(** The cards tried, from [i] on. *)
Fixpoint acquire_any (n : nat) v (p : nat) e (q : acq_env) (i : Z)
    : option (SremfbEvdiState * SremfbEvdiClient) * evdi_srv :=
  match n with
  | O => (None, v)
  | S n =>
    if negb (aq_avail q i) then acquire_any n v p e q (i + 1)
    else
      let v := v⟨v_K ::= λ k, cards_load k (aq_cards_shell q) (v_cards v)⟩ in
      if card_dead (v_K v) i then acquire_any n v p e q (i + 1)
      else
        match acquire_card (v_es v) p e q i with
        | Some r => (Some r, v)
        | None => acquire_any n v p e q (i + 1)
        end
  end.

(** After the clean devices of the pool: a fresh one, any card, and last the
    suspect ones. *)
Definition acquire_fresh v (p : nat) e (q : acq_env)
    : option (SremfbEvdiState * SremfbEvdiClient) * evdi_srv :=
  if es_wedge_seen (v_es v) then
    let '(fresh, v) := self_heal_add v q in
    (if 0 <=? fresh then acquire_card (v_es v) p e q fresh else None, v)
  else (None, v).

Definition sremfb_evdi_acquire v (p : nat) e (q : acq_env)
    : option (SremfbEvdiState * SremfbEvdiClient) * evdi_srv :=
  match acquire_pooled (v_es v) p e false with
  | Some r => (Some r, v)
  | None =>
    let '(r, v) := acquire_fresh v p e q in
    match r with
    | Some r => (Some r, v)
    | None =>
      let '(r, v) := acquire_any (Z.to_nat EVDI_MAX_CARDS) v p e q 0 in
      match r with
      | Some r => (Some r, v)
      | None => (acquire_pooled (v_es v) p e true, v)
      end
    end
  end.

Definition sremfb_evdi_release (s : SremfbEvdiState) e : SremfbEvdiState * SremfbEvdiClient :=
  match ec_dev e with
  | Some d => (s⟨es_devices ::= alter (λ x, x⟨dv_owner := None⟩) d⟩, e⟨ec_dev := None⟩)
  | None => (s, e)
  end.

(** ** struct sremfb_source_ops *)
Definition evdi_source_acquire v (p : nat) c (q : acq_env)
    : Z * evdi_srv * SremfbClient * option SremfbEvdiClient :=
  let '(s, g) := plug_gate (v_es v) (aq_shell q) (aq_now q) in
  let v := v⟨v_es := s⟩ in
  if negb (pg_verdict g =? GATE_OPEN) then (SREMFB_STATUS_SERVER_FAIL, v, c, None)
  else
    let '(r, v) := sremfb_evdi_acquire v p new_evdi_client q in
    match r with
    | None => (SREMFB_STATUS_NO_DEVICE, v, c, None)
    | Some (s, e) =>
      let v := v⟨v_es := s⟩ in
      let c := c⟨c_connector := aq_connector q⟩ in
      let '(v, c, e) := sremfb_evdi_plug v c e (aq_plug_shell q) (aq_plug_now q) in
      (SREMFB_STATUS_OK, v, c, Some e)
    end.

Definition evdi_source_release v c (oe : option SremfbEvdiClient) : evdi_srv * SremfbClient :=
  match oe with
  | None => (v, c)
  | Some e =>
    let '(c, e) := sremfb_evdi_unplug c e in
    let '(s, _) := sremfb_evdi_release (v_es v) e in
    (v⟨v_es := s⟩, c)
  end.

(** The backend as the session sees it: its state, and what it keeps for
    each client.  [answers] is the system, [gate] its clock and compositor
    when a connection comes. *)
Definition evdi_src : Type := evdi_srv * list (nat * SremfbEvdiClient).

Definition find_ctx (p : nat) (l : list (nat * SremfbEvdiClient)) : option SremfbEvdiClient :=
  snd <$> (snd <$> list_find (λ x, x.1 = p) l).

Definition sremfb_evdi_ops (answers : evdi_src → nat → acq_env) (gate : evdi_src → Z * Z)
    : SourceOps := {|
  src_t := evdi_src;
  src_acquire := λ a p c,
    let '(st, v, c, oe) := evdi_source_acquire a.1 p c (answers a p) in
    (st, (v, match oe with Some e => a.2 ++ [(p, e)] | None => a.2 end), c);
  src_admit := Some (λ a,
    let '(sh, now) := gate a in
    let '(st, s) := evdi_source_admit (v_es a.1) sh now in (st, (a.1⟨v_es := s⟩, a.2)));
  src_release := λ a p c,
    ((evdi_source_release a.1 c (find_ctx p a.2)).1, filter (λ x, x.1 ≠ p) a.2) |}.
End pool.
