(* ===== verification/EvdiTx.v ===== *)
(** * What the EVDI connector does to its client (evdi/evdi.c)

    [cursor_ok c e desk]: the grab buffer is the desktop [desk] with the
    cursor blended in, and what the cursor covers is saved.  Every handler
    keeps it, and reports to the transmit queue all that changed. *)
From S2P Require Import Prelude Binary64 Protocol Core Convert Encoder Net Xmit Control Drain.
From S2P Require Import XmitSpec Dirty Coverage ViewH264 ViewNet Blit Paint.
From S2P Require Import Stream OutReady Link ViewRead Mirror.
From S2P Require Import Served EvdiGate EvdiCursor EvdiBlend EvdiCards Evdi.
From stdpp Require Import list relations.
#[local] Open Scope list_scope.
#[local] Open Scope Z_scope.

Section tx.
Context `{X : X264} `{L : LZ4} `{P : Platform}.
Implicit Types (c : SremfbClient) (e : SremfbEvdiClient) (desk : bytes).
#[local] Abbreviation W c := (g_width (c_geom c)).
#[local] Abbreviation H c := (g_height (c_geom c)).

(** The desktop with the cursor on it. *)
Definition composed c e desk : bytes :=
  match cursor_rect c e, ec_cur_pix e with
  | Some r, Some pix => drawn_frame (W c) e pix r desk
  | _, _ => desk
  end.

(** What cursor_draw() returns. *)
Definition shown_rect c e : option sremfb_rect :=
  match cursor_rect c e, ec_cur_pix e with Some r, Some _ => Some r | _, _ => None end.

Definition rect_area (r : sremfb_rect) : Z := (x2 r - x1 r) * (y2 r - y1 r).

(** The connector is set up. *)
Definition ready c e : Prop :=
  geom_ok (c_geom c) ∧ is_Some (c_grabbuf c) ∧ ec_grab_registered e = true ∧
  ec_mode_valid e = true ∧ Z.of_nat (length (ec_cur_under e)) = ec_cur_under_size e * 4.

Record cursor_ok c e desk : Prop := {
  co_ready : ready c e;
  co_len : Z.of_nat (length desk) = frame_size c;
  co_grab : c_grabbuf c = Some (composed c e desk);
  co_drawn : ec_cur_drawn e = bool_decide (is_Some (shown_rect c e));
  co_saved r : shown_rect c e = Some r → ec_cur_rect e = r ∧
    ∃ u, ec_cur_under e = saved_rows (W c) r desk u ∧ rect_area r * 4 ≤ Z.of_nat (length u) }.

(** Before the first grab of a mode the cursor may still be missing. *)
Definition bare_ok c e desk : Prop :=
  ready c e ∧ Z.of_nat (length desk) = frame_size c ∧ c_grabbuf c = Some desk ∧
  ec_cur_drawn e = false.

Definition cursor_inv c e desk (first : bool) : Prop :=
  cursor_ok c e desk ∨ first = true ∧ bare_ok c e desk.

(** What is in the grab buffer, and where the cursor is in it. *)
Definition buffer c e desk : bytes := if ec_cur_drawn e then composed c e desk else desk.
Definition old_rect c e : option sremfb_rect := if ec_cur_drawn e then shown_rect c e else None.

Lemma cursor_rect_inside c e r :
  cursor_rect c e = Some r → rect_inside (W c) (H c) r.
Proof.
  unfold cursor_rect. case_match; [done|]. cbv zeta. cbn [x1 x2 y1 y2].
  destruct (_ <? _) eqn:E1; [|done]. destruct (Z.max (ec_cur_y e) 0 <? _) eqn:E2; [|done].
  cbn [andb]. intros [= <-]. unfold rect_inside. cbn [x1 x2 y1 y2]. lia.
Qed.

Lemma shown_inside c e r : shown_rect c e = Some r →
  ∃ pix, ec_cur_pix e = Some pix ∧ cursor_rect c e = Some r ∧ rect_inside (W c) (H c) r.
Proof.
  unfold shown_rect. intros Es. destruct (cursor_rect c e) as [r'|] eqn:E; [|done].
  destruct (ec_cur_pix e) as [pix|]; [|done]. injection Es as ->. exists pix.
  by eauto using cursor_rect_inside.
Qed.

Lemma composed_shown c e desk r pix :
  shown_rect c e = Some r → ec_cur_pix e = Some pix →
  composed c e desk = drawn_frame (W c) e pix r desk.
Proof.
  unfold shown_rect, composed. intros Es Hp. rewrite Hp in *.
  destruct (cursor_rect c e); [by injection Es as ->|done].
Qed.

Lemma composed_hidden c e desk : shown_rect c e = None → composed c e desk = desk.
Proof. unfold shown_rect, composed. by repeat case_match. Qed.

(** Only this matters of the client and of the cursor. *)
Lemma shown_eq c c' e e' :
  c_geom c' = c_geom c → is_Some (c_grabbuf c) → is_Some (c_grabbuf c') →
  ec_cur_on e' = ec_cur_on e → ec_mode_valid e' = ec_mode_valid e →
  (ec_cur_x e', ec_cur_y e', ec_cur_w e', ec_cur_h e') = (ec_cur_x e, ec_cur_y e, ec_cur_w e, ec_cur_h e) →
  cursor_rect c' e' = cursor_rect c e.
Proof.
  unfold cursor_rect. intros -> Hg Hg' -> -> [= -> -> -> ->]. by rewrite !bool_decide_eq_true_2.
Qed.

Lemma composed_length c e desk :
  geom_ok (c_geom c) → Z.of_nat (length desk) = frame_size c →
  length (composed c e desk) = length desk.
Proof.
  unfold geom_ok, frame_size. intros Hg Hl. destruct (shown_rect c e) as [r|] eqn:Es.
  - destruct (shown_inside c e r Es) as (pix&Hp&_&Hr). rewrite (composed_shown c e desk r pix) by done.
    exact (proj1 (drawn_lookup (W c) (H c) ltac:(lia) e pix r desk 0 Hr Hl)).
  - by rewrite composed_hidden.
Qed.

(** ** Lifting *)
Lemma client_grab_eta c g : c_grabbuf c = Some g → c⟨c_grabbuf := Some g⟩ = c.
Proof. intros <-. by destruct c. Qed.

Lemma inv_fields c e desk first :
  cursor_inv c e desk first →
  ready c e ∧ Z.of_nat (length desk) = frame_size c ∧ c_grabbuf c = Some (buffer c e desk).
Proof.
  unfold buffer. intros [[Hr Hl Hc Hd Hs]|[_ (Hr&Hl&Hc&Hd)]]; [|by rewrite Hd].
  split_and!; [done..|]. rewrite Hd, Hc. case_bool_decide as Hn; [done|]. f_equal.
  apply composed_hidden. apply eq_None_not_Some, Hn.
Qed.

Lemma ok_buffer c e desk : cursor_ok c e desk →
  buffer c e desk = composed c e desk ∧ old_rect c e = shown_rect c e.
Proof.
  intros [_ _ _ Hd _]. unfold buffer, old_rect. rewrite Hd. case_bool_decide as Hn; [done|].
  apply eq_None_not_Some in Hn. by rewrite composed_hidden.
Qed.

Lemma lift_ok c e desk first : cursor_inv c e desk first →
  cursor_lift c e = (old_rect c e, c⟨c_grabbuf := Some desk⟩, e⟨ec_cur_drawn := false⟩).
Proof.
  intros [Hok|[_ (_&_&Hg&Hd)]].
  2:{ unfold cursor_lift, old_rect. rewrite Hd, (client_grab_eta c desk Hg). cbn [negb].
      rewrite <- Hd. by destruct e. }
  rewrite (proj2 (ok_buffer c e desk Hok)). destruct Hok as [(Hg&_&_) Hl Hc Hd Hs].
  unfold cursor_lift. destruct (shown_rect c e) as [r|] eqn:Es.
  - rewrite Hd, bool_decide_eq_true_2, Hc by done. cbn [negb].
    destruct (Hs r eq_refl) as (->&u&Hu&Hlu). destruct (shown_inside c e r Es) as (pix&Hp&_&Hr).
    change (ec_cur_under e⟨ec_cur_drawn := false⟩) with (ec_cur_under e).
    rewrite (composed_shown c e desk r pix), Hu by done. unfold geom_ok, frame_size in *.
    by rewrite (lift_drawn (W c) (H c)) by (done || lia).
  - rewrite Hd, bool_decide_eq_false_2 by (by intros [? ?]). cbn [negb].
    rewrite (composed_hidden c e desk Es) in Hc. rewrite (client_grab_eta c desk Hc).
    rewrite bool_decide_eq_false_2 in Hd by (by intros [? ?]). rewrite <- Hd. by destruct e.
Qed.

(** ** Drawing *)
Definition undrawn e : SremfbEvdiClient := e⟨ec_cur_drawn := false⟩.

Lemma draw_ok c e desk :
  ready c e → ec_cur_drawn e = false → c_grabbuf c = Some desk →
  Z.of_nat (length desk) = frame_size c →
  let '(new, c', e') := cursor_draw c e in
  new = shown_rect c e ∧ c' = c⟨c_grabbuf := Some (composed c e desk)⟩ ∧
  cursor_ok c' e' desk ∧ ec_kick_id e' = ec_kick_id e ∧
  ec_update_pending e' = ec_update_pending e ∧ shown_rect c' e' = shown_rect c e.
Proof.
  intros Hr Hd Hg Hl. pose proof Hr as (Hge&Hgs&Hreg&Hmv&Hun). unfold cursor_draw. rewrite Hd, Hg.
  destruct (shown_rect c e) as [r|] eqn:Es.
  2:{ rewrite (composed_hidden c e desk Es). pose proof Es as Es'. unfold shown_rect in Es'.
      assert (cursor_ok c e desk).
      { split; [done|done|by rewrite composed_hidden| |by rewrite Es].
        rewrite Es, Hd. symmetry. by apply bool_decide_eq_false_2; intros [? ?]. }
      repeat case_match; try done; rewrite (client_grab_eta c desk Hg); done. }
  destruct (shown_inside c e r Es) as (pix&Hp&Hcr&Hin). rewrite Hcr, Hp.
  set (e1 := under_grow e _). pose proof Hin as (I1&I2&I3&I4).
  assert (Hu1 : rect_area r * 4 ≤ Z.of_nat (length (ec_cur_under e1)) ∧
    Z.of_nat (length (ec_cur_under e1)) = ec_cur_under_size e1 * 4).
  { subst e1. unfold under_grow, rect_area. case_match; cbn; rewrite ?length_replicate; nia. }
  unfold geom_ok, frame_size in *.
  assert (Ed : draw_rows (W c) e1 pix r desk (ec_cur_under e1) =
    (drawn_frame (W c) e pix r desk, saved_rows (W c) r desk (ec_cur_under e1))).
  { rewrite (draw_rows_eq (W c) (H c)) by (done || lia). f_equal. subst e1. unfold under_grow.
    by case_match. }
  rewrite Ed. set (e2 := _⟨ec_cur_drawn := true⟩). set (c1 := c⟨c_grabbuf := _⟩).
  assert (ec_cur_pix e2 = ec_cur_pix e ∧ ec_kick_id e2 = ec_kick_id e ∧
    ec_update_pending e2 = ec_update_pending e ∧ ec_grab_registered e2 = ec_grab_registered e ∧
    ec_mode_valid e2 = ec_mode_valid e) as (F1&F2&F3&F4&F5).
  { subst e2 e1. unfold under_grow. by case_match. }
  assert (Ecr : cursor_rect c1 e2 = Some r).
  { rewrite <- Hcr. subst e2 e1. unfold under_grow. by case_match; apply shown_eq. }
  assert (Ef : ∀ d, drawn_frame (W c) e2 pix r d = drawn_frame (W c) e pix r d).
  { subst e2 e1. unfold under_grow. by case_match. }
  assert (Ec : ∀ d, composed c1 e2 d = composed c e d).
  { intros d. unfold composed. rewrite Ecr, Hcr, F1, Hp. apply Ef. }
  assert (Es2 : shown_rect c1 e2 = Some r) by (unfold shown_rect; by rewrite Ecr, F1, Hp).
  assert (E0 : composed c e desk = drawn_frame (W c) e pix r desk) by (by apply composed_shown).
  split_and!; [done|by rewrite E0| |done|done|done].
  split; [|done|by rewrite Ec, E0|by rewrite Es2|].
  - split_and!; [done|by eexists|congruence|congruence|].
    change (Z.of_nat (length (saved_rows (W c) r desk (ec_cur_under e1))) = ec_cur_under_size e1 * 4).
    rewrite (length_saved_rows (W c) (H c)); [apply Hu1|lia|done|lia|]. apply Hu1.
  - intros r' Hr'. rewrite Es2 in Hr'. injection Hr' as <-. split; [done|].
    exists (ec_cur_under e1). split; [done|]. apply Hu1.
Qed.

(** ** A client that is being dropped *)
Definition dead c : Prop := c_fd c < 0 ∨ c_state c ≠ STREAMING ∨ c_lost_id c ≠ 0.

Lemma vis_dead c c' : vis c' = vis c → dead c → dead c'.
Proof.
  unfold vis. intros E. injection E as E1 E2 E3. unfold dead. intros. congruence || (rewrite E1, E2, E3; done).
Qed.

Lemma kick_dead c : dead c → dead (sremfb_xmit_kick c).
Proof. unfold dead, sremfb_xmit_kick. intros. case_match; [done|]. by case_match. Qed.

Lemma ctrl_dead c m : dead c → dead (sremfb_xmit_ctrl c m).
Proof. unfold sremfb_xmit_ctrl. intros. case_match; [done|]. by apply kick_dead. Qed.

Lemma xstep_dead c c' : xstep c c' → dead c → dead c'.
Proof.
  induction 1 as [c c' Hv|c c1 c' _ IH1 _ IH2|c m _|c m|c|c]; intros Hd.
  - by eapply vis_dead.
  - auto.
  - by apply ctrl_dead.
  - unfold sremfb_xmit_set_mode. destruct (_ || _); [done|]. destruct m.
    + apply kick_dead. unfold dead. cbn. apply ctrl_dead. exact Hd.
    + by repeat case_match; simplify_eq.
  - by apply kick_dead.
  - unfold sremfb_schedule_client_lost, dead in *. destruct (_ =? 0) eqn:E; [|done].
    destruct Hd as [?|[?|?]]; [by left|by right; left|lia].
Qed.

Lemma damage_dead c rects bpp : dead c → dead (sremfb_xmit_damage c rects bpp).
Proof.
  intros Hd. unfold sremfb_xmit_damage.
  assert (E : ∀ rects c raw, dead c → dead (foldl (damage_one bpp) (c, raw) rects).1).
  { clear. induction rects as [|r rects IH]; intros c raw Hd; [done|]. cbn [foldl].
    destruct (damage_one bpp (c, raw) r) as [c1 raw1] eqn:Hdm. apply IH.
    unfold damage_one, dirty_add in Hdm. by repeat case_match; simplify_eq. }
  specialize (E rects c 0 Hd). destruct (foldl _ _ _) as [c1 raw]. cbn [fst] in E.
  case_match; [done|]. eapply xstep_dead; [apply damage_kick_xstep|exact E].
Qed.

(** ** The connector with its client *)
Record ev_world := mk_ev {
  w_c : SremfbClient; w_e : SremfbEvdiClient; w_desk : bytes; w_first : bool }.

(** [w_first]: nothing was grabbed yet since the mode was set. *)
Definition ev_inv (w : ev_world) : Prop :=
  cursor_inv (w_c w) (w_e w) (w_desk w) (w_first w) ∧
  ∃ b, served (w_c w) b ∧ (b = true → w_first w = true ∨ dead (w_c w)).

Lemma cursor_ok_client c c' e desk :
  c_geom c' = c_geom c → c_grabbuf c' = c_grabbuf c → cursor_ok c e desk → cursor_ok c' e desk.
Proof.
  intros Hg Hb [Hr Hl Hc Hd Hs].
  assert (Ecr : cursor_rect c' e = cursor_rect c e) by (unfold cursor_rect; by rewrite Hg, Hb).
  assert (Es : shown_rect c' e = shown_rect c e) by (unfold shown_rect; by rewrite Ecr).
  assert (Ec : composed c' e desk = composed c e desk) by (unfold composed; by rewrite Ecr, Hg).
  split.
  - unfold ready in *. by rewrite Hg, Hb.
  - unfold frame_size in *. by rewrite Hg.
  - by rewrite Hb, Ec.
  - by rewrite Es.
  - rewrite Es. intros r Hr'. rewrite Hg. by apply Hs.
Qed.

Lemma cursor_inv_client c c' e desk first :
  c_geom c' = c_geom c → c_grabbuf c' = c_grabbuf c →
  cursor_inv c e desk first → cursor_inv c' e desk first.
Proof.
  intros Hg Hb [Hok|[Hf (Hr&Hl&Hc&Hd)]]; [left; by eapply cursor_ok_client|right].
  split; [done|]. unfold bare_ok, ready, frame_size in *. by rewrite Hg, Hb.
Qed.

(** Bookkeeping of the update loop. *)
Definition e_view e := (ec_grab_registered e, ec_mode_valid e, (ec_cur_on e, ec_cur_x e, ec_cur_y e,
  ec_cur_w e, ec_cur_h e, ec_cur_stride e, ec_cur_pix e),
  (ec_cur_drawn e, ec_cur_rect e, ec_cur_under e, ec_cur_under_size e)).

Lemma cursor_inv_view c e e' desk first :
  e_view e' = e_view e → cursor_inv c e desk first → cursor_inv c e' desk first.
Proof.
  destruct e, e'. unfold e_view. cbn. intros E. injection E as -> -> -> -> -> -> -> -> -> -> -> -> ->.
  intros [[Hr Hl Hc Hd Hs]|Hb]; [left; by split|by right].
Qed.

(** ** What the transmit queue is told *)
Lemma ev_damage c e e' desk desk' first g' (rects : list sremfb_rect) :
  ev_inv (mk_ev c e desk first) → Z.of_nat (length g') = frame_size c →
  (∀ g j, c_grabbuf c = Some g → g' !! j ≠ g !! j →
    ∃ r, r ∈ rects ∧ in_rect (stride_of c) r (Z.of_nat j)) →
  cursor_ok c⟨c_grabbuf := Some g'⟩ e' desk' →
  ev_inv (mk_ev (sremfb_xmit_damage c⟨c_grabbuf := Some g'⟩ rects (client_bytespp c)) e' desk' first).
Proof.
  intros [_ (b&Hs&Hb)] Hl Hd Hc. destruct (damage_grab c⟨c_grabbuf := Some g'⟩ rects (client_bytespp c))
    as [E1 E2]. split; [left; by eapply cursor_ok_client|]. exists b. cbn in *. split.
  - eapply served_step; [exact Hs|]. apply rtc_once, tx_damage. split; [done|].
    intros old Hold i. by apply Hd.
  - intros Hbt. destruct (Hb Hbt); [by left|right]. by apply damage_dead.
Qed.

(** Nothing is told about a frame of a client that is being dropped. *)
Lemma ev_silent c e e' desk desk' first first' g' :
  ev_inv (mk_ev c e desk first) → Z.of_nat (length g') = frame_size c → dead c →
  cursor_ok c⟨c_grabbuf := Some g'⟩ e' desk' →
  ev_inv (mk_ev c⟨c_grabbuf := Some g'⟩ e' desk' first').
Proof.
  intros [_ (b&Hs&_)] Hl Hd Hc. split; [by left|]. exists true. cbn. split; [|by right].
  eapply served_run; [exact Hs|]. by apply rtc_once, ta_silent.
Qed.

Lemma ev_quiet c c' e e' desk first :
  vis c' = vis c → e_view e' = e_view e →
  ev_inv (mk_ev c e desk first) → ev_inv (mk_ev c' e' desk first).
Proof.
  intros Hv He [Hc (b&Hs&Hb)]. pose proof Hv as Hv'. unfold vis in Hv'. cbn in *.
  injection Hv' as _ _ Est _ Eg Egr _ _ _ _ _ _ _ _ _ _ _ _ _ _ _ _ _ _ _ _ _ _ _ _ _.
  split; [eapply cursor_inv_view; [done|by eapply cursor_inv_client]|].
  exists b. cbn. split.
  - eapply served_step; [exact Hs|]. apply rtc_once, tx_quiet. rewrite Hv. destruct c. cbn in *. by subst.
  - intros Hbt. destruct (Hb Hbt); [by left|right]. by eapply vis_dead.
Qed.
End tx.
