(* ===== verification/EvdiSys.v ===== *)
(** * The EVDI connector with its client

    [ev_step] is what can happen to a client whose mode is set: the handlers
    of its device's events, the deferred update request, the client's own
    transmit steps.  The invariant of EvdiTx.v holds in every reachable
    state. *)
From S2P Require Import Prelude Binary64 Protocol Core Convert Encoder Net Xmit Control.
From S2P Require Import Drain XmitSpec Dirty Coverage ViewH264 ViewNet Blit ViewRead.
From S2P Require Import Paint Stream OutReady Link Mirror Session.
From S2P Require Import Served EvdiGate EvdiCursor EvdiBlend EvdiCards Evdi EvdiTx.
From stdpp Require Import list relations.
#[local] Open Scope list_scope.
#[local] Open Scope Z_scope.

Section sys.
Context `{X : X264} `{L : LZ4} `{P : Platform} `{!X264Laws X}.
Implicit Types (c : SremfbClient) (e : SremfbEvdiClient) (desk : bytes).
#[local] Abbreviation W c := (g_width (c_geom c)).
#[local] Abbreviation H c := (g_height (c_geom c)).

Lemma composed_outside c e desk (j : nat) :
  geom_ok (c_geom c) → Z.of_nat (length desk) = frame_size c →
  (∀ r, shown_rect c e = Some r → ¬ in_rect (stride_of c) r (Z.of_nat j)) →
  composed c e desk !! j = desk !! j.
Proof.
  unfold geom_ok, frame_size. intros Hg Hl Hj. destruct (shown_rect c e) as [r|] eqn:Es.
  - destruct (shown_inside c e r Es) as (pix&Hp&_&Hr). rewrite (composed_shown c e desk r pix) by done.
    apply (drawn_outside (W c) (H c)); [lia|done|done|]. by apply Hj.
  - by rewrite composed_hidden.
Qed.

Lemma buffer_outside c e desk (j : nat) :
  geom_ok (c_geom c) → Z.of_nat (length desk) = frame_size c →
  (∀ r, old_rect c e = Some r → ¬ in_rect (stride_of c) r (Z.of_nat j)) →
  buffer c e desk !! j = desk !! j.
Proof. unfold buffer, old_rect. case_match; [apply composed_outside|done]. Qed.

Lemma buffer_hidden c e desk : old_rect c e = None → buffer c e desk = desk.
Proof. unfold buffer, old_rect. case_match; [apply composed_hidden|done]. Qed.

Lemma composed_change c e desk desk' (rects : list sremfb_rect) :
  geom_ok (c_geom c) → Z.of_nat (length desk) = frame_size c → length desk' = length desk →
  (∀ j : nat, desk' !! j ≠ desk !! j → ∃ r, r ∈ rects ∧ in_rect (stride_of c) r (Z.of_nat j)) →
  ∀ j : nat, composed c e desk' !! j ≠ composed c e desk !! j →
    ∃ r, r ∈ rects ∧ in_rect (stride_of c) r (Z.of_nat j).
Proof.
  unfold geom_ok, frame_size. intros Hg Hl Hl' Hd j. destruct (shown_rect c e) as [r|] eqn:Es.
  - destruct (shown_inside c e r Es) as (pix&Hp&_&Hr). rewrite !(composed_shown c e _ r pix) by done.
    apply (drawn_change (W c) (H c)); [lia|done..].
  - rewrite !composed_hidden by done. apply Hd.
Qed.

Lemma composed_grab c e g d :
  is_Some (c_grabbuf c) → composed c⟨c_grabbuf := Some g⟩ e⟨ec_cur_drawn := false⟩ d = composed c e d.
Proof.
  intros Hg. unfold composed. rewrite (shown_eq c c⟨c_grabbuf := Some g⟩ e e⟨ec_cur_drawn := false⟩) by done.
  done.
Qed.

(** ** The grab *)
(** What libevdi promises of a grab: only the pixels of the rects reported
    changed in the buffer, and the first grab after a mode change reports
    all of the screen. *)
Definition grab_fits c e (first : bool) (a : grab_ans) : Prop :=
  Z.of_nat (length (ga_buf a)) = frame_size c ∧
  if first
  then ∀ i : nat, (i < length (ga_buf a))%nat →
         ∃ r, r ∈ ga_rects a ∧ in_rect (stride_of c) r (Z.of_nat i)
  else ∀ bare, c_grabbuf (cursor_lift c e).1.2 = Some bare →
         ∀ i : nat, ga_buf a !! i ≠ bare !! i →
         ∃ r, r ∈ ga_rects a ∧ in_rect (stride_of c) r (Z.of_nat i).

Lemma grab_pixels_ok c e desk first a :
  cursor_inv c e desk first → Z.of_nat (length (ga_buf a)) = frame_size c →
  let '(c', e') := grab_pixels c e a in
  c' = c⟨c_grabbuf := Some (composed c e (ga_buf a))⟩ ∧ cursor_ok c' e' (ga_buf a).
Proof.
  intros Hc Hl. pose proof (inv_fields c e desk first Hc) as ((Hg&Hgs&Hreg&Hmv&Hun)&_&_).
  unfold grab_pixels. rewrite (lift_ok c e desk first Hc). set (c1 := _⟨c_grabbuf := Some (ga_buf a)⟩).
  pose proof (draw_ok c1 e⟨ec_cur_drawn := false⟩ (ga_buf a)) as Hd.
  destruct (cursor_draw c1 _) as [[new c'] e'].
  destruct Hd as (_&->&Hok&_); [split_and!; [done|by eexists|done..]|done|done|done|].
  assert (E : composed c1 e⟨ec_cur_drawn := false⟩ (ga_buf a) = composed c e (ga_buf a))
    by (by apply (composed_grab c e)).
  rewrite E in *. split; [done|exact Hok].
Qed.

Lemma send_stats_vis c : vis (send_stats c) = vis c.
Proof. unfold send_stats, g_get_monotonic_time. by case_match. Qed.

Lemma frame_bytes c : geom_ok (c_geom c) → 0 < frame_size c.
Proof. unfold geom_ok, frame_size. nia. Qed.

Lemma grab_and_send_inv c e desk first a :
  ev_inv (mk_ev c e desk first) → grab_fits c e first a →
  let '(c', e') := grab_and_send c e a in ev_inv (mk_ev c' e' (ga_buf a) false).
Proof.
  intros Hi [Hl Hch]. pose proof Hi as [Hc (b&Hs&Hb)]. cbn in Hc, Hs, Hb.
  pose proof (inv_fields c e desk first Hc) as ((Hg&Hgs&Hreg&_)&Hld&Hgr). unfold grab_and_send. rewrite Hreg. cbn [negb].
  rewrite (lift_ok c e desk first Hc) in Hch. cbn [fst snd] in Hch.
  pose proof (grab_pixels_ok c e desk first a Hc Hl) as Hp. destruct (grab_pixels c e a) as [c1 e1].
  destruct Hp as [-> Hok]. set (g' := composed c e (ga_buf a)) in *.
  assert (Hlg : Z.of_nat (length g') = frame_size c) by (subst g'; by rewrite composed_length).
  destruct (_ || _) eqn:Hskip.
  { apply orb_true_iff in Hskip as [[Hn|Hfd]%orb_true_iff|Hst].
    - apply bool_decide_eq_true in Hn. rewrite Hn in Hch. pose proof (frame_bytes c Hg). destruct first.
      { destruct (Hch 0%nat ltac:(lia)) as (?&[]%not_elem_of_nil&_). }
      assert (ga_buf a = desk) as Ed.
      { apply list_eq. intros i. destruct (decide (ga_buf a !! i = desk !! i)) as [|Hne]; [done|].
        destruct (Hch desk eq_refl i Hne) as (?&[]%not_elem_of_nil&_). }
      destruct Hc as [Hc|[? _]]; [|done]. destruct (ok_buffer c e desk Hc) as [Eb _].
      subst g'. rewrite Ed, <- Eb, <- Hgr in *. replace (c⟨c_grabbuf := c_grabbuf c⟩) with c in *
        by (by destruct c). split; [by left|]. exists b. cbn. split; [done|]. exact Hb.
    - eapply ev_silent; [exact Hi|done|left; cbn in Hfd; lia|done].
    - eapply ev_silent; [exact Hi|done| |done]. right. left. cbn in Hst.
      by apply negb_true_iff, bool_decide_eq_false in Hst. }
  set (c2 := c⟨c_st_grabs ::= Z.succ⟩).
  assert (Hi2 : ev_inv (mk_ev c2 e desk first)) by (by eapply ev_quiet; [..|exact Hi]).
  change (c⟨c_grabbuf := Some g'⟩⟨c_st_grabs ::= Z.succ⟩) with (c2⟨c_grabbuf := Some g'⟩).
  change (client_bytespp c2⟨c_grabbuf := Some g'⟩) with (client_bytespp c2).
  eapply ev_quiet; [apply send_stats_vis|done|].
  assert (Hok2 : cursor_ok c2⟨c_grabbuf := Some g'⟩ e1 (ga_buf a)) by (by eapply cursor_ok_client; [..|exact Hok]).
  destruct first.
  - destruct Hi2 as [_ (b2&Hs2&_)]. cbn in Hs2. clear Hi.
    destruct (damage_grab c2⟨c_grabbuf := Some g'⟩ (ga_rects a) (client_bytespp c2)) as [E1 E2].
    split; [left; by eapply cursor_ok_client|]. exists false. cbn [w_c]. split; [|done].
    eapply served_run; [exact Hs2|]. apply rtc_once, ta_full. split; [done|].
    intros i Hlt. apply Hch. lia.
  - eapply ev_damage; [exact Hi2|done| |exact Hok2]. intros g j Hgj Hne.
    destruct Hc as [Hc|[? _]]; [|done]. destruct (ok_buffer c e desk Hc) as [Eb _].
    change (c_grabbuf c = Some g) in Hgj. rewrite Hgr, Eb in Hgj. injection Hgj as <-.
    eapply (composed_change c e desk (ga_buf a)); [done|done|lia|by apply Hch|exact Hne].
Qed.

(** ** The update loop *)
Ltac quiet Hi := eapply ev_quiet; [..|exact Hi].
Lemma arm_kick_inv c e desk first :
  ev_inv (mk_ev c e desk first) →
  let '(c', e') := arm_kick c e in ev_inv (mk_ev c' e' desk first).
Proof.
  intros Hi. unfold arm_kick, g_source_new. destruct (_ =? 0); [|exact Hi].
  by quiet Hi.
Qed.

(** The grab that a kick does, when the update is ready. *)
Definition kick_grab c e (req : option grab_ans) : option grab_ans :=
  if negb (bool_decide (c_state c = STREAMING)) || negb (ec_grab_registered e) ||
     (c_fd c <? 0) || ec_update_pending e || negb (c_lost_id c =? 0)
  then None else req.
Definition grab_desk desk (g : option grab_ans) : bytes :=
  match g with Some a => ga_buf a | None => desk end.
Definition grab_first (first : bool) (g : option grab_ans) : bool :=
  match g with Some _ => false | None => first end.

Lemma kick_inv c e desk first req :
  ev_inv (mk_ev c e desk first) →
  (∀ a, kick_grab c e req = Some a → grab_fits c e first a) →
  let '(c', e') := sremfb_evdi_kick c e req in
  ev_inv (mk_ev c' e' (grab_desk desk (kick_grab c e req)) (grab_first first (kick_grab c e req))).
Proof.
  intros Hi. unfold sremfb_evdi_kick, kick_grab. destruct (_ || _); [done|].
  destruct req as [a|]; intros Ha; [|by quiet Hi].
  pose proof (grab_and_send_inv c e desk first a Hi (Ha a eq_refl)) as Hg.
  destruct (grab_and_send c e a) as [c1 e1]. by apply arm_kick_inv.
Qed.

Lemma grab_fits_view c e e' first a :
  e_view e' = e_view e → grab_fits c e first a → grab_fits c e' first a.
Proof.
  intros He. unfold grab_fits. assert (E : (cursor_lift c e').1.2 = (cursor_lift c e).1.2).
  { destruct e, e'. unfold e_view in He. cbn in He.
    injection He as -> -> -> -> -> -> -> -> -> -> -> -> ->. unfold cursor_lift. cbn. by repeat case_match. }
  by rewrite E.
Qed.

Lemma update_ready_inv c e desk first a :
  ev_inv (mk_ev c e desk first) → grab_fits c e first a →
  let '(c', e') := on_update_ready c e a in ev_inv (mk_ev c' e' (ga_buf a) false).
Proof.
  intros Hi Ha. unfold on_update_ready.
  pose proof (grab_and_send_inv c e⟨ec_update_pending := false⟩ desk first a) as Hg.
  destruct (grab_and_send _ _ a) as [c1 e1]. apply arm_kick_inv, Hg; [by quiet Hi|].
  by eapply grab_fits_view; [|exact Ha].
Qed.

(** ** The cursor *)
Lemma repaint_cursor_inv c e desk first e1 :
  ev_inv (mk_ev c e desk first) → ready c e1 → ec_cur_drawn e1 = false →
  let '(c', e') := cursor_repaint c⟨c_grabbuf := Some desk⟩ e1 (old_rect c e) in
  ev_inv (mk_ev c' e' desk first).
Proof.
  intros Hi Hr1 Hd1. pose proof Hi as [Hc (b&Hs&Hb)]. cbn in Hc, Hs, Hb.
  pose proof (inv_fields c e desk first Hc) as ((Hg&Hgs&_)&Hld&Hgr). unfold cursor_repaint.
  set (c0 := c⟨c_grabbuf := Some desk⟩). assert (Hr0 : ready c0 e1).
  { destruct Hr1 as (?&_&?&?&?). split_and!; [done|by eexists|done..]. }
  pose proof (draw_ok c0 e1 desk Hr0 Hd1 eq_refl Hld) as Hd.
  destruct (cursor_draw c0 e1) as [[new c'] e']. destruct Hd as (->&->&Hok&_).
  set (g' := composed c0 e1 desk) in *. change (c0⟨c_grabbuf := Some g'⟩) with (c⟨c_grabbuf := Some g'⟩) in *.
  assert (Hlg : Z.of_nat (length g') = frame_size c) by (subst g'; by rewrite composed_length).
  destruct (_ || _) eqn:Hskip.
  { destruct Hok as [(Hg'&Hgs'&Hreg&Hmv&Hu) O2 O3 O4 O5]. rewrite Hreg in Hskip. cbn [negb] in Hskip.
    assert (Hok : cursor_ok c⟨c_grabbuf := Some g'⟩ e' desk) by done.
    rewrite !orb_true_iff, bool_decide_eq_true in Hskip.
    destruct Hskip as [[[[Hn|?]|Hfd]|Hst]|Hlost]; [|done|..].
    - destruct (old_rect c e) eqn:E1, (shown_rect c0 e1) eqn:E2; try done.
      assert (g' = desk) as Eg by (by apply composed_hidden).
      rewrite (buffer_hidden c e desk E1) in Hgr. rewrite Eg in *.
      rewrite (client_grab_eta c desk Hgr) in *. split; [by left|]. by exists b.
    - eapply ev_silent; [exact Hi|done|left; cbn in Hfd; lia|done].
    - eapply ev_silent; [exact Hi|done| |done]. right. left. cbn in Hst.
      by apply negb_true_iff, bool_decide_eq_false in Hst.
    - eapply ev_silent; [exact Hi|done| |done]. right. right. cbn in Hlost. lia. }
  change (client_bytespp c⟨c_grabbuf := Some g'⟩) with (client_bytespp c).
  eapply ev_damage; [exact Hi|done| |exact Hok]. intros g j Hgj Hne. rewrite Hgr in Hgj. injection Hgj as <-.
  set (rects := _ ++ _). destruct (decide (Exists (λ r, in_rect (stride_of c) r (Z.of_nat j)) rects)) as [Hex|Hno].
  { apply Exists_exists in Hex as (r&Hr&Hin). by exists r. }
  exfalso. apply Hne. subst g'.
  assert (Hout : ∀ r, r ∈ rects → ¬ in_rect (stride_of c) r (Z.of_nat j)).
  { intros r Hr Hin. apply Hno, Exists_exists. by exists r. }
  rewrite composed_outside, buffer_outside; [done|done|done| |done|done|];
    intros r Hr; apply Hout; subst rects; rewrite Hr; set_solver.
Qed.

Lemma cursor_set_inv c e desk first cs :
  ev_inv (mk_ev c e desk first) →
  let '(c', e') := on_cursor_set c e cs in ev_inv (mk_ev c' e' desk first).
Proof.
  intros Hi. pose proof Hi as [Hc _]. destruct (inv_fields c e desk first Hc) as (Hr&_&_). unfold on_cursor_set.
  rewrite (lift_ok c e desk first Hc). apply repaint_cursor_inv; [done| |]; case_match; done.
Qed.

Lemma cursor_move_inv c e desk first x y :
  ev_inv (mk_ev c e desk first) →
  let '(c', e') := on_cursor_move c e x y in ev_inv (mk_ev c' e' desk first).
Proof.
  intros Hi. pose proof Hi as [Hc _]. destruct (inv_fields c e desk first Hc) as (Hr&_&_). unfold on_cursor_move.
  rewrite (lift_ok c e desk first Hc). by apply repaint_cursor_inv.
Qed.

(** ** The client's own steps *)
Lemma client_step_ok c c' e desk first :
  tx_step c c' → c_grabbuf c' = c_grabbuf c → (dead c → dead c') →
  ev_inv (mk_ev c e desk first) → ev_inv (mk_ev c' e desk first).
Proof.
  intros Ht Hg Hd [Hc (b&Hs&Hb)]. cbn in *.
  destruct (tx_any_link _ _ (ta_step c c' b Ht) (served_link c b Hs)) as (_&ss&((_&(G&_)&_)&_)).
  cbn [fst] in G. split; [by eapply cursor_inv_client|]. exists b. cbn. split.
  - eapply served_step; [exact Hs|by apply rtc_once].
  - intros Hbt. destruct (Hb Hbt); auto.
Qed.

Lemma ctrl_tx c enc :
  enc = SREMFB_ENC_BLANK ∨ enc = SREMFB_ENC_UNBLANK →
  send_ctrl c enc = c ∨ tx_step c (send_ctrl c enc).
Proof.
  intros He. unfold send_ctrl. case_match; [by left|right].
  destruct He as [->| ->]; [apply (tx_blank c true)|apply (tx_blank c false)].
Qed.

Lemma send_ctrl_inv c e desk first enc :
  enc = SREMFB_ENC_BLANK ∨ enc = SREMFB_ENC_UNBLANK →
  ev_inv (mk_ev c e desk first) → ev_inv (mk_ev (send_ctrl c enc) e desk first).
Proof.
  intros He. destruct (ctrl_tx c enc He) as [->|Ht]; [done|]. apply client_step_ok; [done|..].
  - unfold send_ctrl. case_match; [done|].
    destruct (pix_le_ctrl c (frame_hdr_bytes (frame_hdr_for enc))) as (E&_). exact E.
  - unfold send_ctrl. case_match; [done|]. by apply ctrl_dead.
Qed.

(** ** The steps *)
(** The answers of libevdi keep their contract; a client that is being
    dropped does not come back.  A mode change of a streaming client is not
    among the steps. *)
Inductive ev_step : ev_world → ev_world → Prop :=
  | ev_client c c' e desk first :
      tx_step c c' → c_grabbuf c' = c_grabbuf c → (dead c → dead c') →
      ev_step (mk_ev c e desk first) (mk_ev c' e desk first)
  | ev_update c e desk first a : grab_fits c e first a →
      ev_step (mk_ev c e desk first)
        (let '(c', e') := on_update_ready c e a in mk_ev c' e' (ga_buf a) false)
  | ev_kick c e desk first req (g := kick_grab c e⟨ec_kick_id := 0⟩ req) :
      (∀ a, g = Some a → grab_fits c e first a) →
      ev_step (mk_ev c e desk first)
        (let '(c', e') := kick_idle c e req in mk_ev c' e' (grab_desk desk g) (grab_first first g))
  | ev_cursor_set c e desk first cs :
      ev_step (mk_ev c e desk first)
        (let '(c', e') := on_cursor_set c e cs in mk_ev c' e' desk first)
  | ev_cursor_move c e desk first x y :
      ev_step (mk_ev c e desk first)
        (let '(c', e') := on_cursor_move c e x y in mk_ev c' e' desk first)
  | ev_dpms_off c e desk first req :
      ev_step (mk_ev c e desk first)
        (let '(c', e') := on_dpms c e false req in mk_ev c' e' desk first)
  | ev_dpms_on c e desk first req (g := kick_grab (send_ctrl c SREMFB_ENC_UNBLANK) e req) :
      (∀ a, g = Some a → grab_fits (send_ctrl c SREMFB_ENC_UNBLANK) e first a) →
      ev_step (mk_ev c e desk first)
        (let '(c', e') := on_dpms c e true req in mk_ev c' e' (grab_desk desk g) (grab_first first g))
  | ev_crtc c e desk first req (g := kick_grab c e req) :
      (∀ a, g = Some a → grab_fits c e first a) →
      ev_step (mk_ev c e desk first)
        (let '(c', e') := on_crtc_state c e true req in mk_ev c' e' (grab_desk desk g) (grab_first first g)).

Lemma ev_step_inv w w' : ev_step w w' → ev_inv w → ev_inv w'.
Proof.
  destruct 1 as [c c' e desk first Ht Hg Hd|c e desk first a Ha|c e desk first req g Ha|c e desk first cs
    |c e desk first x y|c e desk first req|c e desk first req g Ha|c e desk first req g Ha]; intros Hi.
  - by eapply client_step_ok.
  - pose proof (update_ready_inv c e desk first a Hi Ha). by destruct (on_update_ready c e a).
  - unfold kick_idle. pose proof (kick_inv c e⟨ec_kick_id := 0⟩ desk first req) as Hk.
    destruct (sremfb_evdi_kick c _ req). apply Hk; [by quiet Hi|].
    intros a Hga. eapply grab_fits_view; [|by apply Ha]. done.
  - pose proof (cursor_set_inv c e desk first cs Hi). by destruct (on_cursor_set c e cs).
  - pose proof (cursor_move_inv c e desk first x y Hi). by destruct (on_cursor_move c e x y).
  - cbn. apply send_ctrl_inv; [by left|done].
  - cbn. pose proof (kick_inv (send_ctrl c SREMFB_ENC_UNBLANK) e desk first req) as Hk.
    destruct (sremfb_evdi_kick _ e req). apply Hk; [|exact Ha]. apply send_ctrl_inv; [by right|done].
  - cbn. pose proof (kick_inv c e desk first req Hi Ha) as Hk. by destruct (sremfb_evdi_kick c e req).
Qed.

Lemma ev_run_inv w w' : rtc ev_step w w' → ev_inv w → ev_inv w'.
Proof. induction 1 as [w|w w1 w' Hs _ IH]; [done|]. intros Hi. by apply IH, (ev_step_inv w). Qed.
End sys.

(** * The first mode of an EVDI client

    From the connection that waits for a mode to a client whose stream has
    started: on_mode_changed() gives the buffers, the hello and the
    invariant of EvdiTx.v. *)
(** sremfb_audio_start() returns flags of one byte and sets the token. *)
Class AudioLaws `{X264} (E : EvdiPeers) := {
  audio_flags c : 0 ≤ (sremfb_audio_start_op c).1 < 256;
  audio_vis c : 0 ≤ c_audio_token c < 65536 →
    let c' := (sremfb_audio_start_op c).2 in vis c' = vis c ∧ 0 ≤ c_audio_token c' < 65536 }.

Section start.
Context `{X : X264} `{L : LZ4} `{P : Platform} `{!X264Laws X} `{Files} `{I : !InputStart}
  `{!InputLaws I} `{E : !EvdiPeers} `{!AudioLaws E}.
Implicit Types (c : SremfbClient) (e : SremfbEvdiClient).

(** A mode that the wire format can carry. *)
Definition mode_ok (m : evdi_mode) : Prop :=
  0 < em_width m < 65536 ∧ 0 < em_height m < 65536 ∧ em_bpp m = 32 ∧
  em_width m * em_height m * 4 ≤ LZ4_MAX_INPUT_SIZE.

(** on_mode_changed() of the connection [c0], the update request included. *)
Inductive ev_start : ev_world → Prop :=
  | ev_mode v c0 e0 m junk t req v' c1 e1 c e
      (e2 := e1⟨ec_mode_timeout_id := 0⟩) (g := kick_grab (mode_hello c1) e2 req) :
      new_conn c0 → c_state c0 = MODE_WAIT → mode_ok m →
      Z.of_nat (length junk) = em_width m * em_height m * 4 →
      Z.of_nat (length (ec_cur_under e0)) = ec_cur_under_size e0 * 4 →
      mode_buffers c0 e0 m junk = (c1, e1) →
      (∀ a, g = Some a → grab_fits (mode_hello c1) e2 true a) →
      on_mode_changed v c0 e0 m junk t req = (v', c, e) →
      ev_start (mk_ev c e (grab_desk junk g) (grab_first true g)).

(** With the first grab done at once. *)
Lemma ev_mode_grab v c0 e0 m junk t a v' c1 e1 c e :
  new_conn c0 → c_state c0 = MODE_WAIT → mode_ok m →
  Z.of_nat (length junk) = em_width m * em_height m * 4 →
  Z.of_nat (length (ec_cur_under e0)) = ec_cur_under_size e0 * 4 →
  mode_buffers c0 e0 m junk = (c1, e1) →
  kick_grab (mode_hello c1) e1⟨ec_mode_timeout_id := 0⟩ (Some a) = Some a →
  grab_fits (mode_hello c1) e1⟨ec_mode_timeout_id := 0⟩ true a →
  on_mode_changed v c0 e0 m junk t (Some a) = (v', c, e) →
  ev_start (mk_ev c e (ga_buf a) false).
Proof.
  intros Hn Hs Hm Hj Hu Hb Hk Hf Hc.
  assert (Ha : ∀ a', kick_grab (mode_hello c1) e1⟨ec_mode_timeout_id := 0⟩ (Some a) = Some a' →
    grab_fits (mode_hello c1) e1⟨ec_mode_timeout_id := 0⟩ true a') by (intros a'; rewrite Hk; by intros [= <-]).
  pose proof (ev_mode v c0 e0 m junk t (Some a) v' c1 e1 c e Hn Hs Hm Hj Hu Hb Ha Hc) as Hw.
  by rewrite Hk in Hw.
Qed.

(** The client the hello is prepared for, with a black frame. *)
Lemma buffers_fresh c0 e0 m junk :
  new_conn c0 → mode_ok m →
  let c1 := (mode_buffers c0 e0 m junk).1 in
  fresh_client c1⟨c_grabbuf := Some (replicate (Z.to_nat (frame_size c1)) 0)⟩
    (replicate (Z.to_nat (frame_size c1)) 0) ∧
  c_fd c1 = c_fd c0 ∧ c_state c1 = c_state c0 ∧ c_lost_id c1 = c_lost_id c0 ∧
  c_audio_token c1 = c_audio_token c0 ∧ c_geom c1 = mk_geom (em_width m) (em_height m) ∧
  c_grabbuf c1 = Some junk.
Proof.
  intros (N1&N2&N3&N4&N5&N6&N7&N8&N9&N10&N11&_) (M1&M2&M3&M4). unfold mode_buffers.
  set (c2 := if _ : bool then _ else _).
  assert (E2 : c_xmit_mode c2 = XMIT_RAW ∧ c_outq c2 = [] ∧ c_outq_off c2 = 0 ∧ c_out_active c2 = false ∧
    c_wire c2 = [] ∧ c_dirty c2 = [] ∧ c_hello c2 = c_hello c0 ∧ c_fd c2 = c_fd c0 ∧
    c_state c2 = c_state c0 ∧ c_lost_id c2 = c_lost_id c0 ∧ c_audio_token c2 = c_audio_token c0).
  { subst c2. unfold sremfb_xmit_reset. by destruct (_ && _). }
  clearbody c2. destruct E2 as (E1&E2&E3&E4&E5&E6&E7&E8&E9&E10&E11). cbv zeta. cbn [fst].
  split_and!; try done. unfold fresh_client, session_ok.
  set (c3 := c2⟨c_geom := _⟩⟨c_grabbuf := _⟩⟨c_shadowbuf := _⟩⟨c_sendbuf := _⟩).
  assert (Ef : frame_size c3 = em_width m * em_height m * 4) by done. rewrite Ef.
  split_and!; try done; [by rewrite <- E7 in N11|by right|].
  rewrite length_replicate, Z2Nat.id by nia. done.
Qed.

Lemma start_op_vis c :
  0 ≤ c_audio_token c < 65536 →
  let '(fi, ca) := sremfb_input_start_op c in
  let '(fa, cb) := sremfb_audio_start_op ca in
  vis cb = vis c⟨c_input := c_input cb⟩ ∧ 0 ≤ c_audio_token cb < 65536 ∧ 0 ≤ fi < 256 ∧ 0 ≤ fa < 256.
Proof.
  intros Ht. pose proof (input_flags c) as Hf. destruct (input_vis c) as [Hv Ha].
  destruct (sremfb_input_start_op c) as [fi ca]. cbn [fst snd] in *. rewrite <- Ha in Ht.
  pose proof (audio_flags ca) as Hfa. destruct (audio_vis ca Ht) as [Hva Hta].
  destruct (sremfb_audio_start_op ca) as [fa cb]. cbn [fst snd] in *. split_and!; try lia.
  rewrite Hva, Hv. f_equal. f_equal.
  assert (c_input cb = c_input ca) as ->; [|done]. unfold vis in Hva.
  injection Hva. by intros.
Qed.

(** The grab buffer plays no part in the hello. *)
Lemma hello_grab c flags g :
  sremfb_xmit_hello c⟨c_grabbuf := g⟩ flags = (sremfb_xmit_hello c flags)⟨c_grabbuf := g⟩.
Proof.
  unfold sremfb_xmit_hello, sremfb_xmit_ctrl. cbn [c_geom c_hello c_audio_token].
  set (m := server_hello_bytes _). clearbody m. cbn. case_match; [done|].
  unfold sremfb_xmit_kick. cbn. case_match; [done|]. unfold xmit_idle, dirty_n. cbn. by case_match.
Qed.

Lemma vis_fresh c c' g :
  vis c' = vis c⟨c_input := c_input c'⟩ → fresh_client c g → fresh_client c' g.
Proof.
  unfold vis. intros Hv. injection Hv as V1 V2 V3 V4 V5 V6 V7 V8 V9 V10 V11 V12 V13 V14 V15 V16 V17
    V18 V19 V20 V21 V22 V23 V24 V25 V26 V27 V28 V29 V30.
  cbn in V4, V5, V6, V7, V10, V11, V15, V18, V19, V20, V21.
  unfold fresh_client, session_ok, frame_size. by rewrite V4, V5, V6, V7, V10, V11, V15, V18, V19, V20, V21.
Qed.

Lemma mode_flags_byte c : 0 ≤ mode_flags c < 256.
Proof. unfold mode_flags. by repeat case_match. Qed.

(** The stream starts with whatever is in the grab buffer. *)
Lemma mode_hello_served c g junk :
  fresh_client c⟨c_grabbuf := Some g⟩ g → c_grabbuf c = Some junk → length junk = length g →
  0 ≤ c_fd c → c_lost_id c = 0 → 0 ≤ c_audio_token c < 65536 →
  served (mode_hello c) true ∧ c_geom (mode_hello c) = c_geom c ∧
  c_grabbuf (mode_hello c) = Some junk.
Proof.
  intros Hf Hg Hl Hfd Hlost Ht. unfold mode_hello. pose proof (start_op_vis c Ht) as Hv.
  pose proof (mode_flags_byte c) as Hb. set (fl := mode_flags c) in *. clearbody fl.
  destruct (sremfb_input_start_op c) as [fi ca]. destruct (sremfb_audio_start_op ca) as [fa cb].
  destruct Hv as (Hv&Htb&Hfi&Hfa). set (flags := Z.lor (Z.lor fl fi) fa).
  assert (Hflags : 0 ≤ flags < 256) by (repeat apply lor_flags_byte; done). clearbody flags.
  pose proof Hv as Hv'. unfold vis in Hv'. injection Hv' as V1 V2 _ V4 V5 V6 _ _ _ _ _ _ _ _ _ _ _
    _ _ _ _ _ _ _ _ _ _ _ _ _. cbn in V1, V2, V4, V5, V6.
  assert (Hfb : fresh_client cb⟨c_grabbuf := Some g⟩ g).
  { eapply vis_fresh; [|exact Hf]. unfold vis, has_enc in *. cbn in *. congruence. }
  assert (Hs : served (sremfb_xmit_hello cb⟨c_grabbuf := Some g⟩ flags) false).
  { exists cb⟨c_grabbuf := Some g⟩, g, flags. split_and!; [done|split_and!; cbn; lia|apply rtc_refl]. }
  destruct (hello_fields cb flags) as (H1&H2&H3). rewrite hello_grab in Hs.
  set (c1 := sremfb_xmit_hello cb flags) in *. clearbody c1. rewrite V6, Hg in H2.
  assert (Hs1 : served c1 true).
  { rewrite <- (client_grab_eta c1 junk H2). eapply served_run; [exact Hs|]. apply rtc_once.
    assert (Hj : Z.of_nat (length junk) = frame_size c1⟨c_grabbuf := Some g⟩).
    { destruct Hf as (_&_&_&_&_&_&_&_&_&Hf&_). unfold frame_size in *. cbn in *. rewrite H1, V5. lia. }
    exact (ta_silent _ false junk Hj). }
  unfold g_get_monotonic_time. cbv zeta. set (c2 := _⟨c_st_since_us := _⟩).
  assert (Q : vis c2 = vis c1⟨c_state := STREAMING⟩ ∧ c_state c2 = STREAMING ∧ c_xmit_mode c2 = c_xmit_mode c1) by done.
  clearbody c2. destruct Q as (Q1&Q2&Q3). destruct Hf as (_&Hm&_). cbn in Hm.
  assert (Hraw : c_xmit_mode c2 = XMIT_RAW).
  { destruct Hfb as (_&Hmb&_). cbn in Hmb. rewrite Q3, H3. exact Hmb. }
  destruct (ctl_start_quiet c2 Hraw) as [S1 S2].
  set (c3 := sremfb_ctl_start c2) in *. clearbody c3. split.
  - eapply served_step; [exact Hs1|]. apply rtc_once, tx_quiet. rewrite S1, S2, Q2. exact Q1.
  - rewrite Q1 in S1. unfold vis in S1. injection S1 as _ _ _ _ T5 T6 _ _ _ _ _ _ _ _ _ _ _
    _ _ _ _ _ _ _ _ _ _ _ _ _. cbn in T5, T6. split; congruence.
Qed.

(** ** The invariant at the start *)
Lemma ev_start_inv w : ev_start w → ev_inv w.
Proof.
  destruct 1 as [v c0 e0 m junk t req v' c1 e1 c e e2 g Hn Hst Hm Hj Hu Hb Hg Hmc].
  destruct (buffers_fresh c0 e0 m junk Hn Hm) as (Hf&F1&F2&F3&F4&F5&F6). rewrite Hb in *. cbn [fst] in *.
  destruct Hn as (N1&N2&_&_&_&_&_&_&_&N10&_). pose proof Hm as (M1&M2&M3&M4).
  assert (Hfs : frame_size c1 = em_width m * em_height m * 4) by (unfold frame_size; by rewrite F5).
  destruct (mode_hello_served c1 _ junk Hf F6) as (Hs&Eg&Ej);
    [rewrite length_replicate; lia|lia|lia|lia|].
  unfold on_mode_changed in Hmc. rewrite Hb in Hmc.
  rewrite !(proj2 (Z.leb_gt _ _)) in Hmc by lia. rewrite M3 in Hmc. cbn [orb negb Z.eqb] in Hmc.
  rewrite F2, Hst, bool_decide_eq_true_2, F1, (proj2 (Z.leb_le _ _)) in Hmc by done.
  cbn [andb] in Hmc. cbv zeta in Hmc.
  assert (Hi : ev_inv (mk_ev (mode_hello c1) e2 junk true)).
  { split; [right; split; [done|]|by exists true; split; [|left]].
    assert (He : ready (mode_hello c1) e2 ∧ ec_cur_drawn e2 = false).
    { unfold mode_buffers in Hb. injection Hb as _ <-. split; [|done]. unfold ready.
      rewrite Eg, F5, Ej. split_and!; [done|by eexists|done..]. }
    destruct He as [He Hd]. split_and!; [done| |done|done]. unfold frame_size in *. cbn.
    rewrite Eg. lia. }
  pose proof (kick_inv (mode_hello c1) e2 junk true req Hi Hg) as Hk. fold e2 in Hmc.
  destruct (sremfb_evdi_kick (mode_hello c1) e2 req) as [c' e']. by injection Hmc as _ <- <-.
Qed.
End start.
