(* ===== verification/EvdiSamples.v ===== *)
(** * A concrete EVDI client for the witnesses

    The 2x2 client of Samples.v plugged, given its mode, grabbed once, with
    a cursor of one half-transparent pixel moved to the right column, and
    the frames sent. *)
From S2P Require Import Prelude Binary64 Protocol Core Convert Encoder Net Xmit Control Drain.
From S2P Require Import XmitSpec Dirty Coverage ViewH264 ViewNet Blit Paint.
From S2P Require Import Stream OutReady Link ViewRead Mirror Samples.
From S2P Require Import Session Served KvmSamples EvdiGate EvdiCursor EvdiBlend EvdiCards Evdi EvdiPool.
From S2P Require Import EvdiTx EvdiSys.
From stdpp Require Import list relations gmap strings.
#[local] Open Scope list_scope.
#[local] Open Scope Z_scope.

#[local] Abbreviation client := (@SremfbClient sample_x264).
Definition sample_evdi_files : Files := λ _, true.
(** No sound, no remembered layout. *)
Definition sample_peers : @EvdiPeers sample_x264 :=
  {| sremfb_audio_start_op := λ c, (0, c); lay_t := unit; sremfb_layout_client_op := λ l _, l |}.
#[export] Instance sample_audio_laws : @AudioLaws sample_x264 sample_peers.
Proof. split; [done|]. intros c Ht. by split. Qed.

Definition sample_waiting : client := sample_conn⟨c_state := MODE_WAIT⟩.
Definition sample_mode : evdi_mode := mk_emode 2 2 32.
Definition sample_junk : bytes := replicate 16 77.
Definition sample_all : sremfb_rect := mk_rect 0 0 2 2.
Definition sample_desk : bytes := [10; 20; 30; 0; 40; 50; 60; 0; 70; 80; 90; 0; 1; 2; 3; 0].
Definition sample_grab : grab_ans := mk_grab [sample_all] sample_desk.
Definition sample_lit : lit_env := mk_lit 4242 10 4242 11.
Definition sample_evdi_srv : @evdi_srv sample_x264 sample_peers :=
  mk_esrv (mk_evs [] false [] 4242 GATE_OPEN) ∅ (tt : @lay_t _ sample_peers) K0 None.

Definition sample_buffers : client * SremfbEvdiClient :=
  @mode_buffers sample_x264 sample_waiting new_evdi_client sample_mode sample_junk.
Definition sample_started :=
  @on_mode_changed sample_x264 sample_platform sample_evdi_files sample_input sample_peers
    sample_evdi_srv sample_waiting new_evdi_client sample_mode sample_junk sample_lit (Some sample_grab).
Definition sample_ew0 : @ev_world sample_x264 :=
  mk_ev sample_started.1.2 sample_started.2 sample_desk false.

(** One pixel, half transparent white, premultiplied. *)
Definition sample_cursor : evdi_cursor_set := mk_cursor_set true 1 1 4 (Some [128; 128; 128; 128]) 4.

Definition with_handler (h : client → SremfbEvdiClient → client * SremfbEvdiClient)
    (w : @ev_world sample_x264) : @ev_world sample_x264 :=
  let '(c, e) := h (w_c w) (w_e w) in mk_ev c e (w_desk w) (w_first w).
Definition sample_evdi_send (w : @ev_world sample_x264) : @ev_world sample_x264 :=
  mk_ev (@on_out_ready sample_x264 sample_lz4 sample_platform (w_c w) false (replicate 8 (SSent 100))).2
    (w_e w) (w_desk w) (w_first w).
(** The image comes before the snapshot leaves, the move after it. *)
Definition sample_ew1 := sample_evdi_send sample_ew0.
Definition sample_ew2 :=
  with_handler (λ c e, @on_cursor_set sample_x264 sample_platform c e sample_cursor) sample_ew1.
Definition sample_ew3 := sample_evdi_send sample_ew2.
Definition sample_ew4 :=
  with_handler (λ c e, @on_cursor_move sample_x264 sample_platform c e 1 0) sample_ew3.
Definition sample_ew5 := sample_evdi_send sample_ew4.
Definition sample_ew6 := sample_evdi_send sample_ew5.

(** ** The run *)
#[local] Abbreviation step := (@ev_step sample_x264 sample_lz4 sample_platform).
#[local] Abbreviation world := (@ev_world sample_x264).

Lemma sample_first_grab c e a :
  c_geom c = mk_geom 2 2 → ga_rects a = [sample_all] → length (ga_buf a) = 16%nat →
  @grab_fits sample_x264 c e true a.
Proof.
  intros Hg Hr Hl. unfold grab_fits, frame_size, stride_of. rewrite Hg, Hr, Hl. split; [done|].
  intros i Hi. exists sample_all. split; [left|]. unfold in_rect. cbn. dlia.
Qed.

Lemma sample_ev_start :
  @ev_start sample_x264 sample_platform sample_evdi_files sample_input sample_peers sample_ew0.
Proof.
  assert (Hb : @mode_buffers sample_x264 sample_waiting new_evdi_client sample_mode sample_junk =
    (sample_buffers.1, sample_buffers.2)) by (vm_compute; reflexivity).
  assert (Hs : @on_mode_changed sample_x264 sample_platform sample_evdi_files sample_input sample_peers
      sample_evdi_srv sample_waiting new_evdi_client sample_mode sample_junk sample_lit (Some sample_grab)
    = (sample_started.1.1, sample_started.1.2, sample_started.2))
    by (vm_compute; reflexivity).
  assert (Hn : new_conn sample_waiting)
    by (unfold new_conn, LZ4_MAX_INPUT_SIZE; cbn; split_and!; (lia || done || by left)).
  assert (Hm : mode_ok sample_mode) by (by split_and!).
  assert (Hk : @kick_grab sample_x264
      (@mode_hello sample_x264 sample_platform sample_input sample_peers sample_buffers.1)
      sample_buffers.2⟨ec_mode_timeout_id := 0⟩ (Some sample_grab) = Some sample_grab)
    by (vm_compute; reflexivity).
  assert (Hg : c_geom (@mode_hello sample_x264 sample_platform sample_input sample_peers
      sample_buffers.1) = mk_geom 2 2) by (vm_compute; reflexivity).
  exact (@ev_mode_grab sample_x264 sample_platform sample_evdi_files sample_input sample_peers
    sample_evdi_srv sample_waiting new_evdi_client sample_mode sample_junk sample_lit sample_grab
    _ _ _ _ _ Hn eq_refl Hm eq_refl eq_refl Hb Hk (sample_first_grab _ _ sample_grab Hg eq_refl eq_refl) Hs).
Qed.

Lemma send_ev_step (w : world) :
  c_grabbuf (w_c (sample_evdi_send w)) = c_grabbuf (w_c w) →
  ¬ dead (w_c w) → step w (sample_evdi_send w).
Proof.
  destruct w as [c e desk first]. unfold sample_evdi_send. cbn [w_c w_e w_desk w_first].
  intros Hg Hd. apply ev_client; [apply tx_out_ready|exact Hg|by intros ?].
Qed.

Lemma set_ev_step (w : world) cs :
  step w (with_handler (λ c e, @on_cursor_set sample_x264 sample_platform c e cs) w).
Proof. destruct w as [c e desk first]. apply ev_cursor_set. Qed.

Lemma move_ev_step (w : world) x y :
  step w (with_handler (λ c e, @on_cursor_move sample_x264 sample_platform c e x y) w).
Proof. destruct w as [c e desk first]. apply ev_cursor_move. Qed.

Lemma alive (c : client) : c_fd c = 5 → c_state c = STREAMING → c_lost_id c = 0 → ¬ dead c.
Proof. unfold dead. intros -> -> ->. intros [?|[?|?]]; [lia|done|done]. Qed.

Lemma sample_sends :
  step sample_ew0 sample_ew1 ∧ step sample_ew2 sample_ew3 ∧ step sample_ew4 sample_ew5 ∧
  step sample_ew5 sample_ew6.
Proof.
  split_and!.
  - unfold sample_ew1. apply send_ev_step; [vm_compute; reflexivity|apply alive; vm_compute; reflexivity].
  - unfold sample_ew3. apply send_ev_step; [vm_compute; reflexivity|apply alive; vm_compute; reflexivity].
  - unfold sample_ew5. apply send_ev_step; [vm_compute; reflexivity|apply alive; vm_compute; reflexivity].
  - unfold sample_ew6. apply send_ev_step; [vm_compute; reflexivity|apply alive; vm_compute; reflexivity].
Qed.

Lemma sample_set : step sample_ew1 sample_ew2.
Proof. unfold sample_ew2. exact (set_ev_step sample_ew1 sample_cursor). Qed.

Lemma sample_move : step sample_ew3 sample_ew4.
Proof. unfold sample_ew4. exact (move_ev_step sample_ew3 1 0). Qed.

Lemma sample_ev_run : rtc step sample_ew0 sample_ew6.
Proof.
  destruct sample_sends as (S1&S3&S5&S6).
  exact (rtc_l step _ _ _ S1 (rtc_l step _ _ _ sample_set
    (rtc_l step _ _ _ S3 (rtc_l step _ _ _ sample_move
    (rtc_l step _ _ _ S5 (rtc_once _ _ S6)))))).
Qed.
