(* ===== verification/EvdiProps.v ===== *)
(** * Properties of the EVDI connector

    From the desktop to the viewer's screen; the cursor's blend and its
    bounds; what a mode change does to a client that is streaming. *)
From S2P Require Import Prelude Binary64 Protocol Core Convert Encoder Net Xmit Control Drain.
From S2P Require Import XmitSpec Dirty Coverage ViewH264 ViewNet Blit Paint.
From S2P Require Import Stream OutReady Link ViewRead Mirror EndToEnd Samples.
From S2P Require Import Session Served KvmSamples EvdiGate EvdiCursor EvdiBlend EvdiCards Evdi EvdiPool.
From S2P Require Import EvdiTx EvdiSys EvdiSamples.
From stdpp Require Import list relations gmap strings.
#[local] Open Scope list_scope.
#[local] Open Scope Z_scope.

(** ** From the desktop to the screen *)
Section desktop.
Context `{X : X264} `{L : LZ4} `{P : Platform} `{V : ViewSys} `{A : AvCodec} `{!X264Laws X}
  `{!LZ4Laws L} `{!AvCodecLaws A} `{Files} `{I : !InputStart} `{!InputLaws I} `{E : !EvdiPeers}
  `{!AudioLaws E}.

End desktop.

(** ** The cursor *)
Section cursor.
Context `{X : X264} `{L : LZ4} `{P : Platform}.
Implicit Types (c : SremfbClient) (e : SremfbEvdiClient).

Lemma slice4 (l : bytes) i : 0 ≤ i → i + 4 ≤ Z.of_nat (length l) →
  ∃ b0 b1 b2 b3, slice i 4 l = [b0; b1; b2; b3] ∧
    l !! Z.to_nat i = Some b0 ∧ l !! Z.to_nat (i + 1) = Some b1 ∧
    l !! Z.to_nat (i + 2) = Some b2 ∧ l !! Z.to_nat (i + 3) = Some b3.
Proof.
  intros Hi Hl. assert (Hn : length (slice i 4 l) = 4%nat) by (unfold slice; rewrite length_take, length_drop; lia).
  destruct (slice i 4 l) as [|b0 [|b1 [|b2 [|b3 [|b4 s]]]]] eqn:Es; try done. exists b0, b1, b2, b3.
  assert (Hk : ∀ k : nat, (k < 4)%nat → l !! Z.to_nat (i + Z.of_nat k) = [b0; b1; b2; b3] !! k).
  { intros k Hk. rewrite <- Es, lookup_slice by lia. f_equal. lia. }
  split; [done|]. pose proof (Hk 0%nat ltac:(lia)) as H0. rewrite Z.add_0_r in H0.
  split_and!; [exact H0|exact (Hk 1%nat ltac:(lia))|exact (Hk 2%nat ltac:(lia))|exact (Hk 3%nat ltac:(lia))].
Qed.

Lemma bytes_ok_slice (l : bytes) i n : bytes_ok l → bytes_ok (slice i n l).
Proof. intros Hl. by apply Forall_take, Forall_drop. Qed.

(** The four channels of one pixel. *)
Lemma pixel_channels pix gb (i d : Z) (k : nat) s a x :
  bytes_ok pix → bytes_ok gb → (k < 4)%nat → 0 ≤ i → 0 ≤ d →
  4 * i + 4 ≤ Z.of_nat (length pix) → 4 * d + 4 ≤ Z.of_nat (length gb) →
  pix !! Z.to_nat (4 * i + Z.of_nat k) = Some s → pix !! Z.to_nat (4 * i + 3) = Some a →
  gb !! Z.to_nat (4 * d + Z.of_nat k) = Some x →
  Prelude.le 4 (over_px (px32 pix i) (px32 gb d)) !! k =
    Some (if (k =? 3)%nat then (if a =? 0 then x else 0) else blend_channel s a x).
Proof.
  intros Hp Hg Hk Hi Hd Hpl Hgl Hs Ha Hx. unfold px32.
  destruct (slice4 pix (4 * i)) as (s0&s1&s2&s3&Es&P0&P1&P2&P3); [lia..|].
  destruct (slice4 gb (4 * d)) as (d0&d1&d2&d3&Ed&G0&G1&G2&G3); [lia..|].
  pose proof (bytes_ok_slice pix (4 * i) 4 Hp) as Hsp. pose proof (bytes_ok_slice gb (4 * d) 4 Hg) as Hsg.
  rewrite Es in *. rewrite Ed in *. rewrite over_px_channels by done.
  rewrite P3 in Ha. injection Ha as ->.
  set (l := [_; _; _; _]). assert (Hl : bytes_ok l).
  { pose proof Hsp as Hsp'. pose proof Hsg as Hsg'. rewrite !Forall_cons in Hsp', Hsg'.
    destruct Hsp' as (B0&B1&B2&B3&_), Hsg' as (D0&D1&D2&D3&_).
    assert (Hb : ∀ s d, is_byte s → is_byte d → is_byte (blend_channel s a d)).
    { intros s' d' Hs' Hd'. destruct (decide (a = 0)) as [->|]; [done|].
      destruct (decide (a = 255)) as [->|]; [done|]. by apply over8_blend. }
    subst l. rewrite !Forall_cons. split_and!; [by apply Hb..| |done]. by case_match. }
  change 4%nat with (length l). rewrite le_of_le by done. subst l.
  assert (k = 0 ∨ k = 1 ∨ k = 2 ∨ k = 3)%nat as Hk4 by lia.
  destruct_or! Hk4; subst k.
  - change (Z.of_nat 0) with 0 in *. rewrite Z.add_0_r in Hs, Hx.
    by assert (s = s0 ∧ x = d0) as [-> ->] by (split; congruence).
  - change (Z.of_nat 1) with 1 in *. by assert (s = s1 ∧ x = d1) as [-> ->] by (split; congruence).
  - change (Z.of_nat 2) with 2 in *. by assert (s = s2 ∧ x = d2) as [-> ->] by (split; congruence).
  - change (Z.of_nat 3) with 3 in *. by assert (s = a ∧ x = d3) as [-> ->] by (split; congruence).
Qed.

(** Where the image's pixel for byte [j] of the frame is. *)
Definition image_byte c e (j : nat) : Z :=
  4 * ((Z.of_nat j / stride_of c - ec_cur_y e) * ec_cur_stride e
       + (Z.of_nat j mod stride_of c / 4 - ec_cur_x e)).

(** (C40) The cursor is drawn exactly: outside its rect nothing changes,
    inside every channel is the premultiplied blend rounded to nearest (the
    desktop's byte where the cursor is transparent, the cursor's where it
    is opaque, the fourth byte cleared where the cursor shows), and lifting
    it puts the very same desktop back. *)
Theorem cursor_draw_exact c e desk pix r c' e' :
  ready c e → ec_cur_drawn e = false → c_grabbuf c = Some desk →
  Z.of_nat (length desk) = frame_size c → bytes_ok desk → bytes_ok pix →
  ec_cur_pix e = Some pix → cursor_draw c e = (Some r, c', e') →
  cursor_lift c' e' = (Some r, c, e'⟨ec_cur_drawn := false⟩) ∧
  ∃ gb, c_grabbuf c' = Some gb ∧ length gb = length desk ∧ ∀ j : nat,
    (¬ in_rect (stride_of c) r (Z.of_nat j) → gb !! j = desk !! j) ∧
    (∀ s a d, in_rect (stride_of c) r (Z.of_nat j) →
       0 ≤ image_byte c e j → image_byte c e j + 4 ≤ Z.of_nat (length pix) →
       pix !! Z.to_nat (image_byte c e j + Z.of_nat j mod 4) = Some s →
       pix !! Z.to_nat (image_byte c e j + 3) = Some a → desk !! j = Some d →
       gb !! j = Some (if Z.of_nat j mod 4 =? 3 then (if a =? 0 then d else 0)
                       else blend_channel s a d)).
Proof.
  intros Hr Hd Hg Hl Hbd Hbp Hp Hdraw. pose proof Hr as (Hge&_).
  pose proof (draw_ok c e desk Hr Hd Hg Hl) as H. rewrite Hdraw in H.
  destruct H as (Es&->&Hok&_&_&Es'). symmetry in Es. split.
  { rewrite (lift_ok _ _ desk false) by (by left). rewrite (proj2 (ok_buffer _ _ _ Hok)), Es', Es.
    f_equal. f_equal. rewrite <- Hg. by destruct c. }
  exists (composed c e desk). split; [done|]. split; [by apply composed_length|]. intros j. split.
  { intros Hj. apply composed_outside; [done..|]. intros r' Hr'. rewrite Es in Hr'. by injection Hr' as <-. }
  intros s a d Hj Hi Hil Hs Ha Hdj. destruct (shown_inside c e r Es) as (pix'&Hp'&_&Hin).
  assert (pix' = pix) as -> by congruence. rewrite (composed_shown c e desk r pix) by done.
  unfold geom_ok, frame_size, stride_of in *.
  rewrite (drawn_pixel _ (g_height (c_geom c))) by (done || lia). unfold image_byte, stride_of in *.
  set (i := _ + (_ - ec_cur_x e)) in *. clearbody i.
  assert (Hj4 : Z.of_nat j = 4 * (Z.of_nat j / 4) + Z.of_nat j mod 4) by dlia.
  assert (Hjl : (j < length desk)%nat) by (by eapply lookup_lt_Some).
  assert (Hk : Z.of_nat (Z.to_nat (Z.of_nat j mod 4)) = Z.of_nat j mod 4) by dlia.
  rewrite (pixel_channels pix desk i (Z.of_nat j / 4) (Z.to_nat (Z.of_nat j mod 4)) s a d); rewrite ?Hk.
  - f_equal. replace (Z.to_nat (Z.of_nat j mod 4) =? 3)%nat with (Z.of_nat j mod 4 =? 3); [done|].
    destruct (Z.eqb_spec (Z.of_nat j mod 4) 3) as [->|]; [done|]. symmetry. apply Nat.eqb_neq. lia.
  - done.
  - done.
  - dlia.
  - lia.
  - dlia.
  - lia.
  - dlia.
  - done.
  - done.
  - by rewrite <- Hj4, Nat2Z.id.
Qed.

(** libevdi's description of a cursor image. *)
Definition cursor_set_ok (cs : evdi_cursor_set) : Prop :=
  0 ≤ cs_width cs < 2 ^ 32 ∧ 0 ≤ cs_height cs < 2 ^ 32 ∧ 0 ≤ cs_stride cs < 2 ^ 32 ∧
  ∀ buf, cs_buffer cs = Some buf → Z.of_nat (length buf) = cs_buffer_length cs.

(** An image that is shown is complete. *)
Definition image_ok e : Prop :=
  ec_cur_on e = true → ∃ pix, ec_cur_pix e = Some pix ∧
    0 < ec_cur_w e ≤ ec_cur_stride e ∧ 0 < ec_cur_h e ∧
    ec_cur_stride e * ec_cur_h e * 4 ≤ Z.of_nat (length pix).

Lemma draw_image c e : image_ok e → image_ok (cursor_draw c e).2.
Proof.
  intros Hi. unfold cursor_draw. repeat case_match; try done. simplify_eq. revert Hi.
  unfold image_ok, under_grow. by case_match.
Qed.

Lemma repaint_image c e old : image_ok e → image_ok (cursor_repaint c e old).2.
Proof.
  intros Hi%(draw_image c). unfold cursor_repaint. destruct (cursor_draw c e) as [[new c'] e'].
  by case_match.
Qed.

Lemma lift_image c e : ec_cur_on (cursor_lift c e).2 = ec_cur_on e ∧
  (image_ok e → image_ok (cursor_lift c e).2).
Proof. unfold cursor_lift. by repeat case_match. Qed.

(** No cursor makes the blend read outside its image: a set either
    turns the cursor off or installs an image whose rows are all in the
    buffer, moving keeps it, and then every pixel that cursor_draw() reads
    for a visible rect, however far the cursor hangs over the borders, lies
    in the buffer. *)
Theorem cursor_reads_inside c e cs mx my r x y :
  cursor_set_ok cs → image_ok e →
  image_ok (on_cursor_set c e cs).2 ∧ image_ok (on_cursor_move c e mx my).2 ∧
  (cursor_rect c e = Some r → x1 r ≤ x < x2 r → y1 r ≤ y < y2 r →
   ∃ pix, ec_cur_pix e = Some pix ∧
     let i := (y - ec_cur_y e) * ec_cur_stride e + (x - ec_cur_x e) in
     0 ≤ 4 * i ∧ 4 * i + 4 ≤ Z.of_nat (length pix)).
Proof.
  intros (Cw&Ch&Cs&Cb) Hi. split_and!.
  - unfold on_cursor_set. destruct (cursor_lift c e) as [[old c1] e1]. apply repaint_image.
    case_match eqn:Hc; [|by intros ?]. rewrite !andb_true_iff, bool_decide_eq_true in Hc.
    destruct Hc as [[[[[[[[_ [buf Hbuf]]?]?]?]?]Hst]Hm]Hl]. specialize (Cb buf Hbuf).
    intros _. exists buf. cbn. rewrite !s32_small by lia. split; [done|].
    rewrite u32_small in Hst by lia. apply Z.eqb_eq, Z.div_exact in Hm; [|done].
    unfold u64 in Hl. rewrite Z.mod_small in Hl by nia. split_and!; [lia..|]. nia.
  - unfold on_cursor_move. pose proof (lift_image c e) as [_ Hl]. specialize (Hl Hi).
    destruct (cursor_lift c e) as [[old c1] e1]. by apply repaint_image.
  - unfold cursor_rect. destruct (ec_cur_on e) eqn:Hon; [|done]. cbn [negb orb].
    destruct (_ || _); [done|]. cbv zeta. case_match; [|done]. intros [= <-] Hx Hy. cbn in Hx, Hy.
    destruct (Hi Hon) as (pix&Hp&Hw&Hh&Hl). exists pix. split; [done|].
    assert ((y - ec_cur_y e + 1) * ec_cur_stride e ≤ ec_cur_h e * ec_cur_stride e) by nia. nia.
Qed.
End cursor.

(** ** A mode change while streaming *)
Section mode.
Context `{X : X264} `{L : LZ4} `{P : Platform} `{Files} `{I : !InputStart} `{E : !EvdiPeers}.
Implicit Types (c : SremfbClient) (e : SremfbEvdiClient).

(** (C26) A mode change of a client that is already streaming tears its
    stream: whatever was in flight or queued is dropped, be it the second
    half of a frame whose first half is on the wire, no hello follows, and
    yet the frames to come have the new size. *)
Theorem mode_change_tears_stream v c e m junk t :
  c_state c = STREAMING → 0 < em_width m → 0 < em_height m → em_bpp m = 32 →
  in_flight c ++ queued c ≠ [] →
  let '(_, c', _) := on_mode_changed v c e m junk t None in
  c_state c' = STREAMING ∧ c_geom c' = mk_geom (em_width m) (em_height m) ∧
  c_wire c' = c_wire c ∧ stream c' = c_wire c' ∧ stream c' ≠ stream c ∧ xmit_idle c' = true.
Proof.
  intros Hs Hw Hh Hb Hne. unfold on_mode_changed.
  rewrite !(proj2 (Z.leb_gt _ _)) by done. rewrite Hb. cbn [orb negb Z.eqb].
  destruct (mode_buffers c e m junk) as [c1 e1] eqn:Em.
  assert (Ec : c_state c1 = STREAMING ∧ c_geom c1 = mk_geom (em_width m) (em_height m) ∧
    c_wire c1 = c_wire c ∧ stream c1 = c_wire c1 ∧ xmit_idle c1 = true).
  { unfold mode_buffers in Em. injection Em as <- _. set (c2 := if _ : bool then _ else _).
    assert (E2 : c_state c2 = STREAMING ∧ c_wire c2 = c_wire c ∧ c_outq c2 = [] ∧ c_outq_off c2 = 0 ∧
      c_out_active c2 = false ∧ c_dirty c2 = [] ∧ c_dirty_all c2 = false).
    { subst c2. unfold sremfb_xmit_reset. by destruct (_ && _). }
    clearbody c2. destruct E2 as (E1&E2&E3&E4&E5&E6&E7).
    unfold stream, in_flight, queued, queued_of, xmit_idle, dirty_n. cbn.
    by rewrite E3, E4, E5, E6, E7, app_nil_r. }
  destruct Ec as (E1&E2&E3&E4&E5). rewrite E1. cbn [bool_decide]. rewrite bool_decide_eq_false_2 by done.
  cbn [andb]. unfold sremfb_evdi_kick. destruct (_ || _); (split_and!; [done..| |done]);
    rewrite E4, E3; unfold stream; intros Heq; apply Hne, (app_inv_head (c_wire c)); by rewrite app_nil_r.
Qed.
End mode.

(** ** Witnesses: the client of EvdiSamples.v *)
#[local] Abbreviation sc6 := (w_c sample_ew6).
#[local] Abbreviation se6 := (w_e sample_ew6).



(** The pixel of sample_cursor at (1, 0), over a pixel of the desktop. *)
Definition sample_cur_client : @SremfbClient sample_x264 :=
  (sample_client SREMFB_PIX_XRGB8888 sample_desk).
Definition sample_cur : SremfbEvdiClient :=
  new_evdi_client⟨ec_mode_valid := true⟩⟨ec_grab_registered := true⟩⟨ec_cur_on := true⟩
    ⟨ec_cur_x := 1⟩⟨ec_cur_w := 1⟩⟨ec_cur_h := 1⟩⟨ec_cur_stride := 1⟩
    ⟨ec_cur_pix := Some [128; 128; 128; 128]⟩.
Definition sample_drawn := cursor_draw sample_cur_client sample_cur.

Lemma bytes_ok_dec (l : bytes) : forallb (λ b, (0 <=? b) && (b <? 256)) l = true → bytes_ok l.
Proof.
  intros Hl. apply Forall_forall. intros b Hb. rewrite forallb_forall in Hl.
  specialize (Hl b (proj1 (list_elem_of_In _ _) Hb)). unfold is_byte. lia.
Qed.

Lemma cursor_draw_exact_witness :
  ∃ gb, c_grabbuf sample_drawn.1.2 = Some gb ∧ gb !! 5%nat = Some 153 ∧
    cursor_lift sample_drawn.1.2 sample_drawn.2 =
      (Some (mk_rect 1 0 2 1), sample_cur_client, sample_drawn.2⟨ec_cur_drawn := false⟩).
Proof.
  assert (Hd : cursor_draw sample_cur_client sample_cur =
    (Some (mk_rect 1 0 2 1), sample_drawn.1.2, sample_drawn.2)) by (vm_compute; reflexivity).
  destruct (cursor_draw_exact sample_cur_client sample_cur sample_desk [128; 128; 128; 128]
    (mk_rect 1 0 2 1) sample_drawn.1.2 sample_drawn.2) as (Hl&gb&Hg&_&Hp);
    [split_and!; (lia || done || by eexists)|done|done|done|by apply bytes_ok_dec|by apply bytes_ok_dec
    |done|exact Hd|].
  exists gb. split; [exact Hg|]. split; [|exact Hl].
  destruct (Hp 5%nat) as [_ Hin]. rewrite (Hin 128 128 50); [done|..]; try done.
Defined.

Lemma cursor_reads_inside_witness :
  ∃ pix, ec_cur_pix sample_cur = Some pix ∧
    0 ≤ 4 * ((0 - ec_cur_y sample_cur) * ec_cur_stride sample_cur + (1 - ec_cur_x sample_cur)) ∧
    4 * ((0 - ec_cur_y sample_cur) * ec_cur_stride sample_cur + (1 - ec_cur_x sample_cur)) + 4 ≤
      Z.of_nat (length pix).
Proof.
  destruct (@cursor_reads_inside sample_x264 sample_platform sample_cur_client sample_cur sample_cursor 0 0
    (mk_rect 1 0 2 1) 1 0) as (_&_&H).
  - split_and!; try done. by intros buf [= <-].
  - intros _. exists [128; 128; 128; 128]. by split_and!.
  - exact (H eq_refl ltac:(cbn; lia) ltac:(cbn; lia)).
Defined.

(** Half of a message is on the wire. *)
Definition sample_torn : @SremfbClient sample_x264 :=
  (sample_client SREMFB_PIX_XRGB8888 sample_desk)⟨c_out_active := true⟩⟨c_out_seg0 := [1; 2; 3; 4]⟩
    ⟨c_out_off := 2⟩⟨c_wire := [1; 2]⟩.

Lemma mode_change_tears_stream_witness :
  stream sample_torn = [1; 2; 3; 4] ∧
  let '(_, c', _) := @on_mode_changed sample_x264 sample_platform sample_evdi_files sample_input
    sample_peers sample_evdi_srv sample_torn sample_cur (mk_emode 4 2 32) [] sample_lit None in
  c_state c' = STREAMING ∧ c_geom c' = mk_geom 4 2 ∧
  c_wire c' = [1; 2] ∧ stream c' = c_wire c' ∧ stream c' ≠ stream sample_torn ∧ xmit_idle c' = true.
Proof.
  split; [vm_compute; reflexivity|].
  apply (@mode_change_tears_stream sample_x264 sample_platform sample_evdi_files sample_input sample_peers
    sample_evdi_srv sample_torn sample_cur (mk_emode 4 2 32) [] sample_lit); (done || vm_compute; discriminate).
Defined.
