(* ===== verification/SbcOut.v ===== *)
(** * client/output.h: the pixel sink of the SBC client

    [Output] is struct sremfb_output_ops: what the receive loop calls.
    [OutputLaws] is what the loop relies on, stated on the panel memory
    ([out_shown]): a batch of rows between begin() and present() lands as
    drawn, in place or over some other buffer of the same size when it is a
    full one.  SbcFb.v and SbcDrm.v are the two backends. *)
From S2P Require Import Prelude Protocol.

Class Output (Dev : Type) := {
  op_begin : Dev → bool → Dev;
  op_write_row : Dev → Z → Z → bytes → Z → Dev;
  op_present : Dev → Dev;
  op_clear : Dev → Dev;
  op_blank : Dev → bool → Dev }.

(** Scanout memory: [p_h] rows of [p_stride] bytes, [p_w] pixels each. *)
Record panel := mk_panel { p_w : Z; p_h : Z; p_bpp : Z; p_stride : Z }.
Definition panel_ok (p : panel) : Prop :=
  0 < p_w p ∧ 0 < p_h p ∧ 0 < p_bpp p ∧ p_w p * p_bpp p ≤ p_stride p.

(** One write_row() call. *)
Record out_row := mk_row { r_dx : Z; r_dy : Z; r_src : bytes; r_n : Z }.

Definition draw_row (p : panel) (m : bytes) (r : out_row) : bytes :=
  blit m (r_dy r * p_stride p + r_dx r * p_bpp p) (slice 0 (r_n r * p_bpp p) (r_src r)).

Definition row_in (p : panel) (r : out_row) : Prop :=
  0 ≤ r_dx r ∧ 0 ≤ r_n r ∧ r_dx r + r_n r ≤ p_w p ∧ 0 ≤ r_dy r < p_h p ∧
  r_n r * p_bpp p ≤ Z.of_nat (length (r_src r)).

Definition write_rows `{Output Dev} (o : Dev) (rs : list out_row) : Dev :=
  foldl (λ o r, op_write_row o (r_dx r) (r_dy r) (r_src r) (r_n r)) o rs.

(** One batch: begin(), the rows, present(). *)
Definition out_batch `{Output Dev} (o : Dev) (full : bool) (rs : list out_row) : Dev :=
  op_present (write_rows (op_begin o full) rs).

Class OutputLaws (Dev : Type) `{Output Dev} := {
  out_panel : Dev → panel;
  out_shown : Dev → bytes;
  out_ok : Dev → Prop;
  out_panel_ok o : out_ok o → panel_ok (out_panel o);
  out_size o : out_ok o →
    p_h (out_panel o) * p_stride (out_panel o) ≤ Z.of_nat (length (out_shown o));
  out_batch_ok o full rs : out_ok o → Forall (row_in (out_panel o)) rs →
    out_ok (out_batch o full rs) ∧ out_panel (out_batch o full rs) = out_panel o ∧
    ∃ base, (full = false → base = out_shown o) ∧
      length base = length (out_shown o) ∧
      out_shown (out_batch o full rs) = foldl (draw_row (out_panel o)) base rs;
  out_blank_ok o on : out_ok o →
    out_ok (op_blank o on) ∧ out_panel (op_blank o on) = out_panel o ∧
    out_shown (op_blank o on) = out_shown o }.

Lemma row_bounds p r (m : bytes) :
  panel_ok p → row_in p r → p_h p * p_stride p ≤ Z.of_nat (length m) →
  0 ≤ r_dy r * p_stride p + r_dx r * p_bpp p ∧
  r_dy r * p_stride p + r_dx r * p_bpp p + r_n r * p_bpp p ≤ Z.of_nat (length m) ∧
  Z.of_nat (length (slice 0 (r_n r * p_bpp p) (r_src r))) = r_n r * p_bpp p.
Proof.
  unfold panel_ok, row_in. intros Hp Hr Hm.
  assert ((r_dx r + r_n r) * p_bpp p ≤ p_w p * p_bpp p)
    by (apply Z.mul_le_mono_nonneg_r; lia).
  assert ((r_dy r + 1) * p_stride p ≤ p_h p * p_stride p)
    by (apply Z.mul_le_mono_nonneg_r; lia).
  assert (0 ≤ r_dy r * p_stride p ∧ 0 ≤ r_dx r * p_bpp p ∧ 0 ≤ r_n r * p_bpp p) by nia.
  rewrite length_slice by lia. lia.
Qed.

Lemma length_draw_row p (m : bytes) r :
  panel_ok p → row_in p r → p_h p * p_stride p ≤ Z.of_nat (length m) →
  length (draw_row p m r) = length m.
Proof.
  intros Hp Hr Hm. destruct (row_bounds p r m Hp Hr Hm) as (?&?&?).
  unfold draw_row. rewrite length_blit; lia.
Qed.

Lemma length_draw_rows p rs m :
  panel_ok p → Forall (row_in p) rs → p_h p * p_stride p ≤ Z.of_nat (length m) →
  length (foldl (draw_row p) m rs) = length m.
Proof.
  intros Hp Hrs. revert m. induction Hrs as [|r rs Hr _ IH]; intros m Hm; [done|].
  cbn [foldl]. rewrite IH; rewrite length_draw_row by done; done.
Qed.
