(* ===== verification/SbcFb.v ===== *)
(** * client/output_fb.c: the framebuffer backend

    The state is struct fbpriv; [FB_screen] is the memory of the device,
    which mmap() and pwrite() both reach, and [FB_lit] whether the panel is
    powered.  [FB_pw] and [FB_bl] are the answers of the next pwrite() and
    FBIOBLANK calls. *)
From S2P Require Import Prelude Protocol SbcOut.

Record fb_var_screeninfo := mk_var {
  v_xres : Z; v_yres : Z; v_bits_per_pixel : Z; v_red_offset : Z;
  v_green_offset : Z; v_blue_offset : Z }.
Record fb_fix_screeninfo := mk_fix { x_line_length : Z; x_smem_len : Z }.

Record fbpriv := mk_fbpriv {
  FB_fd : Z; FB_mem : bool; FB_size : Z; FB_vinfo : fb_var_screeninfo;
  FB_stride : Z; FB_bytespp : Z; FB_use_pwrite : bool;
  FB_tty_fd : Z; FB_tty_restore : bool;
  FB_screen : bytes; FB_lit : bool; FB_pw : list (option Z); FB_bl : list bool }.
#[export] Instance eta_fbpriv : Eta fbpriv := λ f,
  mk_fbpriv (FB_fd f) (FB_mem f) (FB_size f) (FB_vinfo f) (FB_stride f)
    (FB_bytespp f) (FB_use_pwrite f) (FB_tty_fd f) (FB_tty_restore f)
    (FB_screen f) (FB_lit f) (FB_pw f) (FB_bl f).

(** The format fb_open() announces: SREMFB_PIX_* and bytes per pixel. *)
Definition fb_format (v : fb_var_screeninfo) : option (Z * Z) :=
  if (v_bits_per_pixel v =? 32) && (v_red_offset v =? 16) &&
     (v_green_offset v =? 8) && (v_blue_offset v =? 0)
  then Some (SREMFB_PIX_XRGB8888, 4)
  else if (v_bits_per_pixel v =? 16) && (v_red_offset v =? 11) &&
     (v_green_offset v =? 5) && (v_blue_offset v =? 0)
  then Some (SREMFB_PIX_RGB565, 2)
  else None.

(** fb_open(): the device's descriptor, what the two ioctls fill, whether
    mmap() works; the backend with (w, h, pixfmt, bytespp), or -1. *)
Definition fb_open (env_pwrite : bool) (fd : Z) (vinfo : option fb_var_screeninfo)
    (finfo : option fb_fix_screeninfo) (mmap_ok : bool) (screen : bytes) (lit : bool)
    (pw : list (option Z)) (bl : list bool) : option (fbpriv * (Z * Z * Z * Z)) :=
  if fd <? 0 then None
  else
    match vinfo, finfo with
    | Some v, Some x =>
      match fb_format v with
      | None => None
      | Some (pixfmt, bytespp) =>
        let mem := negb env_pwrite && mmap_ok in
        Some (mk_fbpriv fd mem (if env_pwrite then 0 else x_smem_len x) v
                (x_line_length x) bytespp (negb mem) (-1) false screen lit pw bl,
              (v_xres v, v_yres v, pixfmt, bytespp))
      end
    | _, _ => None
    end.

(** pwrite(2): how many bytes went in, -1 for an error; a regular device
    takes them all. *)
Definition pwrite (f : fbpriv) (src : bytes) (off : Z) : Z * fbpriv :=
  let len := Z.of_nat (length src) in
  match FB_pw f with
  | [] => (len, f⟨FB_screen ::= λ s, blit s off src⟩)
  | None :: pw => (-1, f⟨FB_pw := pw⟩)
  | Some n :: pw =>
    let n := Z.min n len in
    (n, f⟨FB_pw := pw⟩⟨FB_screen ::= λ s, blit s off (slice 0 n src)⟩)
  end.

Definition fb_write_row (f : fbpriv) (dx dy : Z) (src : bytes) (npix : Z) : fbpriv :=
  let off := dy * FB_stride f + dx * FB_bytespp f in
  let len := npix * FB_bytespp f in
  if FB_mem f then f⟨FB_screen ::= λ s, blit s off (slice 0 len src)⟩
  else (pwrite f (slice 0 len src) off).2.

Definition fb_present (f : fbpriv) : fbpriv := f.

(** The pwrite() loop of fb_clear(), in chunks of 4096 zeros; [fuel] is the
    number of chunks. *)
Fixpoint fb_clear_loop (fuel : nat) (f : fbpriv) (off total : Z) : fbpriv :=
  match fuel with
  | O => f
  | S fuel =>
    if off <? total then
      let n := if total <? off + 4096 then total - off else 4096 in
      let '(r, f) := pwrite f (replicate (Z.to_nat n) 0) off in
      if r <? 0 then f else fb_clear_loop fuel f (off + 4096) total
    else f
  end.

Definition fb_clear (f : fbpriv) : fbpriv :=
  if FB_mem f then f⟨FB_screen ::= λ s, blit s 0 (replicate (Z.to_nat (FB_size f)) 0)⟩
  else if 0 <=? FB_fd f then
    let total := FB_stride f * v_yres (FB_vinfo f) in
    fb_clear_loop (S (Z.to_nat (total / 4096))) f 0 total
  else f.

(** FBIOBLANK, and black when the driver cannot power the panel down. *)
Definition fb_blank (f : fbpriv) (on : bool) : fbpriv :=
  if 0 <=? FB_fd f then
    let '(ok, f) := match FB_bl f with
                    | [] => (true, f)
                    | ok :: bl => (ok, f⟨FB_bl := bl⟩)
                    end in
    if ok : bool then f⟨FB_lit := negb on⟩
    else if on then fb_clear f else f
  else if on then fb_clear f else f.

(** The DRM connectors of /sys/class/drm: name and status file. *)
Definition is_connector (name : string) : bool :=
  String.prefix "card" name && bool_decide (45 ∈ (Z.of_nat ∘ Ascii.nat_of_ascii) <$> String.list_ascii_of_string name).
Definition status_lit (s : string) : bool :=
  String.prefix "connected" s || String.prefix "unknown" s.

Definition fb_panel_present (dir : option (list (string * option string))) : Z :=
  match dir with
  | None => -1
  | Some es =>
    let conns := omap (λ e, if is_connector e.1 then e.2 else None) es in
    if bool_decide (conns = []) then -1
    else if existsb status_lit conns then 1 else 0
  end.

(** vt_of(): the number at the end of the tty's name. *)
Definition digit_at (c : Ascii.ascii) : option Z :=
  let n := Z.of_nat (Ascii.nat_of_ascii c) in
  if (48 <=? n) && (n <=? 57) then Some (n - 48) else None.
Fixpoint vt_digits (rev : list Ascii.ascii) (weight acc : Z) : Z * bool :=
  match rev with
  | c :: rev =>
    match digit_at c with
    | Some d => let '(v, _) := vt_digits rev (10 * weight) (acc + d * weight) in (v, true)
    | None => (acc, false)
    end
  | [] => (acc, false)
  end.
Definition vt_of (tty : string) : Z :=
  let '(v, some) := vt_digits (rev (String.list_ascii_of_string tty)) 1 0 in
  if some then v else -1.

(** fb_grab(): the tty's descriptor and what KDSETMODE answers. *)
Definition fb_grab (f : fbpriv) (fd : Z) (kd_ok : bool) : fbpriv :=
  let f := f⟨FB_tty_fd := fd⟩ in
  if fd <? 0 then f else if kd_ok then f⟨FB_tty_restore := true⟩ else f.
Definition fb_ungrab (f : fbpriv) : fbpriv :=
  if FB_tty_restore f && (0 <=? FB_tty_fd f) then f⟨FB_tty_restore := false⟩ else f.
Definition fb_close (f : fbpriv) : fbpriv :=
  f⟨FB_mem := false⟩⟨FB_fd := -1⟩⟨FB_tty_fd := -1⟩.

#[export] Instance fb_output : Output fbpriv := {|
  op_begin := λ f _, f; op_write_row := fb_write_row; op_present := fb_present;
  op_clear := fb_clear; op_blank := fb_blank |}.

(** ** The backend as the loop sees it *)
Definition fb_panel (f : fbpriv) : panel :=
  mk_panel (v_xres (FB_vinfo f)) (v_yres (FB_vinfo f)) (FB_bytespp f) (FB_stride f).

(** The device is open, its memory holds the panel, it takes whole writes
    and can power the panel down. *)
Definition fb_ok (f : fbpriv) : Prop :=
  0 ≤ FB_fd f ∧ panel_ok (fb_panel f) ∧
  p_h (fb_panel f) * p_stride (fb_panel f) ≤ Z.of_nat (length (FB_screen f)) ∧
  (FB_mem f = false → FB_pw f = []) ∧ Forall (λ ok, ok = true) (FB_bl f).

Lemma fb_row_screen f r :
  fb_ok f → row_in (fb_panel f) r →
  fb_write_row f (r_dx r) (r_dy r) (r_src r) (r_n r) =
    f⟨FB_screen := draw_row (fb_panel f) (FB_screen f) r⟩.
Proof.
  intros (_&Hp&Hm&Hpw&_) Hr. unfold fb_write_row, draw_row, pwrite, fb_panel.
  destruct (FB_mem f); [done|]. by rewrite (Hpw eq_refl).
Qed.

Lemma fb_ok_screen f s :
  length s = length (FB_screen f) → fb_ok f → fb_ok f⟨FB_screen := s⟩.
Proof.
  intros Hs (H1&H2&H3&H4&H5). split_and!; [done..| |done|done].
  unfold fb_panel in *. cbn in *. lia.
Qed.

Lemma fb_rows f rs :
  fb_ok f → Forall (row_in (fb_panel f)) rs →
  write_rows f rs = f⟨FB_screen := foldl (draw_row (fb_panel f)) (FB_screen f) rs⟩.
Proof.
  intros Hf Hrs. revert f Hf Hrs. induction rs as [|r rs IH]; intros f Hf Hrs.
  { by destruct f. }
  apply Forall_cons in Hrs as [Hr Hrs]. 
  etrans; [exact (f_equal (λ o, write_rows o rs) (fb_row_screen f r Hf Hr))|].
  set (f1 := f⟨FB_screen := _⟩).
  assert (Hf1 : fb_ok f1).
  { apply fb_ok_screen; [|done]. destruct Hf as (_&?&?&_). by apply length_draw_row. }
  by rewrite (IH f1 Hf1 Hrs).
Qed.

#[export] Program Instance fb_laws : OutputLaws fbpriv := {|
  out_panel := fb_panel; out_shown := FB_screen; out_ok := fb_ok |}.
Next Obligation. by intros f (_&?&_). Qed.
Next Obligation. by intros f (_&_&?&_). Qed.
Next Obligation.
  intros f full rs Hf Hrs. unfold out_batch. cbn [op_begin op_present fb_output].
  unfold fb_present. rewrite fb_rows by done.
  pose proof Hf as (_&Hp&Hm&_).
  split; [apply fb_ok_screen; [by apply length_draw_rows|done]|].
  split; [done|]. by exists (FB_screen f).
Qed.
Next Obligation.
  intros f on (H1&H2&H3&H4&H5). cbn [op_blank fb_output]. unfold fb_blank.
  rewrite (proj2 (Z.leb_le _ _)) by done.
  destruct (FB_bl f) as [|ok bl] eqn:Hb.
  - split; [|done]. unfold fb_ok. cbn. rewrite Hb. by split_and!.
  - apply Forall_cons in H5 as [-> H5]. by split_and!.
Qed.
