(* ===== verification/SbcDrm.v ===== *)
(** * client/output_drm.c: the DRM/KMS backend

    The state is struct drmpriv with the two dumb buffers; [D_scan] is the
    framebuffer the CRTC scans out and [D_lit] whether the panel is powered
    (both belong to the kernel).  The choice of connector, mode and CRTC and
    the set-up take libdrm's answers as arguments; [D_ans] holds the answers
    to the next page-flips. *)
From S2P Require Import Prelude Protocol Net SbcOut.

(** ** Choosing what to drive *)
Definition DRM_MODE_CONNECTED : Z := 1.
Definition DRM_MODE_TYPE_PREFERRED : Z := Z.shiftl 1 3.

Definition conn_type_name (t : Z) : string :=
  if t =? 1 then "VGA" else if t =? 2 then "DVI-I" else if t =? 3 then "DVI-D"
  else if t =? 5 then "Composite" else if t =? 7 then "LVDS"
  else if t =? 10 then "DP" else if t =? 11 then "HDMI-A"
  else if t =? 12 then "HDMI-B" else if t =? 13 then "TV"
  else if t =? 14 then "eDP" else if t =? 16 then "DSI" else "Unknown".

Record drmModeModeInfo := mk_mode { m_hdisplay : Z; m_vdisplay : Z; m_type : Z }.
Record drmModeEncoder := mk_enc { en_crtc_id : Z; en_possible_crtcs : Z }.
Record drmModeConnector := mk_conn {
  dc_connector_id : Z; dc_connector_type : Z; dc_connector_type_id : Z;
  dc_connection : Z; dc_encoder_id : Z; dc_encoders : list Z;
  dc_modes : list drmModeModeInfo }.

Definition conn_name (cc : drmModeConnector) : string :=
  (conn_type_name (dc_connector_type cc) +:+ "-" +:+ show_Z (dc_connector_type_id cc))%string.

(** The connector loop of drm_open(): the first connected one that has
    modes and the name asked for. *)
Definition conn_match (want : option string) (cc : drmModeConnector) : bool :=
  (dc_connection cc =? DRM_MODE_CONNECTED) && negb (bool_decide (dc_modes cc = [])) &&
  match want with Some n => bool_decide (n = conn_name cc) | None => true end.
Definition choose_connector (want : option string) (cs : list drmModeConnector)
    : option drmModeConnector :=
  find (conn_match want) cs.

(** The mode loop: the size of SREMFB_DRM_MODE ([mw], 0 for none), else the
    preferred mode, else the first. *)
Definition mode_match (mw mh : Z) (m : drmModeModeInfo) : bool :=
  if mw =? 0 then negb (Z.land (m_type m) DRM_MODE_TYPE_PREFERRED =? 0)
  else (m_hdisplay m =? mw) && (m_vdisplay m =? mh).
Definition choose_mode (mw mh : Z) (ms : list drmModeModeInfo) : option drmModeModeInfo :=
  match find (mode_match mw mh) ms with Some m => Some m | None => head ms end.

(** find_crtc(): the lit one, else the first a CRTC of the card can drive;
    0 for none.  [enc] is drmModeGetEncoder(). *)
Definition find_crtc (enc : Z → option drmModeEncoder) (crtcs : list Z)
    (conn : drmModeConnector) : Z :=
  let lit := if dc_encoder_id conn =? 0 then 0
             else match enc (dc_encoder_id conn) with
                  | Some e => en_crtc_id e | None => 0 end in
  if negb (lit =? 0) then lit
  else
    let possible e := snd <$> list_find (λ jc, Z.testbit (en_possible_crtcs e) jc.1 = true)
                                (zip (Z.of_nat <$> seq 0 (length crtcs)) crtcs) in
    match omap (λ id, match enc id with Some e => possible e | None => None end)
            (dc_encoders conn) with
    | (_, c) :: _ => c
    | [] => 0
    end.

(** ** Buffers *)
Record drmbuf := mk_buf { db_fb_id : Z; db_handle : Z; db_map : option bytes; db_size : Z }.
#[export] Instance eta_drmbuf : Eta drmbuf := λ b,
  mk_buf (db_fb_id b) (db_handle b) (db_map b) (db_size b).
Definition drmbuf0 : drmbuf := mk_buf 0 0 None 0.

(** What one poll() of wait_flip() and its event bring. *)
Inductive flip_ev := FlipNone | FlipEvent (landed : bool).
(** The answers to one present(): is the page-flip taken, the events, is
    the blocking modeset taken. *)
Record flip_ans := mk_flip { fa_flip : bool; fa_events : list flip_ev; fa_crtc : bool }.

Record drmpriv := mk_drm {
  D_fd : Z; D_conn_id : Z; D_crtc_id : Z; D_mode : drmModeModeInfo; D_saved : bool;
  D_buf0 : drmbuf; D_buf1 : drmbuf; D_front : bool; D_target : bool;
  D_no_flip : bool; D_stride : Z; D_bytespp : Z; D_dpms_prop : Z;
  D_tty_fd : Z; D_tty_restore : bool;
  D_scan : Z; D_lit : bool; D_ans : list flip_ans }.
#[export] Instance eta_drm : Eta drmpriv := λ d,
  mk_drm (D_fd d) (D_conn_id d) (D_crtc_id d) (D_mode d) (D_saved d) (D_buf0 d)
    (D_buf1 d) (D_front d) (D_target d) (D_no_flip d) (D_stride d) (D_bytespp d)
    (D_dpms_prop d) (D_tty_fd d) (D_tty_restore d) (D_scan d) (D_lit d) (D_ans d).

(** D.buf[i], [i] being 0 or 1. *)
Definition D_buf (d : drmpriv) (i : bool) : drmbuf := if i then D_buf1 d else D_buf0 d.
Definition set_buf (d : drmpriv) (i : bool) (b : drmbuf) : drmpriv :=
  if i then d⟨D_buf1 := b⟩ else d⟨D_buf0 := b⟩.

(** The kernel's answers to create_buf(): the dumb buffer, the framebuffer
    id, the map offset, mmap(). *)
Record dumb_ans := mk_dumb {
  da_create : option (Z * Z * Z); da_addfb : option Z; da_map : bool; da_mmap : bool }.

Definition create_buf (d : drmpriv) (bpp : Z) (a : dumb_ans) : option (drmpriv * drmbuf) :=
  match da_create a, da_addfb a with
  | Some (handle, pitch, size), Some fb =>
    if da_map a && da_mmap a then
      Some (d⟨D_stride := pitch⟩⟨D_bytespp := bpp / 8⟩,
            mk_buf fb handle (Some (replicate (Z.to_nat size) 0)) size)
    else None
  | _, _ => None
  end.

(** setup_fb(): 0 and the scanout on buffer 0, or -1. *)
Definition setup_fb (d : drmpriv) (bpp : Z) (a0 : dumb_ans) (crtc_ok : bool) (a1 : dumb_ans)
    : bool * drmpriv :=
  match create_buf d bpp a0 with
  | None => (false, d)
  | Some (d, b) =>
    if negb crtc_ok then (false, d⟨D_buf0 := drmbuf0⟩)
    else
      let d := d⟨D_buf0 := b⟩⟨D_scan := db_fb_id b⟩⟨D_front := false⟩⟨D_target := false⟩ in
      match create_buf d bpp a1 with
      | None => (true, d⟨D_no_flip := true⟩)
      | Some (d, b) => (true, d⟨D_buf1 := b⟩)
      end
  end.

(** What libdrm and the environment answer to drm_open(). *)
Record drm_env := mk_env {
  e_fd : Z; e_resources : option (list drmModeConnector * list Z);
  e_encoder : Z → option drmModeEncoder; e_want : option string; e_mw : Z; e_mh : Z;
  e_dpms_prop : Z; e_want32 : bool;
  e_setup16 : dumb_ans * bool * dumb_ans; e_setup32 : dumb_ans * bool * dumb_ans }.

Definition drm_open (d : drmpriv) (e : drm_env) : option (drmpriv * (Z * Z * Z * Z)) :=
  if e_fd e <? 0 then None
  else
    match e_resources e with
    | None => None
    | Some (conns, crtcs) =>
      match choose_connector (e_want e) conns with
      | None => None
      | Some conn =>
        match choose_mode (e_mw e) (e_mh e) (dc_modes conn) with
        | None => None
        | Some mode =>
          let crtc := find_crtc (e_encoder e) crtcs conn in
          let d := d⟨D_fd := e_fd e⟩⟨D_conn_id := dc_connector_id conn⟩⟨D_mode := mode⟩
            ⟨D_crtc_id := crtc⟩⟨D_dpms_prop := e_dpms_prop e⟩ in
          if crtc =? 0 then None
          else
            let d := d⟨D_saved := true⟩ in
            let '(ok, d) :=
              if e_want32 e then (false, d)
              else let '(a0, c, a1) := e_setup16 e in setup_fb d 16 a0 c a1 in
            let '(ok, d) :=
              if ok : bool then (true, d)
              else let '(a0, c, a1) := e_setup32 e in setup_fb d 32 a0 c a1 in
            if negb ok then None
            else
              Some (d, (m_hdisplay mode, m_vdisplay mode,
                        if D_bytespp d =? 2 then SREMFB_PIX_RGB565
                        else SREMFB_PIX_XRGB8888, D_bytespp d))
        end
      end
    end.

(** ** Drawing *)
Definition drm_begin (d : drmpriv) (full : bool) : drmpriv :=
  d⟨D_target := if full && negb (D_no_flip d) then negb (D_front d) else D_front d⟩.

Definition drm_write_row (d : drmpriv) (dx dy : Z) (src : bytes) (npix : Z) : drmpriv :=
  let b := D_buf d (D_target d) in
  set_buf d (D_target d)
    b⟨db_map ::= option_map (λ m, blit m (dy * D_stride d + dx * D_bytespp d)
                                     (slice 0 (npix * D_bytespp d) src))⟩.

(** wait_flip(): up to [tries] polls; has the flip landed? *)
Fixpoint wait_flip (tries : nat) (evs : list flip_ev) (done : bool) : bool :=
  match tries with
  | O => done
  | S tries =>
    if done then true
    else match evs with
         | FlipEvent landed :: evs => wait_flip tries evs landed
         | FlipNone :: evs => wait_flip tries evs false
         | [] => wait_flip tries [] false
         end
  end.

Definition drm_present (d : drmpriv) : drmpriv :=
  if Bool.eqb (D_target d) (D_front d) then d
  else
    let '(a, d) := match D_ans d with
                   | [] => (mk_flip true [FlipEvent true] true, d)
                   | a :: l => (a, d⟨D_ans := l⟩)
                   end in
    let fb := db_fb_id (D_buf d (D_target d)) in
    if fa_flip a then
      let d := d⟨D_scan := fb⟩ in
      let d := if wait_flip 10 (fa_events a) false then d else d⟨D_no_flip := true⟩ in
      d⟨D_front := D_target d⟩
    else if fa_crtc a then d⟨D_scan := fb⟩⟨D_front := D_target d⟩
    else d⟨D_no_flip := true⟩⟨D_target := D_front d⟩.

Definition black_buf (b : drmbuf) : drmbuf :=
  b⟨db_map ::= option_map (λ m, blit m 0 (replicate (Z.to_nat (db_size b)) 0))⟩.

Definition drm_clear (d : drmpriv) : drmpriv :=
  d⟨D_buf0 ::= black_buf⟩⟨D_buf1 ::= black_buf⟩.

Definition drm_blank (d : drmpriv) (on : bool) : drmpriv :=
  if negb (D_dpms_prop d =? 0) then d⟨D_lit := negb on⟩
  else if on then set_buf d (D_front d) (black_buf (D_buf d (D_front d)))
  else d.

Definition drm_panel_present (status : option string) : Z :=
  match status with
  | None => -1
  | Some s => if String.prefix "connected" s || String.prefix "unknown" s then 1 else 0
  end.

Definition drm_grab (d : drmpriv) (fd : Z) (kd_ok : bool) : drmpriv :=
  let d := d⟨D_tty_fd := fd⟩ in
  if fd <? 0 then d else if kd_ok then d⟨D_tty_restore := true⟩ else d.
Definition drm_ungrab (d : drmpriv) : drmpriv :=
  if D_tty_restore d && (0 <=? D_tty_fd d) then d⟨D_tty_restore := false⟩ else d.
Definition drm_close (d : drmpriv) : drmpriv :=
  d⟨D_saved := false⟩⟨D_buf0 := drmbuf0⟩⟨D_buf1 := drmbuf0⟩⟨D_fd := -1⟩⟨D_tty_fd := -1⟩.

#[export] Instance drm_output : Output drmpriv := {|
  op_begin := drm_begin; op_write_row := drm_write_row; op_present := drm_present;
  op_clear := drm_clear; op_blank := drm_blank |}.

(** ** The backend as the loop sees it *)
Definition drm_panel (d : drmpriv) : panel :=
  mk_panel (m_hdisplay (D_mode d)) (m_vdisplay (D_mode d)) (D_bytespp d) (D_stride d).
Definition drm_shown (d : drmpriv) : bytes := default [] (db_map (D_buf d (D_front d))).

(** The scanout is the front buffer, both buffers are mapped (the second
    one unless flips are given up) with the size of the panel. *)
Record drm_inv (d : drmpriv) : Prop := {
  di_panel : panel_ok (drm_panel d);
  di_scan : D_scan d = db_fb_id (D_buf d (D_front d));
  di_front : ∃ m, db_map (D_buf d (D_front d)) = Some m ∧
    p_h (drm_panel d) * p_stride (drm_panel d) ≤ Z.of_nat (length m);
  di_back : D_no_flip d = false →
    ∃ m, db_map (D_buf d (negb (D_front d))) = Some m ∧
      length m = length (drm_shown d) }.

(** And the kernel plays along: the panel has a DPMS property, and what
    refuses a page-flip at least accepts a modeset. *)
Definition drm_ok (d : drmpriv) : Prop :=
  drm_inv d ∧ D_dpms_prop d ≠ 0 ∧
  Forall (λ a, fa_flip a || fa_crtc a = true) (D_ans d).

Lemma set_buf_same d i : set_buf d i (D_buf d i) = d.
Proof. by destruct d, i. Qed.
Lemma set_buf_twice d i b b' : set_buf (set_buf d i b) i b' = set_buf d i b'.
Proof. by destruct i. Qed.
Lemma buf_set_same d i b : D_buf (set_buf d i b) i = b.
Proof. by destruct i. Qed.
Lemma buf_set_other d i b : D_buf (set_buf d i b) (negb i) = D_buf d (negb i).
Proof. by destruct i. Qed.
Lemma set_buf_fields d i b :
  drm_panel (set_buf d i b) = drm_panel d ∧ D_front (set_buf d i b) = D_front d ∧
  D_target (set_buf d i b) = D_target d ∧ D_no_flip (set_buf d i b) = D_no_flip d ∧
  D_scan (set_buf d i b) = D_scan d ∧ D_ans (set_buf d i b) = D_ans d ∧
  D_dpms_prop (set_buf d i b) = D_dpms_prop d.
Proof. by destruct i. Qed.

Lemma drm_rows d rs m :
  db_map (D_buf d (D_target d)) = Some m →
  write_rows d rs = set_buf d (D_target d)
    (D_buf d (D_target d))⟨db_map := Some (foldl (draw_row (drm_panel d)) m rs)⟩.
Proof.
  revert d m. induction rs as [|r rs IH]; intros d m Hm.
  - cbn [write_rows foldl]. rewrite <- Hm. etrans; [symmetry; apply (set_buf_same d (D_target d))|].
    f_equal. by destruct (D_buf d (D_target d)).
  - set (d1 := drm_write_row d (r_dx r) (r_dy r) (r_src r) (r_n r)).
    change (write_rows d (r :: rs)) with (write_rows d1 rs).
    assert (E : d1 = set_buf d (D_target d)
      (D_buf d (D_target d))⟨db_map := Some (draw_row (drm_panel d) m r)⟩).
    { unfold d1, drm_write_row. f_equal.
      assert (Ee : (D_buf d (D_target d)) = (D_buf d (D_target d))⟨db_map := Some m⟩)
        by (rewrite <- Hm; by destruct (D_buf d (D_target d))).
      rewrite Ee. done. }
    destruct (set_buf_fields d (D_target d)
      (D_buf d (D_target d))⟨db_map := Some (draw_row (drm_panel d) m r)⟩)
      as (E1&E2&E3&_). rewrite <- E in E1, E3.
    assert (Hb : D_buf d1 (D_target d) =
      (D_buf d (D_target d))⟨db_map := Some (draw_row (drm_panel d) m r)⟩)
      by (rewrite E; apply buf_set_same).
    rewrite (IH d1 (draw_row (drm_panel d) m r)) by (by rewrite E3, Hb).
    rewrite E3, E1, Hb, E, set_buf_twice. done.
Qed.

(** What present() publishes when the target is the other buffer. *)
Lemma drm_present_flip d :
  D_target d = negb (D_front d) →
  Forall (λ a, fa_flip a || fa_crtc a = true) (D_ans d) →
  ∃ nf l, drm_present d =
    d⟨D_ans := l⟩⟨D_scan := db_fb_id (D_buf d (D_target d))⟩⟨D_no_flip := nf⟩
     ⟨D_front := D_target d⟩ ∧
    (D_no_flip d = true → nf = true) ∧ Forall (λ a, fa_flip a || fa_crtc a = true) l.
Proof.
  intros Ht Hans. unfold drm_present.
  assert (Hne : Bool.eqb (D_target d) (D_front d) = false) by (rewrite Ht; by destruct (D_front d)).
  rewrite Hne. set (p := match D_ans d with [] => _ | _ => _ end).
  assert (Hp : ∃ l, p.2 = d⟨D_ans := l⟩ ∧ fa_flip p.1 || fa_crtc p.1 = true ∧
    Forall (λ a, fa_flip a || fa_crtc a = true) l).
  { subst p. destruct (D_ans d) as [|a l] eqn:E.
    - exists []. split_and!; [|done|constructor]. cbn. rewrite <- E. by destruct d.
    - apply Forall_cons in Hans as [Ha Hl]. by exists l. }
  clearbody p. destruct p as [a d1]. cbn [fst snd] in Hp. destruct Hp as (l&->&Ha&Hl).
  destruct (fa_flip a) eqn:Hf.
  - destruct (wait_flip _ _ _).
    + exists (D_no_flip d), l. by split_and!.
    + exists true, l. by split_and!.
  - cbn in Ha. rewrite Ha. exists (D_no_flip d), l. by split_and!.
Qed.

(** A batch in place: begin() targets the front buffer. *)
Lemma drm_batch_front d full rs m :
  full && negb (D_no_flip d) = false → db_map (D_buf d (D_front d)) = Some m →
  out_batch d full rs =
    set_buf d⟨D_target := D_front d⟩ (D_front d)
      (D_buf d (D_front d))⟨db_map := Some (foldl (draw_row (drm_panel d)) m rs)⟩.
Proof.
  intros Hf Hm. unfold out_batch. cbn [op_begin op_present drm_output].
  set (d1 := drm_begin d full).
  assert (E1 : d1 = d⟨D_target := D_front d⟩) by (unfold d1, drm_begin; by rewrite Hf).
  rewrite (drm_rows d1 rs m) by (rewrite E1; exact Hm).
  rewrite E1. cbn [D_target]. set (b := (D_buf _ _)⟨db_map := _⟩).
  unfold drm_present.
  destruct (set_buf_fields d⟨D_target := D_front d⟩ (D_front d) b) as (_&F&T&_).
  change (D_target d⟨D_target := D_front d⟩) with (D_front d) in *.
  change (D_front d⟨D_target := D_front d⟩) with (D_front d) in *.
  rewrite F, T, eqb_reflx. done.
Qed.

(** A full batch goes to the back buffer, which becomes the front. *)
Lemma drm_batch_back d rs m :
  D_no_flip d = false → db_map (D_buf d (negb (D_front d))) = Some m →
  Forall (λ a, fa_flip a || fa_crtc a = true) (D_ans d) →
  ∃ nf l, Forall (λ a, fa_flip a || fa_crtc a = true) l ∧
    let b := (D_buf d (negb (D_front d)))⟨db_map := Some (foldl (draw_row (drm_panel d)) m rs)⟩ in
    out_batch d true rs =
      (set_buf d⟨D_target := negb (D_front d)⟩ (negb (D_front d)) b)
        ⟨D_ans := l⟩⟨D_scan := db_fb_id b⟩⟨D_no_flip := nf⟩⟨D_front := negb (D_front d)⟩.
Proof.
  intros Hnf Hm Hans. unfold out_batch. cbn [op_begin op_present drm_output].
  set (d1 := drm_begin d true).
  assert (E1 : d1 = d⟨D_target := negb (D_front d)⟩)
    by (unfold d1, drm_begin; by rewrite Hnf).
  rewrite (drm_rows d1 rs m) by (rewrite E1; exact Hm).
  rewrite E1. change (D_target d⟨D_target := negb (D_front d)⟩) with (negb (D_front d)).
  set (b := (D_buf _ _)⟨db_map := _⟩).
  destruct (set_buf_fields d⟨D_target := negb (D_front d)⟩ (negb (D_front d)) b)
    as (_&F&T&_&_&A&_).
  set (d2 := set_buf _ _ b) in *.
  destruct (drm_present_flip d2) as (nf&l&->&_&Hl); [by rewrite F, T|by rewrite A|].
  exists nf, l. split; [done|]. cbv zeta. rewrite T.
  change (D_target d⟨D_target := negb (D_front d)⟩) with (negb (D_front d)).
  assert (Hb2 : D_buf d2 (negb (D_front d)) = b) by apply buf_set_same.
  by rewrite Hb2.
Qed.

Lemma drm_inv_shown d : drm_inv d → db_map (D_buf d (D_front d)) = Some (drm_shown d).
Proof. intros [_ _ (m&Hm&_) _]. unfold drm_shown. by rewrite Hm. Qed.

Lemma drm_inv_size d : drm_inv d →
  p_h (drm_panel d) * p_stride (drm_panel d) ≤ Z.of_nat (length (drm_shown d)).
Proof. intros [_ _ (m&Hm&Hl) _]. unfold drm_shown. by rewrite Hm. Qed.

Lemma drm_begin_front d rs m :
  drm_ok d → db_map (D_buf d (D_front d)) = Some m → length (foldl (draw_row (drm_panel d)) m rs) = length m →
  drm_ok (set_buf d⟨D_target := D_front d⟩ (D_front d)
    (D_buf d (D_front d))⟨db_map := Some (foldl (draw_row (drm_panel d)) m rs)⟩).
Proof.
  intros ([H1 H2 (m0&Hm0&Hl0) H4]&Hd&Ha) Hm Hlen. rewrite Hm in Hm0. simplify_eq.
  set (b := (D_buf _ _)⟨db_map := _⟩).
  destruct (set_buf_fields d⟨D_target := D_front d⟩ (D_front d) b) as (P&F&T&N&S&A&Q).
  set (d' := set_buf _ _ b) in *.
  assert (Hb : D_buf d' (D_front d) = b) by apply buf_set_same.
  assert (Hb' : D_buf d' (negb (D_front d)) = D_buf d (negb (D_front d)))
    by (unfold d'; by destruct (D_front d)).
  change (D_front d⟨D_target := D_front d⟩) with (D_front d) in F.
  split_and!; [|by rewrite Q|by rewrite A]. split.
  - by rewrite P.
  - rewrite S, F, Hb. exact H2.
  - rewrite F, Hb, P. eexists. split; [done|]. cbn. rewrite Hlen. exact Hl0.
  - rewrite N, F, Hb'. intros Hn. destruct (H4 Hn) as (m1&Hm1&Hl1). exists m1.
    split; [done|]. unfold drm_shown in *. rewrite F, Hb. rewrite Hm in Hl1.
    cbn in *. lia.
Qed.

#[export] Program Instance drm_laws : OutputLaws drmpriv := {|
  out_panel := drm_panel; out_shown := drm_shown; out_ok := drm_ok |}.
Next Obligation. by intros d ([]&_). Qed.
Next Obligation. intros d (?&_). by apply drm_inv_size. Qed.
Next Obligation.
  intros d full rs Hok Hrs. pose proof Hok as (Hi&Hd&Ha). pose proof Hi as [Hp Hs Hfr Hbk].
  pose proof (drm_inv_size d Hi) as Hsz. pose proof (drm_inv_shown d Hi) as Hsh.
  destruct (full && negb (D_no_flip d)) eqn:Hf.
  - apply andb_true_iff in Hf as [-> Hn%negb_true_iff].
    destruct (Hbk Hn) as (m&Hm&Hlm).
    assert (Hlen : length (foldl (draw_row (drm_panel d)) m rs) = length m)
      by (apply length_draw_rows; [done..|lia]).
    destruct (drm_batch_back d rs m Hn Hm Ha) as (nf&l&Hl&->). cbv zeta.
    set (b := (D_buf _ _)⟨db_map := _⟩).
    set (d1 := set_buf _ _ b). set (d' := d1⟨_ := _⟩⟨_ := _⟩⟨_ := _⟩⟨_ := _⟩).
    destruct (set_buf_fields d⟨D_target := negb (D_front d)⟩ (negb (D_front d)) b)
      as (P&_&_&_&_&_&Q). fold d1 in P, Q.
    change (drm_panel d⟨D_target := negb (D_front d)⟩) with (drm_panel d) in P.
    assert (Hb : D_buf d' (negb (D_front d)) = b).
    { change (D_buf d' (negb (D_front d))) with (D_buf d1 (negb (D_front d))).
      apply buf_set_same. }
    assert (Hb' : D_buf d' (D_front d) = D_buf d (D_front d)).
    { change (D_buf d' (D_front d)) with (D_buf d1 (D_front d)). unfold d1.
      by destruct (D_front d). }
    assert (F : D_front d' = negb (D_front d)) by done.
    assert (Hshow : drm_shown d' = foldl (draw_row (drm_panel d)) m rs)
      by (unfold drm_shown; by rewrite F, Hb).
    split; [|split; [exact P|]].
    + split_and!; [|change (D_dpms_prop d1 ≠ 0); by rewrite Q|exact Hl]. split.
      * change (drm_panel d') with (drm_panel d1). by rewrite P.
      * change (db_fb_id b = db_fb_id (D_buf d' (D_front d'))). by rewrite F, Hb.
      * change (drm_panel d') with (drm_panel d1). rewrite F, Hb, P.
        eexists. split; [done|]. rewrite Hlen. lia.
      * intros _. rewrite F, negb_involutive, Hb', Hshow, Hlen. eexists.
        split; [exact Hsh|]. lia.
    + exists m. split_and!; [done|done|]. rewrite Hshow. done.
  - rewrite (drm_batch_front d full rs (drm_shown d) Hf Hsh).
    assert (Hlen : length (foldl (draw_row (drm_panel d)) (drm_shown d) rs) =
      length (drm_shown d)) by (by apply length_draw_rows).
    pose proof (drm_begin_front d rs _ Hok Hsh Hlen) as Hok'.
    destruct (set_buf_fields d⟨D_target := D_front d⟩ (D_front d)
      (D_buf d (D_front d))⟨db_map := Some (foldl (draw_row (drm_panel d)) (drm_shown d) rs)⟩)
      as (P&F&_).
    split; [exact Hok'|]. split; [exact P|].
    exists (drm_shown d). split_and!; [done|done|].
    unfold drm_shown at 1. rewrite F.
    change (D_front d⟨D_target := D_front d⟩) with (D_front d). by rewrite buf_set_same.
Qed.
Next Obligation.
  intros d on (Hi&Hd&Ha). cbn [op_blank drm_output]. unfold drm_blank.
  rewrite (proj2 (Z.eqb_neq _ _)) by done. cbn [negb].
  split_and!; [|done|done]. split_and!; [|done|done]. destruct Hi. by split.
Qed.
