(* ===== verification/Sbc.v ===== *)
(** * client/sremfb-client.c: the state of the SBC client, its display

    [sbc] is the static struct C with the mailbox of the blit thread, the
    state of v4l2dec.c ([v4l2dec]) and what the environment still holds for
    the client: the socket's input, the answers of write(2), of the V4L2
    device and of poll(2); [C_torn] is a ghost.  The main thread and the
    blit thread interleave where the main thread waits for the kernel: the
    script of device answers also holds the steps of the blit thread and the
    device's own writes. *)
From S2P Require Import Prelude Protocol Convert ViewH264 ViewNet SbcOut.

Definition v4l2_fourcc (a b c d : Z) : Z := of_le [a; b; c; d].
Definition V4L2_PIX_FMT_RGB565 : Z := v4l2_fourcc 82 71 66 80.
Definition V4L2_PIX_FMT_NV12 : Z := v4l2_fourcc 78 86 49 50.
Definition V4L2_PIX_FMT_YUV420 : Z := v4l2_fourcc 89 85 49 50.
Definition V4L2_PIX_FMT_H264 : Z := v4l2_fourcc 72 50 54 52.

Definition OUT_BUFS : Z := 4.
Definition CAP_BUFS_MAX : Z := 32.
Definition AU_MAX : Z := Z.shiftl 1 20.

(** v4l2dec.h: a decoded frame; its data is the capture buffer of index
    [f_buf_index].  [f_snap] is a ghost: what the buffer held when the
    driver handed it over. *)
Record v4l2dec_frame := mk_frame {
  f_fourcc : Z; f_w : Z; f_h : Z; f_stride : Z; f_coded_h : Z; f_buf_index : Z;
  f_snap : bytes }.

(** v4l2dec.c: the static struct D.  [V_kq] (the capture buffers the driver
    holds), [V_mem] (their contents) and [V_fed] (the access units queued)
    are the kernel's side. *)
Record v4l2dec := mk_v4 {
  V_node : bool; V_fd : bool; V_stream_w : Z; V_stream_h : Z; V_want_rgb565 : bool;
  V_out_map : list bool; V_out_len : list Z; V_out_free : list bool;
  V_cap_ready : bool; V_cap_fourcc : Z; V_cap_nbufs : Z; V_coded_w : Z; V_coded_h : Z;
  V_vis_w : Z; V_vis_h : Z; V_cap_stride : Z; V_cap_map : list bool; V_cap_len : list Z;
  V_saw_source_change : bool; V_saw_last : bool;
  V_kq : list Z; V_mem : Z → bytes; V_fed : list bytes }.
#[export] Instance eta_v4 : Eta v4l2dec := λ v,
  mk_v4 (V_node v) (V_fd v) (V_stream_w v) (V_stream_h v) (V_want_rgb565 v)
    (V_out_map v) (V_out_len v) (V_out_free v) (V_cap_ready v) (V_cap_fourcc v)
    (V_cap_nbufs v) (V_coded_w v) (V_coded_h v) (V_vis_w v) (V_vis_h v)
    (V_cap_stride v) (V_cap_map v) (V_cap_len v) (V_saw_source_change v)
    (V_saw_last v) (V_kq v) (V_mem v) (V_fed v).

(** One event of the device script.  The blit thread takes the mailbox
    ([VTake]) and finishes a frame ([VDone], with what its VIDIOC_QBUF
    answers); the device decodes into a buffer it holds ([VWrite]); a signal
    interrupts a call ([VIntr]) or asks to stop ([VSig]); the rest answers
    one ioctl ([VReq]: the number of buffers granted, less the number asked
    for). *)
Inductive v4_ev :=
  | VTake | VDone (ok : bool) | VWrite (idx : Z) (data : bytes)
  | VIntr | VSig
  | VErr (epipe : bool) | VOk
  | VCaps (caps : Z) | VFmtdesc (pixelformat : Z)
  | VFmt (pixelformat w h bytesperline : Z) | VSel (w h : Z) | VCtrl (value : Z)
  | VReq (delta : Z) | VBuf (len : Z) (map_ok : bool)
  | VDq (idx bytesused : Z) (last : bool) | VEvent (source_change : bool).

(** One write(2) to the socket. *)
Inductive wr_ev := WSent (n : Z) | WIntr | WErr.

(** One poll(2) of the receive loop with the clock readings that follow
    it and the panel's connector. *)
Inductive poll_res := PollIntr | PollFail | PollOk (sock dec : bool).
Record poll_ev := mk_poll {
  pe_stop : bool; pe_res : poll_res; pe_tick : Z; pe_tick2 : Z; pe_panel : Z;
  pe_live : Z; pe_rx : Z }.

Record sbc {Dev : Type} := mk_sbc {
  C_no_lz4 : bool; C_no_h264 : bool; C_usb_active : bool;
  C_test_mode : bool; C_test_w : Z; C_test_h : Z; C_test_sink : bool;
  C_dec_found : bool; C_dec_open : bool; C_h264_broken : bool; C_srv_flags : Z;
  C_rowbuf : bool; C_hotplug_armed : bool;
  C_out : Dev; C_out_w : Z; C_out_h : Z; C_pixfmt : Z; C_bytespp : Z; C_blanked : bool;
  C_stream_w : Z; C_stream_h : Z; C_off_x : Z; C_off_y : Z;
  C_testbuf : bytes; C_frame_count : Z;
  B_next : option v4l2dec_frame; B_busy : option v4l2dec_frame; B_up : Z;
  C_thread_ok : bool; C_sink_ok : bool; C_sink : list bytes; g_stop : bool; C_dec : v4l2dec;
  C_rx : list rx_ev; C_tx : bytes; C_writes : list wr_ev; C_script : list v4_ev;
  C_torn : bool }.
Arguments sbc : clear implicits.
#[export] Instance eta_sbc {Dev} : Eta (sbc Dev) := λ s,
  mk_sbc Dev (C_no_lz4 s) (C_no_h264 s) (C_usb_active s) (C_test_mode s) (C_test_w s)
    (C_test_h s) (C_test_sink s) (C_dec_found s) (C_dec_open s) (C_h264_broken s)
    (C_srv_flags s) (C_rowbuf s) (C_hotplug_armed s) (C_out s) (C_out_w s) (C_out_h s)
    (C_pixfmt s) (C_bytespp s) (C_blanked s) (C_stream_w s) (C_stream_h s) (C_off_x s)
    (C_off_y s) (C_testbuf s) (C_frame_count s) (B_next s) (B_busy s) (B_up s)
    (C_thread_ok s) (C_sink_ok s) (C_sink s) (g_stop s) (C_dec s) (C_rx s) (C_tx s) (C_writes s)
    (C_script s) (C_torn s).

(** [n] bytes at [off], as a memory read: the buffers the driver maps are
    at least as long as what it announces. *)
Definition mem_read (b : bytes) (off n : Z) : bytes := byte_at b <$> seqZ off n.

(** BT.601 limited range, one row of panel pixels. *)
Definition clamp255u (v : Z) : Z := if v <? 0 then 0 else if 255 <? v then 255 else v.

Definition yuv_px (bytespp : Z) (yrow urow vrow : Z → Z) (uv_step i : Z) : bytes :=
  let c := 298 * (yrow i - 16) in
  let du := urow (i / 2 * uv_step) - 128 in
  let dv := vrow (i / 2 * uv_step) - 128 in
  let r := clamp255u (Z.shiftr (c + 409 * dv + 128) 8) in
  let g := clamp255u (Z.shiftr (c - 100 * du - 208 * dv + 128) 8) in
  let b := clamp255u (Z.shiftr (c + 516 * du + 128) 8) in
  if bytespp =? 2
  then le 2 (Z.lor (Z.lor (Z.shiftl (Z.shiftr r 3) 11) (Z.shiftl (Z.shiftr g 2) 5))
                   (Z.shiftr b 3))
  else le 4 (Z.lor (Z.lor (Z.shiftl r 16) (Z.shiftl g 8)) b).

Definition yuv_row_to_fb (bytespp : Z) (yrow urow vrow : Z → Z) (uv_step w : Z) : bytes :=
  rows 0 w (yuv_px bytespp yrow urow vrow uv_step).

Section sbc.
Context {Dev : Type} `{Output Dev}.
Implicit Types s : sbc Dev.

Definition dec_upd s (f : v4l2dec → v4l2dec) : sbc Dev := s⟨C_dec ::= f⟩.

(** ** The output sink *)
Definition set_blank s (on : bool) : sbc Dev :=
  if Bool.eqb on (C_blanked s) then s
  else
    let s := s⟨C_blanked := on⟩ in
    if C_test_mode s then s else s⟨C_out ::= λ o, op_blank o on⟩.

(** The part of a stream row that is on the panel, and where. *)
Definition clip_row s (sx sy w : Z) (row : bytes) : option out_row :=
  let dy := sy + C_off_y s in
  if (dy <? 0) || (C_out_h s <=? dy) then None
  else
    let dx := sx + C_off_x s in
    let skip := if dx <? 0 then - dx else 0 in
    if (dx <? 0) && (w <=? skip) then None
    else
      let w := w - skip in
      let dx := if dx <? 0 then 0 else dx in
      if C_out_w s <=? dx then None
      else
        let w := if C_out_w s <? dx + w then C_out_w s - dx else w in
        Some (mk_row dx dy (drop (Z.to_nat (skip * C_bytespp s)) row) w).

Definition blit_stream_row s (sx sy w : Z) (row : bytes) : sbc Dev :=
  match clip_row s sx sy w row with
  | None => s
  | Some r => s⟨C_out ::= λ o, op_write_row o (r_dx r) (r_dy r) (r_src r) (r_n r)⟩
  end.

Definition out_begin s (full : bool) : sbc Dev :=
  if C_test_mode s then s else s⟨C_out ::= λ o, op_begin o full⟩.
Definition out_present s : sbc Dev :=
  if C_test_mode s then s else s⟨C_out ::= op_present⟩.

(** ** Decoded frames *)
Definition frame_row s (f : v4l2dec_frame) (w y : Z) : option bytes :=
  let data := V_mem (C_dec s) (f_buf_index f) in
  if (f_fourcc f =? V4L2_PIX_FMT_RGB565) && (C_bytespp s =? 2)
  then Some (mem_read data (y * f_stride f) (w * C_bytespp s))
  else if C_rowbuf s then
    let luma := y * f_stride f in
    let chroma := f_stride f * f_coded_h f in
    Some (
      if f_fourcc f =? V4L2_PIX_FMT_NV12 then
        let uv := chroma + y / 2 * f_stride f in
        yuv_row_to_fb (C_bytespp s) (λ i, byte_at data (luma + i))
          (λ i, byte_at data (uv + i)) (λ i, byte_at data (uv + 1 + i)) 2 w
      else
        let cs := f_stride f / 2 in
        let u := chroma + y / 2 * cs in
        let v := chroma + f_coded_h f / 2 * cs + y / 2 * cs in
        yuv_row_to_fb (C_bytespp s) (λ i, byte_at data (luma + i))
          (λ i, byte_at data (u + i)) (λ i, byte_at data (v + i)) 1 w)
  else None.

(** Ghost: was a frame ever shown from a buffer that had changed since the
    driver handed it over, or that was not mapped any more? *)
Definition note_torn s (f : v4l2dec_frame) : sbc Dev :=
  s⟨C_torn ::= orb (negb (V_fd (C_dec s)) ||
                    negb (bool_decide (V_mem (C_dec s) (f_buf_index f) = f_snap f)))⟩.

Definition frame_to_fb s (f : v4l2dec_frame) : sbc Dev :=
  let s := note_torn s f in
  let w := u32 (if f_w f <? C_stream_w s then f_w f else C_stream_w s) in
  let h := u32 (if f_h f <? C_stream_h s then f_h f else C_stream_h s) in
  let s := out_begin s true in
  let s := for_ 0 h (λ y s,
    match frame_row s f w y with
    | Some row => blit_stream_row s 0 y w row
    | None => s
    end) s in
  set_blank (out_present s) false.

(** ** Buffers back to the decoder *)
Definition cap_qbuf_ans s (idx : Z) (ok : bool) : sbc Dev :=
  if ok then dec_upd s (λ v, v⟨V_kq ::= cons idx⟩) else s.

(** v4l2dec_release() with what VIDIOC_QBUF answers. *)
Definition release_ans s (idx : Z) (ok : bool) : sbc Dev :=
  if negb (V_fd (C_dec s)) || (idx <? 0) || (V_cap_nbufs (C_dec s) <=? idx) then s
  else cap_qbuf_ans s idx ok.

(** ** The blit thread: one turn of its loop, in two halves *)
Definition thread_take s : sbc Dev :=
  match B_busy s, B_next s with
  | None, Some f => if g_stop s then s else s⟨B_busy := Some f⟩⟨B_next := None⟩
  | _, _ => s
  end.
Definition thread_done s (ok : bool) : sbc Dev :=
  match B_busy s with
  | Some f => (release_ans (frame_to_fb s f) (f_buf_index f) ok)⟨B_busy := None⟩
  | None => s
  end.

(** The device decodes into a buffer it holds. *)
Definition kernel_write s (idx : Z) (data : bytes) : sbc Dev :=
  if bool_decide (idx ∈ V_kq (C_dec s))
  then dec_upd s (λ v, v⟨V_mem ::= λ m i, if i =? idx then data else m i⟩) else s.

(** ** Calls into the kernel *)
(** xioctl(): EINTR is retried unless the client is stopping. *)
Fixpoint answer (l : list v4_ev) s : v4_ev * sbc Dev :=
  match l with
  | [] => (VErr false, s⟨C_script := []⟩)
  | VTake :: l => answer l (thread_take s)
  | VDone ok :: l => answer l (thread_done s ok)
  | VWrite i d :: l => answer l (kernel_write s i d)
  | VIntr :: l => if g_stop s then (VErr false, s⟨C_script := l⟩) else answer l s
  | VSig :: l => (VErr false, s⟨g_stop := true⟩⟨C_script := l⟩)
  | a :: l => (a, s⟨C_script := l⟩)
  end.
Definition xioctl s : v4_ev * sbc Dev := answer (C_script s) s.

(** poll(2) on the device: false on an error that is not EINTR. *)
Fixpoint dev_poll_ (l : list v4_ev) s : bool * sbc Dev :=
  match l with
  | [] => (true, s⟨C_script := []⟩)
  | VTake :: l => dev_poll_ l (thread_take s)
  | VDone ok :: l => dev_poll_ l (thread_done s ok)
  | VWrite i d :: l => dev_poll_ l (kernel_write s i d)
  | VSig :: l => (true, s⟨g_stop := true⟩⟨C_script := l⟩)
  | VErr _ :: l => (false, s⟨C_script := l⟩)
  | _ :: l => (true, s⟨C_script := l⟩)
  end.
Definition dev_poll s : bool * sbc Dev := dev_poll_ (C_script s) s.

Definition cap_qbuf s (idx : Z) : bool * sbc Dev :=
  let '(a, s) := xioctl s in
  match a with
  | VOk => (true, cap_qbuf_ans s idx true)
  | _ => (false, s)
  end.

Definition v4l2dec_release s (idx : Z) : sbc Dev :=
  if negb (V_fd (C_dec s)) || (idx <? 0) || (V_cap_nbufs (C_dec s) <=? idx) then s
  else (cap_qbuf s idx).2.

(** While the main thread sleeps in its own poll(2). *)
Fixpoint run_thread_ (l : list v4_ev) s : sbc Dev :=
  match l with
  | VTake :: l => run_thread_ l (thread_take s)
  | VDone ok :: l => run_thread_ l (thread_done s ok)
  | VWrite i d :: l => run_thread_ l (kernel_write s i d)
  | l => s⟨C_script := l⟩
  end.
Definition run_thread s : sbc Dev := run_thread_ (C_script s) s.

(** ** The mailbox *)
(** The wait of blit_sync(): only the blit thread runs, at most a frame it
    has and one it takes; a signal ends the wait.  [fuel] 4 is enough
    (blit_sync_quiet). *)
Fixpoint blit_sync_loop (fuel : nat) s : sbc Dev :=
  match fuel with
  | O => s
  | S fuel =>
    match B_next s, B_busy s with
    | None, None => s
    | _, _ =>
      if g_stop s then s
      else
        match B_busy s, C_script s with
        | _, VSig :: l => s⟨g_stop := true⟩⟨C_script := l⟩
        | Some _, VDone ok :: l => blit_sync_loop fuel (thread_done s⟨C_script := l⟩ ok)
        | Some _, _ => blit_sync_loop fuel (thread_done s true)
        | None, _ => blit_sync_loop fuel (thread_take s)
        end
    end
  end.
Definition blit_sync s : sbc Dev :=
  if B_up s =? 1 then blit_sync_loop 4 s else s.

(** v4l2dec_emit(): true when the frame was kept for the blit thread.  The
    mutex is held while an unshown frame is dropped: the thread cannot take
    it any more. *)
Definition v4l2dec_emit s (f : v4l2dec_frame) : bool * sbc Dev :=
  let s := if B_up s <? 0 then s⟨B_up := if C_thread_ok s then 1 else 0⟩ else s in
  if B_up s =? 0 then (false, frame_to_fb s f)
  else
    let s := match B_next s with
             | Some g => v4l2dec_release s⟨B_next := None⟩ (f_buf_index g)
             | None => s
             end in
    (true, s⟨B_next := Some f⟩).
End sbc.
