(* ===== verification/V4l2dec.v ===== *)
(** * client/v4l2dec.c: the stateful M2M decoder of the SBC client

    Probe, set-up of the two queues, the steady state, the drain at the end
    of an episode and the close.  Every ioctl consumes one answer of the
    script ([Sbc.xioctl]); an answer of another kind, or none, is an error
    of that ioctl.  Loops until the driver says no take as fuel the length
    of the script, which each turn shortens. *)
From S2P Require Import Prelude Protocol ViewNet SbcOut Sbc.

Definition V4L2_CAP_VIDEO_M2M_MPLANE : Z := 0x4000.
Definition OUT0 : list nat := seq 0 4.

Section v4l2dec.
Context {Dev : Type} `{Output Dev}.
Implicit Types s : sbc Dev.

Definition ok_ioctl s : bool * sbc Dev :=
  let '(a, s) := xioctl s in (match a with VOk => true | _ => false end, s).

(** ** Probe *)
(** The VIDIOC_ENUM_FMT loop. *)
Fixpoint enum_h264 (fuel : nat) s : bool * sbc Dev :=
  match fuel with
  | O => (false, s)
  | S fuel =>
    let '(a, s) := xioctl s in
    match a with
    | VFmtdesc p => if p =? V4L2_PIX_FMT_H264 then (true, s) else enum_h264 fuel s
    | _ => (false, s)
    end
  end.

(** One node: does it open, is it an M2M device, does it take H.264? *)
Definition probe_node s (opens : bool) : bool * sbc Dev :=
  if negb opens then (false, s)
  else
    let '(a, s) := xioctl s in
    match a with
    | VCaps caps =>
      if Z.land caps V4L2_CAP_VIDEO_M2M_MPLANE =? 0 then (false, s)
      else enum_h264 (S (length (C_script s))) s
    | _ => (false, s)
    end.

(** v4l2dec_probe() over the nodes that exist (at most /dev/video0..31). *)
Fixpoint probe_nodes (nodes : list bool) s : bool * sbc Dev :=
  match nodes with
  | [] => (false, s)
  | n :: nodes =>
    let '(found, s) := probe_node s n in
    if found : bool then (true, dec_upd s (λ v, v⟨V_node := true⟩)) else probe_nodes nodes s
  end.
Definition v4l2dec_probe s (env_no_h264 : bool) (nodes : list bool) : bool * sbc Dev :=
  if env_no_h264 then (false, s) else probe_nodes (take 32 nodes) s.

(** ** Set-up *)
Fixpoint out_buffers (ids : list nat) (count : Z) s : bool * sbc Dev :=
  match ids with
  | [] => (true, s)
  | i :: ids =>
    if count <=? Z.of_nat i then (true, s)
    else
      let '(a, s) := xioctl s in
      match a with
      | VBuf len map_ok =>
        let s := dec_upd s (λ v, v⟨V_out_len ::= <[i := len]>⟩) in
        if negb map_ok then (false, dec_upd s (λ v, v⟨V_out_map ::= <[i := false]>⟩))
        else
          out_buffers ids count
            (dec_upd s (λ v, v⟨V_out_map ::= <[i := true]>⟩⟨V_out_free ::= <[i := true]>⟩))
      | _ => (false, s)
      end
  end.

Definition setup_output s : bool * sbc Dev :=
  let '(ok, s) := ok_ioctl s in              (* S_FMT *)
  if negb ok then (false, s)
  else
    let '(a, s) := xioctl s in               (* REQBUFS *)
    match a with
    | VReq delta =>
      let count := OUT_BUFS + delta in
      if count =? 0 then (false, s)
      else
        let '(ok, s) := out_buffers OUT0 count s in
        if ok : bool then ok_ioctl s else (false, s)
    | _ => (false, s)
    end.

Definition try_capture_fmt s (fourcc : Z) : bool * sbc Dev :=
  let '(a, s) := xioctl s in                 (* G_FMT *)
  match a with
  | VFmt _ _ _ _ =>
    let '(ok, s) := ok_ioctl s in            (* S_FMT *)
    if negb ok then (false, s)
    else
      let '(a, s) := xioctl s in             (* G_FMT *)
      match a with
      | VFmt p _ _ _ => (p =? fourcc, s)
      | _ => (false, s)
      end
  | _ => (false, s)
  end.

Definition ladder (rgb565 : bool) : list Z :=
  if rgb565 then [V4L2_PIX_FMT_RGB565; V4L2_PIX_FMT_NV12; V4L2_PIX_FMT_YUV420]
  else [V4L2_PIX_FMT_NV12; V4L2_PIX_FMT_YUV420].
Fixpoint try_ladder (l : list Z) s : option Z * sbc Dev :=
  match l with
  | [] => (None, s)
  | f :: l =>
    let '(ok, s) := try_capture_fmt s f in
    if ok : bool then (Some f, s) else try_ladder l s
  end.

(** QUERYBUF, mmap and QBUF of the capture buffers [i], [i+1], ... *)
Fixpoint cap_buffers (n : nat) (i : Z) s : bool * sbc Dev :=
  match n with
  | O => (true, s)
  | S n =>
    let '(a, s) := xioctl s in
    match a with
    | VBuf len map_ok =>
      let s := dec_upd s (λ v, v⟨V_cap_len ::= <[Z.to_nat i := len]>⟩
                                ⟨V_cap_map ::= <[Z.to_nat i := map_ok]>⟩) in
      if negb map_ok then (false, s)
      else
        let '(ok, s) := cap_qbuf s i in
        if ok : bool then cap_buffers n (i + 1) s else (false, s)
    | _ => (false, s)
    end
  end.

(** How many buffers to ask for: the driver's minimum and two. *)
Definition want_buffers (min : option Z) : Z :=
  let want := match min with Some v => if 0 <? v then v + 2 else 4 | None => 4 end in
  if CAP_BUFS_MAX <? want then CAP_BUFS_MAX else want.

(** The part of setup_capture() from the agreed format on. *)
Definition setup_capture_fmt s (got : Z) : bool * sbc Dev :=
  let '(a, s) := xioctl s in                 (* G_FMT *)
  match a with
  | VFmt _ w h bpl =>
    let s := dec_upd s (λ v, v⟨V_cap_fourcc := got⟩⟨V_coded_w := w⟩⟨V_coded_h := h⟩
      ⟨V_cap_stride := if bpl =? 0 then (if got =? V4L2_PIX_FMT_RGB565 then w * 2 else w)
                       else bpl⟩) in
    let '(a, s) := xioctl s in               (* G_SELECTION *)
    let vis := match a with
               | VSel sw sh => if sw =? 0 then None else Some (sw, sh)
               | _ => None
               end in
    let s := dec_upd s (λ v,
      match vis with
      | Some (vw, vh) => v⟨V_vis_w := vw⟩⟨V_vis_h := vh⟩
      | None => v⟨V_vis_w := Z.min (V_coded_w v) (V_stream_w v)⟩
                 ⟨V_vis_h := Z.min (V_coded_h v) (V_stream_h v)⟩
      end) in
    let '(a, s) := xioctl s in               (* G_CTRL *)
    let want := want_buffers (match a with VCtrl m => Some m | _ => None end) in
    let '(a, s) := xioctl s in               (* REQBUFS *)
    match a with
    | VReq delta =>
      let count := want + delta in
      if count =? 0 then (false, s)
      else
        let s := dec_upd s (λ v, v⟨V_cap_nbufs := count⟩) in
        let '(ok, s) := cap_buffers (Z.to_nat count) 0 s in
        if negb ok then (false, s)
        else
          let '(ok, s) := ok_ioctl s in      (* STREAMON *)
          if ok : bool then (true, dec_upd s (λ v, v⟨V_cap_ready := true⟩)) else (false, s)
    | _ => (false, s)
    end
  | _ => (false, s)
  end.

Definition setup_capture s : bool * sbc Dev :=
  let '(got, s) := try_ladder (ladder (V_want_rgb565 (C_dec s))) s in
  match got with
  | None => (false, s)
  | Some f => setup_capture_fmt s f
  end.

(** ** Close and open *)
(** Ghost: unmapping the buffers tears the picture the blit thread is
    drawing from one of them. *)
Definition note_unmap s : sbc Dev := s⟨C_torn ::= orb (bool_decide (is_Some (B_busy s)))⟩.

Definition v4l2dec_close s : sbc Dev :=
  if negb (V_fd (C_dec s)) then s
  else
    let '(_, s) := xioctl s in               (* STREAMOFF output *)
    let '(_, s) := xioctl s in               (* STREAMOFF capture *)
    dec_upd (note_unmap s) (λ v, v⟨V_out_map := replicate 4 false⟩
      ⟨V_cap_map ::= λ m,
        let n := Z.to_nat (Z.min (V_cap_nbufs v) CAP_BUFS_MAX) in
        replicate (Nat.min n (length m)) false ++ drop n m⟩
      ⟨V_fd := false⟩⟨V_cap_ready := false⟩⟨V_cap_nbufs := 0⟩⟨V_kq := []⟩).

(** The memset() of D but for the node. *)
Definition v4_reset (v : v4l2dec) : v4l2dec :=
  mk_v4 (V_node v) false 0 0 false (replicate 4 false) (replicate 4 0) (replicate 4 false)
    false 0 0 0 0 0 0 0 (replicate 32 false) (replicate 32 0) false false [] (V_mem v)
    (V_fed v).

Definition v4l2dec_open s (w h : Z) (fb_rgb565 : bool) : bool * sbc Dev :=
  if V_fd (C_dec s) then (true, s)
  else if negb (V_node (C_dec s)) then (false, s)
  else
    let '(opens, s) := ok_ioctl (dec_upd s v4_reset) in   (* open(2) *)
    if negb opens then (false, s)
    else
      let s := dec_upd s (λ v, v⟨V_fd := true⟩⟨V_stream_w := w⟩⟨V_stream_h := h⟩
                                ⟨V_want_rgb565 := fb_rgb565⟩) in
      let '(ok, s) := ok_ioctl s in          (* SUBSCRIBE_EVENT SOURCE_CHANGE *)
      if negb ok then (false, v4l2dec_close s)
      else
        let '(_, s) := xioctl s in           (* SUBSCRIBE_EVENT EOS *)
        let '(ok, s) := setup_output s in
        if ok : bool then (true, s) else (false, v4l2dec_close s).

(** ** Steady state *)
Fixpoint handle_events_ (fuel : nat) s : bool * sbc Dev :=
  match fuel with
  | O => (true, s)
  | S fuel =>
    let '(a, s) := xioctl s in               (* DQEVENT *)
    match a with
    | VEvent true =>
      if V_cap_ready (C_dec s) then (false, s)
      else
        let s := dec_upd s (λ v, v⟨V_saw_source_change := true⟩) in
        let '(ok, s) := setup_capture s in
        if ok : bool then handle_events_ fuel s else (false, s)
    | VEvent false => handle_events_ fuel s
    | _ => (true, s)
    end
  end.
Definition handle_events s : bool * sbc Dev := handle_events_ (S (length (C_script s))) s.

Fixpoint recycle_output_ (fuel : nat) s : sbc Dev :=
  match fuel with
  | O => s
  | S fuel =>
    let '(a, s) := xioctl s in               (* DQBUF output *)
    match a with
    | VDq idx _ _ =>
      recycle_output_ fuel
        (if (0 <=? idx) && (idx <? OUT_BUFS)
         then dec_upd s (λ v, v⟨V_out_free ::= <[Z.to_nat idx := true]>⟩) else s)
    | _ => s
    end
  end.
Definition recycle_output s : sbc Dev := recycle_output_ (S (length (C_script s))) s.

(** VIDIOC_DQBUF(CAPTURE): the driver hands over a buffer it holds.  An
    index it does not hold is no answer of it; one beyond the buffers is
    what the code guards against. *)
Definition dqbuf_capture s : v4_ev * sbc Dev :=
  let '(a, s) := xioctl s in
  match a with
  | VDq idx used last =>
    if bool_decide (idx ∈ V_kq (C_dec s))
    then (a, dec_upd s (λ v, v⟨V_kq ::= filter (λ i, i ≠ idx)⟩))
    else if V_cap_nbufs (C_dec s) <=? idx then (a, s) else (VErr false, s)
  | _ => (a, s)
  end.

(** The loop of drain_capture(): [None] for an error, else the newest
    frame's buffer. *)
Fixpoint drain_loop (fuel : nat) s (have : option Z) : option (option Z) * sbc Dev :=
  match fuel with
  | O => (Some have, s)
  | S fuel =>
    let '(a, s) := dqbuf_capture s in
    match a with
    | VDq idx used last =>
      if V_cap_nbufs (C_dec s) <=? idx then
        (None, match have with Some h => (cap_qbuf s h).2 | None => s end)
      else
        let s := if last then dec_upd s (λ v, v⟨V_saw_last := true⟩) else s in
        if used =? 0 then
          let '(ok, s) := cap_qbuf s idx in
          if ok : bool then drain_loop fuel s have else (None, s)
        else
          match have with
          | Some h =>
            let '(ok, s) := cap_qbuf s h in
            if ok : bool then drain_loop fuel s (Some idx) else (None, s)
          | None => drain_loop fuel s (Some idx)
          end
    | VErr true => (Some have, dec_upd s (λ v, v⟨V_saw_last := true⟩))
    | _ => (Some have, s)
    end
  end.

Definition frame_of (v : v4l2dec) (idx : Z) : v4l2dec_frame :=
  mk_frame (V_cap_fourcc v) (V_vis_w v) (V_vis_h v) (V_cap_stride v) (V_coded_h v) idx
    (V_mem v idx).

Definition drain_capture s : bool * sbc Dev :=
  if negb (V_cap_ready (C_dec s)) then (true, s)
  else
    let '(r, s) := drain_loop (S (length (C_script s))) s None in
    match r with
    | None => (false, s)
    | Some None => (true, s)
    | Some (Some have) =>
      let '(kept, s) := v4l2dec_emit s (frame_of (C_dec s) have) in
      if kept : bool then (true, s) else cap_qbuf s have
    end.

Definition v4l2dec_pump s : bool * sbc Dev :=
  if negb (V_fd (C_dec s)) then (true, s)
  else
    let '(ok, s) := handle_events s in
    if negb ok then (false, s) else drain_capture (recycle_output s).

Definition free_slot (v : v4l2dec) : option nat := fst <$> list_find (eq true) (V_out_free v).

(** The wait for a free OUTPUT buffer: 500 tries. *)
Fixpoint wait_slot (tries : nat) s : option (option nat) * sbc Dev :=
  match tries with
  | O => (Some None, s)
  | S tries =>
    if g_stop s then (Some None, s)
    else
      let s := recycle_output s in
      match free_slot (C_dec s) with
      | Some i => (Some (Some i), s)
      | None =>
        let '(ok, s) := dev_poll s in
        if negb ok then (None, s)
        else
          let '(ok, s) := v4l2dec_pump s in
          if ok : bool then wait_slot tries s else (None, s)
      end
  end.

(** The wait for the capture side: 400 tries. *)
Fixpoint wait_capture (tries : nat) s : bool * sbc Dev :=
  if V_cap_ready (C_dec s) || g_stop s then (true, s)
  else
    match tries with
    | O => (true, s)
    | S tries =>
      let '(ok, s) := dev_poll s in
      if negb ok then (false, s)
      else
        let '(ok, s) := handle_events s in
        if ok : bool then wait_capture tries s else (false, s)
    end.

Definition v4l2dec_feed s (au : bytes) : bool * sbc Dev :=
  let len := Z.of_nat (length au) in
  if negb (V_fd (C_dec s)) || (len =? 0) then (false, s)
  else if nth 0 (V_out_len (C_dec s)) 0 <? len then (false, s)
  else
    let '(r, s) := wait_slot 500 s in
    match r with
    | None | Some None => (false, s)
    | Some (Some i) =>
      let s := dec_upd s (λ v, v⟨V_out_free ::= <[i := false]>⟩) in
      let '(ok, s) := ok_ioctl s in          (* QBUF output *)
      if negb ok then (false, dec_upd s (λ v, v⟨V_out_free ::= <[i := true]>⟩))
      else
        let s := dec_upd s (λ v, v⟨V_fed ::= λ l, l ++ [au]⟩) in
        let '(ok, s) := wait_capture 400 s in
        if negb ok then (false, s)
        else if negb (V_cap_ready (C_dec s)) then (false, s)
        else v4l2dec_pump s
    end.

(** The wait of v4l2dec_drain() for the LAST buffer: 500 tries. *)
Fixpoint wait_last (tries : nat) s : bool * sbc Dev :=
  if V_saw_last (C_dec s) || g_stop s then (true, s)
  else
    match tries with
    | O => (true, s)
    | S tries =>
      let '(ok, s) := dev_poll s in
      if negb ok then (false, s)
      else
        let '(ok, s) := v4l2dec_pump s in
        if ok : bool then wait_last tries s else (false, s)
    end.

Definition v4l2dec_drain s : bool * sbc Dev :=
  if negb (V_fd (C_dec s)) || negb (V_cap_ready (C_dec s)) then (true, s)
  else
    let '(ok, s) := ok_ioctl s in            (* DECODER_CMD STOP *)
    if negb ok then (false, s)
    else
      let '(ok, s) := wait_last 500 (dec_upd s (λ v, v⟨V_saw_last := false⟩)) in
      if negb ok then (false, s)
      else if negb (V_saw_last (C_dec s)) then (false, s)
      else ok_ioctl (dec_upd s (λ v, v⟨V_saw_last := false⟩))   (* DECODER_CMD START *)
    .
End v4l2dec.
