(* ===== verification/SbcLoop.v ===== *)
(** * client/sremfb-client.c: hello, receive loop, reconnection

    One message of the server is one [frame_msg]; one turn of frame_loop()
    is [frame_step], which takes what poll(2), the clock and the panel
    watcher answered; [frame_loop] runs the turns and closes the decoder;
    [main_turn] is one turn of the connect loop of main().  Reads follow
    [ViewNet.readn_ev]: any number of short or interrupted reads. *)
From S2P Require Import Prelude Protocol Core ViewNet SbcOut Sbc V4l2dec.

(** ** Announcing the panel: the MAC address *)
Definition hex_digit (c : Z) : option Z :=
  if (48 <=? c) && (c <=? 57) then Some (c - 48)
  else if (97 <=? c) && (c <=? 102) then Some (c - 87)
  else if (65 <=? c) && (c <=? 70) then Some (c - 55)
  else None.
Fixpoint hex_digits (s : bytes) (acc : Z) : Z * bytes :=
  match s with
  | c :: s' => match hex_digit c with
               | Some d => hex_digits s' (16 * acc + d)
               | None => (acc, s)
               end
  | [] => (acc, [])
  end.
Fixpoint skip_blanks (s : bytes) : bytes :=
  match s with
  | c :: s' => if (c =? 32) || ((9 <=? c) && (c <=? 13)) then skip_blanks s' else s
  | [] => []
  end.
(** The %x conversion: white space, a sign, 0x, then hexadecimal digits;
    strtoul() saturates and the value is stored in an unsigned int. *)
Definition scan_x (s : bytes) : option (Z * bytes) :=
  let s := skip_blanks s in
  let '(neg, s) := match s with
                   | 45 :: s' => (true, s')
                   | 43 :: s' => (false, s')
                   | _ => (false, s)
                   end in
  let s := match s with
           | 48 :: 120 :: s' | 48 :: 88 :: s' => s'
           | _ => s
           end in
  match s with
  | c :: _ =>
    match hex_digit c with
    | None => None
    | Some _ =>
      let '(v, s) := hex_digits s 0 in
      let v := if 2 ^ 64 <=? v then 2 ^ 64 - 1 else if neg : bool then u64 (- v) else v in
      Some (u32 v, s)
    end
  | [] => None
  end.

(** "%x:%x:%x:%x:%x:%x" with every value in a byte. *)
Fixpoint scan_mac (n : nat) (s : bytes) : option bytes :=
  match scan_x s with
  | None => None
  | Some (v, s) =>
    if 255 <? v then None
    else
      match n, s with
      | O, _ => Some [v]
      | S n, 58 :: s => option_map (cons v) (scan_mac n s)
      | S _, _ => None
      end
  end.
Definition parse_mac (s : bytes) : option bytes := scan_mac 5 s.

Definition test_mac : bytes := [0x02; 0x46; 0x42; 0; 0; 1].
(** discover_mac(): SREMFB_MAC, the test address, or what SIOCGIFHWADDR
    says of the interface the socket goes through. *)
Definition discover_mac (env : option bytes) (test_mode : bool) (hwaddr : option bytes) : bytes :=
  match (match env with Some e => parse_mac e | None => None end) with
  | Some mac => mac
  | None => if test_mode then test_mac else default (replicate 6 0) hwaddr
  end.

(** ** The panel's model *)
Fixpoint printable_prefix (n : nat) (s : bytes) : bytes :=
  match n, s with
  | S n, c :: s => if (0x20 <=? c) && (c <=? 0x7E) then c :: printable_prefix n s else []
  | _, _ => []
  end.
Fixpoint drop_spaces (s : bytes) : bytes :=
  match s with
  | c :: s' => if c =? 32 then drop_spaces s' else s
  | [] => []
  end.
Definition strip (s : bytes) : bytes := reverse (drop_spaces (reverse s)).

(** model_copy() into thirteen zeroed bytes. *)
Definition model_copy (s : bytes) : bytes :=
  let m := strip (printable_prefix 13 s) in m ++ replicate (13 - length m) 0.

Definition hex2 (v : Z) : bytes :=
  let d n := if n <? 10 then 48 + n else 55 + n in [d (v / 16); d (v mod 16)].

Definition edid_vendor (e : bytes) : bytes :=
  let e8 := nth 8 e 0 in let e9 := nth 9 e 0 in
  [64 + Z.land (Z.shiftr e8 2) 0x1F;
   64 + Z.lor (Z.shiftl (Z.land e8 3) 3) (Z.shiftr e9 5);
   64 + Z.land e9 0x1F].

(** The first monitor name descriptor. *)
Fixpoint edid_name (offs : list nat) (e : bytes) : bytes :=
  match offs with
  | [] => []
  | off :: offs =>
    if negb (nth off e 0 =? 0) || negb (nth (off + 1) e 0 =? 0) ||
       negb (nth (off + 3) e 0 =? 0xFC)
    then edid_name offs e
    else strip (printable_prefix 13 (drop (off + 5) e))
  end.

Definition edid_model (e : bytes) : option bytes :=
  if negb ((nth 0 e 1 =? 0) && (nth 1 e 0 =? 0xFF) && (nth 7 e 1 =? 0) &&
           (Z.of_nat (length e) =? 128)) then None
  else
    let name := edid_name [54; 72; 90; 108]%nat e in
    Some (model_copy (edid_vendor e ++ 32 ::
      match name with
      | [] => hex2 (nth 11 e 0) ++ hex2 (nth 10 e 0)
      | _ => name
      end)).

(** discover_model(): SREMFB_MODEL, or the EDID of the first connected
    connector that has one ([edids]: the 128 bytes read from each). *)
Definition discover_model (env : option bytes) (test_mode : bool) (edids : list bytes) : bytes :=
  match env with
  | Some (c :: s) => model_copy (c :: s)
  | _ => if test_mode then replicate 13 0
         else default (replicate 13 0) (head (omap edid_model edids))
  end.

(** writen(): write(2) until all is out; with no answer left, it takes all. *)
Fixpoint writen_evs (evs : list wr_ev) (stop : bool) (buf : bytes) : bytes * bool * list wr_ev :=
  match buf with
  | [] => ([], true, evs)
  | _ =>
    match evs with
    | [] => (buf, true, [])
    | WSent n :: evs =>
      let '(w, ok, evs) := writen_evs evs stop (slice n (Z.of_nat (length buf) - n) buf) in
      (slice 0 n buf ++ w, ok, evs)
    | WIntr :: evs => if stop then ([], false, evs) else writen_evs evs stop buf
    | WErr :: evs => ([], false, evs)
    end
  end.

Section loop.
Context {Dev : Type} `{Output Dev} `{L : LZ4}.
Implicit Types s : sbc Dev.

Definition sbc_readn s (len : Z) : option bytes * sbc Dev :=
  let '(r, evs) := readn_ev (C_rx s) len in (r, s⟨C_rx := evs⟩).
Definition sbc_writen s (buf : bytes) : bool * sbc Dev :=
  let '(w, ok, evs) := writen_evs (C_writes s) (g_stop s) buf in
  (ok, s⟨C_tx ::= λ t, t ++ w⟩⟨C_writes := evs⟩).

(** ** The hello *)
Definition sbc_bytespp s : Z := if C_test_mode s then 4 else C_bytespp s.

Definition hello_flags s : Z :=
  let flags := set_flag (negb (C_no_lz4 s)) SREMFB_HELLO_FLAG_LZ4 0 in
  let flags := Z.lor flags SREMFB_HELLO_FLAG_FEEDBACK in
  let flags := set_flag ((C_dec_found s && negb (C_no_h264 s) && negb (C_h264_broken s) &&
                          negb (C_test_mode s)) || C_test_sink s)
                 SREMFB_HELLO_FLAG_H264 flags in
  set_flag (C_usb_active s) SREMFB_HELLO_FLAG_USB flags.

Definition sbc_hello s (mac model : bytes) : sremfb_client_hello :=
  if C_test_mode s
  then mk_client_hello SREMFB_MAGIC SREMFB_PROTO_VER (hello_flags s) (u16 (C_test_w s))
         (u16 (C_test_h s)) 32 SREMFB_PIX_XRGB8888 16 8 8 8 0 8 mac model (replicate 9 0)
  else if C_pixfmt s =? SREMFB_PIX_RGB565
  then mk_client_hello SREMFB_MAGIC SREMFB_PROTO_VER (hello_flags s) (u16 (C_out_w s))
         (u16 (C_out_h s)) (u8 (C_bytespp s * 8)) (C_pixfmt s) 11 5 5 6 0 5 mac model
         (replicate 9 0)
  else mk_client_hello SREMFB_MAGIC SREMFB_PROTO_VER (hello_flags s) (u16 (C_out_w s))
         (u16 (C_out_h s)) (u8 (C_bytespp s * 8)) (C_pixfmt s) 16 8 8 8 0 8 mac model
         (replicate 9 0).

(** What the accepted hello of the server sets up ([alloc]: malloc). *)
Definition stream_setup s (sh : sremfb_server_hello) (alloc : bool) : bool * sbc Dev :=
  let s := s⟨C_stream_w := sh_width sh⟩⟨C_stream_h := sh_height sh⟩
    ⟨C_srv_flags := sh_flags sh⟩ in
  let s := if has_flag (C_srv_flags s) SREMFB_SRV_FLAG_H264
           then s⟨C_rowbuf := alloc⟩ else s in
  if C_test_mode s then
    let s := s⟨C_off_x := 0⟩⟨C_off_y := 0⟩ in
    if alloc
    then (true, s⟨C_testbuf := replicate (Z.to_nat (C_stream_w s * C_stream_h s * 4)) 0⟩)
    else (false, s⟨C_testbuf := []⟩)
  else
    (true, s⟨C_off_x := Z.quot (C_out_w s - C_stream_w s) 2⟩
            ⟨C_off_y := Z.quot (C_out_h s - C_stream_h s) 2⟩).

Definition sbc_hello_exchange s (mac model : bytes) (alloc : bool) : bool * sbc Dev :=
  let '(ok, s) := sbc_writen s (client_hello_bytes (sbc_hello s mac model)) in
  if negb ok then (false, s)
  else
    let '(r, s) := sbc_readn s 16 in
    match r with
    | None => (false, s)
    | Some b =>
      let sh := server_hello_of b in
      if negb (sh_magic sh =? SREMFB_MAGIC) ||
         negb (sh_proto_ver sh =? SREMFB_PROTO_VER) then (false, s)
      else if negb (sh_status sh =? SREMFB_STATUS_OK) then (false, s)
      else if negb (sh_pixfmt sh =? if C_test_mode s then SREMFB_PIX_XRGB8888 else C_pixfmt s)
      then (false, s)
      else stream_setup s sh alloc
    end.

(** ** Messages *)
Definition emit_row s (sx sy w : Z) (row : bytes) : sbc Dev :=
  if C_test_mode s
  then s⟨C_testbuf ::= λ t, blit t ((sy * C_stream_w s + sx) * 4) (slice 0 (w * 4) row)⟩
  else blit_stream_row s sx sy w row.

Definition sbc_broken s : sbc Dev := s⟨C_h264_broken := true⟩.

Definition handle_h264_au s (au : bytes) : bool * sbc Dev :=
  if C_test_sink s then
    if C_sink_ok s then (true, s⟨C_sink ::= λ l, l ++ [au]⟩) else (false, s)
  else
    let '(ok, s) :=
      if C_dec_open s then (true, s)
      else
        let '(ok, s) := v4l2dec_open s (C_stream_w s) (C_stream_h s)
                          (C_pixfmt s =? SREMFB_PIX_RGB565) in
        if ok : bool then (true, s⟨C_dec_open := true⟩) else (false, sbc_broken s) in
    if negb ok then (false, s)
    else
      let '(ok, s) := v4l2dec_feed s au in
      if ok : bool then (true, s) else (false, sbc_broken s).

(** The rows of a RAW rect, read one by one. *)
Fixpoint raw_rows (n : nat) (row : Z) s (hd : sremfb_frame_hdr) : bool * sbc Dev :=
  match n with
  | O => (true, s)
  | S n =>
    let '(r, s) := sbc_readn s (fh_w hd * sbc_bytespp s) in
    match r with
    | None => (false, s)
    | Some b => raw_rows n (row + 1) (emit_row s (fh_x hd) (fh_y hd + row) (fh_w hd) b) hd
    end
  end.

Definition lz4_rows s (hd : sremfb_frame_hdr) (px : bytes) : sbc Dev :=
  for_ 0 (fh_h hd) (λ row s,
    emit_row s (fh_x hd) (fh_y hd + row) (fh_w hd)
      (drop (Z.to_nat (row * (fh_w hd * sbc_bytespp s))) px)) s.

Definition covers_stream s (hd : sremfb_frame_hdr) : bool :=
  (fh_x hd =? 0) && (fh_y hd =? 0) && (fh_w hd =? C_stream_w s) && (fh_h hd =? C_stream_h s).

Definition sbc_frame_cap s : Z := C_stream_w s * C_stream_h s * sbc_bytespp s.

(** The pixels of a RAW or LZ4 rect. *)
Definition rect_rows s (hd : sremfb_frame_hdr) : bool * sbc Dev :=
  let rect_bytes := fh_w hd * fh_h hd * sbc_bytespp s in
  if fh_encoding hd =? SREMFB_ENC_RAW then
    if negb (fh_payload_len hd =? rect_bytes) then (false, s)
    else raw_rows (Z.to_nat (fh_h hd)) 0 s hd
  else if (fh_encoding hd =? SREMFB_ENC_LZ4) && negb (C_no_lz4 s) then
    if (fh_payload_len hd =? 0) ||
       (u64 (LZ4_compressBound (s32 (sbc_frame_cap s))) <? fh_payload_len hd) ||
       (sbc_frame_cap s <? rect_bytes) then (false, s)
    else
      let '(r, s) := sbc_readn s (fh_payload_len hd) in
      match r with
      | None => (false, s)
      | Some comp =>
        match LZ4_decompress_safe comp (s32 rect_bytes) with
        | Some d =>
          if Z.of_nat (length d) =? s32 rect_bytes then (true, lz4_rows s hd d) else (false, s)
        | None => (false, s)
        end
      end
  else (false, s).

Definition sbc_rect s (hd : sremfb_frame_hdr) : bool * sbc Dev :=
  if (fh_w hd =? 0) || (fh_h hd =? 0) || (C_stream_w s <? fh_x hd + fh_w hd) ||
     (C_stream_h s <? fh_y hd + fh_h hd) then (false, s)
  else
    let '(ok, s) := rect_rows (out_begin s (covers_stream s hd)) hd in
    if negb ok then (false, s)
    else
      let s := set_blank (out_present s) false in
      (true, if C_test_mode s then s⟨C_frame_count ::= λ n, u32 (n + 1)⟩ else s).

Definition sbc_ping s : bool * sbc Dev :=
  let '(r, s) := sbc_readn s 8 in
  match r with
  | None => (false, s)
  | Some b =>
    sbc_writen s (client_msg_bytes
      (mk_client_msg SREMFB_MAGIC SREMFB_CMSG_PONG [0; 0; 0] (of_le b)))
  end.

Definition sbc_eos s : bool * sbc Dev :=
  if C_test_sink s then (true, s)
  else if C_dec_open s then
    let '(ok, s) := v4l2dec_drain s in
    if ok : bool then (true, blit_sync s) else (false, sbc_broken s)
  else (true, s).

(** A message whose header (with the right magic) was read: false is a
    [break] of the loop. *)
Definition frame_msg s (hd : sremfb_frame_hdr) : bool * sbc Dev :=
  let enc := fh_encoding hd in
  if (enc =? SREMFB_ENC_BLANK) || (enc =? SREMFB_ENC_UNBLANK) then
    if negb (fh_payload_len hd =? 0) then (false, s)
    else (true, set_blank s (enc =? SREMFB_ENC_BLANK))
  else if enc =? SREMFB_ENC_PING then
    if negb (fh_payload_len hd =? 8) then (false, s) else sbc_ping s
  else if enc =? SREMFB_ENC_H264 then
    if (fh_payload_len hd =? 0) || (ViewNet.AU_CAP <? fh_payload_len hd) then (false, s)
    else
      let '(r, s) := sbc_readn s (fh_payload_len hd) in
      match r with
      | None => (false, s)
      | Some au => handle_h264_au s au
      end
  else if enc =? SREMFB_ENC_H264_EOS then
    if negb (fh_payload_len hd =? 0) then (false, s) else sbc_eos s
  else sbc_rect s hd.

(** ** The loop *)
Record floop := mk_floop { l_s : sbc Dev; l_panel_check : Z; l_last_rx : Z }.
#[export] Instance eta_floop : Eta floop := λ l,
  mk_floop (l_s l) (l_panel_check l) (l_last_rx l).

(** The part of a turn after the wait: the checks, the decoder, a message. *)
Definition frame_turn (l : floop) (ev : poll_ev) (sock dec : bool) : bool * floop :=
  let check := 2 <=? pe_tick ev - l_panel_check l in
  let l := if check then l⟨l_panel_check := pe_tick2 ev⟩ else l in
  let s := l_s l in
  if check && C_hotplug_armed s && (pe_panel ev =? 0) then (false, l)
  else if has_flag (C_srv_flags s) SREMFB_SRV_FLAG_PING && (6 <? pe_live ev - l_last_rx l)
  then (false, l)
  else
    let '(ok, s) := if V_fd (C_dec s) && dec then v4l2dec_pump s else (true, s) in
    if negb ok then (false, l⟨l_s := sbc_broken s⟩)
    else if negb sock then (true, l⟨l_s := s⟩)
    else
      let '(r, s) := sbc_readn s 20 in
      match r with
      | None => (false, l⟨l_s := s⟩)
      | Some b =>
        let hd := frame_hdr_of b in
        if negb (fh_magic hd =? SREMFB_MAGIC) then (false, l⟨l_s := s⟩)
        else
          let '(go, s) := frame_msg s hd in
          (go, l⟨l_s := s⟩⟨l_last_rx := pe_rx ev⟩)
      end.

Definition frame_step (l : floop) (ev : poll_ev) : bool * floop :=
  if g_stop (l_s l) || pe_stop ev then (false, l⟨l_s ::= λ s, s⟨g_stop := true⟩⟩)
  else
    let l := l⟨l_s ::= run_thread⟩ in
    match pe_res ev with
    | PollIntr => (true, l)
    | PollFail => (false, l)
    | PollOk sock dec => frame_turn l ev sock dec
    end.

(** The turns, as long as poll(2) has answers. *)
Fixpoint frame_run (evs : list poll_ev) (l : floop) : bool * floop :=
  match evs with
  | [] => (true, l)
  | ev :: evs =>
    let '(go, l) := frame_step l ev in
    if go then frame_run evs l else (false, l)
  end.

Definition frame_end s : sbc Dev :=
  if C_dec_open s then (v4l2dec_close (blit_sync s))⟨C_dec_open := false⟩ else s.

Definition frame_loop s (alloc : bool) (t0 : Z) (evs : list poll_ev) : sbc Dev :=
  if negb alloc then frame_end s
  else frame_end (l_s (frame_run evs (mk_floop s t0 t0)).2).

(** ** The connect loop of main() *)
Record main_env := mk_menv {
  me_panel : Z; me_connected : bool; me_rx : list rx_ev; me_writes : list wr_ev;
  me_mac : bytes; me_model : bytes; me_alloc : bool; me_t0 : Z; me_polls : list poll_ev }.
Record main_st := mk_main { m_s : sbc Dev; m_backoff : Z; m_waiting : bool; m_slept : Z }.

Definition more_backoff (b : Z) : Z := if b <? 5 then b + 1 else b.

Definition main_turn (m : main_st) (e : main_env) : main_st :=
  let s := m_s m in
  if g_stop s then m
  else if C_hotplug_armed s && (me_panel e =? 0)
  then mk_main s (m_backoff m) true 2
  else
    let backoff := if m_waiting m then 1 else m_backoff m in
    if negb (me_connected e)
    then mk_main s (more_backoff backoff) false backoff
    else
      let '(ok, s) := sbc_hello_exchange s⟨C_rx := me_rx e⟩⟨C_writes := me_writes e⟩
                        (me_mac e) (me_model e) (me_alloc e) in
      let '(s, backoff) :=
        if ok : bool then (frame_loop s (me_alloc e) (me_t0 e) (me_polls e), 1)
        else (s, more_backoff backoff) in
      let s := if C_test_mode s then s else set_blank s true in
      mk_main s backoff false (if g_stop s then 0 else backoff).
End loop.
Arguments floop : clear implicits.
Arguments main_st : clear implicits.
