(* ===== verification/SbcShows.v ===== *)
(** * Where stream pixels land on the panel of the SBC client

    The stream is centred on the panel and clipped to it.  [shows] relates
    the panel's memory to the framebuffer a client of the stream's size
    would have; a clipped row changes exactly the visible part of that row,
    and a whole rect does to the panel what [put_rect] does to that
    framebuffer. *)

From S2P Require Import Prelude Protocol ViewNet Blit SbcOut Sbc.

Section shows.
Variables (p : panel) (W H ox oy : Z).

Definition on_panel (y k : Z) : Prop :=
  0 ≤ y + oy < p_h p ∧ 0 ≤ ox * p_bpp p + k < p_w p * p_bpp p.
Definition pos (y k : Z) : Z := (y + oy) * p_stride p + ox * p_bpp p + k.

(** Every visible byte of the stream area is the one of [fb]. *)
Definition shows (m fb : bytes) : Prop :=
  ∀ y k, 0 ≤ y < H → 0 ≤ k < W * p_bpp p → on_panel y k →
    m !! Z.to_nat (pos y k) = fb !! Z.to_nat (y * (W * p_bpp p) + k).

(** The panel and the offsets are those of the client. *)
Definition placed {Dev} (s : sbc Dev) : Prop :=
  C_out_w s = p_w p ∧ C_out_h s = p_h p ∧ C_bytespp s = p_bpp p ∧
  C_off_x s = ox ∧ C_off_y s = oy.

Lemma pos_range y k : panel_ok p → on_panel y k →
  0 ≤ pos y k < p_h p * p_stride p.
Proof.
  unfold panel_ok, on_panel, pos. intros Hp [Hy Hk].
  assert ((y + oy + 1) * p_stride p ≤ p_h p * p_stride p)
    by (apply Z.mul_le_mono_nonneg_r; lia).
  assert (0 ≤ (y + oy) * p_stride p) by nia. lia.
Qed.

(** Two visible bytes at one place are one byte. *)
Lemma pos_row y k y' k' : panel_ok p → on_panel y k → on_panel y' k' →
  pos y k = pos y' k' → y = y' ∧ k = k'.
Proof.
  unfold panel_ok, on_panel, pos. intros Hp [Hy Hk] [Hy' Hk'] Heq.
  assert (y = y') by nia. subst y'. lia.
Qed.

(** [n] bytes from column [a] of panel row [q]. *)
Lemma draw_lookup (m src : bytes) q a n y k :
  panel_ok p → p_h p * p_stride p ≤ Z.of_nat (length m) →
  0 ≤ q < p_h p → 0 ≤ a → 0 ≤ n → a + n ≤ p_w p * p_bpp p →
  Z.of_nat (length src) = n → on_panel y k →
  blit m (q * p_stride p + a) src !! Z.to_nat (pos y k) =
    if decide (y + oy = q ∧ a ≤ ox * p_bpp p + k < a + n)
    then src !! Z.to_nat (ox * p_bpp p + k - a) else m !! Z.to_nat (pos y k).
Proof.
  intros Hp Hm Hq Ha Hn Hw Hsrc Hon. pose proof (pos_range y k Hp Hon) as Hpos.
  unfold panel_ok in Hp. destruct Hon as [Hy Hk].
  assert ((q + 1) * p_stride p ≤ p_h p * p_stride p) by (apply Z.mul_le_mono_nonneg_r; lia).
  assert (0 ≤ q * p_stride p) by nia.
  rewrite lookup_blit by lia. rewrite Z2Nat.id by lia.
  case_bool_decide as Hb.
  - assert (y + oy = q) by (unfold pos in *; nia).
    rewrite decide_True by (unfold pos in *; nia). f_equal. unfold pos in *. nia.
  - rewrite decide_False; [done|]. intros [Hr Hc]. apply Hb. unfold pos. subst q. lia.
Qed.

Section row.
Context {Dev : Type} `{Output Dev}.
Implicit Types s : sbc Dev.

Lemma clip_row_in s sx sy w row r :
  panel_ok p → placed s → 0 ≤ w → w * p_bpp p ≤ Z.of_nat (length row) →
  clip_row s sx sy w row = Some r → row_in p r.
Proof.
  unfold panel_ok, placed, clip_row, row_in. intros Hp (->&->&->&->&->) Hw Hl.
  destruct (_ || _) eqn:Hy; [done|]. destruct (_ && _) eqn:Hx; [done|]. cbv zeta.
  destruct (sx + ox <? 0) eqn:Hneg; cbn [andb] in *.
  - destruct (p_w p <=? 0) eqn:Hw0; [done|]. intros Hr. injection Hr as <-. cbn.
    rewrite length_drop. destruct (p_w p <? _) eqn:?; split_and!; try lia; nia.
  - destruct (p_w p <=? sx + ox) eqn:Hw0; [done|]. intros Hr. injection Hr as <-. cbn.
    rewrite Z.sub_0_r, drop_0. destruct (p_w p <? _) eqn:?; split_and!; try lia; nia.
Qed.

(** What is visible of a stream row after it was written. *)
Lemma clip_row_draw s sx sy w row (m : bytes) y k :
  panel_ok p → placed s → p_h p * p_stride p ≤ Z.of_nat (length m) →
  0 ≤ w → w * p_bpp p ≤ Z.of_nat (length row) → on_panel y k →
  (match clip_row s sx sy w row with Some r => draw_row p m r | None => m end)
    !! Z.to_nat (pos y k) =
  if decide (y = sy ∧ sx * p_bpp p ≤ k < (sx + w) * p_bpp p)
  then row !! Z.to_nat (k - sx * p_bpp p) else m !! Z.to_nat (pos y k).
Proof.
  intros Hp Hpl Hm Hw Hl Hon. pose proof Hon as [Hy Hk].
  destruct (clip_row s sx sy w row) as [r|] eqn:Hc.
  - pose proof (clip_row_in s sx sy w row r Hp Hpl Hw Hl Hc) as Hr.
    destruct (row_bounds p r m Hp Hr Hm) as (_&_&Hlen).
    unfold draw_row. unfold panel_ok in Hp. pose proof Hr as (R1&R2&R3&R4&R5).
    rewrite draw_lookup with (n := r_n r * p_bpp p); try done; [|nia|nia|].
    2:{ assert ((r_dx r + r_n r) * p_bpp p ≤ p_w p * p_bpp p)
          by (apply Z.mul_le_mono_nonneg_r; lia). lia. }
    revert Hc. unfold clip_row. destruct Hpl as (->&->&->&->&->).
    destruct (_ || _) eqn:Hyy; [done|]. destruct (_ && _) eqn:Hx; [done|]. cbv zeta.
    destruct (sx + ox <? 0) eqn:Hneg; cbn [andb] in *.
    + destruct (p_w p <=? 0) eqn:Hw0; [done|]. intros Hrr. injection Hrr as <-. cbn.
      destruct (p_w p <? _) eqn:Hbig;
        (destruct (decide (y = sy ∧ _)) as [Hin|Hout];
         [rewrite decide_True by nia|rewrite decide_False by nia; done]);
        rewrite lookup_slice by nia; rewrite lookup_drop; f_equal; nia.
    + destruct (p_w p <=? sx + ox) eqn:Hw0; [done|]. intros Hrr. injection Hrr as <-. cbn.
      rewrite !Z.sub_0_r.
      destruct (p_w p <? sx + ox + w) eqn:Hbig;
        (destruct (decide (y = sy ∧ _)) as [Hin|Hout];
         [rewrite decide_True; [|lia]|rewrite decide_False by nia; done]);
        rewrite lookup_slice by nia; rewrite lookup_drop; f_equal; nia.
  - rewrite decide_False; [done|]. intros [-> Hc']. revert Hc.
    unfold clip_row. destruct Hpl as (->&->&->&->&->). unfold panel_ok in Hp.
    destruct (_ || _) eqn:Hyy; [lia|].
    destruct (_ && _) eqn:Hx.
    { apply andb_true_iff in Hx as [Hx1 Hx2]. rewrite Hx1 in Hx2.
      assert ((sx + w + ox) * p_bpp p ≤ 0 * p_bpp p)
        by (apply Z.mul_le_mono_nonneg_r; lia). lia. }
    cbv zeta. destruct (sx + ox <? 0) eqn:Hneg; cbn [andb] in *.
    + destruct (p_w p <=? 0) eqn:Hw0; [lia|done].
    + destruct (p_w p <=? sx + ox) eqn:Hw0; [|done].
      assert (p_w p * p_bpp p ≤ (sx + ox) * p_bpp p)
        by (apply Z.mul_le_mono_nonneg_r; lia). lia.
Qed.
End row.
End shows.

(** * The SBC client executes the messages

    One rect of the server does to the panel what [put_rect] does to a
    framebuffer of the stream's size; one message of the server, taken by
    one turn of the loop, does what [paint] says (Stream.v). *)
#[export] Instance on_panel_dec p ox oy y k : Decision (on_panel p ox oy y k).
Proof. unfold on_panel. apply _. Defined.

(** ** Rects on the panel *)
Section rect.
Context {Dev : Type}.
Implicit Types s : sbc Dev.

Definition clip_rows s (x y w : Z) (f : Z → bytes) (il : list Z) : list out_row :=
  omap (λ i, clip_row s x (y + i) w (f i)) il.

Lemma clip_rows_in p s x y w f h :
  panel_ok p → placed p (C_off_x s) (C_off_y s) s → 0 ≤ w →
  (∀ i, 0 ≤ i < h → w * p_bpp p ≤ Z.of_nat (length (f i))) →
  Forall (row_in p) (clip_rows s x y w f (seqZ 0 h)).
Proof.
  intros Hp Hpl Hw Hf. apply Forall_forall. intros r Hr.
  apply list_elem_of_omap in Hr as (i&Hi&Hr). apply elem_of_seqZ in Hi.
  eapply clip_row_in; [done|done|done| |exact Hr]. apply Hf. lia.
Qed.

(** The visible bytes after the rows [0, n) of the rect. *)
Lemma clip_rows_draw p s x y w f (n : nat) (m : bytes) yy k :
  panel_ok p → placed p (C_off_x s) (C_off_y s) s →
  p_h p * p_stride p ≤ Z.of_nat (length m) → 0 ≤ w →
  (∀ i, 0 ≤ i < Z.of_nat n → w * p_bpp p ≤ Z.of_nat (length (f i))) →
  on_panel p (C_off_x s) (C_off_y s) yy k →
  foldl (draw_row p) m (clip_rows s x y w f (seqZ 0 (Z.of_nat n)))
    !! Z.to_nat (pos p (C_off_x s) (C_off_y s) yy k) =
  if decide (y ≤ yy < y + Z.of_nat n ∧ x * p_bpp p ≤ k < (x + w) * p_bpp p)
  then f (yy - y) !! Z.to_nat (k - x * p_bpp p)
  else m !! Z.to_nat (pos p (C_off_x s) (C_off_y s) yy k).
Proof.
  intros Hp Hpl Hm Hw Hf Hon. induction n as [|n IH].
  { rewrite seqZ_nil by lia. cbn [clip_rows omap list_omap foldl].
    rewrite decide_False by lia. done. }
  specialize (IH ltac:(intros i Hi; apply Hf; lia)).
  rewrite Nat2Z.inj_succ, <- Z.add_1_r, seqZ_app by lia.
  rewrite (seqZ_cons (0 + _)), (seqZ_nil _ (Z.pred 1)) by lia.
  unfold clip_rows in *. rewrite omap_app, foldl_app.
  set (m1 := foldl _ m _) in *.
  assert (Hin : Forall (row_in p) (clip_rows s x y w f (seqZ 0 (Z.of_nat n))))
    by (apply clip_rows_in; [done..|]; intros i Hi; apply Hf; lia).
  assert (Hl1 : length m1 = length m) by (by apply length_draw_rows).
  pose proof (clip_row_draw p (C_off_x s) (C_off_y s) s x (y + (0 + Z.of_nat n)) w
    (f (0 + Z.of_nat n)) m1 yy k Hp Hpl ltac:(lia) Hw (Hf (0 + Z.of_nat n) ltac:(lia)) Hon) as Hrow.
  rewrite Z.add_0_l in *. cbn [omap list_omap].
  replace (foldl (draw_row p) m1 _) with
    (match clip_row s x (y + Z.of_nat n) w (f (Z.of_nat n)) with
     | Some r => draw_row p m1 r | None => m1 end) by (by destruct (clip_row _ _ _ _ _)).
  rewrite Hrow, IH. clear IH Hrow.
  destruct (decide (yy = y + Z.of_nat n ∧ _)) as [[-> Hc]|Hno].
  - rewrite decide_True by lia. do 2 f_equal. lia.
  - destruct (decide (y ≤ yy < y + Z.of_nat n ∧ _)) as [Hy|Hy];
      [rewrite decide_True by lia|rewrite decide_False by lia]; done.
Qed.

(** A rect of the stream, drawn row by row over what shows [fb], or over
    anything when it covers the stream. *)
Lemma shows_rect p s W H x y w h (f : Z → bytes) (px base fb : bytes) :
  let S := W * p_bpp p in
  panel_ok p → placed p (C_off_x s) (C_off_y s) s →
  p_h p * p_stride p ≤ Z.of_nat (length base) →
  0 ≤ x → 0 < w → x + w ≤ W → 0 ≤ y → 0 < h → y + h ≤ H →
  Z.of_nat (length fb) = W * H * p_bpp p → Z.of_nat (length px) = w * h * p_bpp p →
  (∀ i, 0 ≤ i < h → w * p_bpp p ≤ Z.of_nat (length (f i)) ∧
     ∀ j, 0 ≤ j < w * p_bpp p → f i !! Z.to_nat j = px !! Z.to_nat (i * (w * p_bpp p) + j)) →
  (shows p W H (C_off_x s) (C_off_y s) base fb ∨ (x = 0 ∧ y = 0 ∧ w = W ∧ h = H)) →
  shows p W H (C_off_x s) (C_off_y s)
    (foldl (draw_row p) base (clip_rows s x y w f (seqZ 0 h)))
    (put_rect S (p_bpp p) x y w h px fb).
Proof.
  intros S Hp Hpl Hm Hx Hw HxW Hy Hh HyH Hfb Hpx Hf Hbase yy k Hyy Hk Hon.
  assert (Hb : 0 < p_bpp p) by apply Hp.
  replace h with (Z.of_nat (Z.to_nat h)) at 1 by lia.
  rewrite clip_rows_draw; [|done..|lia|intros i Hi; apply Hf; lia|done].
  rewrite Z2Nat.id by lia.
  destruct (put_rect_spec W (p_bpp p) x y w h px fb) as [Hpl' Hput]; try lia; [nia|].
  fold S in Hput, Hpl'. rewrite Hput.
  assert (HS : 0 ≤ k < S) by (unfold S; lia).
  rewrite Z2Nat.id by nia.
  assert (Hdiv : (yy * S + k) / S = yy) by (rewrite Z.div_add_l, Z.div_small by lia; lia).
  assert (Hmod : (yy * S + k) mod S = k)
    by (rewrite Z.add_comm, Z.mod_add, Z.mod_small by lia; lia).
  fold S. rewrite Hdiv, Hmod.
  destruct (decide (y ≤ yy < y + h ∧ _)) as [[H1 H2]|Hno].
  - rewrite decide_True by (unfold in_block; rewrite Hdiv, Hmod; lia).
    destruct (Hf (yy - y) ltac:(lia)) as [_ Hfi]. rewrite Hfi by lia. done.
  - rewrite decide_False by (unfold in_block; rewrite Hdiv, Hmod; lia).
    destruct Hbase as [Hs|(->&->&->&->)]; [by apply Hs|].
    destruct Hno. unfold S in *. lia.
Qed.

(** Whatever the panel shows, it shows some framebuffer. *)
Lemma shows_some p W H ox oy (m fb : bytes) :
  panel_ok p → p_h p * p_stride p ≤ Z.of_nat (length m) →
  Z.of_nat (length fb) = W * H * p_bpp p → 0 < W → 0 < H →
  ∃ fb', length fb' = length fb ∧ shows p W H ox oy m fb'.
Proof.
  intros Hp Hm Hfb HW HH. assert (Hb : 0 < p_bpp p) by apply Hp.
  set (S := W * p_bpp p). assert (HS : 0 < S) by (subst S; nia).
  exists ((λ j, default 0 (m !! Z.to_nat (pos p ox oy (j / S) (j mod S))))
            <$> seqZ 0 (Z.of_nat (length fb))).
  split; [rewrite length_fmap, length_seqZ; lia|].
  intros y k Hy Hk Hon. fold S in Hk |- *.
  rewrite list_lookup_fmap.
  assert (Hj : 0 ≤ y * S + k < Z.of_nat (length fb)) by (rewrite Hfb; unfold S in *; nia).
  rewrite lookup_seqZ_lt by lia. cbn [fmap option_fmap option_map].
  rewrite Z2Nat.id, Z.add_0_l by lia.
  assert (Hdiv : (y * S + k) / S = y) by (rewrite Z.div_add_l, Z.div_small by lia; lia).
  assert (Hmod : (y * S + k) mod S = k)
    by (rewrite Z.add_comm, Z.mod_add, Z.mod_small by lia; lia).
  rewrite Hdiv, Hmod.
  pose proof (pos_range p ox oy y k Hp Hon).
  destruct (lookup_lt_is_Some_2 m (Z.to_nat (pos p ox oy y k))) as [v Hv]; [lia|].
  by rewrite Hv.
Qed.
End rect.
