(* ===== verification/SbcStep.v ===== *)
(** * What a call of the decoder can change

    The steps of the blit thread and the device run inside every ioctl and
    poll.  A predicate they keep ([stepwise]) is kept by the calls that
    only ask the driver ([asks]); one that also survives every update of
    the decoder's state and the display of a frame ([decwise]) is kept by
    all of v4l2dec.c. *)
From S2P Require Import Prelude Protocol ViewNet SbcOut Sbc V4l2dec SbcShows.

Section step.
Context {Dev : Type} `{Output Dev}.
Implicit Types s : sbc Dev.
Implicit Types Q : sbc Dev → Prop.

Record stepwise Q : Prop := {
  st_take s : Q s → Q (thread_take s);
  st_done s ok : Q s → Q (thread_done s ok);
  st_kernel s i d : Q s → Q (kernel_write s i d);
  st_script s l : Q s → Q s⟨C_script := l⟩;
  st_stop s l : Q s → Q s⟨g_stop := true⟩⟨C_script := l⟩ }.

Lemma step_answer Q l s : stepwise Q → Q s → Q (answer l s).2.
Proof.
  intros [T D K S G]. revert s. induction l as [|[] l IH]; intros s Hq; cbn [answer snd]; eauto.
  destruct (g_stop s); cbn [snd]; eauto.
Qed.
Lemma step_xioctl Q s : stepwise Q → Q s → Q (xioctl s).2.
Proof. apply step_answer. Qed.
Lemma step_poll Q s : stepwise Q → Q s → Q (dev_poll s).2.
Proof.
  intros [T D K S G]. unfold dev_poll. generalize (C_script s) as l. intros l. revert s.
  induction l as [|[] l IH]; intros s Hq; cbn [dev_poll_ snd]; eauto.
Qed.
Lemma step_run Q s : stepwise Q → Q s → Q (run_thread s).
Proof.
  intros [T D K S G]. unfold run_thread. generalize (C_script s) as l. intros l. revert s.
  induction l as [|[] l IH]; intros s Hq; cbn [run_thread_]; eauto.
Qed.
Lemma step_sync Q s : stepwise Q → Q s → Q (blit_sync s).
Proof.
  intros [T D K S G]. unfold blit_sync. destruct (_ =? 1); [|done]. generalize 4%nat.
  intros n. revert s. induction n as [|n IH]; intros s Hq; cbn [blit_sync_loop]; [done|].
  destruct (B_next s), (B_busy s); try done; (destruct (g_stop s); [done|]);
    destruct (C_script s) as [|[] l]; eauto.
Qed.
Lemma stepwise_and Q R : stepwise Q → stepwise R → stepwise (λ s, Q s ∧ R s).
Proof. intros [T D K S G] [T' D' K' S' G']. split; intros; destruct_and?; auto. Qed.
Lemma stepwise_or Q R : stepwise Q → stepwise R → stepwise (λ s, Q s ∨ R s).
Proof. intros [T D K S G] [T' D' K' S' G']. split; intros; destruct_or?; auto. Qed.

(** Showing a frame does not touch the mailbox. *)
Lemma for_keeps {T} (g : sbc Dev → T) n (body : Z → sbc Dev → sbc Dev) s :
  (∀ y s, g (body y s) = g s) → g (for_ 0 n body s) = g s.
Proof.
  intros Hg. unfold for_. generalize (seqZ 0 n) as ys. intros ys. revert s.
  induction ys as [|y ys IH]; intros s; cbn [foldl]; [done|]. by rewrite IH, Hg.
Qed.

Definition box s := (B_up s, B_next s, B_busy s, C_dec s, C_script s, g_stop s, C_dec_open s).
Lemma frame_rest {T} (g : sbc Dev → T) s f :
  (∀ s o, g s⟨C_out := o⟩ = g s) → (∀ s b, g s⟨C_blanked := b⟩ = g s) →
  g (frame_to_fb s f) = g (note_torn s f).
Proof.
  intros Ho Hb. unfold frame_to_fb. cbv zeta. generalize (note_torn s f) as t. intros t.
  assert (Hu : ∀ s k, g s⟨C_out ::= k⟩ = g s) by (intros s1 k; exact (Ho s1 (k (C_out s1)))).
  assert (H1 : ∀ s on, g (set_blank s on) = g s).
  { intros s1 on. unfold set_blank. case_match; [done|]. case_match; by rewrite ?Hu, Hb. }
  assert (H2 : ∀ s, g (out_present s) = g s)
    by (intros; unfold out_present; case_match; by rewrite ?Hu).
  assert (H3 : ∀ s full, g (out_begin s full) = g s)
    by (intros; unfold out_begin; case_match; by rewrite ?Hu).
  rewrite H1, H2, for_keeps, H3; [done|]. intros y s1.
  destruct (frame_row _ _ _ _); [|done]. unfold blit_stream_row. case_match; by rewrite ?Hu.
Qed.
Lemma frame_box s f : box (frame_to_fb s f) = box s.
Proof. by rewrite frame_rest. Qed.

Lemma stepwise_up u : stepwise (λ s, B_up s = u).
Proof.
  split; try done.
  - intros s Hu. unfold thread_take. by repeat case_match.
  - intros s ok Hu. unfold thread_done, release_ans, cap_qbuf_ans, dec_upd.
    destruct (B_busy s) as [f|]; [|done]. pose proof (frame_box s f) as Hf.
    unfold box in Hf. injection Hf as Hf _ _ _ _ _ _. repeat case_match; cbn; congruence.
  - intros s i d Hu. unfold kernel_write. by case_match.
Qed.

Lemma step_release Q s i :
  stepwise Q → (∀ s f, Q s → Q (dec_upd s f)) → Q s → Q (v4l2dec_release s i).
Proof.
  intros Hs Hd Hq. unfold v4l2dec_release, cap_qbuf. case_match; [done|].
  pose proof (step_xioctl Q s Hs Hq) as H1. destruct (xioctl s) as [[] s1]; try exact H1.
  by apply Hd.
Qed.

(** ** The mailbox *)
(** Frames are only lent to a thread that runs. *)
Definition mailbox_ok s : Prop :=
  B_up s = 1 ∨ ((B_up s = -1 ∨ B_up s = 0) ∧ B_next s = None ∧ B_busy s = None).

Definition quiet_box s : Prop := B_next s = None ∧ B_busy s = None.

(** blit_sync(): the thread is done in at most three halves of a turn. *)
Definition box_work s : nat :=
  (match B_next s with Some _ => 2 | None => 0 end +
   match B_busy s with Some _ => 1 | None => 0 end)%nat.

Lemma done_box s ok f : B_busy s = Some f →
  B_busy (thread_done s ok) = None ∧ B_next (thread_done s ok) = B_next s.
Proof.
  intros Hb. unfold thread_done. rewrite Hb.
  pose proof (frame_box s f) as Hf. unfold box in Hf. injection Hf as _ Hn _ _ _ _ _.
  unfold release_ans, cap_qbuf_ans, dec_upd. by repeat case_match.
Qed.

Lemma sync_loop_quiet n s :
  (box_work s < n)%nat → g_stop (blit_sync_loop n s) = false →
  quiet_box (blit_sync_loop n s).
Proof.
  revert s. induction n as [|n IH]; intros s Hw; [lia|]. cbn [blit_sync_loop].
  assert (Hdone : ∀ s1 ok f, B_busy s1 = Some f → (box_work s1 ≤ n)%nat →
    g_stop (blit_sync_loop n (thread_done s1 ok)) = false →
    quiet_box (blit_sync_loop n (thread_done s1 ok))).
  { intros s1 ok f Hb Hw1. apply IH. destruct (done_box s1 ok f Hb) as [E1 E2].
    unfold box_work in *. rewrite E1, E2. rewrite Hb in Hw1. cbn in *. lia. }
  unfold box_work in Hw.
  destruct (B_next s) as [fn|] eqn:Hn, (B_busy s) as [fb|] eqn:Hb; [| | |done];
    (destruct (g_stop s) eqn:Hg; [congruence|]).
  1,3: destruct (C_script s) as [|[] l]; try (by intros ?);
    (eapply Hdone; [exact Hb|unfold box_work; cbn; rewrite Hn, Hb; cbn in *; lia]).
  assert (Ht : (box_work (thread_take s) < n)%nat).
  { unfold thread_take. rewrite Hb, Hn, Hg. cbn in *. lia. }
  destruct (C_script s) as [|[] l]; try (by intros ?); by apply IH.
Qed.

Lemma blit_sync_quiet s : mailbox_ok s → g_stop (blit_sync s) = false → quiet_box (blit_sync s).
Proof.
  unfold blit_sync. intros Hm. destruct (B_up s =? 1) eqn:Hu.
  - apply sync_loop_quiet. unfold box_work. repeat case_match; lia.
  - intros _. destruct Hm as [?|(_&?)]; [lia|done].
Qed.

(** ** Calls that only ask the driver *)
(** Updates that leave the capture buffers alone. *)
Definition mild (f : v4l2dec → v4l2dec) : Prop :=
  ∀ v, V_kq (f v) = V_kq v ∧ V_mem (f v) = V_mem v ∧ V_fd (f v) = V_fd v ∧
    V_cap_ready (f v) = V_cap_ready v.
Record asks Q : Prop := {
  as_step : stepwise Q;
  as_mild s f : mild f → Q s → Q (dec_upd s f) }.
Record decwise Q : Prop := {
  dw_step : stepwise Q;
  dw_dec s f : Q s → Q (dec_upd s f);
  dw_unmap s : Q s → Q (note_unmap s);
  dw_emit s f : Q s → Q (v4l2dec_emit s f).2 }.
Lemma decwise_asks Q : decwise Q → asks Q.
Proof. intros [S D U E]. split; auto. Qed.
End step.

Create HintDb sbc_step.
#[export] Hint Extern 1 (mild _) => (by intros ?) : sbc_step.

(** Follows a function whose calls all keep the predicate. *)
Ltac step_go :=
  repeat match goal with
  | |- ?P (_, _).2 => cbn [snd]
  | |- ?P (let '(_, _) := ?c in _).2 =>
    let Hn := fresh "Hs" in
    eassert (Hn : P (c).2) by eauto with sbc_step;
    destruct c as [? ?]; cbn [snd] in Hn
  | |- _ (if ?b then _ else _).2 => destruct b
  | |- _ (match ?x with _ => _ end).2 => destruct x
  | |- _ => progress cbv zeta
  end; eauto with sbc_step.

Section asks.
Context {Dev : Type} `{Output Dev} (Q : sbc Dev → Prop) (HQ : asks Q).
Implicit Types s : sbc Dev.

Lemma ask_xioctl s : Q s → Q (xioctl s).2.
Proof. apply step_xioctl, HQ. Qed.
Lemma ask_mild s f : mild f → Q s → Q (dec_upd s f).
Proof. apply as_mild, HQ. Qed.
Hint Resolve ask_xioctl ask_mild : sbc_step.
Lemma ask_ok_ioctl s : Q s → Q (ok_ioctl s).2.
Proof. intros Hq. unfold ok_ioctl. step_go. Qed.
Hint Resolve ask_ok_ioctl : sbc_step.
Lemma ask_out_buffers ids n s : Q s → Q (out_buffers ids n s).2.
Proof.
  revert s. induction ids as [|i ids IH]; intros s Hq; cbn [out_buffers]; [done|]. step_go.
Qed.
Hint Resolve ask_out_buffers : sbc_step.
Lemma ask_setup_output s : Q s → Q (setup_output s).2.
Proof. intros Hq. unfold setup_output. step_go. Qed.
Lemma ask_try_fmt s f : Q s → Q (try_capture_fmt s f).2.
Proof. intros Hq. unfold try_capture_fmt. step_go. Qed.
Hint Resolve ask_try_fmt : sbc_step.
Lemma ask_try_ladder l s : Q s → Q (try_ladder l s).2.
Proof. revert s. induction l as [|f l IH]; intros s Hq; cbn [try_ladder]; [done|]. step_go. Qed.
Lemma ask_recycle s : Q s → Q (recycle_output s).
Proof.
  unfold recycle_output. generalize (S (length (C_script s))) as n. intros n. revert s.
  induction n as [|n IH]; intros s Hq; cbn [recycle_output_]; [done|].
  assert (H1 : Q (xioctl s).2) by eauto with sbc_step.
  destruct (xioctl s) as [a s1]. cbn [snd] in H1.
  destruct a; try done. apply IH. case_match; eauto with sbc_step.
Qed.
End asks.

(** ** All of v4l2dec.c *)
Section decwise.
Context {Dev : Type} `{Output Dev} (Q : sbc Dev → Prop) (HQ : decwise Q).
Implicit Types s : sbc Dev.

Let HA : asks Q := decwise_asks Q HQ.
Lemma keep_xioctl s : Q s → Q (xioctl s).2.
Proof. apply step_xioctl, HQ. Qed.
Lemma keep_poll s : Q s → Q (dev_poll s).2.
Proof. apply step_poll, HQ. Qed.
Lemma keep_dec s f : Q s → Q (dec_upd s f).
Proof. apply dw_dec, HQ. Qed.
Lemma keep_emit s f : Q s → Q (v4l2dec_emit s f).2.
Proof. apply dw_emit, HQ. Qed.
Lemma keep_ok_ioctl s : Q s → Q (ok_ioctl s).2.
Proof. apply ask_ok_ioctl, HA. Qed.
Lemma keep_setup_output s : Q s → Q (setup_output s).2.
Proof. apply ask_setup_output, HA. Qed.
Lemma keep_try_ladder l s : Q s → Q (try_ladder l s).2.
Proof. apply ask_try_ladder, HA. Qed.
Lemma keep_recycle s : Q s → Q (recycle_output s).
Proof. apply ask_recycle, HA. Qed.
Hint Resolve keep_xioctl keep_poll keep_dec keep_emit keep_ok_ioctl keep_setup_output
  keep_try_ladder keep_recycle : sbc_step.
Lemma keep_qbuf_ans s i ok : Q s → Q (cap_qbuf_ans s i ok).
Proof. intros Hq. unfold cap_qbuf_ans. case_match; eauto with sbc_step. Qed.
Hint Resolve keep_qbuf_ans : sbc_step.
Lemma keep_qbuf s i : Q s → Q (cap_qbuf s i).2.
Proof. intros Hq. unfold cap_qbuf. step_go. Qed.
Hint Resolve keep_qbuf : sbc_step.
Lemma keep_cap_buffers n i s : Q s → Q (cap_buffers n i s).2.
Proof.
  revert i s. induction n as [|n IH]; intros i s Hq; cbn [cap_buffers]; [done|]. step_go.
Qed.
Hint Resolve keep_cap_buffers : sbc_step.
Lemma keep_setup_fmt s f : Q s → Q (setup_capture_fmt s f).2.
Proof. intros Hq. unfold setup_capture_fmt. step_go. Qed.
Hint Resolve keep_setup_fmt : sbc_step.
Lemma keep_setup_capture s : Q s → Q (setup_capture s).2.
Proof. intros Hq. unfold setup_capture. step_go. Qed.
Hint Resolve keep_setup_capture : sbc_step.

Lemma keep_close s : Q s → Q (v4l2dec_close s).
Proof.
  intros Hq. unfold v4l2dec_close. destruct (negb _); [done|].
  assert (H1 : Q (xioctl s).2) by eauto with sbc_step.
  destruct (xioctl s) as [a s1]. cbn [snd] in H1.
  assert (H2 : Q (xioctl s1).2) by eauto with sbc_step.
  destruct (xioctl s1) as [a2 s2]. cbn [snd] in H2. pose proof (dw_unmap _ HQ s2 H2). eauto with sbc_step.
Qed.
Hint Resolve keep_close : sbc_step.
Lemma keep_open s w h r : Q s → Q (v4l2dec_open s w h r).2.
Proof. intros Hq. unfold v4l2dec_open. step_go. Qed.

Lemma keep_events n s : Q s → Q (handle_events_ n s).2.
Proof. revert s. induction n as [|n IH]; intros s Hq; cbn [handle_events_]; [done|]. step_go. Qed.
Lemma keep_handle_events s : Q s → Q (handle_events s).2.
Proof. apply keep_events. Qed.
Hint Resolve keep_handle_events : sbc_step.
Lemma keep_dqbuf s : Q s → Q (dqbuf_capture s).2.
Proof. intros Hq. unfold dqbuf_capture. step_go. Qed.
Hint Resolve keep_dqbuf : sbc_step.
Lemma keep_drain_loop n s have : Q s → Q (drain_loop n s have).2.
Proof.
  revert s have. induction n as [|n IH]; intros s have Hq; cbn [drain_loop]; [done|].
  assert (Hlast : ∀ s (b : bool), Q s →
    Q (if b then dec_upd s (λ v, v⟨V_saw_last := true⟩) else s))
    by (intros s1 []; eauto with sbc_step).
  step_go. by destruct have; eauto with sbc_step.
Qed.
Hint Resolve keep_drain_loop : sbc_step.
Lemma keep_drain_capture s : Q s → Q (drain_capture s).2.
Proof. intros Hq. unfold drain_capture. step_go. Qed.
Hint Resolve keep_drain_capture : sbc_step.
Lemma keep_pump s : Q s → Q (v4l2dec_pump s).2.
Proof. intros Hq. unfold v4l2dec_pump. step_go. Qed.
Hint Resolve keep_pump : sbc_step.

Lemma keep_wait_slot n s : Q s → Q (wait_slot n s).2.
Proof. revert s. induction n as [|n IH]; intros s Hq; cbn [wait_slot]; [done|]. step_go. Qed.
Lemma keep_wait_capture n s : Q s → Q (wait_capture n s).2.
Proof.
  revert s. induction n as [|n IH]; intros s Hq; cbn [wait_capture];
    (destruct (_ || _); [done|]); [done|]. step_go.
Qed.
Lemma keep_wait_last n s : Q s → Q (wait_last n s).2.
Proof.
  revert s. induction n as [|n IH]; intros s Hq; cbn [wait_last];
    (destruct (_ || _); [done|]); [done|]. step_go.
Qed.
Hint Resolve keep_wait_slot keep_wait_capture keep_wait_last : sbc_step.
Lemma keep_feed s au : Q s → Q (v4l2dec_feed s au).2.
Proof. intros Hq. unfold v4l2dec_feed. generalize 500%nat 400%nat. intros. step_go. Qed.
Lemma keep_drain s : Q s → Q (v4l2dec_drain s).2.
Proof. intros Hq. unfold v4l2dec_drain. generalize 500%nat. intros. step_go. Qed.
End decwise.

(** * What the decoder and the blit thread may touch

    Whatever the device answers and however the blit thread is scheduled,
    the calls into v4l2dec.c change the display only by whole batches of
    rows inside the panel: the connection, the geometry and what the output
    relies on stay ([env]). *)
Create HintDb sbc_env.

Section keep.
Context {Dev : Type} `{OL : OutputLaws Dev}.
Implicit Types s : sbc Dev.

(** The fields no decoder call changes. *)
Definition static s :=
  ((C_no_lz4 s, C_no_h264 s, C_usb_active s, C_test_mode s, C_test_w s, C_test_h s),
   (C_test_sink s, C_dec_found s, C_dec_open s, C_h264_broken s, C_srv_flags s, C_rowbuf s),
   (C_hotplug_armed s, C_out_w s, C_out_h s, C_pixfmt s, C_bytespp s),
   (C_stream_w s, C_stream_h s, C_off_x s, C_off_y s, C_testbuf s, C_frame_count s),
   (C_thread_ok s, C_sink_ok s, C_sink s, C_rx s, C_tx s, C_writes s)).

(** A client that displays on a panel. *)
Record on_display s : Prop := {
  od_mode : C_test_mode s = false;
  od_placed : placed (out_panel (C_out s)) (C_off_x s) (C_off_y s) s;
  od_bpp : C_bytespp s = 2 ∨ C_bytespp s = 4;
  od_ok : out_ok (C_out s) }.

Record env (s0 s : sbc Dev) : Prop := {
  env_static : static s = static s0;
  env_display : on_display s;
  env_panel : out_panel (C_out s) = out_panel (C_out s0);
  env_box : mailbox_ok s }.

Lemma env_refl s : on_display s → mailbox_ok s → env s s.
Proof. by split. Qed.

(** Only the output, the mailbox and the kernel's side matter. *)
Lemma env_move s0 s s' :
  static s' = static s → C_out s' = C_out s → mailbox_ok s' → env s0 s → env s0 s'.
Proof.
  intros Hs Ho Hm [E1 [D1 D2 D3 D4] E3 _]. unfold static in Hs. injection Hs as.
  split; [| | |done].
  - rewrite <- E1. unfold static. congruence.
  - split; [congruence| |congruence|by rewrite Ho].
    unfold placed in *. rewrite Ho. destruct D2 as (?&?&?&?&?). split_and!; congruence.
  - by rewrite Ho.
Qed.
Lemma env_same s0 s s' :
  static s' = static s → C_out s' = C_out s → B_next s' = B_next s →
  B_busy s' = B_busy s → B_up s' = B_up s → env s0 s → env s0 s'.
Proof.
  intros Hs Ho Hn Hb Hu He. apply (env_move s0 s); [done|done| |done].
  destruct He as [_ _ _ E4]. unfold mailbox_ok in *. by rewrite Hn, Hb, Hu.
Qed.

(** ** Rows *)
Lemma clip_row_out s (f : Dev → Dev) sx sy w row :
  clip_row s⟨C_out ::= f⟩ sx sy w row = clip_row s sx sy w row.
Proof. done. Qed.

Lemma frame_row_out s (f : Dev → Dev) fr w y :
  frame_row s⟨C_out ::= f⟩ fr w y = frame_row s fr w y.
Proof. done. Qed.

Definition frame_rows s (f : v4l2dec_frame) (w : Z) (ys : list Z) : list out_row :=
  omap (λ y, frame_row s f w y ≫= clip_row s 0 y w) ys.

Lemma frame_rows_out s f w ys :
  foldl (λ s y, match frame_row s f w y with
                | Some row => blit_stream_row s 0 y w row
                | None => s
                end) s ys =
  s⟨C_out ::= λ o, write_rows o (frame_rows s f w ys)⟩.
Proof.
  revert s. induction ys as [|y ys IH]; intros s; cbn [foldl]; [by destruct s|].
  unfold frame_rows. cbn [omap list_omap].
  destruct (frame_row s f w y) as [row|] eqn:Hr; cbn [mbind option_bind]; [|apply IH].
  unfold blit_stream_row. destruct (clip_row s 0 y w row) as [r|] eqn:Hc; [|apply IH].
  by rewrite IH.
Qed.

Lemma length_yuv_row bpp yr ur vr st w :
  bpp = 2 ∨ bpp = 4 → 0 ≤ w →
  Z.of_nat (length (yuv_row_to_fb bpp yr ur vr st w)) = w * bpp.
Proof.
  intros Hb Hw. unfold yuv_row_to_fb.
  rewrite (length_rows _ _ (Z.to_nat bpp)); [lia|]. intros i. unfold yuv_px. cbv zeta.
  destruct Hb as [-> | ->]; cbn [Z.eqb Pos.eqb]; by rewrite length_le.
Qed.

Lemma frame_row_length s f w y row :
  C_bytespp s = 2 ∨ C_bytespp s = 4 → 0 ≤ w → frame_row s f w y = Some row →
  w * C_bytespp s ≤ Z.of_nat (length row).
Proof.
  intros Hb Hw. unfold frame_row. cbv zeta. destruct (_ && _).
  - intros Hr. injection Hr as <-. unfold mem_read. rewrite length_fmap, length_seqZ. lia.
  - destruct (C_rowbuf s); [|done]. intros Hr. injection Hr as <-.
    destruct (_ =? _); rewrite length_yuv_row by done; done.
Qed.

Lemma frame_rows_in s f w ys :
  on_display s → 0 ≤ w → Forall (row_in (out_panel (C_out s))) (frame_rows s f w ys).
Proof.
  intros [_ Hpl Hb Hok] Hw. unfold frame_rows. apply Forall_forall. intros r Hr.
  apply list_elem_of_omap in Hr as (y&_&Hr). apply bind_Some in Hr as (row&Hrow&Hc).
  eapply clip_row_in; [by apply out_panel_ok|exact Hpl|exact Hw| |exact Hc].
  pose proof Hpl as (_&_&<-&_). by eapply frame_row_length.
Qed.

Lemma env_blank s0 s on : env s0 s → env s0 (set_blank s on).
Proof.
  intros He. unfold set_blank. case_match; [done|]. pose proof He as [E1 [D1 D2 D3 D4] E3 E4].
  set (s1 := s⟨C_blanked := on⟩).
  change (C_test_mode s1) with (C_test_mode s). rewrite D1.
  destruct (out_blank_ok (C_out s) on D4) as (B1&B2&_).
  split; [exact E1| | |exact E4].
  - split; [exact D1| |exact D3|exact B1].
    change (placed (out_panel (op_blank (C_out s) on)) (C_off_x s) (C_off_y s) s1).
    by rewrite B2.
  - change (out_panel (op_blank (C_out s) on) = out_panel (C_out s0)). by rewrite B2.
Qed.

(** The picture, as one batch. *)
Lemma frame_to_fb_eq s f :
  C_test_mode s = false →
  ∃ w ys, 0 ≤ w ∧ frame_to_fb s f =
    set_blank (note_torn s f)
      ⟨C_out ::= λ o, out_batch o true (frame_rows (note_torn s f) f w ys)⟩ false.
Proof.
  intros Ht. unfold frame_to_fb, out_begin, out_present. cbv zeta.
  change (C_test_mode (note_torn s f)) with (C_test_mode s). rewrite Ht.
  set (w := u32 (if f_w f <? _ then _ else _)).
  set (h := u32 (if f_h f <? _ then _ else _)).
  exists w, (seqZ 0 h). split; [subst w; match goal with |- 0 ≤ u32 ?x =>
    pose proof (u32_range x) end; lia|].
  unfold for_. rewrite frame_rows_out.
  match goal with |- set_blank (if C_test_mode ?x then _ else _) _ = _ =>
    change (C_test_mode x) with (C_test_mode s) end.
  rewrite Ht. done.
Qed.

Lemma env_batch s0 s full rs :
  Forall (row_in (out_panel (C_out s))) rs → env s0 s →
  env s0 s⟨C_out ::= λ o, out_batch o full rs⟩.
Proof.
  intros Hrs [E1 [D1 D2 D3 D4] E3 E4].
  destruct (out_batch_ok (C_out s) full rs D4 Hrs) as (B1&B2&_).
  split; [exact E1| | |exact E4].
  - split; [exact D1| |exact D3|exact B1]. cbn. by rewrite B2.
  - cbn. by rewrite B2.
Qed.

Lemma env_frame s0 s f : env s0 s → env s0 (frame_to_fb s f).
Proof.
  intros He. pose proof He as [_ Hd _ _].
  destruct (frame_to_fb_eq s f) as (w&ys&Hw&->); [apply Hd|].
  assert (Ht : env s0 (note_torn s f)) by (apply (env_move s0 s); [done|done|apply He|done]).
  apply env_blank, env_batch; [|done]. apply frame_rows_in; [apply Ht|done].
Qed.

(** ** The blit thread and the device *)
Lemma env_dec s0 s f : env s0 s → env s0 (dec_upd s f).
Proof. intros He. by apply (env_same s0 s). Qed.
Lemma env_script s0 s l : env s0 s → env s0 s⟨C_script := l⟩.
Proof. intros He. by apply (env_same s0 s). Qed.
Lemma env_stop s0 s b : env s0 s → env s0 s⟨g_stop := b⟩.
Proof. intros He. by apply (env_same s0 s). Qed.

Lemma env_queued s0 s i ok : env s0 s → env s0 (cap_qbuf_ans s i ok).
Proof. intros He. unfold cap_qbuf_ans. case_match; [by apply env_dec|done]. Qed.
Lemma env_release s0 s i ok : env s0 s → env s0 (release_ans s i ok).
Proof. intros He. unfold release_ans. case_match; [done|]. by apply env_queued. Qed.

Lemma env_take s0 s : env s0 s → env s0 (thread_take s).
Proof.
  intros He. unfold thread_take. destruct (B_busy s) eqn:Hb; [done|].
  destruct (B_next s) as [f|] eqn:Hn; [|done]. destruct (g_stop s); [done|].
  apply (env_move s0 s); [done|done| |exact He].
  left. destruct He as [_ _ _ [Hu|(_&Hx&_)]]; [exact Hu|congruence].
Qed.

Lemma env_done s0 s ok : env s0 s → env s0 (thread_done s ok).
Proof.
  intros He. unfold thread_done. destruct (B_busy s) as [f|] eqn:Hb; [|done].
  apply (env_frame s0 s f) in He. apply (env_release s0 _ (f_buf_index f) ok) in He.
  set (s1 := release_ans _ _ _) in *. clearbody s1.
  apply (env_move s0 s1); [done|done| |exact He].
  destruct He as [_ _ _ [Hu|(?&?&?)]]; [by left|by right].
Qed.

Lemma env_kernel s0 s i d : env s0 s → env s0 (kernel_write s i d).
Proof. intros He. unfold kernel_write. case_match; [by apply env_dec|done]. Qed.

Hint Resolve env_dec env_script env_stop env_take env_done env_kernel env_frame
  env_queued env_release : sbc_env.

Lemma env_stepwise s0 : stepwise (env s0).
Proof. split; eauto with sbc_env. Qed.

Lemma env_emit s0 s f : env s0 s → env s0 (v4l2dec_emit s f).2.
Proof.
  intros He. unfold v4l2dec_emit.
  set (s1 := if B_up s <? 0 then _ else s).
  assert (H1 : env s0 s1 ∧ (B_up s1 = 1 ∨ B_up s1 = 0)).
  { pose proof He as [_ _ _ E4]. subst s1. destruct (B_up s <? 0) eqn:Hu.
    - split; [|cbn; case_match; lia]. apply (env_move s0 s); [done|done| |exact He].
      unfold mailbox_ok in *. cbn. destruct E4 as [?|(_&?&?)]; [lia|].
      case_match; [by left|right]. by auto.
    - split; [done|]. unfold mailbox_ok in E4. lia. }
  destruct H1 as [H1 Hu]. clearbody s1.
  destruct (B_up s1 =? 0) eqn:H0; cbn [snd]; [by apply env_frame|].
  set (s2 := match B_next s1 with Some g => _ | None => s1 end).
  assert (H2 : env s0 s2 ∧ B_up s2 = 1).
  { subst s2. destruct (B_next s1) as [g|]; [|split; [done|lia]].
    assert (H1' : env s0 s1⟨B_next := None⟩).
    { apply (env_move s0 s1); [done|done|left; change (B_up s1 = 1); lia|exact H1]. }
    apply (step_release (λ s, env s0 s ∧ B_up s = 1)); [| |split; [done|cbn; lia]].
    - apply stepwise_and; [apply env_stepwise|apply stepwise_up].
    - intros s2 k [He2 Hu2]. split; [by apply env_dec|done]. }
  destruct H2 as [H2 Hu2]. apply (env_move s0 s2); [done|done|by left|exact H2].
Qed.

(** ** v4l2dec.c and the waits *)
Lemma env_keeps s0 : decwise (env s0).
Proof.
  split; [apply env_stepwise|apply env_dec| |apply env_emit].
  intros s He. apply (env_move s0 s); [done|done|apply He|exact He].
Qed.
Lemma env_run_thread s0 s : env s0 s → env s0 (run_thread s).
Proof. apply step_run, env_stepwise. Qed.
Lemma env_sync s0 s : env s0 s → env s0 (blit_sync s).
Proof. apply step_sync, env_stepwise. Qed.
Lemma env_pump s0 s : env s0 s → env s0 (v4l2dec_pump s).2.
Proof. apply keep_pump, env_keeps. Qed.
Lemma env_open s0 s w h r : env s0 s → env s0 (v4l2dec_open s w h r).2.
Proof. apply keep_open, env_keeps. Qed.
Lemma env_feed s0 s au : env s0 s → env s0 (v4l2dec_feed s au).2.
Proof. apply keep_feed, env_keeps. Qed.
Lemma env_drain s0 s : env s0 s → env s0 (v4l2dec_drain s).2.
Proof. apply keep_drain, env_keeps. Qed.
End keep.
