(* ===== verification/SbcRun.v ===== *)
(** * The receive loop of the SBC client, message by message

    [sbc_view] is the client between two messages: the panel shows [fb] and
    [rest] is still to be read.  [handled_sbc] is what one turn of the loop
    does for one message.  Outside of an H.264 episode the mailbox is empty
    ([quiet_box]), so nothing but the messages draws. *)

From S2P Require Import Prelude Binary64 Protocol Core Convert Encoder Net Xmit Control.
From S2P Require Import Drain XmitSpec Dirty Coverage ViewH264 ViewNet Blit.
From S2P Require Import ViewRead Paint Stream OutReady Link Mirror SbcOut Sbc.
From S2P Require Import V4l2dec SbcLoop SbcStep SbcShows.

(** The panel the client runs on: its size and stride never change. *)
Class Screen := screen : panel.

Section run.
Context `{SC : Screen}.
Context {Dev : Type} `{OL : OutputLaws Dev} `{X : X264} `{L : LZ4} `{!LZ4Laws L}.
Implicit Types s : sbc Dev.

(** Every PONG goes out in one write. *)
Definition writes_whole s : Prop := Forall (λ w, ∃ n, w = WSent n ∧ 48 ≤ n) (C_writes s).

Record sbc_view (g : sremfb_geom) (pf : Z) (lz : bool) s (fb rest : bytes) : Prop := {
  sv_display : on_display s;
  sv_box : mailbox_ok s;
  sv_sink : C_test_sink s = false;
  sv_w : C_stream_w s = g_width g;
  sv_h : C_stream_h s = g_height g;
  sv_bpp : C_bytespp s = bytespp_of pf;
  sv_lz : lz = true → C_no_lz4 s = false;
  sv_shows : shows (out_panel (C_out s)) (g_width g) (g_height g) (C_off_x s) (C_off_y s)
    (out_shown (C_out s)) fb;
  sv_len : Z.of_nat (length fb) = g_width g * g_height g * bytespp_of pf;
  sv_rx : rx_data (C_rx s) = rest;
  sv_writes : writes_whole s;
  sv_panel : out_panel (C_out s) = screen;
  sv_off_x : C_off_x s = Z.quot (C_out_w s - g_width g) 2;
  sv_off_y : C_off_y s = Z.quot (C_out_h s - g_height g) 2 }.

Lemma display_bpp s : on_display s → p_bpp (out_panel (C_out s)) = C_bytespp s.
Proof. intros [_ (_&_&Hb&_) _ _]. by rewrite Hb. Qed.

(** Decoder activity leaves some picture of the stream's size. *)
Lemma view_env g pf lz s s' fb rest :
  geom_ok g → sbc_view g pf lz s fb rest → env s s' →
  ∃ fb', length fb' = length fb ∧ sbc_view g pf lz s' fb' rest.
Proof.
  intros Hg [D B S Ww Wh Bp Lz Sh Ln Rx Wr Pa Ox Oy] [E1 E2 E3 E4].
  pose proof (display_bpp s D) as Hb. pose proof (display_bpp s' E2) as Hb'.
  unfold static in E1. injection E1 as.
  destruct (shows_some (out_panel (C_out s')) (g_width g) (g_height g) (C_off_x s')
    (C_off_y s') (out_shown (C_out s')) fb) as (fb'&Hl&Hs').
  - apply out_panel_ok, E2.
  - apply out_size, E2.
  - rewrite Ln, E3, Hb, Bp. done.
  - unfold geom_ok in Hg. lia.
  - unfold geom_ok in Hg. lia.
  - exists fb'. split; [done|]. unfold writes_whole in *.
    split; first [done|congruence|by rewrite Hl|intros Hz; specialize (Lz Hz); congruence|unfold writes_whole; congruence].
Qed.

(** The view only depends on some fields. *)
Lemma view_same g pf lz s s' fb rest :
  static s' = static s → C_out s' = C_out s → mailbox_ok s' →
  sbc_view g pf lz s fb rest → sbc_view g pf lz s' fb rest.
Proof.
  intros Hs Ho Hm [D B S Ww Wh Bp Lz Sh Ln Rx Wr Pa Ox Oy].
  pose proof (env_move s s s' Hs Ho Hm (env_refl s D B)) as [_ D' _ _].
  unfold static in Hs. injection Hs as.
  assert (Ex : C_off_x s' = C_off_x s) by congruence.
  assert (Ey : C_off_y s' = C_off_y s) by congruence.
  split; first [done|congruence|unfold writes_whole in *; congruence
    |intros Hz; specialize (Lz Hz); congruence|by rewrite Ho, Ex, Ey].
Qed.

Lemma view_dec_open g pf lz s b fb rest :
  sbc_view g pf lz s fb rest → sbc_view g pf lz s⟨C_dec_open := b⟩ fb rest.
Proof. intros [[D1 D2 D3 D4] B S Ww Wh Bp Lz Sh Ln Rx Wr Pa Ox Oy]. by split. Qed.

Lemma view_blank g pf lz s on fb rest :
  sbc_view g pf lz s fb rest → sbc_view g pf lz (set_blank s on) fb rest.
Proof.
  intros Hv. unfold set_blank. destruct (Bool.eqb _ _); [done|].
  pose proof Hv as [[D1 D2 D3 D4] B S Ww Wh Bp Lz Sh Ln Rx Wr Pa Ox Oy].
  set (s1 := s⟨C_blanked := on⟩). change (C_test_mode s1) with (C_test_mode s).
  rewrite D1. destruct (out_blank_ok (C_out s) on D4) as (B1&B2&B3).
  split; try done.
  - split; [done| |done|exact B1]. cbn. by rewrite B2.
  - cbn. by rewrite B2, B3.
  - cbn. by rewrite B2.
Qed.

Lemma quiet_blank s on : quiet_box s → quiet_box (set_blank s on).
Proof. unfold quiet_box, set_blank. by repeat case_match. Qed.
Lemma stop_blank s on : g_stop (set_blank s on) = g_stop s ∧
  C_dec_open (set_blank s on) = C_dec_open s.
Proof. unfold set_blank. by repeat case_match. Qed.

(** With nothing in the mailbox the blit thread does nothing. *)
Lemma run_thread_quiet s :
  quiet_box s →
  static (run_thread s) = static s ∧ C_out (run_thread s) = C_out s ∧
  quiet_box (run_thread s) ∧ B_up (run_thread s) = B_up s ∧
  g_stop (run_thread s) = g_stop s ∧ C_dec_open (run_thread s) = C_dec_open s.
Proof.
  unfold run_thread. generalize (C_script s) as l. intros l. revert s.
  induction l as [|e l IH]; intros s [Hn Hb]; [done|].
  destruct e; cbn [run_thread_]; try done.
  - unfold thread_take. rewrite Hb, Hn. by apply IH.
  - unfold thread_done. rewrite Hb. by apply IH.
  - unfold kernel_write. case_match; [|by apply IH].
    destruct (IH (dec_upd s (λ v, v⟨V_mem ::= λ m i, if i =? idx then data else m i⟩)))
      as (?&?&?&?&?&?); by split_and!.
Qed.

(** ** Messages *)
Lemma sbc_readn_ok s len :
  0 ≤ len ≤ Z.of_nat (length (rx_data (C_rx s))) →
  ∃ evs, sbc_readn s len = (Some (slice 0 len (rx_data (C_rx s))), s⟨C_rx := evs⟩) ∧
    rx_data evs = drop (Z.to_nat len) (rx_data (C_rx s)).
Proof.
  intros Hlen. destruct (readn_ev_ok (C_rx s) len Hlen) as (evs&Hr&Hd).
  exists evs. unfold sbc_readn. by rewrite Hr.
Qed.

(** A payload that is there is read whole. *)
Lemma sbc_readn_payload s (b rest : bytes) :
  rx_data (C_rx s) = b ++ rest →
  ∃ evs, sbc_readn s (Z.of_nat (length b)) = (Some b, s⟨C_rx := evs⟩) ∧ rx_data evs = rest.
Proof.
  intros Hr. destruct (sbc_readn_ok s (Z.of_nat (length b))) as (evs&Hread&Hd).
  { rewrite Hr, length_app. lia. }
  exists evs. rewrite Hr in Hread, Hd. rewrite slice_hit in Hread by done.
  by rewrite Nat2Z.id, drop_app_length in Hd.
Qed.

Lemma view_rx g pf lz s fb rest evs rest' :
  rx_data evs = rest' → sbc_view g pf lz s fb rest →
  sbc_view g pf lz s⟨C_rx := evs⟩ fb rest'.
Proof. intros He [[D1 D2 D3 D4] B S Ww Wh Bp Lz Sh Ln Rx Wr Pa Ox Oy]. by split. Qed.

Definition opens (m : sent) (open : bool) : bool :=
  match m with
  | SAu _ _ _ _ => true
  | SCtl e => if e =? SREMFB_ENC_H264_EOS then false else open
  | _ => open
  end.

(** Outside of an episode nothing but the main thread draws; inside one the
    decoder is open. *)
Definition box_cond (open : bool) s : Prop :=
  (open = false → g_stop s = false → quiet_box s) ∧ (open = true → C_dec_open s = true).

Definition handled_sbc (g : sremfb_geom) (pf : Z) (lz : bool) (m : sent) (open : bool)
    (stop : bool) (fb rest : bytes) (r : bool * sbc Dev) : Prop :=
  (r.1 = true → ∃ fb', paint (g_width g) (bytespp_of pf) m fb fb' ∧
     sbc_view g pf lz r.2 fb' rest ∧ box_cond (opens m open) r.2) ∧
  (¬ is_h264 m → r.1 = true ∧ g_stop r.2 = stop).

Lemma sbc_msg_ping g pf lz s t open fb rest :
  sbc_view g pf lz s fb (le 8 t ++ rest) → box_cond open s →
  handled_sbc g pf lz (SPing t) open (g_stop s) fb rest (frame_msg s (sent_hdr (SPing t))).
Proof.
  intros Hv Hb. unfold frame_msg. cbn [sent_hdr fh_encoding fh_payload_len].
  change (_ || _) with false. change (_ =? SREMFB_ENC_PING) with true. cbn match.
  change (fh_payload_len _ =? 8) with true. cbn [negb]. unfold sbc_ping.
  destruct (sbc_readn_payload s (le 8 t) rest (sv_rx _ _ _ _ _ _ Hv)) as (evs&Hread&Hd).
  rewrite length_le in Hread. change (Z.of_nat 8) with 8 in Hread. rewrite Hread.
  apply (view_rx _ _ _ _ _ _ evs rest Hd) in Hv. set (s1 := s⟨C_rx := evs⟩) in *.
  unfold sbc_writen. set (buf := client_msg_bytes _).
  assert (Hlen : (length buf ≤ 48)%nat /\ buf ≠ []).
  { unfold buf, client_msg_bytes. rewrite !length_app, !length_le. simpl. split; [lia|done]. }
  assert (Hw : ∃ ws, writen_evs (C_writes s1) (g_stop s1) buf = (buf, true, ws) ∧
    Forall (λ w, ∃ n, w = WSent n ∧ 48 ≤ n) ws).
  { pose proof (sv_writes _ _ _ _ _ _ Hv) as Hws. unfold writes_whole in Hws.
    destruct Hlen as [Hlen Hne]. destruct buf as [|b buf]; [done|].
    destruct (C_writes s1) as [|w ws]; [by exists []|].
    apply Forall_cons in Hws as [(n&->&Hn) Hws]. exists ws. split; [|done].
    cbn [writen_evs].
    assert (E1 : slice n (Z.of_nat (length (b :: buf)) - n) (b :: buf) = []).
    { unfold slice. rewrite drop_ge by lia. by rewrite take_nil. }
    assert (E2 : slice 0 n (b :: buf) = b :: buf).
    { unfold slice. rewrite drop_0. apply take_ge. lia. }
    rewrite E1, E2. destruct ws; cbn; by rewrite app_nil_r. }
  destruct Hw as (ws&->&Hws). split; [|by intros _]. intros _. exists fb.
  split; [done|]. split; [|exact Hb].
  destruct Hv as [[D1 D2 D3 D4] B S Ww Wh Bp Lz Sh Ln Rx Wr Pa Ox Oy]. by split.
Qed.

Lemma sbc_msg_ctl g pf lz s e open fb rest :
  geom_ok g → is_ctl (SCtl e) →
  sbc_view g pf lz s fb rest → box_cond open s →
  handled_sbc g pf lz (SCtl e) open (g_stop s) fb rest (frame_msg s (sent_hdr (SCtl e))).
Proof.
  intros Hgeo He Hv Hb. unfold frame_msg. cbn [sent_hdr].
  assert (Hblank : ∀ b, e ≠ SREMFB_ENC_H264_EOS →
    handled_sbc g pf lz (SCtl e) open (g_stop s) fb rest (true, set_blank s b)).
  { intros b Hne. destruct (stop_blank s b) as [E1 E2].
    split; [|intros _; cbn; by rewrite E1]. intros _. exists fb.
    assert (Hz : (e =? SREMFB_ENC_H264_EOS) = false) by lia. cbn [paint opens]. rewrite Hz.
    split; [done|]. split; [by apply view_blank|]. destruct Hb as [B1 B2]. cbn [snd].
    split; [|by rewrite E2]. rewrite E1. intros Ho Hs. by apply quiet_blank, B1. }
  destruct He as [-> | [-> | ->]].
  - change (fh_encoding (frame_hdr_for SREMFB_ENC_H264_EOS)) with SREMFB_ENC_H264_EOS.
    change (fh_payload_len (frame_hdr_for SREMFB_ENC_H264_EOS)) with 0.
    cbn [SREMFB_ENC_H264_EOS SREMFB_ENC_BLANK SREMFB_ENC_UNBLANK SREMFB_ENC_PING
      SREMFB_ENC_H264 Z.eqb Pos.eqb orb negb].
    unfold sbc_eos. rewrite (sv_sink _ _ _ _ _ _ Hv).
    split; [|by intros []].
    destruct (C_dec_open s) eqn:Hd.
    + pose proof (env_drain s s (env_refl s (sv_display _ _ _ _ _ _ Hv) (sv_box _ _ _ _ _ _ Hv)))
        as He.
      destruct (v4l2dec_drain s) as [[] s1]; [|done]. cbn [fst snd] in *. intros _.
      pose proof (env_sync s s1 He) as He2.
      destruct (view_env g pf lz s _ fb rest Hgeo Hv He2) as (fb'&Hl&Hv').
      exists fb'. split; [exact Hl|]. split; [done|]. split; [|done].
      intros _. by apply blit_sync_quiet, He.
    + intros _. exists fb. split; [done|]. split; [done|]. split; [|done].
      intros _ Hs. destruct open; [|by apply Hb].
      destruct Hb as [_ Hb]. specialize (Hb eq_refl). cbn in *. congruence.
  - by apply (Hblank true).
  - by apply (Hblank false).
Qed.

Lemma sbc_msg_au g pf lz s idr w h nal open fb rest :
  geom_ok g → sbc_view g pf lz s fb (nal ++ rest) →
  handled_sbc g pf lz (SAu idr w h nal) open (g_stop s) fb rest
    (frame_msg s (sent_hdr (SAu idr w h nal))).
Proof.
  intros Hgeo Hv. unfold frame_msg. cbn [sent_hdr].
  change (fh_encoding (au_hdr idr w h (Z.of_nat (length nal)))) with SREMFB_ENC_H264.
  change (fh_payload_len (au_hdr idr w h (Z.of_nat (length nal)))) with (Z.of_nat (length nal)).
  cbn [SREMFB_ENC_H264_EOS SREMFB_ENC_BLANK SREMFB_ENC_UNBLANK SREMFB_ENC_PING
    SREMFB_ENC_H264 Z.eqb Pos.eqb orb].
  split; [|by intros []]. destruct (_ || _); [done|].
  destruct (sbc_readn_payload s nal rest (sv_rx _ _ _ _ _ _ Hv)) as (evs&->&Hd).
  apply (view_rx _ _ _ _ _ _ evs rest Hd) in Hv. set (s1 := s⟨C_rx := evs⟩) in *. clearbody s1.
  unfold handle_h264_au. rewrite (sv_sink _ _ _ _ _ _ Hv).
  assert (Hopen : ∀ o : bool * sbc Dev,
    o = (if C_dec_open s1 then (true, s1)
         else let '(ok, s) := v4l2dec_open s1 (C_stream_w s1) (C_stream_h s1)
                                (C_pixfmt s1 =? SREMFB_PIX_RGB565) in
              if ok : bool then (true, s⟨C_dec_open := true⟩) else (false, sbc_broken s)) →
    o.1 = true → C_dec_open o.2 = true ∧ ∃ fb1, length fb1 = length fb ∧
      sbc_view g pf lz o.2 fb1 rest).
  { intros o ->. destruct (C_dec_open s1) eqn:Ho; [by eauto|].
    pose proof (env_open s1 s1 (C_stream_w s1) (C_stream_h s1)
      (C_pixfmt s1 =? SREMFB_PIX_RGB565)
      (env_refl s1 (sv_display _ _ _ _ _ _ Hv) (sv_box _ _ _ _ _ _ Hv))) as He.
    destruct (v4l2dec_open s1 _ _ _) as [[] s2]; [|done]. cbn [fst snd] in *. intros _.
    destruct (view_env g pf lz s1 s2 fb rest Hgeo Hv He) as (fb1&Hl&Hv1).
    split; [done|]. exists fb1. split; [done|]. by apply view_dec_open. }
  match goal with |- context [let '(ok, s) := if C_dec_open s1 then ?a else ?b in _] =>
    set (o := if C_dec_open s1 then a else b) end.
  specialize (Hopen o eq_refl). clearbody o. destruct o as [[] s2]; [|done].
  cbn [fst snd negb] in *. destruct (Hopen eq_refl) as (Hdo&fb1&Hl1&Hv1).
  pose proof (env_feed s2 s2 nal
    (env_refl s2 (sv_display _ _ _ _ _ _ Hv1) (sv_box _ _ _ _ _ _ Hv1))) as He.
  destruct (v4l2dec_feed s2 nal) as [[] s3]; [|done]. cbn [fst snd] in *. intros _.
  destruct (view_env g pf lz s2 s3 fb1 rest Hgeo Hv1 He) as (fb2&Hl2&Hv2).
  exists fb2. split; [cbn; lia|]. split; [done|]. split; [done|]. intros _.
  destruct He as [E1 _ _ _]. unfold static in E1. injection E1 as. congruence.
Qed.
End run.

(** * The SBC client executes the stream: rects, turns and whole runs

    A RAW or LZ4 rect lands on the panel as [put_rect] on the framebuffer
    ([sbc_msg_rect]); one turn of the receive loop does what
    [paint] says for the message it takes ([sbc_turn]), and a run of turns
    takes the messages of the server one by one ([sbc_messages]). *)
Section stream.
Context `{SC : Screen}.
Context {Dev : Type} `{OL : OutputLaws Dev} `{X : X264} `{L : LZ4} `{!LZ4Laws L}.
Implicit Types s : sbc Dev.

(** ** The rows of a rect *)
Lemma emit_rows s x y w (f : Z → bytes) il :
  C_test_mode s = false →
  foldl (λ s i, emit_row s x (y + i) w (f i)) s il =
    s⟨C_out := write_rows (C_out s) (clip_rows s x y w f il)⟩.
Proof.
  revert s. induction il as [|i il IH]; intros s Ht; [by destruct s|].
  cbn [foldl clip_rows omap list_omap]. unfold emit_row at 2. rewrite Ht.
  unfold blit_stream_row. destruct (clip_row s x (y + i) w (f i)) as [r|] eqn:Hr.
  - rewrite IH by done. done.
  - by rewrite IH.
Qed.

Definition raw_row (rb : Z) (px : bytes) (i : Z) : bytes := slice (i * rb) rb px.

Lemma raw_rows_ok (n : nat) i s hd (px rest : bytes) :
  let rb := fh_w hd * C_bytespp s in
  C_test_mode s = false → 0 ≤ rb → 0 ≤ i →
  Z.of_nat (length px) = (i + Z.of_nat n) * rb →
  rx_data (C_rx s) = drop (Z.to_nat (i * rb)) px ++ rest →
  ∃ evs, rx_data evs = rest ∧
    raw_rows n i s hd =
      (true, s⟨C_rx := evs⟩⟨C_out := write_rows (C_out s)
         (clip_rows s (fh_x hd) (fh_y hd) (fh_w hd) (raw_row rb px) (seqZ i (Z.of_nat n)))⟩).
Proof.
  intros rb. subst rb. revert i s. induction n as [|n IH]; intros i s Ht Hrb Hi Hlen Hrx.
  { exists (C_rx s). rewrite seqZ_nil by lia. rewrite drop_ge in Hrx by lia.
    split; [done|]. by destruct s. }
  cbn [raw_rows]. set (rb := fh_w hd * C_bytespp s) in *.
  replace (sbc_bytespp s) with (C_bytespp s) by (unfold sbc_bytespp; by rewrite Ht).
  fold rb.
  assert (Hpos : 0 ≤ i * rb ∧ (i + Z.of_nat (S n)) * rb = i * rb + rb + Z.of_nat n * rb ∧
    0 ≤ Z.of_nat n * rb) by nia. destruct Hpos as (P1&P2&P3).
  assert (Hsl : length (raw_row rb px i) = Z.to_nat rb)
    by (unfold raw_row; apply length_slice; lia).
  assert (Hrx' : rx_data (C_rx s) =
    raw_row rb px i ++ (drop (Z.to_nat ((i + 1) * rb)) px ++ rest)).
  { rewrite Hrx, app_assoc. f_equal. unfold raw_row, slice.
    replace (Z.to_nat ((i + 1) * rb)) with (Z.to_nat (i * rb) + Z.to_nat rb)%nat by nia.
    by rewrite <- drop_drop, take_drop. }
  destruct (sbc_readn_payload s _ _ Hrx') as (evs&Hread&Hd).
  rewrite Hsl, Z2Nat.id in Hread by done. rewrite Hread.
  unfold emit_row. cbn [C_test_mode]. change (C_test_mode s⟨C_rx := evs⟩) with (C_test_mode s).
  rewrite Ht. rewrite (seqZ_cons i) by lia. cbn [clip_rows omap list_omap].
  unfold blit_stream_row.
  change (clip_row s⟨C_rx := evs⟩) with (clip_row s).
  replace (Z.pred (Z.of_nat (S n))) with (Z.of_nat n) by lia.
  replace (Z.succ i) with (i + 1) by lia.
  destruct (clip_row s (fh_x hd) (fh_y hd + i) (fh_w hd) (raw_row rb px i)) as [r|].
  - destruct (IH (i + 1) (s⟨C_rx := evs⟩⟨C_out ::=
      λ o, op_write_row o (r_dx r) (r_dy r) (r_src r) (r_n r)⟩)) as (evs'&He&Hrun);
      [done|done|lia|by replace (i + 1 + Z.of_nat n) with (i + Z.of_nat (S n)) by lia|exact Hd|].
    exists evs'. split; [done|]. rewrite Hrun. done.
  - destruct (IH (i + 1) (s⟨C_rx := evs⟩)) as (evs'&He&Hrun);
      [done|done|lia|by replace (i + 1 + Z.of_nat n) with (i + Z.of_nat (S n)) by lia|exact Hd|].
    exists evs'. split; [done|]. rewrite Hrun. done.
Qed.

Lemma lz4_rows_ok s hd (px : bytes) :
  C_test_mode s = false →
  lz4_rows s hd px =
    s⟨C_out := write_rows (C_out s) (clip_rows s (fh_x hd) (fh_y hd) (fh_w hd)
      (λ i, drop (Z.to_nat (i * (fh_w hd * C_bytespp s))) px) (seqZ 0 (fh_h hd)))⟩.
Proof.
  intros Ht. rewrite <- emit_rows by done. unfold lz4_rows, for_.
  assert (Hgen : ∀ il s0, C_test_mode s0 = false → C_bytespp s0 = C_bytespp s →
    foldl (λ s i, emit_row s (fh_x hd) (fh_y hd + i) (fh_w hd)
      (drop (Z.to_nat (i * (fh_w hd * sbc_bytespp s))) px)) s0 il =
    foldl (λ s1 i, emit_row s1 (fh_x hd) (fh_y hd + i) (fh_w hd)
      (drop (Z.to_nat (i * (fh_w hd * C_bytespp s))) px)) s0 il).
  { induction il as [|i il IH]; intros s0 H0 Hb; [done|]. cbn [foldl].
    unfold sbc_bytespp at 2. rewrite H0, Hb. apply IH.
    - unfold emit_row. rewrite H0. unfold blit_stream_row. by case_match.
    - unfold emit_row. rewrite H0. unfold blit_stream_row. by case_match. }
  by apply Hgen.
Qed.

(** What the rows of a rect hold, read one by one or decompressed. *)
Definition row_data (w h bpp : Z) (px : bytes) (f : Z → bytes) : Prop :=
  ∀ i, 0 ≤ i < h → w * bpp ≤ Z.of_nat (length (f i)) ∧
    ∀ j, 0 ≤ j < w * bpp → f i !! Z.to_nat j = px !! Z.to_nat (i * (w * bpp) + j).

Lemma raw_row_data w h bpp px :
  0 ≤ w * bpp → Z.of_nat (length px) = h * (w * bpp) →
  row_data w h bpp px (raw_row (w * bpp) px).
Proof.
  intros Hrb Hpx i Hi. unfold raw_row.
  assert (0 ≤ i * (w * bpp) ∧ i * (w * bpp) + w * bpp ≤ h * (w * bpp)) by nia.
  rewrite length_slice by lia. split; [lia|]. intros j Hj.
  rewrite lookup_slice by lia. f_equal. lia.
Qed.
Lemma lz4_row_data w h bpp px :
  0 ≤ w * bpp → Z.of_nat (length px) = h * (w * bpp) →
  row_data w h bpp px (λ i, drop (Z.to_nat (i * (w * bpp))) px).
Proof.
  intros Hrb Hpx i Hi.
  assert (0 ≤ i * (w * bpp) ∧ i * (w * bpp) + w * bpp ≤ h * (w * bpp)) by nia.
  rewrite length_drop. split; [lia|]. intros j Hj. rewrite lookup_drop. f_equal. lia.
Qed.

Lemma rect_rows_sent g pf lz s z r px rest :
  small_geom g → sent_ok g (bytespp_of pf) lz (SRect z r px) →
  C_test_mode s = false → C_bytespp s = bytespp_of pf →
  C_stream_w s = g_width g → C_stream_h s = g_height g →
  (lz = true → C_no_lz4 s = false) →
  rx_data (C_rx s) = sent_payload (SRect z r px) ++ rest →
  ∃ evs f, rx_data evs = rest ∧
    row_data (x2 r - x1 r) (y2 r - y1 r) (bytespp_of pf) px f ∧
    rect_rows s (sent_hdr (SRect z r px)) =
      (true, s⟨C_rx := evs⟩⟨C_out := write_rows (C_out s)
        (clip_rows s (x1 r) (y1 r) (x2 r - x1 r) f (seqZ 0 (y2 r - y1 r)))⟩).
Proof.
  intros Hg (Hr&Hpx&Hz) Ht Hb Hw Hh Hlz Hrx.
  destruct (rect_small g pf r Hg Hr) as [Hle Hmax]. pose proof Hr as Hr'.
  unfold rect_ok in Hr'. pose proof (bytespp_pos pf) as Hbp.
  assert (Hrb : 0 ≤ (x2 r - x1 r) * bytespp_of pf) by nia.
  assert (Hpx' : Z.of_nat (length px) =
    (y2 r - y1 r) * ((x2 r - x1 r) * bytespp_of pf)) by lia.
  assert (Hsb : sbc_bytespp s = bytespp_of pf) by (unfold sbc_bytespp; by rewrite Ht, Hb).
  unfold rect_rows, sbc_frame_cap. cbv zeta. unfold LZ4_MAX_INPUT_SIZE in *.
  destruct z; cbn [sent_hdr sent_payload] in *.
  - destruct (Hz eq_refl) as [Hl Hlen]. rewrite (Hlz Hl).
    change (fh_encoding (rect_hdr SREMFB_ENC_LZ4 _ _) =? SREMFB_ENC_RAW) with false.
    change (fh_encoding (rect_hdr SREMFB_ENC_LZ4 _ _) =? SREMFB_ENC_LZ4) with true.
    cbn [fh_payload_len fh_w fh_h rect_hdr negb andb].
    rewrite (proj2 (Z.eqb_neq _ _)) by lia. rewrite Hw, Hh, Hsb, <- Hpx.
    set (cap := g_width g * g_height g * bytespp_of pf) in *.
    rewrite (s32_small cap) by lia.
    rewrite LZ4_bound by (unfold LZ4_MAX_INPUT_SIZE; lia).
    assert (Hbd : 0 ≤ cap + cap / 255 + 16 < 2 ^ 64) by (split; dlia).
    unfold u64. rewrite Z.mod_small by done.
    assert (0 ≤ cap / 255) by (apply Z.div_pos; lia).
    rewrite !(proj2 (Z.ltb_ge _ _)) by lia. cbn [orb].
    destruct (sbc_readn_payload s _ _ Hrx) as (evs&Hread&Hd). rewrite Hread.
    rewrite (s32_small (Z.of_nat (length px))) by lia.
    rewrite (LZ4_roundtrip px (LZ4_compressBound (Z.of_nat (length px))) 1) by
      (done || (fold (lz4_block px); intros Hn; rewrite Hn in Hlen; simpl in Hlen; lia)).
    rewrite Z.eqb_refl. rewrite lz4_rows_ok by done.
    eexists evs, _. split; [exact Hd|]. split; [|done].
    rewrite <- Hb in Hrb, Hpx' |- *. cbn [fh_w rect_hdr]. by apply lz4_row_data.
  - change (fh_encoding (rect_hdr SREMFB_ENC_RAW _ _) =? SREMFB_ENC_RAW) with true.
    cbn [fh_payload_len fh_w fh_h rect_hdr]. rewrite Hsb, <- Hpx, Z.eqb_refl. cbn [negb].
    rewrite <- Hb in Hrb, Hpx'.
    destruct (raw_rows_ok (Z.to_nat (y2 r - y1 r)) 0 s
      (rect_hdr SREMFB_ENC_RAW r (Z.of_nat (length px))) px rest) as (evs&Hd&Hrun);
      cbn [fh_w rect_hdr]; try done; [lia|].
    rewrite Z2Nat.id in Hrun by lia.
    eexists evs, _. split; [exact Hd|]. split; [|exact Hrun].
    rewrite <- Hb. by apply raw_row_data.
Qed.

(** A rect of the stream, outside of an H.264 episode: one batch. *)
Lemma view_batch g pf lz s fb rest evs x y w h f px :
  geom_ok g → sbc_view g pf lz s fb rest →
  0 ≤ x → 0 < w → x + w ≤ g_width g → 0 ≤ y → 0 < h → y + h ≤ g_height g →
  Z.of_nat (length px) = w * h * bytespp_of pf →
  row_data w h (bytespp_of pf) px f →
  let full := (x =? 0) && (y =? 0) && (w =? g_width g) && (h =? g_height g) in
  sbc_view g pf lz
    s⟨C_rx := evs⟩⟨C_out := out_batch (C_out s) full (clip_rows s x y w f (seqZ 0 h))⟩
    (put_rect (g_width g * bytespp_of pf) (bytespp_of pf) x y w h px fb) (rx_data evs).
Proof.
  intros Hgeo [D B Sk Ww Wh Bp Lz Sh Ln Rx Wr Pa Ox Oy] Hx Hw HxW Hy Hh HyH Hpx Hf full.
  pose proof D as [D1 D2 D3 D4]. pose proof (display_bpp s D) as Hpb. rewrite Bp in Hpb.
  unfold geom_ok in Hgeo. pose proof (bytespp_pos pf) as Hbp.
  set (p := out_panel (C_out s)) in *.
  assert (Hpan : panel_ok p) by (by apply out_panel_ok).
  assert (Hin : Forall (row_in p) (clip_rows s x y w f (seqZ 0 h))).
  { apply clip_rows_in; [done|exact D2|lia|]. intros i Hi. rewrite Hpb. by apply Hf. }
  destruct (out_batch_ok (C_out s) full _ D4 Hin) as (O1&O2&base&Hb1&Hb2&Hb3).
  destruct (put_rect_spec (g_width g) (bytespp_of pf) x y w h px fb) as [Hplen _];
    try lia; [nia|].
  split; try done.
  - split; [done| |done|exact O1]. cbn. rewrite O2. exact D2.
  - cbn. rewrite O2, Hb3. fold p. rewrite <- Hpb.
    apply (shows_rect p s (g_width g) (g_height g) x y w h f px base fb); try done;
      try (by rewrite Hpb).
    + rewrite Hb2. by apply out_size.
    + destruct full eqn:Hfull; [right; unfold full in Hfull; lia|left].
      by rewrite Hb1.
  - by rewrite Hplen.
  - cbn. by rewrite O2.
Qed.

Lemma sbc_msg_rect g pf lz s z r px fb rest :
  small_geom g → sent_ok g (bytespp_of pf) lz (SRect z r px) →
  quiet_box s → sbc_view g pf lz s fb (sent_payload (SRect z r px) ++ rest) →
  handled_sbc g pf lz (SRect z r px) false (g_stop s) fb rest (frame_msg s (sent_hdr (SRect z r px))).
Proof.
  intros Hg Hok Hq Hv. pose proof Hok as (Hr&Hpx&_).
  pose proof Hv as [[D1 D2 D3 D4] B Sk Ww Wh Bp Lz Sh Ln Rx Wr Pa Ox Oy].
  set (hd := sent_hdr (SRect z r px)).
  assert (Hdisp : frame_msg s hd = sbc_rect s hd) by (subst hd; by destruct z).
  rewrite Hdisp. clear Hdisp.
  assert (Hc : fh_x hd = x1 r ∧ fh_y hd = y1 r ∧ fh_w hd = x2 r - x1 r ∧
    fh_h hd = y2 r - y1 r) by (subst hd; by destruct z).
  destruct Hc as (Ex&Ey&Ew&Eh). pose proof Hr as Hr'. unfold rect_ok in Hr'.
  unfold sbc_rect, covers_stream, out_begin. rewrite Ex, Ey, Ew, Eh, Ww, Wh, D1.
  destruct (_ || _) eqn:Hguard; [exfalso; lia|].
  set (full := _ && _). set (s1 := s⟨C_out ::= _⟩).
  destruct (rect_rows_sent g pf lz s1 z r px rest) as (evs&f&Hd&Hf&Hrun); try done.
  fold hd in Hrun. rewrite Hrun. cbn [negb].
  set (il := seqZ 0 (y2 r - y1 r)) in *.
  change (clip_rows s1) with (clip_rows s).
  unfold out_present. change (C_test_mode s1⟨_ := _⟩⟨_ := _⟩) with (C_test_mode s). rewrite D1.
  pose proof (view_batch g pf lz s fb _ evs (x1 r) (y1 r) (x2 r - x1 r) (y2 r - y1 r) f px
    (proj1 Hg) Hv ltac:(lia) ltac:(lia) ltac:(lia) ltac:(lia) ltac:(lia) ltac:(lia) Hpx Hf)
    as Hv'. cbv zeta in Hv'. fold full il in Hv'. rewrite Hd in Hv'.
  set (s2 := s⟨C_rx := evs⟩⟨C_out := _⟩) in Hv'.
  change (s1⟨C_rx := evs⟩⟨_ := _⟩⟨C_out ::= op_present⟩) with s2.
  assert (Hq2 : quiet_box s2) by exact Hq.
  apply (view_blank _ _ _ _ false) in Hv'. apply (quiet_blank _ false) in Hq2.
  destruct (stop_blank s2 false) as [Hst _]. change (g_stop s2) with (g_stop s) in Hst.
  assert (Ht : C_test_mode (set_blank s2 false) = false) by apply Hv'.
  rewrite Ht. clearbody s2. split; cbn [fst snd]; [|intros _; split; [done|congruence]].
  intros _. eexists. split; [done|]. by split.
Qed.

(** ** One turn *)
Definition is_rect (m : sent) : Prop := match m with SRect _ _ _ => True | _ => False end.

Lemma sbc_msg g pf lz s m open fb rest :
  small_geom g → sent_ok g (bytespp_of pf) lz m → (is_rect m → open = false ∧ g_stop s = false) →
  sbc_view g pf lz s fb (sent_payload m ++ rest) → box_cond open s →
  handled_sbc g pf lz m open (g_stop s) fb rest (frame_msg s (sent_hdr m)).
Proof.
  intros Hg Hok Hrect Hv Hb. destruct m as [t|e|z r px|idr w h nal].
  - by apply sbc_msg_ping.
  - by apply sbc_msg_ctl; [apply Hg|..].
  - destruct (Hrect I) as [-> Hs]. apply sbc_msg_rect; [done|done| |done]. by apply Hb.
  - by apply sbc_msg_au; [apply Hg|].
Qed.

(** What the threads and the decoder do before the message is read. *)
Definition drifted (g : sremfb_geom) (pf : Z) (lz open : bool) (fb rest : bytes) s' : Prop :=
  ∃ fb0, length fb0 = length fb ∧ (open = false → fb0 = fb) ∧
    sbc_view g pf lz s' fb0 rest ∧ box_cond open s'.

Lemma run_thread_drift g pf lz s open fb rest :
  geom_ok g → g_stop s = false → sbc_view g pf lz s fb rest → box_cond open s →
  drifted g pf lz open fb rest (run_thread s) ∧
  (open = false → g_stop (run_thread s) = false).
Proof.
  intros Hg Hs Hv [Hb1 Hb2].
  destruct open.
  - pose proof (env_run_thread s s (env_refl s (sv_display _ _ _ _ _ _ Hv)
      (sv_box _ _ _ _ _ _ Hv))) as He.
    destruct (view_env g pf lz s _ fb rest Hg Hv He) as (fb0&Hl&Hv0).
    split; [|done]. exists fb0. do 3 (split; [done|]). split; [done|]. intros _.
    destruct He as [E1 _ _ _]. unfold static in E1. injection E1 as. rewrite <- (Hb2 eq_refl). congruence.
  - destruct (run_thread_quiet s (Hb1 eq_refl Hs)) as (E1&E2&E3&E4&E5&E6).
    split; [|intros _; congruence]. exists fb. do 2 (split; [done|]). split; [|done].
    apply (view_same g pf lz s); try done.
    destruct (sv_box _ _ _ _ _ _ Hv) as [Hu|[Hu _]]; [left; congruence|right].
    split; [by rewrite E4|exact E3].
Qed.

(** The checks and the decoder's part of a turn. *)
Lemma turn_decoder g pf lz s open dec fb rest :
  geom_ok g → sbc_view g pf lz s fb rest → box_cond open s → (dec = true → open = true) →
  let r := if V_fd (C_dec s) && dec then v4l2dec_pump s else (true, s) in
  drifted g pf lz open fb rest r.2 ∧ (open = false → r = (true, s)).
Proof.
  intros Hg Hv Hb Hdec. destruct (V_fd (C_dec s) && dec) eqn:Hp; cbv zeta.
  - assert (Ho : open = true) by (apply Hdec; by destruct (V_fd (C_dec s)), dec).
    split; [|by rewrite Ho].
    pose proof (env_pump s s (env_refl s (sv_display _ _ _ _ _ _ Hv)
      (sv_box _ _ _ _ _ _ Hv))) as He.
    destruct (view_env g pf lz s _ fb rest Hg Hv He) as (fb0&Hl&Hv0).
    exists fb0. split; [done|]. rewrite Ho. do 2 (split; [done|]). split; [done|]. intros _.
    destruct Hb as [_ Hb2]. destruct He as [E1 _ _ _]. unfold static in E1. injection E1 as.
    rewrite <- (Hb2 Ho). congruence.
  - split; [|done]. exists fb. by do 3 (split; [done|]).
Qed.

Definition alive_turn (ev : poll_ev) (last : Z) : Prop :=
  pe_stop ev = false ∧ pe_panel ev ≠ 0 ∧ pe_live ev - last ≤ 6.

(** A turn up to the read of the message. *)
Definition turn_rest (l : floop Dev) (ev : poll_ev) (sock : bool) (pc : Z)
    (r : bool * sbc Dev) : bool * floop Dev :=
  let l := mk_floop (l_s l) pc (l_last_rx l) in
  let '(ok, s) := r in
  if negb ok then (false, l⟨l_s := sbc_broken s⟩)
  else if negb sock then (true, l⟨l_s := s⟩)
  else
    let '(r, s) := sbc_readn s 20 in
    match r with
    | None => (false, l⟨l_s := s⟩)
    | Some b =>
      let hd := frame_hdr_of b in
      if negb (fh_magic hd =? SREMFB_MAGIC) then (false, l⟨l_s := s⟩)
      else
        let '(go, s) := frame_msg s hd in
        (go, l⟨l_s := s⟩⟨l_last_rx := pe_rx ev⟩)
    end.

Lemma frame_turn_alive (l : floop Dev) ev sock dec :
  alive_turn ev (l_last_rx l) →
  ∃ pc, frame_turn l ev sock dec = turn_rest l ev sock pc
    (if V_fd (C_dec (l_s l)) && dec then v4l2dec_pump (l_s l) else (true, l_s l)).
Proof.
  intros (_&Hp&Hl). unfold frame_turn.
  destruct l as [s t0 last]. cbn [l_s l_last_rx] in *.
  rewrite (proj2 (Z.eqb_neq _ _) Hp).
  destruct (2 <=? _); cbn; rewrite (proj2 (Z.ltb_ge _ _) Hl), !andb_false_r;
    by eexists.
Qed.

Definition turned (g : sremfb_geom) (pf : Z) (lz : bool) (m : sent) (open : bool)
    (fb rest : bytes) (r : bool * sbc Dev) : Prop :=
  (r.1 = true → ∃ fb0 fb', length fb0 = length fb ∧ (open = false → fb0 = fb) ∧
     paint (g_width g) (bytespp_of pf) m fb0 fb' ∧
     sbc_view g pf lz r.2 fb' rest ∧ box_cond (opens m open) r.2) ∧
  (¬ is_h264 m → open = false → r.1 = true ∧ g_stop r.2 = false).

(** The header and the message, after the decoder's part. *)
Lemma turn_message g pf lz l ev pc s m open fb rest :
  small_geom g → sent_ok g (bytespp_of pf) lz m → (is_rect m → open = false) →
  sbc_view g pf lz s fb (sent_bytes m ++ rest) → box_cond open s →
  (open = false → g_stop s = false) →
  let r := turn_rest l ev true pc (true, s) in
  turned g pf lz m open fb rest (r.1, l_s r.2) ∧ (r.1 = true → l_last_rx r.2 = pe_rx ev).
Proof.
  intros Hg Hok Hrect Hv Hb Hstop. unfold turn_rest. cbn [negb].
  pose proof (sv_rx _ _ _ _ _ _ Hv) as Hrx.
  rewrite sent_bytes_split, <- app_assoc in Hrx.
  destruct (sbc_readn_payload s _ _ Hrx) as (evs&Hread&Hd).
  rewrite length_frame_hdr_bytes in Hread. change (Z.of_nat 20) with 20 in Hread.
  rewrite Hread. rewrite <- (app_nil_r (frame_hdr_bytes _)).
  rewrite frame_hdr_of_bytes by (by eapply sent_hdr_wf).
  assert (Hm : fh_magic (sent_hdr m) = SREMFB_MAGIC) by (by destruct m as [| |[]|]).
  rewrite Hm, Z.eqb_refl. cbn [negb].
  apply (view_rx _ _ _ _ _ _ evs _ Hd) in Hv. set (s1 := s⟨C_rx := evs⟩) in *.
  assert (Hs1 : g_stop s1 = g_stop s) by done.
  pose proof (sbc_msg g pf lz s1 m open fb rest Hg Hok
    ltac:(intros Hi; rewrite Hs1; auto) Hv Hb) as [Hh1 Hh2].
  destruct (frame_msg s1 (sent_hdr m)) as [go s2]. cbn [fst snd] in *.
  split; [|done]. split; cbn [fst snd].
  - intros Hgo. destruct (Hh1 Hgo) as (fb'&?&?&?). by exists fb, fb'.
  - intros Hn Ho. destruct (Hh2 Hn) as [Hgo Hst]. split; [exact Hgo|]. cbn. rewrite Hst. auto.
Qed.

Lemma sbc_turn g pf lz l ev dec m open fb rest :
  small_geom g → sent_ok g (bytespp_of pf) lz m → (is_rect m → open = false) →
  g_stop (l_s l) = false → alive_turn ev (l_last_rx l) →
  pe_res ev = PollOk true dec → (dec = true → open = true) →
  sbc_view g pf lz (l_s l) fb (sent_bytes m ++ rest) → box_cond open (l_s l) →
  let r := frame_step l ev in
  turned g pf lz m open fb rest (r.1, l_s r.2) ∧ (r.1 = true → l_last_rx r.2 = pe_rx ev).
Proof.
  intros Hg Hok Hrect Hs Ha Hres Hdec Hv Hb. pose proof Ha as (Hps&_&_).
  unfold frame_step. rewrite Hs, Hps, Hres. cbn [orb].
  destruct (run_thread_drift g pf lz (l_s l) open fb _ (proj1 Hg) Hs Hv Hb)
    as [(fb0&Hl0&He0&Hv0&Hb0) Hs0].
  set (l1 := l⟨l_s ::= run_thread⟩).
  destruct (frame_turn_alive l1 ev true dec Ha) as [pc ->].
  change (l_s l1) with (run_thread (l_s l)).
  destruct (turn_decoder g pf lz (run_thread (l_s l)) open dec fb0 _ (proj1 Hg) Hv0 Hb0 Hdec)
    as [(fb1&Hl1&He1&Hv1&Hb1) Hclosed]. cbv zeta in *.
  destruct (if V_fd (C_dec (run_thread (l_s l))) && dec then _ else _) as [ok s1].
  cbn [snd] in *. destruct ok; cbn match.
  2:{ unfold turn_rest. cbn. split; [|done]. split; [done|]. intros _ Ho.
      specialize (Hclosed Ho). by simplify_eq Hclosed. }
  assert (Hs1 : open = false → g_stop s1 = false).
  { intros Ho. specialize (Hclosed Ho). simplify_eq Hclosed. intros ->. auto. }
  destruct (turn_message g pf lz l1 ev pc s1 m open fb1 rest Hg Hok Hrect Hv1 Hb1 Hs1)
    as [[Ht1 Ht2] Hlast]. cbv zeta in *.
  split; [|exact Hlast]. split; [|exact Ht2]. intros Hgo.
  destruct (Ht1 Hgo) as (fb2&fb'&Hl2&He2&?&?&?). exists fb2, fb'.
  split; [congruence|]. split; [|done].
  intros Ho. rewrite He2, He1, He0; done.
Qed.

(** A turn without a message. *)
Lemma sbc_idle_turn g pf lz l ev open fb rest :
  geom_ok g → g_stop (l_s l) = false → alive_turn ev (l_last_rx l) →
  (pe_res ev = PollIntr ∨ ∃ dec, pe_res ev = PollOk false dec ∧ (dec = true → open = true)) →
  sbc_view g pf lz (l_s l) fb rest → box_cond open (l_s l) →
  let r := frame_step l ev in
  (r.1 = true → drifted g pf lz open fb rest (l_s r.2) ∧ l_last_rx r.2 = l_last_rx l) ∧
  (open = false → r.1 = true ∧ g_stop (l_s r.2) = false).
Proof.
  intros Hg Hs Ha Hres Hv Hb. pose proof Ha as (Hps&_&_).
  unfold frame_step. rewrite Hs, Hps. cbn [orb].
  destruct (run_thread_drift g pf lz (l_s l) open fb _ Hg Hs Hv Hb) as [Hd0 Hs0].
  destruct Hres as [->|(dec&->&Hdec)]; [by cbn; auto|].
  set (l1 := l⟨l_s ::= run_thread⟩).
  destruct (frame_turn_alive l1 ev false dec Ha) as [pc ->].
  change (l_s l1) with (run_thread (l_s l)).
  destruct Hd0 as (fb0&Hl0&He0&Hv0&Hb0).
  destruct (turn_decoder g pf lz (run_thread (l_s l)) open dec fb0 _ Hg Hv0 Hb0 Hdec)
    as [(fb1&Hl1&He1&Hv1&Hb1) Hclosed]. cbv zeta in *.
  destruct (if V_fd (C_dec (run_thread (l_s l))) && dec then _ else _) as [ok s1].
  cbn [snd] in *. unfold turn_rest. cbn [negb].
  destruct ok; cbn.
  - split.
    + intros _. split; [|done]. exists fb1. split; [congruence|]. split; [|done].
      intros Ho. rewrite He1, He0; done.
    + intros Ho. specialize (Hclosed Ho). simplify_eq Hclosed. intros ->. auto.
  - split; [done|]. intros Ho. specialize (Hclosed Ho). by simplify_eq Hclosed.
Qed.

(** ** A run of turns *)
(** The answers of poll(2) under which the server's messages are read: the
    connection and the panel stay, a turn with socket input finds the next
    message, and outside of an episode the decoder has nothing to say. *)
Fixpoint polls_ok (open : bool) (last : Z) (ss : list sent) (evs : list poll_ev) : Prop :=
  match evs with
  | [] => ss = []
  | ev :: evs =>
    alive_turn ev last ∧
    match pe_res ev with
    | PollIntr => polls_ok open last ss evs
    | PollFail => False
    | PollOk sock dec =>
      (dec = true → open = true) ∧
      if sock then
        match ss with
        | [] => False
        | m :: ss => polls_ok (opens m open) (pe_rx ev) ss evs
        end
      else polls_ok open last ss evs
    end
  end.

(** Inside an episode the picture before a message is any one. *)
Lemma paint_shift W bpp m open fb0 fb1 fb2 :
  paint W bpp m fb0 fb1 → length fb2 = length fb1 →
  (opens m open = false → fb2 = fb1) → (is_rect m → open = false) →
  ∃ fbx, length fbx = length fb0 ∧ (open = false → fbx = fb0) ∧ paint W bpp m fbx fb2.
Proof.
  destruct m as [t|e|z r px|idr w h nal]; cbn [paint opens is_rect].
  - intros -> Hl Hf _. by exists fb2.
  - destruct (e =? _).
    + intros Hl1 Hl2 Hf _. rewrite (Hf eq_refl). by exists fb0.
    + intros -> Hl Hf _. by exists fb2.
  - intros -> _ Hf Ho. rewrite (Hf (Ho I)). by exists fb0.
  - intros Hl1 Hl2 _ _. exists fb0. split_and!; [done|done|congruence].
Qed.

Lemma brackets_rect open m ss o : brackets open (m :: ss) o → is_rect m → open = false.
Proof. destruct m; cbn; tauto. Qed.
Lemma brackets_tail open m ss o : brackets open (m :: ss) o → brackets (opens m open) ss o.
Proof. destruct m; cbn; try done. by intros [-> ?]. Qed.

Lemma frame_step_stopped (l : floop Dev) ev : g_stop (l_s l) = true → (frame_step l ev).1 = false.
Proof. intros Hs. unfold frame_step. by rewrite Hs. Qed.

Lemma not_h264_opens m open : ¬ is_h264 m → opens m open = open.
Proof.
  destruct m as [t|e|z r px|idr w h nal]; cbn; try done.
  intros He. by rewrite (proj2 (Z.eqb_neq _ _) He).
Qed.

Lemma sbc_messages g pf lz evs ss l open fb rest :
  small_geom g → Forall (sent_ok g (bytespp_of pf) lz) ss → brackets open ss false →
  polls_ok open (l_last_rx l) ss evs →
  sbc_view g pf lz (l_s l) fb (mjoin (sent_bytes <$> ss) ++ rest) →
  box_cond open (l_s l) →
  let '(go, l') := frame_run evs l in
  (go = true → ∃ fb0 fb', length fb0 = length fb ∧ (open = false → fb0 = fb) ∧
     paint_all (g_width g) (bytespp_of pf) ss fb0 fb' ∧
     sbc_view g pf lz (l_s l') fb' rest ∧ (g_stop (l_s l') = false → quiet_box (l_s l'))) ∧
  (Forall (λ m, ¬ is_h264 m) ss → open = false → g_stop (l_s l) = false → go = true).
Proof.
  intros Hg. revert ss l open fb. induction evs as [|ev evs IH];
    intros ss l open fb Hss Hbr Hp Hv Hb; cbn [frame_run polls_ok] in *.
  { subst ss. cbn in *. split; [|done]. intros _.
    assert (Ho : open = false) by (destruct open; [by discriminate Hbr|done]).
    exists fb, fb. split; [done|]. split; [done|]. split; [done|]. split; [done|].
    by apply Hb. }
  destruct Hp as [Ha Hp].
  destruct (g_stop (l_s l)) eqn:Hs.
  { pose proof (frame_step_stopped l ev Hs) as Hf. destruct (frame_step l ev) as [go l1].
    cbn in Hf. subst go. split; [done|]. by intros. }
  assert (Hidle : polls_ok open (l_last_rx l) ss evs →
    (pe_res ev = PollIntr ∨ ∃ dec, pe_res ev = PollOk false dec ∧ (dec = true → open = true)) →
    let '(go, l') := let '(go, l) := frame_step l ev in
      if go : bool then frame_run evs l else (false, l) in
    (go = true → ∃ fb0 fb', length fb0 = length fb ∧ (open = false → fb0 = fb) ∧
       paint_all (g_width g) (bytespp_of pf) ss fb0 fb' ∧
       sbc_view g pf lz (l_s l') fb' rest ∧
       (g_stop (l_s l') = false → quiet_box (l_s l'))) ∧
    (Forall (λ m, ¬ is_h264 m) ss → open = false → false = false → go = true)).
  { intros Hp' Hres.
    destruct (sbc_idle_turn g pf lz l ev open fb _ (proj1 Hg) Hs Ha Hres Hv Hb) as [Ht1 Ht2].
    destruct (frame_step l ev) as [[] l1]; cbn [fst snd] in *.
    2:{ split; [done|]. intros _ Ho. by destruct (Ht2 Ho). }
    destruct (Ht1 eq_refl) as [(fb1&Hl1&He1&Hv1&Hb1) Hlast].
    rewrite <- Hlast in Hp'. specialize (IH ss l1 open fb1 Hss Hbr Hp' Hv1 Hb1).
    destruct (frame_run evs l1) as [go l']. destruct IH as [IH1 IH2]. split.
    - intros Hgo. destruct (IH1 Hgo) as (fb0&fb'&Hl0&He0&?). exists fb0, fb'.
      split; [congruence|]. split; [|done]. intros Ho. rewrite He0, He1; done.
    - intros Hn Ho _. apply IH2; [done|done|]. by apply Ht2. }
  destruct (pe_res ev) as [| |[] dec] eqn:Hres; [by apply Hidle; auto|done| |].
  2:{ destruct Hp as [Hdec Hp]. apply Hidle; eauto. }
  clear Hidle. destruct Hp as [Hdec Hp]. destruct ss as [|m ss]; [done|].
  apply Forall_cons in Hss as [Hm Hss].
  cbn [fmap list_fmap mjoin list_join] in Hv. rewrite <- app_assoc in Hv.
  pose proof (brackets_rect _ _ _ _ Hbr) as Hrect.
  destruct (sbc_turn g pf lz l ev dec m open fb _ Hg Hm Hrect Hs Ha Hres Hdec Hv Hb)
    as [[Ht1 Ht2] Hlast]. cbv zeta in *.
  destruct (frame_step l ev) as [[] l1]; cbn [fst snd] in *.
  2:{ split; [done|]. intros [Hn _]%Forall_cons Ho _. by destruct (Ht2 Hn Ho). }
  destruct (Ht1 eq_refl) as (fb0&fb1&Hl0&He0&Hpaint&Hv1&Hb1).
  rewrite <- (Hlast eq_refl) in Hp.
  specialize (IH ss l1 _ fb1 Hss (brackets_tail _ _ _ _ Hbr) Hp Hv1 Hb1).
  destruct (frame_run evs l1) as [go l']. destruct IH as [IH1 IH2]. split.
  - intros Hgo. destruct (IH1 Hgo) as (fb2&fb'&Hl2&He2&Hp2&Hrest).
    destruct (paint_shift _ _ m open fb0 fb1 fb2 Hpaint Hl2 He2 Hrect) as (fbx&Hlx&Hex&Hpx).
    exists fbx, fb'. split; [congruence|]. split; [intros Ho; rewrite Hex; auto|].
    split; [by exists fb2|done].
  - intros [Hn Hns]%Forall_cons Ho _. destruct (Ht2 Hn Ho) as [_ Hs1].
    apply IH2; [done| |done]. by rewrite not_h264_opens.
Qed.
End stream.
