(* ===== verification/SbcOwn.v ===== *)
(** * The capture buffers of the decoder have one owner each

    A capture buffer is the driver's, the main thread's, or lent to the
    blit thread (in the mailbox or being drawn).  [own h] says that nobody
    shares one, [h] being those in the main thread's hands, and that a lent
    buffer still holds the picture it held when the driver gave it;
    [C_torn] records a picture drawn from a buffer that did not, or that
    was not mapped; nothing is lent by a closed decoder.  Every
    function of the decoder keeps it, at every interleaving with the blit
    thread and the device. *)
From S2P Require Import Prelude Protocol Core ViewNet SbcOut Sbc V4l2dec SbcLoop SbcStep.

Definition opt_list {A} (o : option A) : list A := match o with Some a => [a] | None => [] end.

Section own.
Context {Dev : Type} `{Output Dev}.
Implicit Types s : sbc Dev.

Definition lease (f : v4l2dec_frame) : Z * bytes := (f_buf_index f, f_snap f).
Definition lent s : list (Z * bytes) := lease <$> opt_list (B_busy s) ++ opt_list (B_next s).

Record own (h : list (Z * bytes)) s : Prop := {
  ow_one : NoDup ((h ++ lent s).*1 ++ V_kq (C_dec s));
  ow_same : Forall (λ p, V_mem (C_dec s) p.1 = p.2) (h ++ lent s);
  ow_torn : C_torn s = false;
  ow_map : h ++ lent s ≠ [] → V_fd (C_dec s) = true }.

(** Only the mailbox and the driver's side matter. *)
Definition own_part s :=
  (B_busy s, B_next s, V_kq (C_dec s), V_mem (C_dec s), C_torn s, V_fd (C_dec s)).
Lemma own_eq h s s' : own_part s' = own_part s → own h s → own h s'.
Proof.
  unfold own_part. intros Hp [O1 O2 O3 O4]. injection Hp as E1 E2 E3 E4 E5 E6.
  assert (El : lent s' = lent s) by (unfold lent; congruence).
  split; [by rewrite El, E3|by rewrite El, E4|congruence|by rewrite El, E6].
Qed.

Lemma own_drop x h s : own (x :: h) s → own h s.
Proof. intros [[_ O1]%NoDup_cons [_ O2]%Forall_cons O3 O4]. split; auto. Qed.

Lemma own_queue i b h s : own ((i, b) :: h) s → own h (cap_qbuf_ans s i true).
Proof.
  intros [O1 [_ O2]%Forall_cons O3 Om]. split; try done; [|by intros _; apply Om]. revert O1. cbn.
  intros [O1 O4]%NoDup_cons. apply NoDup_app in O4 as (N1&N2&N3).
  rewrite not_elem_of_app in O1. destruct O1 as [O1 O1'].
  apply NoDup_app. split; [done|]. split.
  - intros j Hj. rewrite not_elem_of_cons. split; [|by apply N2]. intros ->. by apply O1.
  - by apply NoDup_cons.
Qed.

(** What drawing a frame leaves alone. *)
Lemma frame_own s f : own_part (frame_to_fb s f) = own_part (note_torn s f).
Proof. by apply frame_rest. Qed.

(** A frame whose buffer is in hand or lent is not torn. *)
Lemma own_frame h s f : lease f ∈ h ++ lent s → own h s → own h (frame_to_fb s f).
Proof.
  intros Hf [O1 O2 O3 O4]. apply (own_eq h (note_torn s f)); [apply frame_own|].
  split; [exact O1|exact O2| |exact O4]. cbn. rewrite O3, O4.
  2:{ intros E. rewrite E in Hf. by apply not_elem_of_nil in Hf. }
  rewrite Forall_forall in O2. rewrite bool_decide_eq_true_2; [done|]. exact (O2 _ Hf).
Qed.

Lemma lent_done s f : B_busy s = Some f → lent s = lease f :: lent s⟨B_busy := None⟩.
Proof. intros Hb. unfold lent. by rewrite Hb. Qed.

Lemma own_step h : stepwise (own h).
Proof.
  split.
  - intros s Ho. unfold thread_take. destruct (B_busy s) eqn:Hb; [done|].
    destruct (B_next s) as [f|] eqn:Hn; [|done]. destruct (g_stop s); [done|].
    destruct Ho as [O1 O2 O3 O4]. assert (El : lent s = [lease f]) by (unfold lent; by rewrite Hb, Hn).
    rewrite El in O1, O2, O4. by split.
  - intros s ok Ho. unfold thread_done. destruct (B_busy s) as [f|] eqn:Hb; [|done].
    pose proof (lent_done s f Hb) as El.
    assert (Hf : own h (frame_to_fb s f)).
    { apply own_frame; [|done]. rewrite El. set_solver. }
    pose proof (frame_own s f) as Hp. unfold own_part in Hp. injection Hp as E1 E2 E3 E4 _ E6.
    set (s1 := frame_to_fb s f) in *. clearbody s1.
    assert (Hn : own (lease f :: h) s1⟨B_busy := None⟩).
    { destruct Hf as [O1 O2 O3 O4].
      assert (El1 : h ++ lent s1 ≡ₚ (lease f :: h) ++ lent s1⟨B_busy := None⟩).
      { unfold lent in *. cbn. rewrite E1, E2. rewrite Hb. cbn.
        by rewrite <- Permutation_middle. }
      split; [by rewrite <- El1|by rewrite <- El1|done|intros _].
      apply O4. unfold lent. rewrite E1, Hb. by destruct h. }
    set (s2 := s1⟨B_busy := None⟩) in *.
    unfold release_ans. destruct (_ || _ || _); [by apply own_drop in Hn|].
    unfold cap_qbuf_ans. destruct ok; [|by apply own_drop in Hn].
    exact (own_queue _ _ h s2 Hn).
  - intros s i d [O1 O2 O3 O4]. unfold kernel_write. case_bool_decide as Hi; [|by split].
    split; [done| |done|done]. cbn. apply Forall_forall. intros p Hp.
    rewrite Forall_forall in O2. rewrite (proj2 (Z.eqb_neq _ _)); [by apply O2|].
    intros Hpi. apply NoDup_app in O1 as (_&O1&_). apply (O1 p.1); [|by rewrite Hpi].
    by apply list_elem_of_fmap_2.
  - intros s l [O1 O2 O3 O4]. by split.
  - intros s l [O1 O2 O3 O4]. by split.
Qed.

(** ** The decoder before its capture side is up *)
Definition resting s : Prop := lent s = [] ∧ V_kq (C_dec s) = [].
(** Between two calls of the main thread: the decoder is open, or closed. *)
Definition opened s : Prop := V_fd (C_dec s) = true.
Definition fine s : Prop :=
  (own [] s ∧ opened s) ∧ (V_cap_ready (C_dec s) = true ∨ resting s).
Definition closed s : Prop := (own [] s ∧ V_fd (C_dec s) = false) ∧ resting s.
(** While setup_capture() queues the buffers below [i]. *)
Definition setting (i : Z) s : Prop :=
  lent s = [] ∧ NoDup (V_kq (C_dec s)) ∧ Forall (λ j, 0 ≤ j < i) (V_kq (C_dec s)) ∧
  C_torn s = false ∧ opened s.

Lemma lent_nil s : lent s = [] → B_busy s = None ∧ B_next s = None.
Proof. unfold lent. by destruct (B_busy s), (B_next s). Qed.

(** With nothing lent the thread does nothing. *)
Lemma quiet_take s : lent s = [] → thread_take s = s.
Proof. intros [Hb Hn]%lent_nil. unfold thread_take. by rewrite Hb, Hn. Qed.
Lemma quiet_done s ok : lent s = [] → thread_done s ok = s.
Proof. intros [Hb Hn]%lent_nil. unfold thread_done. by rewrite Hb. Qed.

Lemma setting_step i : stepwise (setting i).
Proof.
  split.
  - intros s Hs. by rewrite quiet_take by apply Hs.
  - intros s ok Hs. by rewrite quiet_done by apply Hs.
  - intros s j d Hs. unfold kernel_write. by case_bool_decide.
  - by intros s l Hs.
  - by intros s l Hs.
Qed.
Lemma resting_step : stepwise resting.
Proof.
  split.
  - intros s Hs. by rewrite quiet_take by apply Hs.
  - intros s ok Hs. by rewrite quiet_done by apply Hs.
  - intros s j d Hs. unfold kernel_write. by case_bool_decide.
  - by intros s l Hs.
  - by intros s l Hs.
Qed.

(** The steps of the environment leave the main thread's fields alone. *)
Lemma dec_step (g : v4l2dec → bool) b :
  (∀ v k m, g (v⟨V_kq := k⟩⟨V_mem := m⟩) = g v) → stepwise (λ s, g (C_dec s) = b).
Proof.
  intros Hg.
  assert (Hk : ∀ s i ok, g (C_dec (release_ans s i ok)) = g (C_dec s)).
  { intros s i ok. unfold release_ans, cap_qbuf_ans. case_match; [done|]. destruct ok; [|done].
    exact (Hg (C_dec s) (i :: V_kq (C_dec s)) (V_mem (C_dec s))). }
  split.
  - intros s Hs. unfold thread_take. by repeat case_match.
  - intros s ok Hs. unfold thread_done. destruct (B_busy s) as [f|]; [|done].
    pose proof (frame_box s f) as Hf. unfold box in Hf. injection Hf as _ _ _ Hd _ _ _.
    cbn. rewrite Hk. by rewrite Hd.
  - intros s i d Hs. unfold kernel_write. case_match; [|done].
    etrans; [|exact Hs].
    exact (Hg (C_dec s) (V_kq (C_dec s)) (λ j, if j =? i then d else V_mem (C_dec s) j)).
  - by intros s l Hs.
  - by intros s l Hs.
Qed.
Lemma ready_step : stepwise (λ s, V_cap_ready (C_dec s) = true).
Proof. by apply dec_step. Qed.
Lemma opened_step : stepwise opened.
Proof. by apply (dec_step V_fd true). Qed.

Lemma fine_step : stepwise fine.
Proof.
  apply stepwise_and; [apply stepwise_and; [apply own_step|apply opened_step]|].
  apply stepwise_or; [apply ready_step|apply resting_step].
Qed.
Lemma closed_step : stepwise closed.
Proof.
  apply stepwise_and; [|apply resting_step].
  apply stepwise_and; [apply own_step|by apply (dec_step V_fd false)].
Qed.
Lemma setting_own i s : setting i s → own [] s.
Proof. intros (Hl&Hn&_&Ht&_). split; rewrite ?Hl; cbn; [done|constructor|done|done]. Qed.
Lemma resting_setting s : own [] s → opened s → resting s → setting 0 s.
Proof.
  intros Ho Hf [Hl Hk]. split; [done|]. rewrite Hk. split; [constructor|].
  split; [constructor|]. by split; [apply Ho|].
Qed.
Lemma setting_queue i s : 0 ≤ i → setting i s → setting (i + 1) (cap_qbuf_ans s i true).
Proof.
  intros Hi (Hl&Hn&Hk&Ht&Hd). split; [done|]. cbn. split; [|split; [|done]].
  - apply NoDup_cons. split; [|done]. intros Hin. rewrite Forall_forall in Hk.
    specialize (Hk i Hin). lia.
  - constructor; [lia|]. eapply Forall_impl; [exact Hk|]. cbn. lia.
Qed.
Lemma setting_more i j s : i ≤ j → setting i s → setting j s.
Proof.
  intros Hij (Hl&Hn&Hk&Ht&Hd). split; [done|]. split; [done|]. split; [|done].
  eapply Forall_impl; [exact Hk|]. cbn. lia.
Qed.

(** Updates of the decoder's own fields. *)
Lemma own_dec h s f :
  (∀ v, V_kq (f v) = V_kq v ∧ V_mem (f v) = V_mem v ∧ V_fd (f v) = V_fd v) →
  own h s → own h (dec_upd s f).
Proof.
  intros Hf. destruct (Hf (C_dec s)) as (E1&E2&E3). apply own_eq. unfold own_part. cbn.
  by rewrite E1, E2, E3.
Qed.
Lemma own_mild h s f : mild f → own h s → own h (dec_upd s f).
Proof. intros Hf. apply own_dec. intros v. destruct (Hf v) as (?&?&?&_). done. Qed.
Lemma setting_asks i : asks (setting i).
Proof.
  split; [apply setting_step|]. intros s f Hf (Hl&Hn&Hk&Ht&Hd).
  destruct (Hf (C_dec s)) as (E1&E2&E3&_).
  split; [done|]. unfold opened in *. cbn. by rewrite E1, E3.
Qed.
Lemma fine_asks : asks fine.
Proof.
  split; [apply fine_step|]. intros s f Hf [[Ho Hd] Hs].
  pose proof (own_mild [] s f Hf Ho) as Ho'. destruct (Hf (C_dec s)) as (E1&E2&E3&E4).
  split; [split; [done|unfold opened in *; cbn; congruence]|].
  destruct Hs as [Hs|[Hl Hk]]; [left|right; split; [done|]]; cbn; congruence.
Qed.
(** An open decoder that has not been asked for buffers yet. *)
Definition blank s : Prop := (own [] s ∧ opened s) ∧ resting s.
Lemma blank_asks : asks blank.
Proof.
  split.
  - apply stepwise_and; [apply stepwise_and; [apply own_step|apply opened_step]|apply resting_step].
  - intros s f Hf [[Ho Hd] [Hl Hk]].
    pose proof (own_mild [] s f Hf Ho) as Ho'. destruct (Hf (C_dec s)) as (E1&E2&E3&E4).
    split; [split; [done|unfold opened in *; cbn; congruence]|]. split; [done|]. cbn. congruence.
Qed.
End own.

(** * The decoder keeps the ownership of its capture buffers

    Call by call through v4l2dec.c and the receive loop: [fine] holds
    between two calls as long as they succeed; after a failure [own []]
    still does, and the connection is closed. *)
Section torn.
Context {Dev : Type} `{Output Dev} `{L : LZ4}.
Implicit Types s : sbc Dev.

(** What a call of the decoder leaves: [fine] when it succeeds. *)
Definition owned s : Prop := own [] s ∧ opened s.
Definition good (r : bool * sbc Dev) : Prop := owned r.2 ∧ (r.1 = true → fine r.2).

Lemma fine_own s : fine s → owned s.
Proof. by intros []. Qed.
Lemma good_fine b s : fine s → good (b, s).
Proof. intros Hf. split; [by apply fine_own|by intros _]. Qed.
Lemma good_fail s : owned s → good (false, s).
Proof. intros Ho. by split. Qed.

Lemma fine_xioctl s : fine s → fine (xioctl s).2.
Proof. apply step_xioctl, fine_step. Qed.
Lemma fine_poll s : fine s → fine (dev_poll s).2.
Proof. apply step_poll, fine_step. Qed.
Lemma fine_mild s f : mild f → fine s → fine (dec_upd s f).
Proof. apply as_mild, fine_asks. Qed.
Lemma fine_ok_ioctl s : fine s → fine (ok_ioctl s).2.
Proof. apply ask_ok_ioctl, fine_asks. Qed.
Lemma fine_recycle s : fine s → fine (recycle_output s).
Proof. apply ask_recycle, fine_asks. Qed.
Lemma setting_xioctl i s : setting i s → setting i (xioctl s).2.
Proof. apply step_xioctl, setting_step. Qed.
Lemma setting_mild i s f : mild f → setting i s → setting i (dec_upd s f).
Proof. apply as_mild, setting_asks. Qed.
Lemma setting_ok_ioctl i s : setting i s → setting i (ok_ioctl s).2.
Proof. apply ask_ok_ioctl, setting_asks. Qed.
Hint Resolve fine_own good_fine good_fail fine_xioctl fine_mild : sbc_step.

(** ** Set-up *)
Lemma setting_cap_qbuf i s : 0 ≤ i → setting i s → setting (i + 1) (cap_qbuf s i).2.
Proof.
  intros Hi Hs. unfold cap_qbuf. pose proof (setting_xioctl i s Hs) as H1.
  destruct (xioctl s) as [[] s1]; cbn [snd] in *;
    first [by apply setting_queue|by apply (setting_more i); [lia|]].
Qed.

Lemma setting_cap_buffers n i s :
  0 ≤ i → setting i s → setting (i + Z.of_nat n) (cap_buffers n i s).2.
Proof.
  revert i s. induction n as [|n IH]; intros i s Hi Hs; cbn [cap_buffers].
  { by apply (setting_more i); [lia|]. }
  pose proof (setting_xioctl i s Hs) as H1. destruct (xioctl s) as [a s1]. cbn [snd] in *.
  assert (Hmore : ∀ j s2, j ≤ i + 1 → setting j s2 → setting (i + Z.of_nat (S n)) s2)
    by (intros j s2 Hj; apply setting_more; lia).
  destruct a; cbn [snd]; try (by apply (Hmore i); [lia|]). cbv zeta.
  set (s2 := dec_upd s1 _).
  assert (H2 : setting i s2) by (by apply setting_mild; [intros ?|]).
  destruct (negb map_ok); cbn [snd]; [by apply (Hmore i); [lia|]|].
  pose proof (setting_cap_qbuf i s2 Hi H2) as H3. destruct (cap_qbuf s2 i) as [ok s3].
  cbn [snd] in *. destruct ok; [|by apply (Hmore (i + 1)); [lia|]].
  replace (i + Z.of_nat (S n)) with (i + 1 + Z.of_nat n) by lia. apply IH; [lia|done].
Qed.

Lemma good_setting i s : setting i s → good (false, s).
Proof. intros Hs. apply good_fail. split; [by eapply setting_own|apply Hs]. Qed.
Hint Resolve good_setting : sbc_step.

Lemma good_setup_fmt s f : setting 0 s → good (setup_capture_fmt s f).
Proof.
  intros Hs. unfold setup_capture_fmt.
  pose proof (setting_xioctl 0 s Hs) as H1. destruct (xioctl s) as [a s1]. cbn [snd] in H1.
  destruct a; eauto with sbc_step. cbv zeta.
  set (s2 := dec_upd s1 _). assert (H2 : setting 0 s2) by (by apply setting_mild; [intros ?|]).
  pose proof (setting_xioctl 0 s2 H2) as H3. destruct (xioctl s2) as [a s3]. cbn [snd] in H3.
  set (s4 := dec_upd s3 _).
  assert (H4 : setting 0 s4)
    by (apply setting_mild; [|done]; intros v; by repeat case_match).
  pose proof (setting_xioctl 0 s4 H4) as H5. destruct (xioctl s4) as [a' s5]. cbn [snd] in H5.
  set (want := want_buffers _). clearbody want.
  pose proof (setting_xioctl 0 s5 H5) as H6. destruct (xioctl s5) as [b s6]. cbn [snd] in H6.
  destruct b; eauto with sbc_step. set (count := want + delta).
  destruct (count =? 0); eauto with sbc_step.
  set (s7 := dec_upd s6 _). assert (H7 : setting 0 s7) by (by apply setting_mild; [intros ?|]).
  pose proof (setting_cap_buffers (Z.to_nat count) 0 s7 ltac:(lia) H7) as H8.
  destruct (cap_buffers _ _ _) as [ok s8]. cbn [snd] in H8.
  destruct ok; cbn [negb]; eauto with sbc_step.
  pose proof (setting_ok_ioctl _ s8 H8) as H9. destruct (ok_ioctl s8) as [ok s9]. cbn [snd] in H9.
  destruct ok; eauto with sbc_step. apply good_fine.
  split; [|by left]. split; [|apply H9].
  apply own_dec; [by intros ?|]. by eapply setting_own.
Qed.

Lemma good_setup_capture s : setting 0 s → good (setup_capture s).
Proof.
  intros Hs. unfold setup_capture.
  pose proof (ask_try_ladder _ (setting_asks 0) (ladder (V_want_rgb565 (C_dec s))) s Hs) as H1.
  destruct (try_ladder _ s) as [[f|] s1]; cbn [snd] in H1; eauto with sbc_step.
  by apply good_setup_fmt.
Qed.

(** ** Steady state *)
Lemma fine_setting s : V_cap_ready (C_dec s) = false → fine s → setting 0 s.
Proof. intros Hr [[Ho Hd] [Hc|Hs]]; [congruence|]. by apply resting_setting. Qed.

Lemma good_events n s : fine s → good (handle_events_ n s).
Proof.
  revert s. induction n as [|n IH]; intros s Hs; cbn [handle_events_]; [eauto with sbc_step|].
  pose proof (fine_xioctl s Hs) as H1. destruct (xioctl s) as [a s1]. cbn [snd] in H1.
  destruct a; eauto with sbc_step. destruct source_change; [|by apply IH].
  destruct (V_cap_ready (C_dec s1)) eqn:Hr; [eauto with sbc_step|]. cbv zeta.
  set (s2 := dec_upd s1 _). assert (H2 : fine s2) by (by apply fine_mild; [intros ?|]).
  destruct (good_setup_capture s2) as [G1 G2]; [by apply fine_setting|].
  destruct (setup_capture s2) as [[] s3]; cbn [fst snd] in *; [|eauto with sbc_step].
  apply IH, G2. done.
Qed.
Lemma good_handle_events s : fine s → good (handle_events s).
Proof. apply good_events. Qed.

(** With the capture side up. *)
Definition up (h : list (Z * bytes)) s : Prop :=
  own h s ∧ V_cap_ready (C_dec s) = true ∧ opened s.
Lemma up_step h : stepwise (up h).
Proof.
  apply stepwise_and; [apply own_step|]. apply stepwise_and; [apply ready_step|apply opened_step].
Qed.
Lemma up_xioctl h s : up h s → up h (xioctl s).2.
Proof. apply step_xioctl, up_step. Qed.
Lemma up_drop x h s : up (x :: h) s → up h s.
Proof. intros [Ho Hr]. split; [by eapply own_drop|done]. Qed.
Lemma up_fine s : up [] s → fine s.
Proof. intros (Ho&Hr&Hd). split; [done|by left]. Qed.

Lemma up_qbuf i b h s : up ((i, b) :: h) s → up h (cap_qbuf s i).2.
Proof.
  intros Hs. unfold cap_qbuf. pose proof (up_xioctl _ s Hs) as H1.
  destruct (xioctl s) as [[] s1]; cbn [snd] in *; try (by eapply up_drop).
  destruct H1 as [Ho Hr]. split; [by eapply own_queue|done].
Qed.

(** The buffer in hand of the loop of drain_capture(). *)
Definition in_hand (have : option Z) (h : list (Z * bytes)) : Prop :=
  match have with Some i => ∃ b, h = [(i, b)] | None => h = [] end.

Lemma up_dqbuf h s :
  up h s → let '(a, s') := dqbuf_capture s in
  match a with
  | VDq i _ _ => up h s' ∧
      ((∃ b, up ((i, b) :: h) s') ∨ (V_cap_nbufs (C_dec s') <=? i) = true)
  | _ => up h s'
  end.
Proof.
  intros Hs. unfold dqbuf_capture. pose proof (up_xioctl h s Hs) as H1.
  destruct (xioctl s) as [a s1]. cbn [snd] in H1. destruct a; try done.
  case_bool_decide as Hi.
  - assert (Hin : up ((idx, V_mem (C_dec s1) idx) :: h)
      (dec_upd s1 (λ v, v⟨V_kq ::= filter (λ i, i ≠ idx)⟩))).
    { destruct H1 as [[O1 O2 O3 O4] [Hr Hop]]. split; [|by split].
      split; [|by constructor|done|by intros _]. cbn.
      apply NoDup_app in O1 as (N1&N2&N3). apply NoDup_cons. split.
      - rewrite not_elem_of_app. split; [|by intros [Hf _]%list_elem_of_filter].
        intros Hh. by apply (N2 idx).
      - apply NoDup_app. split; [done|]. split; [|by apply NoDup_filter].
        intros j Hj [_ Hk]%list_elem_of_filter. by apply (N2 j). }
    split; [by eapply up_drop|left; by eexists].
  - destruct (_ <=? idx) eqn:Hn; [|done]. split; [done|by right].
Qed.

Definition drained_ok (r : option (option Z) * sbc Dev) : Prop :=
  match r.1 with
  | Some have => ∃ h, in_hand have h ∧ up h r.2
  | None => up [] r.2
  end.

Lemma up_hand have h s : in_hand have h → up h s → up [] s.
Proof. destruct have; [intros [b ->] Hs; by eapply up_drop|by intros ->]. Qed.

Lemma up_dec h s f : mild f → up h s → up h (dec_upd s f).
Proof.
  intros Hf (Ho&Hc&Hd). split; [by apply own_mild|]. destruct (Hf (C_dec s)) as (_&_&E&E').
  unfold opened in *. cbn. by rewrite E, E'.
Qed.

Lemma drained_loop n s have h :
  in_hand have h → up h s → drained_ok (drain_loop n s have).
Proof.
  revert s have h. induction n as [|n IH]; intros s have h Hh Hs; cbn [drain_loop].
  { by exists h. }
  pose proof (up_dqbuf h s Hs) as Hq. destruct (dqbuf_capture s) as [a s1].
  destruct a as [| | | | |epipe| | | | | | | | |idx used lst|]; try (by exists h).
  { destruct epipe; [|by exists h]. exists h. split; [done|].
    by apply up_dec; [intros ?|]. }
  destruct Hq as [Hq [[b Hb]|Hbad]].
  2:{ rewrite Hbad. unfold drained_ok. cbn. destruct have as [i|].
      - destruct Hh as [b ->]. by eapply up_qbuf.
      - cbn in Hh. by subst h. }
  destruct (_ <=? idx).
  { unfold drained_ok. cbn. destruct have as [i|]; [|cbn in Hh; by subst h].
    destruct Hh as [b' ->]. by eapply up_qbuf. }
  set (s2 := if lst then _ else s1).
  assert (H2 : up ((idx, b) :: h) s2).
  { subst s2. destruct lst; [|done]. by apply up_dec; [intros ?|]. }
  clearbody s2. destruct (used =? 0).
  - pose proof (up_qbuf idx b h s2 H2) as H3. destruct (cap_qbuf s2 idx) as [[] s3].
    + by apply (IH s3 have h).
    + unfold drained_ok. cbn in *. by eapply up_hand.
  - destruct have as [i|].
    + destruct Hh as [b' ->].
      assert (H2' : up [(i, b'); (idx, b)] s2).
      { destruct H2 as [[O1 O2 O3 O4] Hr]. split; [|done]. cbn in *.
        split; [| |done|intros _; by apply O4].
        - revert O1. by rewrite <- (Permutation_swap idx i).
        - revert O2. by rewrite <- (Permutation_swap (idx, b) (i, b')). }
      pose proof (up_qbuf i b' _ s2 H2') as H3. destruct (cap_qbuf s2 i) as [[] s3].
      * apply (IH s3 (Some idx) [(idx, b)]); [by exists b|done].
      * unfold drained_ok. cbn in *. by eapply up_drop.
    + cbn in Hh. subst h. apply (IH s2 (Some idx) [(idx, b)]); [by exists b|done].
Qed.

Lemma fine_own_up s : V_cap_ready (C_dec s) = true → fine s → up [] s.
Proof. intros Hr [[Ho Hd] _]. by split. Qed.

(** Handing a frame to the display. *)
Lemma up_emit s f :
  up [lease f] s →
  let '(kept, s') := v4l2dec_emit s f in
  if kept then up [] s' else up [lease f] s'.
Proof.
  intros Hs. unfold v4l2dec_emit.
  set (s1 := if B_up s <? 0 then _ else s).
  assert (H1 : up [lease f] s1).
  { subst s1. case_match; [|done]. destruct Hs as [Ho Hr]. split; [|done]. by apply (own_eq _ s). }
  clearbody s1. destruct (B_up s1 =? 0).
  { destruct H1 as [Ho Hr]. split; [apply own_frame; [by left|done]|].
    pose proof (frame_box s1 f) as Hf. unfold box in Hf. injection Hf as _ _ _ Hd _ _ _.
    unfold opened. by rewrite Hd. }
  assert (Hput : ∀ s2, B_next s2 = None → up [lease f] s2 → up [] s2⟨B_next := Some f⟩).
  { intros s2 Hn [[O1 O2 O3 O4] Hr]. split; [|done].
    assert (El : [lease f] ++ lent s2 ≡ₚ [] ++ lent s2⟨B_next := Some f⟩).
    { unfold lent. cbn. rewrite Hn. destruct (B_busy s2); cbn; [|done]. apply Permutation_swap. }
    split; [by rewrite <- El|by rewrite <- El|done|intros _; by apply O4]. }
  destruct (B_next s1) as [g|] eqn:Hn; [|by apply Hput].
  set (s2 := s1⟨B_next := None⟩).
  assert (H2 : up [lease g; lease f] s2).
  { destruct H1 as [[O1 O2 O3 O4] Hr]. split; [|done].
    assert (El : [lease f] ++ lent s1 ≡ₚ [lease g; lease f] ++ lent s2).
    { unfold lent. cbn. rewrite Hn. destruct (B_busy s1); cbn; [|apply Permutation_swap].
      etrans; [|apply Permutation_swap]. f_equiv. apply Permutation_swap. }
    split; [by rewrite <- El|by rewrite <- El|done|intros _; by apply O4]. }
  assert (Hq : stepwise (λ s, B_next s = None)).
  { split; try done.
    - intros s0 H0. unfold thread_take. rewrite H0. by destruct (B_busy s0).
    - intros s0 ok H0. unfold thread_done. destruct (B_busy s0) as [g0|]; [|done].
      pose proof (frame_box s0 g0) as Hf. unfold box in Hf. injection Hf as _ E _ _ _ _ _.
      unfold release_ans, cap_qbuf_ans. repeat case_match; cbn; congruence.
    - intros s0 i d H0. unfold kernel_write. by case_match. }
  unfold v4l2dec_release. case_match; [apply Hput; [done|by eapply up_drop]|].
  apply Hput; [|by eapply up_qbuf].
  unfold cap_qbuf. pose proof (step_xioctl _ s2 Hq eq_refl) as H3.
  by destruct (xioctl s2) as [[] s3].
Qed.

Lemma fine_drain_capture s : fine s → fine (drain_capture s).2.
Proof.
  intros Hs. unfold drain_capture.
  destruct (V_cap_ready (C_dec s)) eqn:Hr; cbn [negb snd]; [|done].
  pose proof (drained_loop (S (length (C_script s))) s None [] eq_refl
    (fine_own_up s Hr Hs)) as Hd.
  destruct (drain_loop _ s None) as [[[i|]|] s1]; unfold drained_ok in Hd; cbn [fst snd] in Hd.
  - destruct Hd as (h&[b ->]&Hu).
    set (f := frame_of (C_dec s1) i).
    assert (Hl : lease f = (i, b)).
    { destruct Hu as [[_ [Hb _]%Forall_cons _] _]. cbn in Hb. unfold lease. cbn. by rewrite Hb. }
    pose proof (up_emit s1 f) as He. rewrite Hl in He. specialize (He Hu).
    destruct (v4l2dec_emit s1 f) as [[] s2]; cbn [snd]; apply up_fine; [done|].
    by eapply up_qbuf.
  - destruct Hd as (h&->&Hu). by apply up_fine.
  - by apply up_fine.
Qed.

Lemma good_pump s : fine s → good (v4l2dec_pump s).
Proof.
  intros Hs. unfold v4l2dec_pump. destruct (negb _); [eauto with sbc_step|].
  destruct (good_handle_events s Hs) as [G1 G2].
  destruct (handle_events s) as [[] s1]; cbn [fst snd negb] in *; [|eauto with sbc_step].
  pose proof (fine_drain_capture _ (fine_recycle s1 (G2 eq_refl))) as Hf.
  destruct (drain_capture _) as [b s2]. by apply good_fine.
Qed.

Ltac good_use G :=
  let G1 := fresh "G" in let G2 := fresh "G" in
  pose proof G as [G1 G2];
  match type of G1 with owned ?r.2 => destruct r as [[] ?]; cbn [fst snd negb] in * end;
  [specialize (G2 eq_refl)|by apply good_fail].

Lemma good_wait_slot n s :
  fine s → owned (wait_slot n s).2 ∧ ((wait_slot n s).1 ≠ None → fine (wait_slot n s).2).
Proof.
  revert s. induction n as [|n IH]; intros s Hs; cbn [wait_slot]; [by split; [apply fine_own|]|].
  destruct (g_stop s); [by split; [apply fine_own|]|].
  pose proof (fine_recycle s Hs) as H1. set (s1 := recycle_output s) in *.
  destruct (free_slot _); [by split; [apply fine_own|]|].
  pose proof (fine_poll s1 H1) as H2. destruct (dev_poll s1) as [[] s2]; cbn [snd negb] in *;
    [|by split; [apply fine_own|]].
  destruct (good_pump s2 H2) as [G1 G2]. destruct (v4l2dec_pump s2) as [[] s3]; cbn in *; [|done].
  by apply IH, G2.
Qed.

Lemma good_wait_capture n s : fine s → good (wait_capture n s).
Proof.
  revert s. induction n as [|n IH]; intros s Hs; cbn [wait_capture];
    (destruct (_ || _); [by apply good_fine|]); [by apply good_fine|].
  pose proof (fine_poll s Hs) as H2. destruct (dev_poll s) as [[] s2]; cbn [snd negb] in *;
    [|by apply good_fine].
  good_use (good_handle_events s2 H2). by apply IH.
Qed.
Lemma good_wait_last n s : fine s → good (wait_last n s).
Proof.
  revert s. induction n as [|n IH]; intros s Hs; cbn [wait_last];
    (destruct (_ || _); [by apply good_fine|]); [by apply good_fine|].
  pose proof (fine_poll s Hs) as H2. destruct (dev_poll s) as [[] s2]; cbn [snd negb] in *;
    [|by apply good_fine].
  good_use (good_pump s2 H2). by apply IH.
Qed.

Lemma good_feed s au : fine s → good (v4l2dec_feed s au).
Proof.
  intros Hs. unfold v4l2dec_feed. generalize 500%nat. intros n. generalize 400%nat. intros m.
  destruct (_ || _); [by apply good_fine|]. destruct (_ <? _); [by apply good_fine|].
  destruct (good_wait_slot n s Hs) as [G1 G2].
  destruct (wait_slot n s) as [[[i|]|] s1]; cbn [fst snd] in *;
    [|by apply good_fail|by apply good_fail].
  specialize (G2 ltac:(done)). cbv zeta.
  set (s2 := dec_upd s1 _). assert (H2 : fine s2) by (by apply fine_mild; [intros ?|]).
  pose proof (fine_ok_ioctl s2 H2) as H3. destruct (ok_ioctl s2) as [[] s3]; cbn [snd negb] in *.
  2:{ apply good_fine, fine_mild; [by intros ?|done]. }
  set (s4 := dec_upd s3 _). assert (H4 : fine s4) by (by apply fine_mild; [intros ?|]).
  good_use (good_wait_capture m s4 H4).
  destruct (V_cap_ready _); cbn [negb]; [by apply good_pump|by apply good_fine].
Qed.

Lemma good_drain s : fine s → good (v4l2dec_drain s).
Proof.
  intros Hs. unfold v4l2dec_drain. generalize 500%nat. intros n.
  destruct (_ || _); [by apply good_fine|].
  pose proof (fine_ok_ioctl s Hs) as H1. destruct (ok_ioctl s) as [[] s1]; cbn [snd negb] in *;
    [|by apply good_fine].
  set (s2 := dec_upd s1 _). assert (H2 : fine s2) by (by apply fine_mild; [intros ?|]).
  good_use (good_wait_last n s2 H2).
  destruct (V_saw_last _); cbn [negb]; [|by apply good_fine].
  match goal with |- context [ok_ioctl (dec_upd ?x ?f)] => set (s4 := dec_upd x f) end.
  assert (H4 : fine s4) by (by apply fine_mild; [intros ?|]).
  pose proof (fine_ok_ioctl s4 H4) as H5. destruct (ok_ioctl s4) as [b s5]. by apply good_fine.
Qed.

(** ** Open and close *)
Lemma own_ioctl h s : own h s → own h (xioctl s).2.
Proof. apply step_xioctl, own_step. Qed.
Lemma resting_ioctl s : resting s → resting (xioctl s).2.
Proof. apply step_xioctl, resting_step. Qed.

(** Closing tears the picture that is being drawn, and no other; with an
    empty mailbox it leaves a closed decoder. *)
Lemma close_torn s : own [] s →
  C_torn (v4l2dec_close s) = false ∨ is_Some (B_busy (v4l2dec_close s)).
Proof.
  intros Hs. unfold v4l2dec_close. destruct (negb _); [left; apply Hs|].
  pose proof (own_ioctl _ s Hs) as H1. destruct (xioctl s) as [a s1]. cbn [snd] in H1.
  pose proof (own_ioctl _ s1 H1) as H2. destruct (xioctl s1) as [a2 s2]. cbn [snd] in H2.
  cbn. rewrite (ow_torn _ _ H2). destruct (B_busy s2); [right; by eexists|by left].
Qed.
Lemma nothing_lent_step : stepwise (λ s, lent s = []).
Proof.
  split.
  - intros s Hs. by rewrite quiet_take.
  - intros s ok Hs. by rewrite quiet_done.
  - intros s j d Hs. unfold kernel_write. by case_bool_decide.
  - by intros s l Hs.
  - by intros s l Hs.
Qed.
Lemma close_closed s :
  own [] s → opened s → lent s = [] → closed (v4l2dec_close s).
Proof.
  intros Ho Hf Hs. unfold v4l2dec_close. rewrite Hf. cbn [negb].
  pose proof (step_xioctl _ s nothing_lent_step Hs) as H1. pose proof (own_ioctl _ s Ho) as Ho1.
  destruct (xioctl s) as [a s1]. cbn [snd] in H1, Ho1.
  pose proof (step_xioctl _ s1 nothing_lent_step H1) as H2. pose proof (own_ioctl _ s1 Ho1) as Ho2.
  destruct (xioctl s1) as [a2 s2]. cbn [snd] in H2, Ho2. destruct (lent_nil s2 H2) as [Eb _].
  split; [|by split]. split; [|done]. set (s3 := dec_upd _ _).
  assert (El : lent s3 = []) by exact H2. assert (Ek : V_kq (C_dec s3) = []) by done.
  assert (Et : C_torn s3 = false) by (cbn; by rewrite Eb, (ow_torn _ _ Ho2)).
  clearbody s3. split; rewrite ?El, ?Ek; try done; constructor.
Qed.

Definition settled s : Prop := fine s ∨ closed s.
Lemma settled_own s : settled s → own [] s.
Proof. intros [[[Hs _] _]|[[Hs _] _]]; done. Qed.
Lemma settled_step : stepwise settled.
Proof. apply stepwise_or; [apply fine_step|apply closed_step]. Qed.

(** The decoder opens, or ends closed. *)
Lemma open_settled s w h r :
  settled s → let '(ok, s') := v4l2dec_open s w h r in if ok then fine s' else closed s'.
Proof.
  intros Hs. unfold v4l2dec_open.
  destruct (V_fd (C_dec s)) eqn:Hd.
  { destruct Hs as [Hs|[[_ Hs] _]]; [done|congruence]. }
  destruct Hs as [[[_ Hs] _]|Hc]; [unfold opened in Hs; congruence|].
  destruct (negb (V_node _)); [done|]. destruct Hc as [[Ho _] Hr].
  set (s0 := dec_upd s v4_reset).
  assert (H0 : closed s0).
  { destruct Hr as [Hl Hk]. split; [|by split]. split; [|done].
    split; [|apply Ho|apply Ho|]; change (lent s0) with (lent s); rewrite Hl; [constructor|done]. }
  assert (H1 : closed (ok_ioctl s0).2).
  { unfold ok_ioctl. pose proof (step_xioctl _ s0 closed_step H0) as H1.
    by destruct (xioctl s0). }
  destruct (ok_ioctl s0) as [[] s1]; cbn [snd negb] in *; [|done].
  set (s2 := dec_upd s1 _).
  assert (H2 : blank s2).
  { destruct H1 as [[[O1 O2 O3 O4] _] [Hl Hk]]. split; [|by split]. split; [|done]. by split. }
  assert (Hclose : ∀ s, blank s → closed (v4l2dec_close s))
    by (intros s' [[? ?] [? _]]; by apply close_closed).
  pose proof (ask_ok_ioctl _ blank_asks s2 H2) as H3.
  destruct (ok_ioctl s2) as [[] s3]; cbn [snd negb] in *; [|by apply Hclose].
  pose proof (step_xioctl _ s3 (as_step _ blank_asks) H3) as H4.
  destruct (xioctl s3) as [a s4]. cbn [snd] in H4.
  pose proof (ask_setup_output _ blank_asks s4 H4) as H5.
  destruct (setup_output s4) as [[] s5]; cbn [snd] in *; [|by apply Hclose].
  destruct H5 as [? ?]. split; [done|by right].
Qed.
End torn.

(** * No picture from a buffer the decoder has taken back

    The ownership of SbcOwn.v through the receive loop and the connect
    loop: [steady] between two turns, [ending] when the loop was left,
    [at_rest] between two connections. *)
Section safe.
Context {Dev : Type} `{Output Dev} `{L : LZ4}.
Implicit Types s : sbc Dev.

(** ** What v4l2dec.c leaves alone *)
Lemma emit_rest (Q : sbc Dev → Prop) s f :
  stepwise Q → (∀ s g, Q s → Q (dec_upd s g)) → (∀ s, Q s → Q (frame_to_fb s f)) →
  (∀ s, B_up s < 0 → Q s → Q s⟨B_up := if C_thread_ok s then 1 else 0⟩) →
  (∀ s o, B_up s ≠ 0 → 0 ≤ B_up s → Q s → Q s⟨B_next := o⟩) →
  Q s → Q (v4l2dec_emit s f).2.
Proof.
  intros Hst Hd Hf Hu Hn Hq. unfold v4l2dec_emit.
  set (s1 := if B_up s <? 0 then _ else s).
  assert (H1 : Q s1 ∧ 0 ≤ B_up s1).
  { subst s1. destruct (B_up s <? 0) eqn:Hb; [|split; [done|lia]].
    split; [apply Hu; [lia|done]|]. cbn. case_match; lia. }
  destruct H1 as [H1 Hp]. clearbody s1. destruct (B_up s1 =? 0) eqn:H0; cbn [snd]; [by apply Hf|].
  assert (H2 : ∀ s2, B_up s2 = B_up s1 → Q s2 → Q s2⟨B_next := Some f⟩)
    by (intros s2 Hs2; apply Hn; rewrite Hs2; lia).
  destruct (B_next s1) as [g|]; [|by apply H2].
  assert (H3 : (λ s, Q s ∧ B_up s = B_up s1)
    (v4l2dec_release s1⟨B_next := None⟩ (f_buf_index g))).
  { apply step_release.
    - apply stepwise_and; [done|apply stepwise_up].
    - intros s2 k [? ?]. split; [by apply Hd|done].
    - split; [apply Hn; [lia|done|done]|done]. }
  destruct H3 as [H3 E3]. by apply H2.
Qed.

Lemma dec_open_keeps b : decwise (λ s, C_dec_open s = b).
Proof.
  assert (Hf : ∀ s f, C_dec_open s = b → C_dec_open (frame_to_fb s f) = b).
  { intros s f Hs. pose proof (frame_box s f) as E. unfold box in E.
    injection E as _ _ _ _ _ _ E. congruence. }
  assert (Hst : stepwise (λ s, C_dec_open s = b)).
  { split; try done.
    - intros s Hs. unfold thread_take. by repeat case_match.
    - intros s ok Hs. unfold thread_done, release_ans, cap_qbuf_ans, dec_upd.
      destruct (B_busy s) as [f|]; [|done]. specialize (Hf s f Hs). by repeat case_match.
    - intros s i d Hs. unfold kernel_write. by case_match. }
  split; [done|done|done|]. intros s f Hs. by apply (emit_rest (λ s, C_dec_open s = b)); auto.
Qed.

Lemma mailbox_keeps : decwise (mailbox_ok (Dev := Dev)).
Proof.
  assert (Hf : ∀ s f, mailbox_ok s → mailbox_ok (frame_to_fb s f)).
  { intros s f Hs. pose proof (frame_box s f) as E. unfold box in E.
    injection E as E1 E2 E3 _ _ _ _. unfold mailbox_ok in *. by rewrite E1, E2, E3. }
  assert (Hst : stepwise (mailbox_ok (Dev := Dev))).
  { split; try done.
    - intros s Hs. unfold thread_take. destruct (B_busy s) eqn:Hb; [done|].
      destruct (B_next s) as [f|] eqn:Hn; [|done]. case_match; [done|]. left.
      destruct Hs as [Hs|(_&Hs&_)]; [exact Hs|congruence].
    - intros s ok Hs. unfold thread_done. destruct (B_busy s) as [f|] eqn:Hb; [|done]. left.
      destruct Hs as [Hs|(_&_&Hs)]; [|congruence].
      pose proof (frame_box s f) as E. unfold box in E. injection E as E _ _ _ _ _ _.
      unfold release_ans, cap_qbuf_ans, dec_upd. repeat case_match; cbn; congruence.
    - intros s i d Hs. unfold kernel_write. by case_match. }
  split; [done|done|done|]. intros s f Hs. apply emit_rest; auto; clear s Hs.
  - intros s Hu [Hs|(_&Hs)]; [lia|]. cbn. case_match; [by left|right]. by split; [right|].
  - intros s o Hu Hp [Hs|([?|?]&_)]; [by left|lia|lia].
Qed.

(** ** One connection *)
Definition steady s : Prop :=
  settled s ∧ mailbox_ok s ∧ (C_dec_open s = false → closed s).
Definition ending s : Prop :=
  (owned s ∨ closed s) ∧ mailbox_ok s ∧ (C_dec_open s = false → closed s).
Definition kept (r : bool * sbc Dev) : Prop := ending r.2 ∧ (r.1 = true → steady r.2).

Lemma steady_ending s : steady s → ending s.
Proof. intros ([Hs|Hs]&Hm&Hc); (split; [|by split]); [left; by apply fine_own|by right]. Qed.
Lemma kept_steady b s : steady s → kept (b, s).
Proof. intros Hs. split; [by apply steady_ending|by intros _]. Qed.
Lemma kept_end s : ending s → kept (false, s).
Proof. intros Hs. by split. Qed.

(** The rest of the state does not matter. *)
Definition conn_part s := (own_part s, C_dec s, C_dec_open s, B_up s).
Lemma conn_closed s s' : conn_part s' = conn_part s → closed s → closed s'.
Proof.
  unfold conn_part. intros Hp [[Ho Hd] [Hl Hk]]. injection Hp as E1 E2 E3 E4 E5 Ed E6 E7 E8.
  split; split; [by apply (own_eq [] s); [unfold own_part; congruence|]|congruence| |congruence].
  unfold lent in *. congruence.
Qed.
Lemma conn_steady s s' : conn_part s' = conn_part s → steady s → steady s'.
Proof.
  intros Hp (Hs&Hm&Hc). pose proof (conn_closed s s' Hp) as Hcl. pose proof Hp as Hp'.
  unfold conn_part in Hp'. injection Hp' as E1 E2 E3 E4 E5 Ed E6 E7 E8.
  split; [|split; [unfold mailbox_ok in *; by rewrite E1, E2, E8|rewrite E7; auto]].
  destruct Hs as [[[Ho Hd] Hr]|Hs]; [left|right; by apply Hcl].
  assert (Ho' : own [] s') by (apply (own_eq [] s); [unfold own_part; congruence|done]).
  unfold fine, opened, resting, lent in *. rewrite E1, E2, E6. by split_and!.
Qed.

Lemma steady_step : stepwise steady.
Proof.
  destruct mailbox_keeps as [Hm _ _]. 
  assert (Hc : stepwise (λ s, C_dec_open s = true ∨ closed s)).
  { apply stepwise_or; [apply dec_open_keeps|apply closed_step]. }
  assert (Ha : stepwise (λ s, settled s ∧ mailbox_ok s ∧ (C_dec_open s = true ∨ closed s))).
  { apply stepwise_and; [apply settled_step|]. by apply stepwise_and. }
  assert (Heq : ∀ s, steady s ↔ settled s ∧ mailbox_ok s ∧ (C_dec_open s = true ∨ closed s)).
  { intros s. unfold steady. destruct (C_dec_open s); intuition congruence. }
  destruct Ha as [T D K S G]. split; intros; rewrite Heq in *; auto.
Qed.

(** A call of the decoder. *)
Lemma kept_call (f : sbc Dev → bool * sbc Dev) s :
  (∀ Q, decwise Q → Q s → Q (f s).2) → (fine s → good (f s)) →
  (V_fd (C_dec s) = false → (f s).2 = s) → steady s → kept (f s).
Proof.
  intros Hk Hg Hc Hst. pose proof Hst as ([Hs|Hs]&Hm&Ho).
  - assert (Hop : C_dec_open s = true).
    { destruct (C_dec_open s); [done|]. destruct (Ho eq_refl) as [[_ Hd] _].
      destruct Hs as [[_ Hs] _]. unfold opened in Hs. congruence. }
    pose proof (Hk _ (dec_open_keeps true) Hop) as Hop'.
    pose proof (Hk _ mailbox_keeps Hm) as Hm'.
    destruct (Hg Hs) as [G1 G2]. split; [split; [by left|]|intros Hok; split; [left; auto|]];
      (split; [done|]); intros; congruence.
  - destruct (f s) as [b s'] eqn:E. cbn in Hc. rewrite Hc by apply Hs. by apply kept_steady.
Qed.

Lemma kept_pump s : steady s → kept (v4l2dec_pump s).
Proof.
  apply kept_call; [|apply good_pump|].
  - intros Q HQ. by apply keep_pump.
  - intros Hd. unfold v4l2dec_pump. by rewrite Hd.
Qed.
Lemma kept_feed s au : steady s → kept (v4l2dec_feed s au).
Proof.
  apply (kept_call (λ s, v4l2dec_feed s au)); [|apply good_feed|].
  - intros Q HQ. by apply keep_feed.
  - intros Hd. unfold v4l2dec_feed. by rewrite Hd.
Qed.
Lemma kept_drain s : steady s → kept (v4l2dec_drain s).
Proof.
  apply kept_call; [|apply good_drain|].
  - intros Q HQ. by apply keep_drain.
  - intros Hd. unfold v4l2dec_drain. by rewrite Hd.
Qed.

(** ** Messages *)
Lemma conn_blank s on : conn_part (set_blank s on) = conn_part s.
Proof. unfold set_blank. by repeat case_match. Qed.
Lemma conn_row s x y w row : conn_part (emit_row s x y w row) = conn_part s.
Proof. unfold emit_row, blit_stream_row. by repeat case_match. Qed.
Lemma conn_readn s n : conn_part (sbc_readn s n).2 = conn_part s.
Proof. unfold sbc_readn. by destruct (readn_ev _ _). Qed.
Lemma conn_writen s b : conn_part (sbc_writen s b).2 = conn_part s.
Proof. unfold sbc_writen. by destruct (writen_evs _ _ _) as [[? ?] ?]. Qed.

Lemma conn_raw_rows n i s hd : conn_part (raw_rows n i s hd).2 = conn_part s.
Proof.
  revert i s. induction n as [|n IH]; intros i s; cbn [raw_rows]; [done|].
  pose proof (conn_readn s (fh_w hd * sbc_bytespp s)) as E.
  destruct (sbc_readn _ _) as [[b|] s1]; cbn [snd] in *; [|done]. by rewrite IH, conn_row.
Qed.
Lemma conn_lz4_rows s hd px : conn_part (lz4_rows s hd px) = conn_part s.
Proof. unfold lz4_rows. apply for_keeps. intros. apply conn_row. Qed.

Lemma conn_rect s hd : conn_part (sbc_rect s hd).2 = conn_part s.
Proof.
  unfold sbc_rect. destruct (_ || _); [done|].
  assert (Ho : ∀ s full, conn_part (out_begin s full) = conn_part s)
    by (intros; unfold out_begin; by case_match).
  assert (Hp : ∀ s, conn_part (out_present s) = conn_part s)
    by (intros; unfold out_present; by case_match).
  set (s0 := out_begin s _). assert (E0 : conn_part s0 = conn_part s) by apply Ho. clearbody s0.
  assert (Hr : conn_part (rect_rows s0 hd).2 = conn_part s0).
  { unfold rect_rows. cbv zeta. destruct (fh_encoding hd =? SREMFB_ENC_RAW).
    { case_match; [done|]. apply conn_raw_rows. }
    destruct (_ && _); [|done]. destruct (_ || _); [done|].
    pose proof (conn_readn s0 (fh_payload_len hd)) as E.
    destruct (sbc_readn _ _) as [[b|] s1]; cbn [snd] in *; [|done].
    destruct (LZ4_decompress_safe _ _) as [d|]; [|done].
    case_match; cbn [snd]; [|done]. by rewrite conn_lz4_rows. }
  destruct (rect_rows s0 hd) as [[] s1]; cbn [snd negb] in *; [|congruence].
  transitivity (conn_part (set_blank (out_present s1) false)); [by case_match|].
  by rewrite conn_blank, Hp, Hr.
Qed.

Lemma conn_ping s : conn_part (sbc_ping s).2 = conn_part s.
Proof.
  unfold sbc_ping. pose proof (conn_readn s 8) as E.
  destruct (sbc_readn _ _) as [[b|] s1]; cbn [snd] in *; [|done]. by rewrite conn_writen.
Qed.

Lemma kept_conn b s s' : conn_part s' = conn_part s → steady s → kept (b, s').
Proof. intros Hp Hs. apply kept_steady. by apply (conn_steady s). Qed.

Lemma ending_conn s s' : conn_part s' = conn_part s → ending s → ending s'.
Proof.
  intros Hp (Hs&Hm&Hc). pose proof (conn_closed s s' Hp) as Hcl.
  unfold conn_part in Hp. injection Hp as E1 E2 E3 E4 E5 Ed E6 E7 E8.
  split; [|split; [unfold mailbox_ok in *; by rewrite E1, E2, E8|rewrite E7; auto]].
  destruct Hs as [[Ho Hd]|Hs]; [left|right; by apply Hcl].
  split; [|unfold opened in *; congruence].
  apply (own_eq [] s); [unfold own_part; congruence|done].
Qed.

Lemma kept_au s au : steady s → kept (handle_h264_au s au).
Proof.
  intros Hs. unfold handle_h264_au. destruct (C_test_sink s).
  { destruct (C_sink_ok s); [by apply (kept_conn _ s)|by apply kept_steady]. }
  assert (Hfeed : ∀ s1, steady s1 → kept (let '(ok, s) := v4l2dec_feed s1 au in
    if ok : bool then (true, s) else (false, sbc_broken s))).
  { intros s1 H1. pose proof (kept_feed s1 au H1) as [K1 K2].
    destruct (v4l2dec_feed s1 au) as [[] s2]; cbn [fst snd] in *; [by split|].
    apply kept_end. by apply (ending_conn s2). }
  destruct (C_dec_open s) eqn:Ho; cbn [negb]; [by apply Hfeed|].
  destruct Hs as (_&Hm&Hc). specialize (Hc Ho).
  pose proof (open_settled s (C_stream_w s) (C_stream_h s) (C_pixfmt s =? SREMFB_PIX_RGB565)
    (or_intror Hc)) as Hop.
  pose proof (keep_open _ mailbox_keeps s (C_stream_w s) (C_stream_h s)
    (C_pixfmt s =? SREMFB_PIX_RGB565) Hm) as Hm'.
  destruct (v4l2dec_open _ _ _ _) as [[] s1]; cbn [snd negb] in *.
  - destruct Hop as [[[O1 O2 O3 O4] Hd] Hr]. apply Hfeed. split; [|by split]. left.
    split; [|exact Hr]. split; [by split|exact Hd].
  - apply kept_end, (ending_conn s1); [done|]. split; [by right|]. by split.
Qed.

Lemma kept_msg s hd : steady s → kept (frame_msg s hd).
Proof.
  intros Hs. unfold frame_msg. cbv zeta.
  destruct (_ || _).
  { case_match; [by apply kept_steady|]. apply (kept_conn _ s); [apply conn_blank|done]. }
  destruct (_ =? SREMFB_ENC_PING).
  { case_match; [by apply kept_steady|]. pose proof (conn_ping s) as E.
    destruct (sbc_ping s) as [b s1]. by apply (kept_conn _ s). }
  destruct (_ =? SREMFB_ENC_H264).
  { destruct (_ || _); [by apply kept_steady|].
    pose proof (conn_readn s (fh_payload_len hd)) as E.
    destruct (sbc_readn _ _) as [[b|] s1]; cbn [snd] in *; [|by apply (kept_conn _ s)].
    apply kept_au. by apply (conn_steady s). }
  destruct (_ =? SREMFB_ENC_H264_EOS).
  { case_match; [by apply kept_steady|]. unfold sbc_eos.
    destruct (C_test_sink s); [by apply kept_steady|].
    destruct (C_dec_open s); [|by apply kept_steady].
    pose proof (kept_drain s Hs) as [K1 K2].
    destruct (v4l2dec_drain s) as [[] s1]; cbn [fst snd] in *.
    - apply kept_steady, step_sync; [apply steady_step|by apply K2].
    - apply kept_end. by apply (ending_conn s1). }
  pose proof (conn_rect s hd) as E. destruct (sbc_rect s hd) as [b s1]. by apply (kept_conn _ s).
Qed.

(** ** Turns *)
Definition kept_l (r : bool * floop Dev) : Prop :=
  ending (l_s r.2) ∧ (r.1 = true → steady (l_s r.2)).

Lemma kept_turn l ev sock dec : steady (l_s l) → kept_l (frame_turn l ev sock dec).
Proof.
  intros Hs. unfold frame_turn.
  set (l1 := if 2 <=? _ then _ else l).
  assert (E1 : l_s l1 = l_s l) by (subst l1; by case_match). rewrite E1.
  assert (Hstay : ∀ b (l2 : floop Dev), steady (l_s l2) → kept_l (b, l2))
    by (intros b l2 H2; split; [by apply steady_ending|done]).
  destruct (_ && _); [apply Hstay; by rewrite E1|].
  destruct (_ && _); [apply Hstay; by rewrite E1|].
  assert (Hp : kept (if V_fd (C_dec (l_s l)) && dec then v4l2dec_pump (l_s l) else (true, l_s l)))
    by (case_match; [by apply kept_pump|by apply kept_steady]).
  destruct (if V_fd _ && dec then _ else _) as [[] s1]; destruct Hp as [K1 K2]; cbn [fst snd negb] in *.
  2:{ split; [|done]. by apply (ending_conn s1). }
  specialize (K2 eq_refl). destruct sock; cbn [negb]; [|by apply Hstay].
  pose proof (conn_readn s1 20) as E.
  destruct (sbc_readn s1 20) as [[b|] s2]; cbn [snd] in E;
    [|apply Hstay; by apply (conn_steady s1)]. cbv zeta.
  case_match; [apply Hstay; by apply (conn_steady s1)|].
  pose proof (kept_msg s2 (frame_hdr_of b) (conn_steady s1 s2 E K2)) as [M1 M2].
  by destruct (frame_msg s2 _) as [go s3].
Qed.

Lemma kept_run evs l : steady (l_s l) → kept_l (frame_run evs l).
Proof.
  revert l. induction evs as [|ev evs IH]; intros l Hs; cbn [frame_run].
  { split; [by apply steady_ending|done]. }
  assert (Hstep : kept_l (frame_step l ev)).
  { unfold frame_step. destruct (_ || _).
    { split; [|done]. apply steady_ending. by apply (conn_steady (l_s l)). }
    assert (Hr : steady (run_thread (l_s l))) by (apply step_run; [apply steady_step|done]).
    destruct (pe_res ev); [| |by apply kept_turn];
      (split; [by apply steady_ending|done]). }
  destruct (frame_step l ev) as [[] l1]; destruct Hstep as [K1 K2]; cbn [fst snd] in *; [|by split].
  by apply IH, K2.
Qed.

(** ** Between connections *)
Definition at_rest s : Prop := closed s ∧ mailbox_ok s ∧ C_dec_open s = false.

Lemma stop_steps : stepwise (λ s, g_stop s = true).
Proof.
  split; try done.
  - intros s Hs. unfold thread_take. by repeat case_match.
  - intros s ok Hs. unfold thread_done, release_ans, cap_qbuf_ans, dec_upd.
    destruct (B_busy s) as [f|]; [|done]. pose proof (frame_box s f) as E.
    unfold box in E. injection E as _ _ _ _ _ E _. repeat case_match; cbn; congruence.
  - intros s i d Hs. unfold kernel_write. by case_match.
Qed.

(** Only the picture being drawn when a signal stops the client is torn. *)
Definition torn_at_stop s : Prop := g_stop s = true ∧ is_Some (B_busy s).
Definition safe s : Prop :=
  (C_torn s = false ∨ torn_at_stop s) ∧ (g_stop s = false → C_torn s = false ∧ at_rest s).

Lemma close_stop s : g_stop s = true → g_stop (v4l2dec_close s) = true.
Proof.
  intros E. unfold v4l2dec_close. destruct (negb _); [done|].
  pose proof (step_xioctl _ s stop_steps E) as E1. destruct (xioctl s) as [a s2]. cbn in E1.
  pose proof (step_xioctl _ s2 stop_steps E1) as E2. destruct (xioctl s2) as [a' s3]. exact E2.
Qed.

Lemma end_rest s : ending s → safe (frame_end s).
Proof.
  intros (Hs&Hm&Hc). unfold frame_end. destruct (C_dec_open s) eqn:Ho.
  2:{ specialize (Hc eq_refl). assert (Ht : C_torn s = false) by apply Hc. by split; [left|]. }
  assert (Hst : stepwise (λ s : sbc Dev, owned s ∨ closed s)).
  { apply stepwise_or; [|apply closed_step].
    apply stepwise_and; [apply own_step|apply opened_step]. }
  pose proof (step_sync _ s Hst Hs) as Hown. cbv beta in Hown. clear Hst.
  pose proof (step_sync _ s (dw_step _ mailbox_keeps) Hm) as Hm1.
  pose proof (blit_sync_quiet s Hm) as Hquiet.
  generalize dependent (blit_sync s). intros s1 Hown Hm1 Hquiet.
  assert (Ho1 : own [] s1) by (by destruct Hown as [[? _]|[[? _] _]]).
  assert (Hgo : g_stop (v4l2dec_close s1) = false →
    C_torn (v4l2dec_close s1) = false ∧ at_rest (v4l2dec_close s1)⟨C_dec_open := false⟩).
  { intros Hstop. assert (Hs1 : g_stop s1 = false).
    { destruct (g_stop s1) eqn:E; [|done]. by rewrite (close_stop s1 E) in Hstop. }
    destruct (Hquiet Hs1) as [Hn Hb].
    assert (Hl : lent s1 = []) by (unfold lent; by rewrite Hn, Hb).
    assert (Hcl : closed (v4l2dec_close s1)).
    { destruct Hown as [[Hw Hd]|Hw]; [by apply close_closed|].
      unfold v4l2dec_close. destruct Hw as [[Hw1 Hd] Hw2]. rewrite Hd. by split. }
    split; [apply Hcl|].
    split; [by destruct Hcl as [[? ?] ?]; split; [split|]; [by apply (own_eq [] (v4l2dec_close s1))|..]|].
    split; [|done]. change (mailbox_ok (v4l2dec_close s1)).
    by apply (keep_close _ mailbox_keeps). }
  split; [|exact Hgo]. cbn. destruct (g_stop (v4l2dec_close s1)) eqn:Hg; [|left; by apply Hgo].
  destruct (close_torn s1 Ho1); [by left|right]. by split.
Qed.

(** ** The connect loop *)
Lemma conn_hello s mac model alloc : conn_part (sbc_hello_exchange s mac model alloc).2 = conn_part s.
Proof.
  unfold sbc_hello_exchange. pose proof (conn_writen s (client_hello_bytes (sbc_hello s mac model))) as E.
  destruct (sbc_writen _ _) as [[] s1]; cbn [snd negb] in *; [|done].
  pose proof (conn_readn s1 16) as E2.
  destruct (sbc_readn _ _) as [[b|] s2]; cbn [snd] in *; [|congruence]. cbv zeta.
  do 3 (case_match; [cbn; congruence|]). rewrite <- E, <- E2.
  unfold stream_setup. by repeat case_match.
Qed.

Lemma rest_steady s : at_rest s → steady s.
Proof. intros (Hc&Hm&Ho). by split; [right|]. Qed.
Lemma rest_conn s s' : conn_part s' = conn_part s → at_rest s → at_rest s'.
Proof.
  intros Hp (Hc&Hm&Ho). split; [by apply (conn_closed s)|].
  unfold conn_part in Hp. injection Hp as E1 E2 E3 E4 E5 Ed E6 E7 E8.
  split; [unfold mailbox_ok in *; by rewrite E1, E2, E8|congruence].
Qed.

Lemma loop_safe s alloc t0 evs : at_rest s → safe (frame_loop s alloc t0 evs).
Proof.
  intros Hs. apply rest_steady in Hs. unfold frame_loop.
  destruct alloc; cbn [negb]; [|by apply end_rest, steady_ending].
  by apply end_rest, kept_run.
Qed.

Lemma main_safe (m : main_st Dev) e : safe (m_s m) → safe (m_s (main_turn m e)).
Proof.
  intros Hs. unfold main_turn. destruct (g_stop (m_s m)) eqn:Hg; [done|].
  destruct (_ && _); [done|]. cbv zeta. destruct (negb (me_connected e)); [done|].
  destruct Hs as [_ Hs]. destruct (Hs Hg) as [_ Hs']. clear Hs. rename Hs' into Hs. set (s0 := (m_s m)⟨C_rx := _⟩⟨C_writes := _⟩).
  assert (H0 : at_rest s0) by (by apply (rest_conn (m_s m))).
  pose proof (conn_hello s0 (me_mac e) (me_model e) (me_alloc e)) as E.
  destruct (sbc_hello_exchange _ _ _ _) as [ok s1]. cbn [snd] in E.
  pose proof (rest_conn s0 s1 E H0) as H1.
  assert (Hgo : ∀ s b, safe s →
    safe (m_s (let s := if C_test_mode s then s else set_blank s true in
               mk_main s b false (if g_stop s then 0 else b)))).
  { intros s b [Ht Hr]. cbv zeta. cbn [m_s]. case_match; [done|].
    pose proof (conn_blank s true) as Eb.
    assert (Eg : g_stop (set_blank s true) = g_stop s) by (unfold set_blank; by repeat case_match).
    pose proof Eb as Eb'. unfold conn_part, own_part in Eb'. injection Eb' as E1 _ _ _ E5 _ _ _ _.
    unfold safe, torn_at_stop. rewrite E5, Eg, E1. split; [done|].
    intros Hst. destruct (Hr Hst). split; [done|]. by apply (rest_conn s). }
  destruct ok.
  - apply Hgo. by apply loop_safe.
  - apply Hgo. assert (Ht : C_torn s1 = false) by apply H1. by split; [left|].
Qed.
End safe.
