(* ===== verification/SbcProps.v ===== *)
(** * Properties of the SBC client: the panel and its backends

    The end-to-end theorem of the physical screen, and what the DRM backend
    does with full frames and refused flips.  The sample states are a 3x2
    panel driven through each backend. *)
From S2P Require Import Prelude Binary64 Protocol Core Convert Encoder Net Xmit Control Drain.
From S2P Require Import XmitSpec Dirty Coverage ViewH264 ViewNet Blit Paint.
From S2P Require Import Stream OutReady Link ViewRead Mirror Samples EndToEnd.
From S2P Require Import SbcOut SbcFb SbcDrm Sbc V4l2dec SbcLoop SbcShows SbcStep.
From S2P Require Import SbcRun SbcOwn.
From stdpp Require Import relations.
#[local] Open Scope Z_scope.

Section properties.
Context {Dev : Type} `{OL : OutputLaws Dev} `{X : X264} `{L : LZ4} `{P : Platform}.
Implicit Types s : sbc Dev.
Implicit Types c : SremfbClient.

(** A client on a cleared panel, about to say hello to the server. *)
Record sbc_for c s : Prop := {
  sf_mode : C_test_mode s = false;
  sf_sink : C_test_sink s = false;
  sf_ok : out_ok (C_out s);
  sf_w : C_out_w s = p_w (out_panel (C_out s));
  sf_h : C_out_h s = p_h (out_panel (C_out s));
  sf_bpp : C_bytespp s = p_bpp (out_panel (C_out s));
  sf_pf : C_pixfmt s = pixfmt_of c;
  sf_pfb : C_bytespp s = bytespp_of (pixfmt_of c);
  sf_lz : c_lz4 c = true → C_no_lz4 s = false;
  sf_box : mailbox_ok s;
  sf_quiet : quiet_box s;
  sf_run : g_stop s = false;
  sf_writes : writes_whole s;
  sf_black : Forall (λ b, b = 0) (out_shown (C_out s)) }.

Lemma writes_all s (buf : bytes) :
  writes_whole s → (length buf ≤ 48)%nat →
  ∃ tx ws, sbc_writen s buf = (true, s⟨C_tx := tx⟩⟨C_writes := ws⟩) ∧
    Forall (λ w, ∃ n, w = WSent n ∧ 48 ≤ n) ws.
Proof.
  intros Hw Hl. unfold sbc_writen, writes_whole in *.
  destruct buf as [|b buf]; [by destruct (C_writes s); eexists _, _|].
  destruct (C_writes s) as [|w ws]; [by eexists _, _|].
  apply Forall_cons in Hw as [(n&->&Hn) Hws]. cbn [writen_evs].
  assert (E1 : slice n (Z.of_nat (length (b :: buf)) - n) (b :: buf) = []).
  { unfold slice. rewrite drop_ge by lia. by rewrite take_nil. }
  rewrite E1. assert (E2 : writen_evs ws (g_stop s) [] = ([], true, ws)) by (by destruct ws).
  rewrite E2. by eexists _, _.
Qed.

Lemma sbc_hello_accepted c flags s mac model alloc rest :
  session_ok c → 0 ≤ flags < 256 → 0 ≤ c_audio_token c < 65536 →
  sbc_for c s → length mac = 6%nat → length model = 13%nat →
  rx_data (C_rx s) = server_hello_bytes (hello_of c flags) ++ rest →
  ∃ evs tx ws rb, rx_data evs = rest ∧
    sbc_hello_exchange s mac model alloc = (true,
      s⟨C_tx := tx⟩⟨C_writes := ws⟩⟨C_rx := evs⟩
       ⟨C_stream_w := g_width (c_geom c)⟩⟨C_stream_h := g_height (c_geom c)⟩
       ⟨C_srv_flags := flags⟩⟨C_rowbuf := rb⟩
       ⟨C_off_x := Z.quot (C_out_w s - g_width (c_geom c)) 2⟩
       ⟨C_off_y := Z.quot (C_out_h s - g_height (c_geom c)) 2⟩) ∧
    Forall (λ w, ∃ n, w = WSent n ∧ 48 ≤ n) ws.
Proof.
  intros Hok Hf Ht Hs Hmac Hmodel Hrx. unfold sbc_hello_exchange.
  destruct (writes_all s (client_hello_bytes (sbc_hello s mac model)))
    as (tx&ws&->&Hws); [apply Hs| |].
  { rewrite length_client_hello; [done|..]; unfold sbc_hello;
      rewrite (sf_mode _ _ Hs); by destruct (_ =? _). }
  cbn [negb]. set (s2 := s⟨C_tx := tx⟩⟨C_writes := ws⟩).
  destruct (sbc_readn_payload s2 _ _ Hrx) as (evs&Hread&Hd).
  rewrite length_server_hello_bytes in Hread. change (Z.of_nat 16) with 16 in Hread.
  rewrite Hread. rewrite server_hello_of_bytes by (by apply hello_wf).
  cbn [hello_of sh_magic sh_proto_ver sh_status sh_pixfmt sh_width sh_height].
  rewrite !Z.eqb_refl. cbn [negb orb].
  change (C_test_mode s2⟨C_rx := evs⟩) with (C_test_mode s).
  change (C_pixfmt s2⟨C_rx := evs⟩) with (C_pixfmt s).
  rewrite (sf_mode _ _ Hs), (sf_pf _ _ Hs). unfold pixfmt_of. rewrite Z.eqb_refl.
  cbn [negb]. exists evs, tx, ws.
  unfold stream_setup. destruct (has_flag _ _).
  - exists alloc. split; [done|]. split; [|done].
    match goal with |- context [C_test_mode ?x] =>
      change (C_test_mode x) with (C_test_mode s) end. by rewrite (sf_mode _ _ Hs).
  - exists (C_rowbuf s). split; [done|]. split; [|done].
    match goal with |- context [C_test_mode ?x] =>
      change (C_test_mode x) with (C_test_mode s) end. by rewrite (sf_mode _ _ Hs).
Qed.

Lemma shows_black p W H0 ox oy (m : bytes) n :
  panel_ok p → p_h p * p_stride p ≤ Z.of_nat (length m) → Forall (λ b, b = 0) m →
  W * H0 * p_bpp p ≤ Z.of_nat n → shows p W H0 ox oy m (replicate n 0).
Proof.
  intros Hp Hm Hz Hn y k Hy Hk Hon. pose proof (pos_range p ox oy y k Hp Hon) as Hpos.
  destruct (lookup_lt_is_Some_2 m (Z.to_nat (pos p ox oy y k))) as [v Hv]; [lia|].
  rewrite Hv. rewrite Forall_lookup in Hz. rewrite (Hz _ _ Hv).
  symmetry. apply lookup_replicate_2.
  assert ((y + 1) * (W * p_bpp p) ≤ H0 * (W * p_bpp p))
    by (apply Z.mul_le_mono_nonneg_r; lia).
  assert (0 ≤ y * (W * p_bpp p)) by (apply Z.mul_nonneg_nonneg; lia). lia.
Qed.

(** Right after the hello the panel shows the black framebuffer. *)
Lemma sbc_start_view c s evs tx ws rb flags rest :
  geom_ok (c_geom c) → sbc_for c s → rx_data evs = rest →
  Forall (λ w, ∃ n, w = WSent n ∧ 48 ≤ n) ws →
  sbc_view (SC := out_panel (C_out s)) (c_geom c) (pixfmt_of c) (c_lz4 c)
    (s⟨C_tx := tx⟩⟨C_writes := ws⟩⟨C_rx := evs⟩
       ⟨C_stream_w := g_width (c_geom c)⟩⟨C_stream_h := g_height (c_geom c)⟩
       ⟨C_srv_flags := flags⟩⟨C_rowbuf := rb⟩
       ⟨C_off_x := Z.quot (C_out_w s - g_width (c_geom c)) 2⟩
       ⟨C_off_y := Z.quot (C_out_h s - g_height (c_geom c)) 2⟩)
    (replicate (Z.to_nat (fb_size c)) 0) rest.
Proof.
  intros Hg [F1 F2 F3 F4 F5 F6 F7 F8 F9 F10 F11 F12 F13 F14] Hrx Hws.
  assert (Hb : fb_size c = g_width (c_geom c) * g_height (c_geom c) * bytespp_of (pixfmt_of c))
    by (unfold fb_size, pixfmt_of; done).
  pose proof (bytespp_pos (pixfmt_of c)) as Hbp. unfold geom_ok in Hg.
  split; try done.
  - split; [done|by split_and!| |done]. cbn. rewrite F8. unfold bytespp_of. case_match; auto.
  - apply shows_black; [by apply out_panel_ok|by apply out_size|done|].
    cbn. rewrite <- F6, F8. nia.
  - rewrite length_replicate. rewrite Hb. apply Z2Nat.id. nia.
Qed.

(** (C5) The physical screen: on an SBC client with a cleared panel (the
    framebuffer or the DRM backend), after the server's session of
    [screen_converges] with the connection still up, the hello is accepted
    and every run of the receive loop that reads all the messages ends with
    the panel showing, centred and clipped, the wire-format conversion of
    the frame the server captured, whatever the blit thread and the video
    decoder did in the H.264 episodes; the mailbox of the blit thread is
    then empty, so nothing repaints it later, and nothing is left to read.
    Only a failing decoder ends the run before. *)
Theorem sbc_screen_converges `{!X264Laws X} `{!LZ4Laws L} c grab0 flags c' s mac model alloc :
  fresh_client c grab0 → session_start c flags →
  rtc tx_any (sremfb_xmit_hello c flags, false) (c', false) →
  xmit_idle c' = true → c_xmit_mode c' = XMIT_RAW → alive c' →
  sbc_for c s → length mac = 6%nat → length model = 13%nat →
  rx_data (C_rx s) = c_wire c' →
  ∃ ss grab s1, c_grabbuf c' = Some grab ∧
    c_wire c' = server_hello_bytes (hello_of c flags) ++ mjoin (sent_bytes <$> ss) ∧
    sbc_hello_exchange s mac model alloc = (true, s1) ∧
    ∀ t0 evs, polls_ok false t0 ss evs →
      let '(go, l) := frame_run evs (mk_floop s1 t0 t0) in
      let p := out_panel (C_out s) in
      let W := g_width (c_geom c) in
      let H := g_height (c_geom c) in
      (go = true →
         out_panel (C_out (l_s l)) = p ∧
         shows p W H (Z.quot (p_w p - W) 2) (Z.quot (p_h p - H) 2) (out_shown (C_out (l_s l)))
           (conv_frame W H (pixfmt_of c) grab) ∧
         rx_data (C_rx (l_s l)) = [] ∧
         (g_stop (l_s l) = false → quiet_box (l_s l))) ∧
      (Forall (λ m, ¬ is_h264 m) ss → go = true).
Proof.
  intros Hf Hst Hrun Hidle Hraw Ha Hs Hmac Hmodel Hrx.
  destruct (session_sent c grab0 flags c' Hf Hst Hrun Hidle Hraw)
    as (ss&grab&Hgr&Hbytes&Hok&Hbr&Hpaint). specialize (Hbr Ha).
  pose proof Hf as (Hsok&_). destruct Hst as (_&_&Hflags&Htok).
  destruct (sbc_hello_accepted c flags s mac model alloc (mjoin (sent_bytes <$> ss)))
    as (evs0&tx&ws&rb&Hevs&Hhello&Hws); try done; [by rewrite Hrx|].
  eexists ss, grab, _. split; [done|]. split; [done|]. split; [exact Hhello|].
  intros t0 evs Hp. pose proof Hsok as (Hg&Hsm&Hpf).
  rewrite <- (app_nil_r (mjoin _)) in Hevs.
  pose proof (sbc_start_view c s evs0 tx ws rb flags _ Hg Hs Hevs Hws) as Hv.
  match type of Hv with sbc_view _ _ _ ?x _ _ => set (s1 := x) in * end.
  pose proof (sbc_messages (SC := out_panel (C_out s)) (c_geom c) (pixfmt_of c) (c_lz4 c)
    evs ss (mk_floop s1 t0 t0) false _ [] (conj Hg Hsm) Hok Hbr Hp Hv) as Hm.
  specialize (Hm ltac:(split; [intros _ _; apply (sf_quiet _ _ Hs)|done])).
  destruct (frame_run _ _) as [go l]. destruct Hm as [Hgo Hno]. cbv zeta.
  split; [|intros Hn; apply Hno; [done|done|apply (sf_run _ _ Hs)]].
  intros Htrue. destruct (Hgo Htrue) as (fb0&fb'&_&He&Hpa&Hv'&Hq).
  rewrite (He eq_refl) in Hpa. rewrite (Hpaint fb' Hpa) in Hv'.
  destruct Hv' as [[D1 (Dw&Dh&_) D3 D4] B Sk Ww Wh Bp Lz Sh Ln Rx Wr Pa Ox Oy].
  unfold screen in Pa. rewrite Pa, Ox, Oy, Dw, Dh, Pa in Sh. done.
Qed.
End properties.

(** ** Full frames on the DRM backend *)
(** The memory the CRTC scans out. *)
Definition drm_scanned (d : drmpriv) : bytes :=
  default [] (db_map (if D_scan d =? db_fb_id (D_buf0 d) then D_buf0 d else D_buf1 d)).

(** Both the page-flip and the modeset of the next present() are refused. *)
Definition drm_refused (d : drmpriv) : bool :=
  match D_ans d with a :: _ => negb (fa_flip a) && negb (fa_crtc a) | [] => false end.

Definition two_buffers (d : drmpriv) : Prop := db_fb_id (D_buf0 d) ≠ db_fb_id (D_buf1 d).

Lemma drm_scanned_buf d i :
  two_buffers d → D_scan d = db_fb_id (D_buf d i) →
  drm_scanned d = default [] (db_map (D_buf d i)).
Proof.
  unfold two_buffers, drm_scanned. intros Hne ->. destruct i; cbn [D_buf].
  - by rewrite (proj2 (Z.eqb_neq _ _)) by congruence.
  - by rewrite Z.eqb_refl.
Qed.

Lemma drm_back_rows d m rs :
  db_map (D_buf d (negb (D_front d))) = Some m → D_no_flip d = false →
  write_rows (drm_begin d true) rs =
    set_buf d⟨D_target := negb (D_front d)⟩ (negb (D_front d))
      (D_buf d (negb (D_front d)))⟨db_map := Some (foldl (draw_row (drm_panel d)) m rs)⟩.
Proof.
  intros Hm Hn. unfold drm_begin. rewrite Hn. cbn [andb negb].
  by rewrite (drm_rows d⟨D_target := negb (D_front d)⟩ rs m).
Qed.

Lemma two_buffers_set d i b :
  db_fb_id b = db_fb_id (D_buf d i) → two_buffers d → two_buffers (set_buf d i b).
Proof. unfold two_buffers. destruct i; cbn; congruence. Qed.

(** The back buffer is drawn, the front one is scanned out. *)
Lemma drm_drawing_scanned d m rs :
  drm_inv d → D_no_flip d = false → two_buffers d →
  db_map (D_buf d (negb (D_front d))) = Some m →
  drm_scanned (write_rows (drm_begin d true) rs) = drm_shown d.
Proof.
  intros Hi Hn Htwo Hm. rewrite (drm_back_rows d m rs Hm Hn).
  set (b := (D_buf _ _)⟨db_map := _⟩). set (d0 := d⟨D_target := _⟩).
  rewrite (drm_scanned_buf _ (D_front d)).
  - unfold drm_shown, b, d0. by destruct (D_front d).
  - by apply two_buffers_set.
  - rewrite (proj1 (proj2 (proj2 (proj2 (proj2 (set_buf_fields _ _ _)))))).
    change (D_scan d0) with (D_scan d). rewrite (di_scan d Hi).
    unfold b, d0. by destruct (D_front d).
Qed.

(** (C28) Full frames never tear on the DRM backend: whatever rows of a
    whole-frame batch have been written, the panel still scans out the
    picture it had; present() then switches to the complete new picture in
    one step. When the kernel refuses both the page-flip and the modeset,
    the frame is lost: the old picture stays, and page-flips are given up
    (later batches draw in place, over it). *)
Theorem drm_full_frame_atomic d rs k :
  drm_inv d → D_no_flip d = false → two_buffers d →
  Forall (row_in (drm_panel d)) rs →
  drm_scanned (write_rows (drm_begin d true) (take k rs)) = drm_scanned d ∧
  let d' := out_batch d true rs in
  if drm_refused d then
    drm_scanned d' = drm_scanned d ∧ D_no_flip d' = true
  else ∃ base, length base = length (drm_scanned d) ∧
    drm_scanned d' = foldl (draw_row (drm_panel d)) base rs.
Proof.
  intros Hi Hn Htwo Hrs.
  pose proof (drm_scanned_buf d (D_front d) Htwo (di_scan d Hi)) as Hsc.
  change (default [] _) with (drm_shown d) in Hsc. rewrite Hsc.
  destruct (di_back d Hi Hn) as (m&Hm&Hl).
  split; [by apply (drm_drawing_scanned d m)|].
  unfold out_batch. cbn [op_begin op_present drm_output].
  pose proof (drm_drawing_scanned d m rs Hi Hn Htwo Hm) as Hdr.
  pose proof (drm_back_rows d m rs Hm Hn) as E.
  set (d2 := write_rows (drm_begin d true) rs) in *.
  set (b := (D_buf d _)⟨db_map := _⟩) in E.
  destruct (set_buf_fields d⟨D_target := negb (D_front d)⟩ (negb (D_front d)) b)
    as (_&F&T&_&_&A&_). rewrite <- E in F, T, A. cbn in F, T, A.
  assert (Hbuf : D_buf d2 (negb (D_front d)) = b) by (rewrite E; apply buf_set_same).
  assert (Htwo2 : two_buffers d2).
  { rewrite E. apply two_buffers_set; [|done]. by destruct (D_front d). }
  assert (Hnew : ∀ d', D_buf0 d' = D_buf0 d2 → D_buf1 d' = D_buf1 d2 →
    D_scan d' = db_fb_id b → drm_scanned d' = foldl (draw_row (drm_panel d)) m rs).
  { intros d' E0 E1 Hs. rewrite (drm_scanned_buf d' (negb (D_front d))).
    - unfold D_buf in *. rewrite E0, E1, Hbuf. done.
    - unfold two_buffers in *. by rewrite E0, E1.
    - rewrite Hs, <- Hbuf. unfold D_buf. by rewrite E0, E1. }
  unfold drm_present, drm_refused. rewrite F, T, A.
  replace (Bool.eqb (negb (D_front d)) (D_front d)) with false by (by destruct (D_front d)).
  destruct (D_ans d) as [|a l].
  - rewrite T, Hbuf. exists m. split; [done|]. cbn [fa_flip].
    destruct (wait_flip _ _ _); by apply Hnew.
  - change (D_target d2⟨D_ans := l⟩) with (D_target d2).
    change (D_buf d2⟨D_ans := l⟩) with (D_buf d2). rewrite T, Hbuf.
    destruct (fa_flip a); cbn [negb andb].
    + exists m. split; [done|]. destruct (wait_flip _ _ _); by apply Hnew.
    + destruct (fa_crtc a); cbn [negb andb]; [|by split].
      exists m. split; [done|]. by apply Hnew.
Qed.

(** ** The zero-copy path: capture buffers *)
Section buffers.
Context {Dev : Type} `{Output Dev} `{L : LZ4}.
Implicit Types s : sbc Dev.

(** No connection yet: the decoder is closed, the mailbox empty. *)
Definition at_start s : Prop :=
  V_fd (C_dec s) = false ∧ V_kq (C_dec s) = [] ∧ B_busy s = None ∧ B_next s = None ∧
  -1 ≤ B_up s ≤ 1 ∧ C_dec_open s = false ∧ C_torn s = false.

Lemma at_start_rest s : at_start s ↔ at_rest s.
Proof.
  unfold at_start, at_rest, closed, resting, mailbox_ok. split.
  - intros (E1&E2&E3&E4&E5&E6&E7).
    assert (El : lent s = []) by (unfold lent; by rewrite E3, E4).
    split; [|split; [|done]].
    + split; [|done]. split; [|done]. split; rewrite ?El, ?E2; try done; constructor.
    + destruct (decide (B_up s = 1)); [by left|right]. split; [lia|done].
  - intros ([[[_ _ O3 _] E1] [El E2]]&Hm&E6). destruct (lent_nil s El) as [E3 E4].
    split_and!; try done; destruct Hm as [?|[? _]]; lia.
Qed.

(** (C9) No picture is ever drawn from a capture buffer that has changed
    since the decoder delivered it or that is not mapped: over any number of
    connections, with the blit thread and the device interleaved in every
    way with the main thread, the buffers lent to the blit thread are never
    queued back, overwritten or unmapped before they are drawn; after every
    connection the client is back in its initial state, with nothing lent
    and the decoder closed.  The exception is a signal that asks the client
    to stop: blit_sync() then gives up, and the buffers can be unmapped
    under the one picture the blit thread is drawing. *)
Theorem sbc_pictures_never_torn (m : main_st Dev) es :
  at_start (m_s m) →
  let s := m_s (foldl main_turn m es) in
  (g_stop s = false → C_torn s = false ∧ at_start s) ∧
  (C_torn s = true → g_stop s = true ∧ is_Some (B_busy s)).
Proof.
  intros Hs%at_start_rest. cbv zeta.
  assert (Ht : C_torn (m_s m) = false) by apply Hs.
  assert (H0 : safe (m_s m)) by (by split; [left|]). clear Hs Ht.
  assert (H1 : safe (m_s (foldl main_turn m es))).
  { revert m H0. induction es as [|e es IH]; intros m Hm; [done|]. cbn [foldl].
    by apply IH, main_safe. }
  destruct H1 as [H1 H2]. split.
  - intros Hg. destruct (H2 Hg). split; [done|]. by apply at_start_rest.
  - intros Ht. by destruct H1 as [H1|H1]; [congruence|].
Qed.

(** (C10) Within a connection every capture buffer has one owner: after any
    turns of the receive loop no buffer is both lent to the blit thread
    (being drawn or waiting in the mailbox) and queued in the driver, none
    is lent twice, and every lent buffer still holds the picture that was
    delivered in it. *)
Theorem sbc_buffers_single_owner s t0 evs :
  at_start s →
  let s' := l_s (frame_run evs (mk_floop s t0 t0)).2 in
  let fs := opt_list (B_busy s') ++ opt_list (B_next s') in
  NoDup ((f_buf_index <$> fs) ++ V_kq (C_dec s')) ∧
  Forall (λ f, V_mem (C_dec s') (f_buf_index f) = f_snap f) fs.
Proof.
  intros Hs%at_start_rest%rest_steady.
  destruct (kept_run evs (mk_floop s t0 t0) Hs) as [([Ho|Ho]&_) _]; cbv zeta;
    [destruct Ho as [[O1 O2 _ _] _]|destruct Ho as [[[O1 O2 _ _] _] _]];
    cbn in O1, O2; unfold lent in O1, O2;
    (rewrite <- list_fmap_compose in O1; split; [exact O1|by rewrite Forall_fmap in O2]).
Qed.
End buffers.

(** ** Samples: a 4x3 panel, XRGB8888, rows of 16 bytes *)
Definition sample_var : fb_var_screeninfo := mk_var 4 3 32 16 8 0.
Definition sample_fbpriv : fbpriv :=
  mk_fbpriv 3 true 48 sample_var 16 4 false (-1) false (replicate 48 0) true [] [].
Definition sample_v4 : v4l2dec :=
  mk_v4 false false 0 0 false (replicate 4 false) (replicate 4 0) (replicate 4 false)
    false 0 0 0 0 0 0 0 (replicate 32 false) (replicate 32 0) false false [] (λ _, []) [].
Definition sample_sbc {Dev} (o : Dev) (rx : list rx_ev) : sbc Dev :=
  mk_sbc Dev false false false false 0 0 false false false false 0 false false
    o 4 3 SREMFB_PIX_XRGB8888 4 true 0 0 0 0 [] 0 None None (-1) true true [] false
    sample_v4 rx [] [WSent 48] [] false.
Definition sample_poll : poll_ev := mk_poll false (PollOk true false) 1 1 1 1 1.
Definition sample_idle : poll_ev := mk_poll false PollIntr 1 1 1 1 1.

Lemma sample_fb_ok : fb_ok sample_fbpriv.
Proof. by split_and!; cbn; try lia. Qed.

Lemma sample_sbc_for :
  @sbc_for fbpriv _ _ sample_x264
    (@sample_client sample_x264 SREMFB_PIX_XRGB8888 sample_frame)
    (sample_sbc sample_fbpriv sample_rx).
Proof.
  split; try exact sample_fb_ok; try done; cbn.
  - right. split; [by left|done].
  - constructor; [by exists 48|constructor].
  - by repeat constructor.
Qed.

(** The panel after the hello and two messages, by running the client. *)
Example sample_sbc_screen :
  let '(ok, s1) := @sbc_hello_exchange fbpriv (sample_sbc sample_fbpriv sample_rx)
                     [2; 0; 0; 0; 0; 1] (replicate 13 0) true in
  let '(go, l) := @frame_run fbpriv _ sample_lz4 [sample_idle; sample_poll; sample_idle]
                    (mk_floop s1 1 1) in
  (ok, go, length (rx_data (C_rx (l_s l))), FB_screen (C_out (l_s l))) =
    (true, true, 0%nat,
     [0; 0; 0; 0; 10; 20; 30; 0; 40; 50; 60; 0; 0; 0; 0; 0] ++
     [0; 0; 0; 0; 70; 80; 90; 0; 1; 2; 3; 0; 0; 0; 0; 0] ++ replicate 16 0).
Proof. vm_compute. reflexivity. Qed.

Lemma sbc_screen_converges_witness :
  ∃ ss grab s1, c_grabbuf sample_c3 = Some grab ∧
    c_wire sample_c3 =
      server_hello_bytes (@hello_of sample_x264
        (@sample_client sample_x264 SREMFB_PIX_XRGB8888 sample_frame) 1) ++
      mjoin (@sent_bytes sample_lz4 <$> ss) ∧
    sbc_hello_exchange (sample_sbc sample_fbpriv sample_rx) [2; 0; 0; 0; 0; 1]
      (replicate 13 0) true = (true, s1) ∧
    ∀ t0 evs, polls_ok false t0 ss evs →
      let '(go, l) := @frame_run fbpriv _ sample_lz4 evs (mk_floop s1 t0 t0) in
      (go = true →
         fb_panel (C_out (l_s l)) = mk_panel 4 3 4 16 ∧
         shows (mk_panel 4 3 4 16) 2 2 1 0 (FB_screen (C_out (l_s l)))
           (@conv_frame sample_platform 2 2 SREMFB_PIX_XRGB8888 grab) ∧
         rx_data (C_rx (l_s l)) = [] ∧
         (g_stop (l_s l) = false → quiet_box (l_s l))) ∧
      (Forall (λ m, ¬ is_h264 m) ss → go = true).
Proof.
  refine (@sbc_screen_converges fbpriv _ _ sample_x264 sample_lz4 sample_platform _ _
    (@sample_client sample_x264 SREMFB_PIX_XRGB8888 sample_frame) sample_frame 1 sample_c3
    (sample_sbc sample_fbpriv sample_rx) [2; 0; 0; 0; 0; 1] (replicate 13 0) true
    _ _ _ _ _ _ _ _ _ _).
  - exact sample_fresh.
  - unfold session_start. cbn. lia.
  - exact (steps_any _ _ false sample_run).
  - vm_compute. reflexivity.
  - vm_compute. reflexivity.
  - split; vm_compute; [intros Hx; discriminate Hx|reflexivity].
  - exact sample_sbc_for.
  - reflexivity.
  - reflexivity.
  - vm_compute. reflexivity.
Defined.

Definition sample_mode : drmModeModeInfo := mk_mode 4 3 8.
Definition sample_drm (ans : list flip_ans) : drmpriv :=
  mk_drm 3 30 40 sample_mode true (mk_buf 71 1 (Some (replicate 48 0)) 48)
    (mk_buf 72 2 (Some (replicate 48 9)) 48) false false false 16 4 2 (-1) false 71 true ans.
Definition sample_rows : list out_row :=
  [mk_row 0 0 (replicate 16 1) 4; mk_row 0 1 (replicate 16 2) 4; mk_row 0 2 (replicate 16 3) 4].

Lemma drm_full_frame_atomic_witness :
  let d := sample_drm [mk_flip false [] false] in
  drm_scanned (write_rows (drm_begin d true) (take 2 sample_rows)) = drm_scanned d ∧
  let d' := out_batch d true sample_rows in
  if drm_refused d then drm_scanned d' = drm_scanned d ∧ D_no_flip d' = true
  else ∃ base, length base = length (drm_scanned d) ∧
    drm_scanned d' = foldl (draw_row (drm_panel d)) base sample_rows.
Proof.
  apply (drm_full_frame_atomic (sample_drm [mk_flip false [] false]) sample_rows 2).
  - split; [by split_and!; cbn; lia|done| |].
    + eexists. split; [done|]. cbn. lia.
    + intros _. eexists. by split.
  - reflexivity.
  - discriminate.
  - repeat constructor; cbn; lia.
Defined.

(** A connection that decodes one grey access unit into buffer 2. *)
Definition sample_script : list v4_ev :=
  [VOk; VOk; VOk;                                       (* open, events *)
   VOk; VReq 0; VBuf 1048576 true; VBuf 1048576 true; VBuf 1048576 true;
   VBuf 1048576 true; VOk;                              (* the OUTPUT queue *)
   VErr false; VOk;                                     (* feed *)
   VOk; VEvent true;                                    (* poll, SOURCE_CHANGE *)
   VFmt V4L2_PIX_FMT_H264 2 2 2; VOk; VFmt V4L2_PIX_FMT_NV12 2 2 2;
   VFmt V4L2_PIX_FMT_NV12 2 2 2; VErr false; VErr false; VReq 0;
   VBuf 6 true; VOk; VBuf 6 true; VOk; VBuf 6 true; VOk; VBuf 6 true; VOk; VOk;
   VErr false;                                          (* no more events *)
   VErr false; VErr false;                              (* pump *)
   VWrite 2 [235; 16; 16; 235; 128; 128]; VDq 2 6 false; VErr false;
   VTake; VWrite 2 [0; 0; 0; 0; 0; 0]; VWrite 1 [0; 0; 0; 0; 0; 0]; VDone true].
Definition sample_au_rx : list rx_ev :=
  [RReady; RData (server_hello_bytes (mk_server_hello SREMFB_MAGIC SREMFB_PROTO_VER
     SREMFB_STATUS_OK 2 2 SREMFB_PIX_XRGB8888 2 0));
   RReady; RData (frame_hdr_bytes (au_hdr true 2 2 4) ++ [0; 0; 1; 101])].
Definition sample_dec_sbc : sbc fbpriv :=
  (sample_sbc sample_fbpriv [])⟨C_dec_found := true⟩
    ⟨C_dec ::= λ v, v⟨V_node := true⟩⟩⟨C_script := sample_script⟩.
Definition sample_main : main_st fbpriv := mk_main sample_dec_sbc 1 false 0.
Definition sample_menv : main_env :=
  mk_menv 1 true sample_au_rx [WSent 48] [2; 0; 0; 0; 0; 1] (replicate 13 0) true 1
    [sample_poll; sample_idle].

(** The picture is on the panel, before the client blanks it. *)
Example sample_decoded :
  let '(ok, s1) := sbc_hello_exchange sample_dec_sbc⟨C_rx := sample_au_rx⟩
                     [2; 0; 0; 0; 0; 1] (replicate 13 0) true in
  let '(go, l) := @frame_run fbpriv _ sample_lz4 [sample_poll; sample_idle]
                    (mk_floop s1 1 1) in
  (ok, go, V_kq (C_dec (l_s l)), C_script (l_s l), FB_screen (C_out (l_s l))) =
    (true, true, [2; 3; 1; 0], [],
     [0; 0; 0; 0; 255; 255; 255; 0; 0; 0; 0; 0; 0; 0; 0; 0] ++
     [0; 0; 0; 0; 0; 0; 0; 0; 255; 255; 255; 0; 0; 0; 0; 0] ++ replicate 16 0).
Proof. vm_compute. reflexivity. Qed.

Lemma sbc_pictures_never_torn_witness :
  let s := m_s (foldl (@main_turn fbpriv _ sample_lz4) sample_main [sample_menv; sample_menv]) in
  g_stop s = false ∧ C_torn s = false ∧ at_start s.
Proof.
  split; [vm_compute; reflexivity|].
  apply (@sbc_pictures_never_torn fbpriv _ sample_lz4 sample_main [sample_menv; sample_menv]).
  - by split_and!.
  - vm_compute. reflexivity.
Defined.

(** A signal arrives while the blit thread draws the picture: the capture
    buffers are unmapped under it. *)
Example stop_unmaps_picture :
  let s := m_s (main_turn (L := sample_lz4)
    (mk_main sample_dec_sbc⟨C_script := take 37 sample_script⟩ 1 false 0)
    (mk_menv 1 true sample_au_rx [WSent 48] [2; 0; 0; 0; 0; 1] (replicate 13 0) true 1
       [sample_poll; sample_idle; mk_poll true PollIntr 1 1 1 1 1])) in
  g_stop s = true ∧ f_buf_index <$> B_busy s = Some 2 ∧ C_torn s = true.
Proof. vm_compute. by split_and!. Qed.

Lemma sbc_buffers_single_owner_witness :
  let s' := l_s (@frame_run fbpriv _ sample_lz4 [sample_poll; sample_idle]
                   (mk_floop sample_dec_sbc⟨C_rx := drop 2 sample_au_rx⟩⟨C_rowbuf := true⟩
                      ⟨C_stream_w := 2⟩⟨C_stream_h := 2⟩ 1 1)).2 in
  let fs := opt_list (B_busy s') ++ opt_list (B_next s') in
  NoDup ((f_buf_index <$> fs) ++ V_kq (C_dec s')) ∧
  Forall (λ f, V_mem (C_dec s') (f_buf_index f) = f_snap f) fs.
Proof.
  apply (@sbc_buffers_single_owner fbpriv _ sample_lz4
    sample_dec_sbc⟨C_rx := drop 2 sample_au_rx⟩⟨C_rowbuf := true⟩
      ⟨C_stream_w := 2⟩⟨C_stream_h := 2⟩ 1 [sample_poll; sample_idle]).
  by split_and!.
Defined.
