(* ===== verification/Audio.v ===== *)
(** * audio.c: the server's sound, one output per client

    The per-client output [SremfbAudio], the globals A, the packets of the
    data path, the default output of the desktop and its recovery, the UDP
    side and the life cycle.

    An output is reached through its address in [A_heap], as from
    c->audio; [A_live] is the array A.live.  [a_c] is the number of the
    client (Session.v).  [a_dest] is [None] while the address is not
    completely written.  PipeWire's objects are booleans (NULL or not);
    what its calls, the kernel and the random generator answer are
    arguments.  Ghosts: [A_requests] the values default_set() asked for,
    [A_sent] every datagram the kernel took with the client it is for and its
    destination. *)
From S2P Require Import Prelude Binary64 Protocol Core Net Session.
From Stdlib Require Import Ascii String.
From stdpp Require Import gmap strings list.
#[local] Open Scope list_scope.
#[local] Open Scope Z_scope.

(** ** Strings *)
Definition dq : string := String (ascii_of_nat 34) EmptyString.

Fixpoint strstr (hay needle : string) : bool :=
  String.prefix needle hay ||
  match hay with EmptyString => false | String _ hay => strstr hay needle end.

Definition g_snprintf (size : nat) (s : string) : string := String.substring 0 (pred size) s.

(** g_strstrip() *)
Definition g_ascii_isspace (a : ascii) : bool :=
  let n := nat_of_ascii a in
  ((n =? 32) || ((9 <=? n) && (n <=? 13) && negb (n =? 11)))%nat.
Fixpoint strip_left (s : list ascii) : list ascii :=
  match s with a :: s' => if g_ascii_isspace a then strip_left s' else s | [] => [] end.
Definition g_strstrip (s : list ascii) : list ascii := reverse (strip_left (reverse (strip_left s))).

(** The C string at the start of a char array. *)
Fixpoint c_string (b : bytes) : list ascii :=
  match b with
  | [] => []
  | x :: b => if x =? 0 then [] else ascii_of_nat (Z.to_nat x) :: c_string b
  end.

Definition HELLO_TIMEOUT_US : Z := 5 * 1000000.
Definition NODE_PREFIX : string := "sremfb.".
Definition DEFAULT_KEY : string := "default.configured.audio.sink".
Definition SAVED_FILE : string := "sremfb-audio-default".
Definition PW_ID_CORE : Z := 0.
Definition EPIPE : Z := 32.

(** enum pw_stream_state *)
Inductive pw_stream_state := PW_ERROR | PW_UNCONNECTED | PW_CONNECTING | PW_PAUSED | PW_STREAMING.

Record SremfbAudio := mk_audio {
  a_c : nat; a_stream : bool; a_node_name : string; a_desc : string; a_token : Z;
  a_made_default : bool; a_announced : bool; a_dest : option sockaddr; a_have_dest : bool;
  a_last_hello_us : Z; a_seq : Z; a_packets : Z; a_bytes : Z }.
#[export] Instance eta_audio : Eta SremfbAudio := λ a,
  mk_audio (a_c a) (a_stream a) (a_node_name a) (a_desc a) (a_token a) (a_made_default a)
    (a_announced a) (a_dest a) (a_have_dest a) (a_last_hello_us a) (a_seq a) (a_packets a)
    (a_bytes a).

Record audio_globals := mk_globals {
  A_enabled : bool; A_udp_fd : Z; A_udp_watch : Z; A_thread : bool; A_core : bool;
  A_registry : bool; A_md : option Z; A_broken : bool; A_sync_seq : Z; A_done_seq : Z;
  A_cur_default : option string; A_saved : bool; A_orig_default : option string;
  A_live : list Z; A_heap : gmap Z SremfbAudio; A_next : Z; A_files : gmap string string;
  A_requests : list (option string); A_sent : list (nat * option sockaddr * bytes) }.
#[export] Instance eta_globals : Eta audio_globals := λ A,
  mk_globals (A_enabled A) (A_udp_fd A) (A_udp_watch A) (A_thread A) (A_core A) (A_registry A)
    (A_md A) (A_broken A) (A_sync_seq A) (A_done_seq A) (A_cur_default A) (A_saved A)
    (A_orig_default A) (A_live A) (A_heap A) (A_next A) (A_files A) (A_requests A) (A_sent A).

(** [A] before sremfb_audio_init() *)
Definition A_zero : audio_globals :=
  mk_globals false (-1) 0 false false false None false 0 0 None false None [] ∅ 1 ∅ [] [].

Implicit Types (A : audio_globals) (a : SremfbAudio) (p : Z).

(** [a->field = ...] *)
Definition on_audio p (f : SremfbAudio → SremfbAudio) A : audio_globals := A⟨A_heap ::= alter f p⟩.

(** ** The data path *)

(** One packet at frame [off]: the header and the samples. *)
Definition packet_frames (off frames : Z) : Z := Z.min (frames - off) SREMFB_AUDIO_MAX_FRAMES.
Definition audio_packet a (pcm : bytes) (frames t0_us off : Z) : bytes :=
  let n := packet_frames off frames in
  audio_hdr_bytes (mk_audio_hdr SREMFB_MAGIC SREMFB_UDP_AUDIO SREMFB_AUDIO_S16LE_48K_STEREO
    (u16 n) (a_seq a) 0 (u64 (t0_us + Z.quot (off * 1000000) SREMFB_AUDIO_RATE))) ++
  slice (off * 4) (n * 4) pcm.

(** sendto(): whether the kernel took the datagram ([ok]) *)
Definition sendto A (cp : nat) (dest : option sockaddr) (pkt : bytes) (ok : bool) : audio_globals :=
  if ok then A⟨A_sent ::= λ l, l ++ [(cp, dest, pkt)]⟩ else A.

Definition send_one A p (pcm : bytes) (frames t0_us off : Z) (ok : bool) : audio_globals :=
  match A_heap A !! p with
  | Some a =>
    let pkt := audio_packet a pcm frames t0_us off in
    let A := on_audio p (λ a, a⟨a_seq ::= λ s, u32 (s + 1)⟩) A in
    let A := sendto A (a_c a) (a_dest a) pkt ok in
    if ok then
      on_audio p (λ a, a⟨a_packets ::= λ n, u64 (n + 1)⟩
        ⟨a_bytes ::= λ n, u64 (n + Z.of_nat (List.length pkt))⟩) A
    else A
  | None => A
  end.

(** Every turn takes at least one frame, so [frames] is fuel enough. *)
Fixpoint send_loop (fuel : nat) A p (pcm : bytes) (frames t0_us off : Z) (oks : list bool)
    : audio_globals :=
  match fuel with
  | O => A
  | S fuel =>
    if off <? frames then
      let A := send_one A p pcm frames t0_us off (default false (head oks)) in
      send_loop fuel A p pcm frames t0_us (off + packet_frames off frames) (tail oks)
    else A
  end.

Definition send_frames A p (pcm : bytes) (frames t0_us : Z) (oks : list bool) : audio_globals :=
  send_loop (Z.to_nat frames) A p pcm frames t0_us 0 oks.

(** What pw_stream_dequeue_buffer() gives: the memory with its maxsize and
    the chunk; [pb_mapped] is d->data && d->chunk. *)
Record pw_buf := mk_pw_buf {
  pb_mapped : bool; pb_data : bytes; pb_maxsize : Z; pb_offset : Z; pb_size : Z }.

(** The check before sending, and the quantum it sends. *)
Definition process_listens a (now : Z) : bool :=
  a_have_dest a && (now - a_last_hello_us a <? HELLO_TIMEOUT_US).
Definition process_quantum (b : pw_buf) : bytes * Z :=
  let off := Z.rem (pb_offset b) (pb_maxsize b) in
  let size := Z.min (pb_size b) (pb_maxsize b - off) in
  (slice off size (pb_data b), size / 4).

Definition on_process A p (b : option pw_buf) (now : Z) (oks : list bool) : audio_globals :=
  match b, A_heap A !! p with
  | Some b, Some a =>
    if pb_mapped b && process_listens a now
    then let '(pcm, frames) := process_quantum b in send_frames A p pcm frames now oks
    else A
  | _, _ => A
  end.

(** ** The default output of the desktop *)
Class RunDir := XDG_RUNTIME_DIR : option string.

Section audio.
Context `{Files} `{RunDir} `{NetNames} `{X264}.

Definition default_set A (value : option string) : audio_globals :=
  match A_md A with
  | Some _ => A⟨A_requests ::= λ l, l ++ [value]⟩
  | None => A
  end.

(** g_build_filename() of a directory without a trailing slash *)
Definition saved_path : string :=
  let dir := match XDG_RUNTIME_DIR with
             | Some d => if String.eqb d "" then "/tmp" else d
             | None => "/tmp"
             end%string in
  (dir +:+ "/" +:+ SAVED_FILE)%string.

(** The argument 1 of saved_write() is [None]. *)
Definition saved_write A (value : option (option string)) : audio_globals :=
  match value with
  | None => A⟨A_files ::= delete saved_path⟩
  | Some v =>
    if file_writable saved_path then A⟨A_files ::= <[saved_path := default "-"%string v]>⟩ else A
  end.

Definition quoted (node : string) : string := (dq +:+ node +:+ dq)%string.
Definition names_node (json : option string) (node : string) : bool :=
  match json with Some j => strstr j (g_snprintf 80 (quoted node)) | None => false end.

(** strstr() of a quote and NODE_PREFIX in it *)
Definition names_ours (json : string) : bool := strstr json (dq +:+ NODE_PREFIX).

Definition default_json (node : string) : string :=
  g_snprintf 96 ("{ " +:+ quoted "name" +:+ ": " +:+ quoted node +:+ " }")%string.

(** The first of our outputs: remember what the desktop had. *)
Definition save_default A : audio_globals :=
  if A_saved A then A
  else
    let orig := match A_cur_default A with
                | Some d => if names_ours d then None else Some d
                | None => None
                end in
    saved_write A⟨A_orig_default := orig⟩⟨A_saved := true⟩ (Some orig).

Definition audio_take_default A p : audio_globals :=
  match A_md A, A_heap A !! p with
  | Some _, Some a =>
    let A := save_default A in
    let A := default_set A (Some (default_json (a_node_name a))) in
    on_audio p (λ a, a⟨a_made_default := true⟩) A
  | _, _ => A
  end.

(** Another client of ours, still listening. *)
Fixpoint other_live A p (live : list Z) : option Z :=
  match live with
  | [] => None
  | o :: live =>
    match A_heap A !! o with
    | Some b => if negb (o =? p) && a_stream b then Some o else other_live A p live
    | None => other_live A p live
    end
  end.

Definition audio_give_back_default A p : audio_globals :=
  match A_heap A !! p, A_md A with
  | Some a, Some _ =>
    if negb (a_made_default a) then A
    else
      let A := on_audio p (λ a, a⟨a_made_default := false⟩) A in
      if bool_decide (is_Some (A_cur_default A)) &&
         negb (names_node (A_cur_default A) (a_node_name a))
      then A
      else
        match other_live A p (A_live A) with
        | Some o => audio_take_default A o
        | None =>
          let A := default_set A (A_orig_default A) in
          let A := A⟨A_orig_default := None⟩⟨A_saved := false⟩ in
          saved_write A None
        end
  | _, _ => A
  end.

(** Our output is still the default after a crash: put back what was
    saved. *)
Definition recover_default A : audio_globals :=
  match A_live A, A_cur_default A with
  | [], Some d =>
    if names_ours d then
      match A_files A !! saved_path with
      | Some v =>
        let A := default_set A (if String.eqb v "-" then None else Some v) in
        A⟨A_files ::= delete saved_path⟩
      | None => A
      end
    else A
  | _, _ => A
  end.

Definition on_md_property A (subject : Z) (key value : option string) : audio_globals :=
  let other := match key with Some k => negb (String.eqb k DEFAULT_KEY) | None => false end in
  if negb (subject =? 0) || other then A
  else
    recover_default A⟨A_cur_default := match key with Some _ => value | None => None end⟩.

(** A global appears: [name] is its "metadata.name", [bound] what
    pw_registry_bind() gave. *)
Definition on_global A (id : Z) (is_metadata : bool) (name : option string) (bound : bool)
    : audio_globals :=
  match A_md A, name with
  | None, Some n =>
    if is_metadata && String.eqb n "default" && bound then A⟨A_md := Some id⟩ else A
  | _, _ => A
  end.

Definition on_global_remove A (id : Z) : audio_globals :=
  if bool_decide (A_md A = Some id) then A⟨A_md := None⟩ else A.

Definition on_core_error A (id res : Z) : audio_globals :=
  if (id =? PW_ID_CORE) && (res =? - EPIPE) then A⟨A_broken := true⟩ else A.

Definition on_core_done A (id seq : Z) : audio_globals :=
  if id =? PW_ID_CORE then A⟨A_done_seq := seq⟩ else A.

(** Registered with the graph: a default can now resolve to it. *)
Definition on_state A p (state : pw_stream_state) : audio_globals :=
  match state, A_heap A !! p with
  | (PW_PAUSED | PW_STREAMING), Some a =>
    if a_announced a then A
    else audio_take_default (on_audio p (λ a, a⟨a_announced := true⟩) A) p
  | _, _ => A
  end.

(** ** The UDP side *)
Fixpoint find_token (heap : gmap Z SremfbAudio) (token : Z) (live : list Z) : option Z :=
  match live with
  | [] => None
  | p :: live =>
    match heap !! p with
    | Some a => if a_token a =? token then Some p else find_token heap token live
    | None => find_token heap token live
    end
  end.
Definition find_by_token A (token : Z) : option Z := find_token (A_heap A) token (A_live A).

Definition addr_ip (ss : sockaddr) : string := addr_host ss.

(** c->peer up to its last colon *)
Definition peer_ip (peer : string) : string :=
  let s := take 63 (list_ascii_of_string peer) in
  string_of_list_ascii (default s (cut_last ":"%char s)).

(** One datagram as recvfrom() delivers it, the clock, and whether the
    kernel takes the answer. *)
Record udp_in := mk_udp_in { ui_data : bytes; ui_from : sockaddr; ui_now : Z; ui_ok : bool }.

(** The output a hello is for; [peers] gives the field peer of a client. *)
Definition udp_target A (peers : nat → string) (u : udp_in)
    : option (Z * nat * sremfb_udp_hello) :=
  let data := take 16 (ui_data u) in
  let h := udp_hello_of data in
  if negb (Z.of_nat (List.length data) =? 16) || negb (uh_magic h =? SREMFB_MAGIC) ||
     negb (uh_type h =? SREMFB_UDP_AUDIO_HELLO) then None
  else
    match find_by_token A (uh_token h) with
    | Some p =>
      match A_heap A !! p with
      | Some a =>
        if String.eqb (addr_ip (ui_from u)) (peer_ip (peers (a_c a)))
        then Some (p, a_c a, h) else None
      | None => None
      end
    | None => None
    end.

(** The four steps for an accepted hello: the address, its publication, the
    time of the hello, the answer. *)
Definition udp_write_dest A p (ss : sockaddr) : audio_globals :=
  on_audio p (λ a, a⟨a_dest := Some ss⟩) A.
Definition udp_publish A p : audio_globals := on_audio p (λ a, a⟨a_have_dest := true⟩) A.
Definition udp_stamp A p (now : Z) : audio_globals := on_audio p (λ a, a⟨a_last_hello_us := now⟩) A.
Definition udp_echo A (cp : nat) (h : sremfb_udp_hello) (u : udp_in) : audio_globals :=
  sendto A cp (Some (ui_from u))
    (udp_echo_bytes (mk_udp_echo SREMFB_MAGIC SREMFB_UDP_ECHO [0; 0; 0] (uh_t_client_us h)
       (u64 (ui_now u)))) (ui_ok u).

Definition on_udp_one (peers : nat → string) A (u : udp_in) : audio_globals :=
  match udp_target A peers u with
  | Some (p, cp, h) =>
    let A :=
      if bool_decide (a_have_dest <$> A_heap A !! p = Some false)
      then udp_publish (udp_write_dest A p (ui_from u)) p else A in
    let A := udp_stamp A p (ui_now u) in
    udp_echo A cp h u
  | None => A
  end.
Definition on_udp A (peers : nat → string) (l : list udp_in) : audio_globals :=
  foldl (on_udp_one peers) A l.

(** ** Life cycle *)

(** udp_listen(): the descriptors socket() gave for IPv6 and IPv4 and
    whether bind() worked; the second component is what is closed. *)
Definition udp_listen (fd6 fd4 : Z) (bind6 bind4 : bool) : Z * list Z :=
  let v4 := if fd4 <? 0 then (-1, []) else if bind4 then (fd4, []) else (-1, [fd4]) in
  if 0 <=? fd6 then (if bind6 then (fd6, []) else (v4.1, fd6 :: v4.2)) else v4.

Definition pw_disconnect A : audio_globals :=
  A⟨A_md := None⟩⟨A_registry := false⟩⟨A_core := false⟩⟨A_cur_default := None⟩⟨A_broken := false⟩.

(** [conn]: pw_context_connect() gave a core. *)
Definition pw_connect A (conn : bool) : bool * audio_globals :=
  if A_core A && negb (A_broken A) then (true, A)
  else
    let A := if A_core A then pw_disconnect A else A in
    if conn then (true, A⟨A_core := true⟩⟨A_registry := true⟩) else (false, A⟨A_core := false⟩).

(** [env] is SREMFB_AUDIO, [fd] what udp_listen() returned, [loop] whether
    the PipeWire thread loop and context came up, [watch] the source id. *)
Definition sremfb_audio_init A (env : option string) (fd : Z) (loop conn : bool) (watch : Z)
    : audio_globals :=
  if bool_decide (env = Some "0"%string) then A
  else
    let A := A⟨A_udp_fd := fd⟩ in
    if fd <? 0 then A
    else if negb loop then A⟨A_udp_fd := -1⟩
    else
      let A := A⟨A_thread := true⟩⟨A_live := []⟩ in
      let A := (pw_connect A conn).2 in
      A⟨A_udp_watch := watch⟩⟨A_enabled := true⟩.

(** do { draw } while (taken): the draws of g_random_int_range(1, 65536) *)
Fixpoint pick_token A (draws : list Z) : option Z :=
  match draws with
  | [] => None
  | t :: draws =>
    match find_by_token A (u16 t) with Some _ => pick_token A draws | None => Some (u16 t) end
  end.

Definition node_name (mac : bytes) : string :=
  g_snprintf 48 (NODE_PREFIX +:+ String.concat "" (hex2 <$> take 6 mac)).
Definition audio_desc (c : SremfbClient) : string :=
  let model := g_strstrip (c_string (take 13 (ch_model (c_hello c)))) in
  g_snprintf 48
    ("sRemFB " +:+ match model with [] => c_macstr c | _ => string_of_list_ascii model end).

(** What PipeWire answers to sremfb_audio_start(). *)
Record start_ans := mk_start_ans {
  st_draws : list Z; st_conn : bool; st_stream : bool; st_connected : bool }.

(** [None]: still drawing tokens.  [cp] is the client's number. *)
Definition sremfb_audio_start A (cp : nat) (c : SremfbClient) (r : start_ans)
    : option (Z * SremfbClient * audio_globals) :=
  if negb (c_audio_cap c) || negb (A_enabled A) || bool_decide (is_Some (c_audio c))
  then Some (0, c, A)
  else
    token ← pick_token A (st_draws r);
    let a := mk_audio cp true (node_name (ch_mac (c_hello c))) (audio_desc c) token
      false false None false 0 0 0 0 in
    let '(ok, A) := pw_connect A (st_conn r) in
    if negb ok || negb (st_stream r) || negb (st_connected r) then Some (0, c, A)
    else
      let p := A_next A in
      let A := A⟨A_heap ::= <[p := a]>⟩⟨A_next ::= Z.succ⟩⟨A_live ::= λ l, l ++ [p]⟩ in
      Some (SREMFB_SRV_FLAG_AUDIO, c⟨c_audio := Some p⟩⟨c_audio_token := token⟩, A).

Definition sremfb_audio_stop A (c : SremfbClient) : SremfbClient * audio_globals :=
  match c_audio c with
  | None => (c, A)
  | Some p =>
    let A := A⟨A_live ::= λ l, filter (λ q, q ≠ p) l⟩ in
    let A := audio_give_back_default A p in
    (c⟨c_audio := None⟩, A⟨A_heap ::= delete p⟩)
  end.

(** At most twenty waits for the answer to the sync. *)
Fixpoint sync_wait (n : nat) A (dones : list (option Z)) : audio_globals :=
  match n with
  | O => A
  | S n =>
    if A_done_seq A =? A_sync_seq A then A
    else
      let A := match head dones with
               | Some (Some seq) => on_core_done A PW_ID_CORE seq
               | _ => A
               end in
      sync_wait n A (tail dones)
  end.

Definition sremfb_audio_shutdown A (sync : Z) (dones : list (option Z)) : audio_globals :=
  if negb (A_enabled A) then A
  else
    let A := A⟨A_udp_watch := 0⟩ in
    let A := if A_core A && negb (A_broken A) then sync_wait 20 A⟨A_sync_seq := sync⟩ dones else A in
    let A := pw_disconnect A in
    A⟨A_thread := false⟩⟨A_live := []⟩⟨A_udp_fd := -1⟩⟨A_enabled := false⟩.
End audio.
