(* ===== verification/ViewAudio.v ===== *)
(** * view/audio.c: the viewer's sound

    The receiver of the UDP flow: packets, concealment of holes, the level
    of the SDL stream that serves as jitter buffer, the drift correction,
    the echoes, and the thread around it.  SDL's stream is the class
    [SDLAudio]; the device drains it on its own, so the stream a packet
    finds is an argument of [on_packet].  A [double] is a binary64 value;
    clock readings, datagrams and what poll(2) returned are arguments.
    [va_log] is the ghost record of what was handed to the stream, with
    the sequence numbers of the packets; [va_sent] of the datagrams sent. *)
From S2P Require Import Prelude Binary64 Protocol.
From stdpp Require Import list.
#[local] Open Scope list_scope.
#[local] Open Scope Z_scope.

(** SDL's audio stream: bytes queued, put, clear, frequency ratio. *)
Class SDLAudio := {
  SDL_AudioStream : Type;
  SDL_GetAudioStreamQueued : SDL_AudioStream → Z;
  SDL_PutAudioStreamData : SDL_AudioStream → bytes → SDL_AudioStream;
  SDL_ClearAudioStream : SDL_AudioStream → SDL_AudioStream;
  SDL_SetAudioStreamFrequencyRatio : SDL_AudioStream → double → SDL_AudioStream }.

(** What SDL documents: put queues the bytes at the end, clear drops all. *)
Class SDLAudioLaws (S : SDLAudio) := {
  sdl_put s b : SDL_GetAudioStreamQueued (SDL_PutAudioStreamData s b) =
    SDL_GetAudioStreamQueued s + Z.of_nat (length b);
  sdl_clear s : SDL_GetAudioStreamQueued (SDL_ClearAudioStream s) = 0;
  sdl_ratio s r : SDL_GetAudioStreamQueued (SDL_SetAudioStreamFrequencyRatio s r) =
    SDL_GetAudioStreamQueued s }.

Definition SREMFB_AUDIO_CHANNELS : Z := 2.
Definition BYTES_PER_FRAME : Z := SREMFB_AUDIO_CHANNELS * 2.
Definition DROP_SLACK_MS : double := D_of_Z 10.
Definition IDLE_GAP_NS : Z := 60000000.
Definition HELLO_FAST_MS : Z := 250.
Definition HELLO_EVERY_MS : Z := 1000.
Definition ECHO_WINDOW : Z := 8.
Definition RATIO_MAX : double := D_lit 3 3.
Definition RATIO_GAIN : double := D_lit 3 4.
Definition CONCEAL_MAX : Z := 8.
Definition AUDIO_HDR_SIZE : Z := 24.

(** The cast to float: rounded to 24 bits. *)
Definition to_float (x : double) : double :=
  match x with
  | S754_finite s m e => binary_normalize 24 128 (if s then Z.neg m else Z.pos m) e s
  | x => x
  end.

(** The audio counters of struct view_stats. *)
Record audio_stats := mk_astats {
  s_active : bool; s_packets : Z; s_lost : Z; s_late : Z; s_dropped : Z; s_underruns : Z;
  s_restarts : Z; s_owd_us : Z; s_owd_n : Z; s_level_us : Z; s_level_n : Z; s_ratio_ppm : Z;
  s_rtt_us : Z }.
#[export] Instance eta_astats : Eta audio_stats := λ s,
  mk_astats (s_active s) (s_packets s) (s_lost s) (s_late s) (s_dropped s) (s_underruns s)
    (s_restarts s) (s_owd_us s) (s_owd_n s) (s_level_us s) (s_level_n s) (s_ratio_ppm s) (s_rtt_us s).

(** struct view_audio_probe of view.h *)
Record view_audio_probe := mk_probe { p_armed : bool; p_run : Z; p_hit_ns : Z; p_out_ns : Z }.
#[export] Instance eta_aprobe : Eta view_audio_probe := λ p,
  mk_probe (p_armed p) (p_run p) (p_hit_ns p) (p_out_ns p).

(** What is handed to the stream. *)
Inductive audio_put := PClear | PSilence (frames : Z) | PPcm (seq : Z) (pcm : bytes).

Section audio.
Context `{SDLAudio}.

Record view_audio := mk_view_audio {
  va_st : audio_stats; va_probe : option view_audio_probe; va_target_ms : double;
  va_dump : option bytes; va_stop : bool; va_token : Z; va_stream : SDL_AudioStream;
  va_dev_ms : double; va_started : bool; va_dropping : bool; va_next_seq : Z;
  va_last_rx_ns : Z; va_level_ewma_ms : double; va_ratio : double; va_since_ratio : Z;
  va_echo : list (Z * Z); va_echo_n : Z; va_echo_i : Z; va_offset_us : Z;
  va_have_offset : bool; va_log : list audio_put; va_sent : list bytes }.
#[export] Instance eta_view_audio : Eta view_audio := λ a,
  mk_view_audio (va_st a) (va_probe a) (va_target_ms a) (va_dump a) (va_stop a) (va_token a)
    (va_stream a) (va_dev_ms a) (va_started a) (va_dropping a) (va_next_seq a) (va_last_rx_ns a)
    (va_level_ewma_ms a) (va_ratio a) (va_since_ratio a) (va_echo a) (va_echo_n a) (va_echo_i a)
    (va_offset_us a) (va_have_offset a) (va_log a) (va_sent a).
Implicit Types a : view_audio.

(** atomic_fetch_add on an unsigned long long *)
Definition count (x n : Z) : Z := u64 (x + n).

Definition queued_ms a : double :=
  let q := SDL_GetAudioStreamQueued (va_stream a) in
  if 0 <? q
  then Ddiv (Dmul (Ddiv (D_of_Z q) (D_of_Z BYTES_PER_FRAME)) (D_of_Z 1000)) (D_of_Z SREMFB_AUDIO_RATE)
  else D0.

Definition put a (pcm : bytes) : view_audio :=
  a⟨va_stream := SDL_PutAudioStreamData (va_stream a) pcm⟩⟨va_dump ::= fmap (λ d, d ++ pcm)⟩.

(** The frames of [ms] milliseconds. *)
Definition silence_frames (ms : double) : Z :=
  D_trunc (Ddiv (Dmul ms (D_of_Z SREMFB_AUDIO_RATE)) (D_of_Z 1000)).

(** Chunks of at most the size of the static buffer; [fuel] bounds their
    number. *)
Definition ZERO_SIZE : Z := SREMFB_AUDIO_MAX_FRAMES * BYTES_PER_FRAME.
Fixpoint put_zeros (fuel : nat) a (len : Z) : view_audio :=
  match fuel with
  | O => a
  | S fuel =>
    if 0 <? len then
      let n := if len <? ZERO_SIZE then len else ZERO_SIZE in
      put_zeros fuel (put a (replicate (Z.to_nat n) 0)) (len - n)
    else a
  end.
Definition put_silence a (ms : double) : view_audio :=
  let frames := silence_frames ms in
  let len := frames * BYTES_PER_FRAME in
  (put_zeros (Z.to_nat len) a len)⟨va_log ::= λ l, l ++ [PSilence frames]⟩.

(** ** Hellos and echoes *)
Definition send_hello a (now_ns : Z) : view_audio :=
  a⟨va_sent ::= λ l, l ++ [udp_hello_bytes
      (mk_udp_hello SREMFB_MAGIC SREMFB_UDP_AUDIO_HELLO 0 (va_token a) (u64 (now_ns / 1000)))]⟩.

(** The index of the smallest round trip. *)
Definition best_echo (echo : list (Z * Z)) (n : Z) : Z :=
  for_ 1 (n - 1)
    (λ i best, if (nth (Z.to_nat i) echo (0, 0)).1 <? (nth (Z.to_nat best) echo (0, 0)).1
               then i else best) 0.

Definition on_echo a (e : sremfb_udp_echo) (now_ns : Z) : view_audio :=
  let t3 := now_ns / 1000 in
  let t1 := s64 (ue_t_client_us e) in
  let rtt := t3 - t1 in
  if (rtt <? 0) || (1000000 <? rtt) then a
  else
    let a := a⟨va_echo ::= <[Z.to_nat (va_echo_i a) :=
                 (rtt, s64 (ue_t_server_us e) - Z.quot (t1 + t3) 2)]>⟩ in
    let a := a⟨va_echo_i := (va_echo_i a + 1) mod ECHO_WINDOW⟩ in
    let a := if va_echo_n a <? ECHO_WINDOW then a⟨va_echo_n ::= Z.succ⟩ else a in
    let best := nth (Z.to_nat (best_echo (va_echo a) (va_echo_n a))) (va_echo a) (0, 0) in
    a⟨va_offset_us := best.2⟩⟨va_have_offset := true⟩⟨va_st ::= λ s, s⟨s_rtt_us := u32 best.1⟩⟩.

(** ** The latency probe *)
Definition s16_at (pcm : bytes) (i : Z) : Z :=
  (get 2 (2 * i) pcm + 2 ^ 15) mod 2 ^ 16 - 2 ^ 15.
Definition is_click (pcm : bytes) (i : Z) : bool :=
  let l := s16_at pcm (2 * i) in let r := s16_at pcm (2 * i + 1) in
  (4000 <? l) && (r <? -4000) && (Z.abs (l + r) <? Z.quot l 8).

(** [n] frames are left from frame [i]; gives the onset (-1: none) and the
    run. *)
Fixpoint find_click (n : nat) (pcm : bytes) (i run : Z) : Z * Z :=
  match n with
  | O => (-1, run)
  | S n =>
    if is_click pcm i then
      let run := u32 (run + 1) in
      if run =? 16 then (if i - 15 <? 0 then 0 else i - 15, run)
      else find_click n pcm (i + 1) run
    else find_click n pcm (i + 1) 0
  end.

Definition probe_click a (pcm : bytes) (frames rx_ns : Z) (q : double) : view_audio :=
  match va_probe a with
  | Some p =>
    if p_armed p then
      let '(at_, run) := find_click (Z.to_nat frames) pcm 0 (p_run p) in
      let p := p⟨p_run := run⟩ in
      if 0 <=? at_ then
        let ahead := Dadd (Dadd q (Ddiv (Dmul (D_of_Z at_) (D_of_Z 1000)) (D_of_Z SREMFB_AUDIO_RATE)))
                       (va_dev_ms a) in
        let out := u64 (rx_ns + D_trunc (Dmul ahead (D_of_Z 1000000))) in
        a⟨va_probe := Some p⟨p_out_ns := out⟩⟨p_hit_ns := rx_ns⟩⟨p_armed := false⟩⟩
      else a⟨va_probe := Some p⟩
    else a
  | None => a
  end.

(** ** Packets *)
Definition packet_ok (h : sremfb_audio_hdr) (len : Z) : bool :=
  negb (negb (ah_format h =? SREMFB_AUDIO_S16LE_48K_STEREO) || (ah_frames h =? 0) ||
        (SREMFB_AUDIO_MAX_FRAMES <? ah_frames h) ||
        negb (len =? AUDIO_HDR_SIZE + ah_frames h * BYTES_PER_FRAME)).

Definition pkt_ms (frames : Z) : double :=
  Ddiv (Dmul (D_of_Z frames) (D_of_Z 1000)) (D_of_Z SREMFB_AUDIO_RATE).

(** A pause in the sound, or the very first packet: start over. *)
Definition packet_gap a (rx_ns : Z) : view_audio :=
  let a :=
    if negb (va_started a) || (IDLE_GAP_NS <? u64 (rx_ns - va_last_rx_ns a)) then
      let a := if va_started a && Dleb (queued_ms a) D0
               then a⟨va_st ::= λ s, s⟨s_restarts ::= λ n, count n 1⟩⟩ else a in
      a⟨va_started := false⟩
    else a in
  a⟨va_last_rx_ns := rx_ns⟩.

(** [None]: late or duplicate. *)
Definition packet_seq a (h : sremfb_audio_hdr) : view_audio * bool :=
  if va_started a then
    let d := s32 (ah_seq h - va_next_seq a) in
    if d <? 0 then (a⟨va_st ::= λ s, s⟨s_late ::= λ n, count n 1⟩⟩, false)
    else if 0 <? d then
      let a := a⟨va_st ::= λ s, s⟨s_lost ::= λ n, count n d⟩⟩ in
      if d <=? CONCEAL_MAX then (put_silence a (Dmul (D_of_Z d) (pkt_ms (ah_frames h))), true)
      else (a⟨va_started := false⟩, true)
    else (a, true)
  else (a, true).

(** The level ahead of the packet. *)
Definition packet_level a : view_audio * double :=
  let q := queued_ms a in
  if negb (va_started a) then
    let a := a⟨va_stream ::= SDL_ClearAudioStream⟩⟨va_log ::= λ l, l ++ [PClear]⟩ in
    let a := put_silence a (va_target_ms a) in
    (a⟨va_started := true⟩⟨va_dropping := false⟩⟨va_level_ewma_ms := va_target_ms a⟩, va_target_ms a)
  else if Dleb q D0 then
    let a := a⟨va_st ::= λ s, s⟨s_underruns ::= λ n, count n 1⟩⟩ in
    (put_silence a (va_target_ms a), va_target_ms a)
  else (a, q).

(** Too deep: the packet is thrown away ([false]). *)
Definition packet_drop a (q : double) : view_audio * bool :=
  let a := if Dltb (Dadd (va_target_ms a) DROP_SLACK_MS) q then a⟨va_dropping := true⟩ else a in
  if va_dropping a then
    if Dltb (va_target_ms a) q
    then (a⟨va_st ::= λ s, s⟨s_dropped ::= λ n, count n 1⟩⟩, false)
    else (a⟨va_dropping := false⟩, true)
  else (a, true).

(** One-way delay and level. *)
Definition packet_stats a (h : sremfb_audio_hdr) (rx_ns : Z) (q : double) : view_audio :=
  let a :=
    if va_have_offset a then
      let owd := rx_ns / 1000 - (s64 (ah_t_us h) - va_offset_us a) in
      a⟨va_st ::= λ s, s⟨s_owd_us ::= λ n, count n (if 0 <? owd then owd else 0)⟩
                        ⟨s_owd_n ::= λ n, count n 1⟩⟩
    else a in
  a⟨va_st ::= λ s, s⟨s_level_us ::= λ n, count n (D_trunc (Dmul q (D_of_Z 1000)))⟩
                    ⟨s_level_n ::= λ n, count n 1⟩⟩.

(** The rate for an average level that is [err] ms off. *)
Definition drift_ratio (err : double) : double :=
  let r := Dadd (D_of_Z 1) (Dmul err RATIO_GAIN) in
  let r := if Dltb (Dadd (D_of_Z 1) RATIO_MAX) r then Dadd (D_of_Z 1) RATIO_MAX else r in
  if Dltb r (Dsub (D_of_Z 1) RATIO_MAX) then Dsub (D_of_Z 1) RATIO_MAX else r.

Definition packet_drift a (q : double) (pms : double) : view_audio :=
  let l := va_level_ewma_ms a in
  let a := a⟨va_level_ewma_ms := Dadd l (Dmul (D_lit 2 3) (Dsub (Dadd q pms) l))⟩
            ⟨va_since_ratio ::= λ n, u32 (n + 1)⟩ in
  if 40 <=? va_since_ratio a then
    let r := drift_ratio (Dsub (va_level_ewma_ms a) (Dadd (va_target_ms a) pms)) in
    let a := if negb (Deqb r (va_ratio a))
             then a⟨va_stream ::= λ s, SDL_SetAudioStreamFrequencyRatio s (to_float r)⟩⟨va_ratio := r⟩
             else a in
    a⟨va_st ::= λ s, s⟨s_ratio_ppm := D_trunc (Dmul (Dsub r (D_of_Z 1)) (D_of_Z 1000000))⟩⟩
     ⟨va_since_ratio := 0⟩
  else a.

(** [sdl] is the stream as the device left it. *)
Definition on_packet a (buf : bytes) (rx_ns : Z) (sdl : SDL_AudioStream) : view_audio :=
  let a := a⟨va_stream := sdl⟩ in
  let h := audio_hdr_of buf in
  if negb (packet_ok h (Z.of_nat (length buf))) then a
  else
    let a := a⟨va_st ::= λ s, s⟨s_packets ::= λ n, count n 1⟩⟩ in
    let a := packet_gap a rx_ns in
    let '(a, fresh) := packet_seq a h in
    if negb fresh then a
    else
      let '(a, q) := packet_level a in
      let a := a⟨va_next_seq := u32 (ah_seq h + 1)⟩ in
      let '(a, keep) := packet_drop a q in
      if negb keep then a
      else
        let pcm := drop (Z.to_nat AUDIO_HDR_SIZE) buf in
        let a := probe_click a pcm (ah_frames h) rx_ns q in
        let a := (put a pcm)⟨va_log ::= λ l, l ++ [PPcm (ah_seq h) pcm]⟩ in
        let a := packet_stats a h rx_ns q in
        packet_drift a q (pkt_ms (ah_frames h)).

(** ** The thread *)

(** A datagram, the clock after recv() and in on_echo(), and the stream at
    that time. *)
Record dgram := mk_dgram {
  dg_data : bytes; dg_rx_ns : Z; dg_echo_ns : Z; dg_sdl : SDL_AudioStream }.

Definition on_datagram (s : view_audio * bool) (d : dgram) : view_audio * bool :=
  let '(a, got_audio) := s in
  let buf := take 2048 (dg_data d) in
  let n := Z.of_nat (length buf) in
  if (n <? 8) || negb (get 4 0 buf =? SREMFB_MAGIC) then (a, got_audio)
  else if (get 1 4 buf =? SREMFB_UDP_AUDIO) && (AUDIO_HDR_SIZE <=? n)
  then (on_packet a buf (dg_rx_ns d) (dg_sdl d), true)
  else if (get 1 4 buf =? SREMFB_UDP_ECHO) && (n =? 24)
  then (on_echo a (udp_echo_of buf) (dg_echo_ns d), got_audio)
  else (a, got_audio).

(** What poll(2) reported: an error that ends the thread, nothing, the stop
    descriptor, or the datagrams then read. *)
Inductive audio_poll := AErr | ANone | AStop | ARead (l : list dgram).

(** One turn: the hello when it is due, then poll; [now] and [now'] are the
    clock before it and in send_hello(). *)
Record audio_turn := mk_turn { at_now : Z; at_now' : Z; at_poll : audio_poll }.
Record audio_loop := mk_loop { al_a : view_audio; al_next_hello : Z; al_got_audio : bool }.

Definition hello_due (s : audio_loop) (now now' : Z) : audio_loop :=
  if al_next_hello s <=? now
  then mk_loop (send_hello (al_a s) now')
         (now + (if al_got_audio s then HELLO_EVERY_MS else HELLO_FAST_MS) * 1000000)
         (al_got_audio s)
  else s.
Definition poll_timeout (s : audio_loop) (now : Z) : Z := (al_next_hello s - now) / 1000000 + 1.

Definition audio_thread_turn (s : audio_loop) (t : audio_turn) : audio_loop * bool :=
  if va_stop (al_a s) then (s, false)
  else
    let s := hello_due s (at_now t) (at_now' t) in
    match at_poll t with
    | AErr | AStop => (s, false)
    | ANone => (s, true)
    | ARead l =>
      let '(a, got) := foldl on_datagram (al_a s, al_got_audio s) l in
      (mk_loop a (al_next_hello s) got, true)
    end.

(** audio_thread(): turns until one ends it. *)
Fixpoint audio_thread (s : audio_loop) (ts : list audio_turn) : audio_loop :=
  match ts with
  | [] => s
  | t :: ts => let '(s, go) := audio_thread_turn s t in if go then audio_thread s ts else s
  end.

(** ** Start and stop *)

(** What the sockets, SDL, fopen() and the thread answer. *)
Record start_env := mk_senv {
  sv_sock : bool; sv_stream : option SDL_AudioStream; sv_device : option (Z * Z);
  sv_dump : option bool; sv_thread : bool }.

(** [sv_device] is the device's period in frames with its rate, [sv_dump]
    whether the file of --audio-dump was asked for and opened. *)
Definition view_audio_start (token : Z) (target_ms : double) (st : audio_stats)
    (probe : option view_audio_probe) (r : start_env) : option view_audio :=
  if negb (sv_sock r) then None
  else
    sdl ← sv_stream r;
    let dev_ms := match sv_device r with
                  | Some (dframes, freq) =>
                    if (0 <? dframes) && (0 <? freq)
                    then Ddiv (Dmul (D_of_Z dframes) (D_of_Z 1000)) (D_of_Z freq) else D0
                  | None => D0
                  end in
    let dump := match sv_dump r with Some true => Some [] | _ => None end in
    if negb (sv_thread r) then None
    else
      Some (mk_view_audio st⟨s_active := true⟩ probe target_ms dump false token sdl dev_ms
        false false 0 0 D0 (D_of_Z 1) 0 (replicate (Z.to_nat ECHO_WINDOW) (0, 0)) 0 0 0 false [] []).

Definition view_audio_stop a : audio_stats := (va_st a)⟨s_active := false⟩.
End audio.
