(* ===== verification/AudioFlow.v ===== *)
(** * From the server's samples to the viewer's sound stream

    What one packet does to the receiver ([core]: the fields that decide
    what is heard), and runs of packets. *)
From S2P Require Import Prelude Binary64 Protocol Core Net Session Audio ViewAudio.
From Stdlib Require Import Sorted.
From stdpp Require Import gmap strings list.
#[local] Open Scope list_scope.
#[local] Open Scope Z_scope.

(** ** One packet at the viewer *)
Section packet.
Context `{S : SDLAudio}.
Implicit Types a : view_audio.

(** What was heard and what decides about the next packet. *)
Definition core a :=
  (va_log a, va_started a, va_dropping a, va_next_seq a, va_last_rx_ns a, va_target_ms a).

Lemma core_put a pcm : core (put a pcm) = core a.
Proof. done. Qed.

Lemma core_put_zeros n a len : core (put_zeros n a len) = core a.
Proof.
  revert a len. induction n as [|n IH]; intros a len; cbn [put_zeros]; [done|].
  destruct (0 <? len); [|done]. by rewrite IH.
Qed.

Lemma core_silence a ms :
  core (put_silence a ms) =
    (va_log a ++ [PSilence (silence_frames ms)], va_started a, va_dropping a, va_next_seq a,
     va_last_rx_ns a, va_target_ms a).
Proof.
  unfold put_silence. cbv zeta. pose proof (core_put_zeros
    (Z.to_nat (silence_frames ms * BYTES_PER_FRAME)) a (silence_frames ms * BYTES_PER_FRAME)) as Hc.
  set (b := put_zeros _ _ _) in *. clearbody b. unfold core in *. cbn. injection Hc as -> -> -> -> -> ->.
  done.
Qed.

Lemma core_probe a pcm frames rx q : core (probe_click a pcm frames rx q) = core a.
Proof. unfold probe_click. by repeat case_match. Qed.
Lemma core_stats a h rx q : core (packet_stats a h rx q) = core a.
Proof. unfold packet_stats. by destruct (va_have_offset a). Qed.
Lemma core_drift a q pms : core (packet_drift a q pms) = core a.
Proof. unfold packet_drift. cbv zeta. destruct (40 <=? _); [|done]. by case_match. Qed.

(** A hole of [d] packets, when it is short enough to be concealed. *)
Definition hole_log (d frames : Z) : list audio_put :=
  if 0 <? d then [PSilence (silence_frames (Dmul (D_of_Z d) (pkt_ms frames)))] else [].

(** No sound for a while, or none yet. *)
Definition pause a (rx : Z) : bool :=
  negb (va_started a) || (IDLE_GAP_NS <? u64 (rx - va_last_rx_ns a)).

Lemma core_gap a rx :
  core (packet_gap a rx) =
    (va_log a, negb (pause a rx), va_dropping a, va_next_seq a, rx, va_target_ms a).
Proof.
  unfold packet_gap, pause. destruct (va_started a) eqn:E; cbn [negb orb andb].
  - destruct (IDLE_GAP_NS <? _); [|by unfold core; cbn; rewrite E].
    destruct (Dleb (queued_ms a) D0); done.
  - done.
Qed.

(** Up to the decision on the level: the state, and whether the packet is
    new. *)
Definition packet_new a (buf : bytes) (rx : Z) (sdl : SDL_AudioStream) : view_audio * bool :=
  let a := a⟨va_stream := sdl⟩⟨va_st ::= λ s, s⟨s_packets ::= λ n, count n 1⟩⟩ in
  packet_seq (packet_gap a rx) (audio_hdr_of buf).

(** The distance of a packet from the one expected. *)
Definition distance a (buf : bytes) : Z := s32 (ah_seq (audio_hdr_of buf) - va_next_seq a).

Lemma core_new a buf rx sdl :
  let '(b, fresh) := packet_new a buf rx sdl in
  let d := distance a buf in
  let f := ah_frames (audio_hdr_of buf) in
  let hole := negb (pause a rx) && (d <=? CONCEAL_MAX) in
  fresh = pause a rx || (0 <=? d) ∧
  core b = (va_log a ++ (if hole && fresh then hole_log d f else []), hole,
            va_dropping a, va_next_seq a, rx, va_target_ms a).
Proof.
  unfold packet_new, packet_seq, hole_log.
  set (a0 := a⟨va_stream := sdl⟩⟨va_st ::= _⟩).
  assert (E0 : pause a0 rx = pause a rx ∧ va_next_seq a0 = va_next_seq a ∧ va_log a0 = va_log a ∧
    va_dropping a0 = va_dropping a ∧ va_target_ms a0 = va_target_ms a) by done. clearbody a0.
  destruct E0 as (P&Nx&L&D&T). pose proof (core_gap a0 rx) as Hc.
  set (b := packet_gap a0 rx) in *. clearbody b. rewrite P, Nx, L, D, T in Hc.
  assert (Hs : va_started b = negb (pause a rx) ∧ va_next_seq b = va_next_seq a)
    by (unfold core in Hc; split; congruence).
  destruct Hs as [Hs Hn]. rewrite Hs, Hn.
  fold (distance a buf). set (d := distance a buf). clearbody d.
  destruct (pause a rx) eqn:Hp; cbn [negb andb orb]; [by rewrite app_nil_r|].
  destruct (d <? 0) eqn:Hd0.
  - replace (0 <=? d) with false by lia. replace (d <=? CONCEAL_MAX) with true by (unfold CONCEAL_MAX; lia).
    split; [done|]. rewrite app_nil_r. exact Hc.
  - replace (0 <=? d) with true by lia.
    destruct (0 <? d) eqn:Hd1.
    + destruct (d <=? CONCEAL_MAX) eqn:Hd8.
      * split; [done|]. rewrite core_silence. unfold core in Hc. cbn. injection Hc as -> -> -> -> -> ->. done.
      * split; [done|]. rewrite app_nil_r. unfold core in *. cbn. injection Hc as -> _ -> -> -> ->. done.
    + replace (d <=? CONCEAL_MAX) with true by (unfold CONCEAL_MAX; lia).
      rewrite app_nil_r. split; [done|exact Hc].
Qed.

(** The level ahead of a new packet. *)
Lemma core_level b :
  let '(c, q) := packet_level b in
  (va_started b = false ∧ q = va_target_ms b ∧
     core c = (va_log b ++ [PClear; PSilence (silence_frames (va_target_ms b))], true, false,
               va_next_seq b, va_last_rx_ns b, va_target_ms b)) ∨
  (va_started b = true ∧ Dleb (queued_ms b) D0 = true ∧ q = va_target_ms b ∧
     core c = (va_log b ++ [PSilence (silence_frames (va_target_ms b))], true, va_dropping b,
               va_next_seq b, va_last_rx_ns b, va_target_ms b)) ∨
  (va_started b = true ∧ Dleb (queued_ms b) D0 = false ∧ q = queued_ms b ∧ c = b).
Proof.
  unfold packet_level. cbv zeta. destruct (va_started b) eqn:Hs; cbn [negb].
  - destruct (Dleb (queued_ms b) D0) eqn:Hq; right; [left|by right].
    split_and!; try done. rewrite core_silence. unfold core. cbn. by rewrite Hs.
  - left. set (b1 := b⟨va_stream ::= _⟩⟨va_log ::= _⟩).
    pose proof (core_silence b1 (va_target_ms b)) as Hc.
    change (va_target_ms b1) with (va_target_ms b).
    set (b2 := put_silence _ _) in *. clearbody b2. unfold core in *. cbn in Hc |- *.
    injection Hc as E1 _ _ E4 E5 E6. rewrite E1, E4, E5, E6. by rewrite <- app_assoc.
Qed.

(** Thrown away or kept, by the level [q]. *)
Definition level_fits (target : double) (dropping : bool) (q : double) : Prop :=
  Dltb target q = false ∨ (dropping = false ∧ Dltb (Dadd target DROP_SLACK_MS) q = false).

Definition level_deep (target : double) (dropping : bool) (q : double) : Prop :=
  Dltb target q = true ∧ (dropping = true ∨ Dltb (Dadd target DROP_SLACK_MS) q = true).

Lemma core_drop c q :
  let '(e, keep) := packet_drop c q in
  (keep = false → level_deep (va_target_ms c) (va_dropping c) q) ∧
  (keep = true → level_fits (va_target_ms c) (va_dropping c) q) ∧ va_stream e = va_stream c ∧
  core e = (va_log c, va_started c, negb keep, va_next_seq c, va_last_rx_ns c, va_target_ms c).
Proof.
  unfold packet_drop, level_fits, level_deep, core.
  destruct (Dltb (Dadd _ _) q) eqn:Hs, (va_dropping c) eqn:Hd, (Dltb (va_target_ms c) q) eqn:Ht; cbn;
    rewrite ?Hs, ?Hd, ?Ht; cbn; rewrite ?Hd; split_and!; try done; auto.
Qed.

(** One whole packet. *)
Definition pcm_of (buf : bytes) : bytes := drop (Z.to_nat AUDIO_HDR_SIZE) buf.
Definition seq_of (buf : bytes) : Z := ah_seq (audio_hdr_of buf).
Definition valid_packet (buf : bytes) : bool :=
  packet_ok (audio_hdr_of buf) (Z.of_nat (length buf)).

Lemma on_packet_cases `{!SDLAudioLaws S} a buf rx sdl :
  valid_packet buf = true →
  let '(b, fresh) := packet_new a buf rx sdl in
  let '(c, q) := packet_level b in
  let a' := on_packet a buf rx sdl in
  (fresh = false ∧ a' = b) ∨
  (fresh = true ∧ level_deep (va_target_ms c) (va_dropping c) q ∧
     core a' = (va_log c, va_started c, true, u32 (seq_of buf + 1), va_last_rx_ns c, va_target_ms c)) ∨
  (fresh = true ∧ level_fits (va_target_ms c) (va_dropping c) q ∧
     core a' = (va_log c ++ [PPcm (seq_of buf) (pcm_of buf)], va_started c, false,
                u32 (seq_of buf + 1), va_last_rx_ns c, va_target_ms c) ∧
     SDL_GetAudioStreamQueued (va_stream a') =
       SDL_GetAudioStreamQueued (va_stream c) + Z.of_nat (length (pcm_of buf))).
Proof.
  unfold valid_packet, on_packet. intros Hok. rewrite Hok. cbn [negb].
  change (packet_seq _ _) with (packet_new a buf rx sdl).
  destruct (packet_new a buf rx sdl) as [b fresh]. destruct (packet_level b) as [c q] eqn:El.
  destruct fresh; cbn [negb]; [|by left].
  fold (seq_of buf) (pcm_of buf). set (c1 := c⟨va_next_seq := _⟩).
  assert (Ec : core c1 = (va_log c, va_started c, va_dropping c, u32 (seq_of buf + 1), va_last_rx_ns c,
    va_target_ms c) ∧ va_stream c1 = va_stream c) by done. clearbody c1. destruct Ec as [Ec Es].
  pose proof (core_drop c1 q) as Hd. destruct (packet_drop c1 q) as [e keep].
  destruct Hd as (Hk&Hf&Hs&Hc). unfold core in Ec. injection Ec as E1 E2 E3 E4 E5 E6.
  rewrite E1, E2, E4, E5, E6 in Hc. rewrite E3, E6 in Hk. rewrite E3, E6 in Hf.
  destruct keep; cbn [negb] in *; [|right; left; auto].
  right; right. split; [done|]. split; [auto|].
  set (f := probe_click _ _ _ _ _).
  assert (Ef : core f = core e ∧ va_stream f = va_stream e).
  { subst f. rewrite core_probe. split; [done|]. unfold probe_click. by repeat case_match. }
  clearbody f. destruct Ef as [Ef Esf]. rewrite core_drift, core_stats. split.
  - rewrite Hc in Ef. unfold core in Ef. unfold core. cbn. injection Ef as -> -> -> -> -> ->. done.
  - set (g := (put f (pcm_of buf))⟨va_log ::= _⟩).
    assert (Eg : SDL_GetAudioStreamQueued (va_stream g) =
      SDL_GetAudioStreamQueued (va_stream c) + Z.of_nat (length (pcm_of buf))).
    { subst g. cbn. rewrite sdl_put, Esf, Hs, Es. done. }
    clearbody g. unfold packet_drift. cbv zeta.
    assert (Est : va_stream (packet_stats g (audio_hdr_of buf) rx q) = va_stream g)
      by (unfold packet_stats; by destruct (va_have_offset g)).
    set (k := packet_stats _ _ _ _) in *. clearbody k.
    destruct (40 <=? _); [|cbn; by rewrite Est].
    destruct (negb _); cbn; rewrite ?sdl_ratio, Est; done.
Qed.
End packet.

(** ** Runs of datagrams *)
Section run.
Context `{S : SDLAudio} `{!SDLAudioLaws S}.
Implicit Types (a : view_audio) (d : dgram).

(** The bytes recv() leaves in the buffer. *)
Definition buf_of d : bytes := take 2048 (dg_data d).
(** The datagram is a well-formed audio packet. *)
Definition is_sound d : bool :=
  (get 4 0 (buf_of d) =? SREMFB_MAGIC) && (get 1 4 (buf_of d) =? SREMFB_UDP_AUDIO) &&
  (AUDIO_HDR_SIZE <=? Z.of_nat (length (buf_of d))) && valid_packet (buf_of d).

Lemma on_datagram_sound a got d : is_sound d = true →
  on_datagram (a, got) d = (on_packet a (buf_of d) (dg_rx_ns d) (dg_sdl d), true).
Proof.
  unfold is_sound, on_datagram. rewrite !andb_true_iff. fold (buf_of d). intros [[[Hm Ht] Hl] Hv].
  assert ((Z.of_nat (length (buf_of d)) <? 8) = false) as -> by (unfold AUDIO_HDR_SIZE in Hl; lia).
  by rewrite Hm, Ht, Hl.
Qed.

Lemma on_datagram_other a got d : is_sound d = false → core (on_datagram (a, got) d).1 = core a.
Proof.
  unfold is_sound, on_datagram. fold (buf_of d). intros Hs.
  destruct (_ || _) eqn:E1; [done|]. apply orb_false_iff in E1 as [_ E1]. apply negb_false_iff in E1.
  rewrite E1 in Hs. cbn [andb] in Hs.
  match goal with |- core (if ?x then _ else if ?y then _ else _).1 = _ =>
    destruct x eqn:E2; [|destruct y; [|done]] end.
  - cbn [andb] in Hs. cbn [fst]. unfold on_packet. fold (valid_packet (buf_of d)). by rewrite Hs.
  - cbn [fst]. unfold on_echo. cbv zeta. destruct (_ || _); [done|]. by case_match.
Qed.

(** The sequence numbers whose samples went to the sound stream. *)
Definition played (log : list audio_put) : list Z :=
  omap (λ e, match e with PPcm s _ => Some s | _ => None end) log.

Lemma played_app l k : played (l ++ k) = played l ++ played k.
Proof. apply omap_app. Qed.

Definition recv_run (s : view_audio * bool) (l : list dgram) : view_audio * bool :=
  foldl on_datagram s l.

(** While the sound does not pause. *)
Fixpoint no_pause (s : view_audio * bool) (l : list dgram) : Prop :=
  match l with
  | [] => True
  | d :: l => (is_sound d = true → pause s.1 (dg_rx_ns d) = false) ∧ no_pause (on_datagram s d) l
  end.

(** One datagram without a pause: nothing is heard of a late packet, the
    expected number moves past a new one. *)
Lemma datagram_step a got d : va_started a = true →
  (is_sound d = true → pause a (dg_rx_ns d) = false) →
  let a' := (on_datagram (a, got) d).1 in
  va_started a' = true ∧
  ((va_next_seq a' = va_next_seq a ∧ played (va_log a') = played (va_log a)) ∨
   (is_sound d = true ∧ 0 ≤ distance a (buf_of d) ∧ va_next_seq a' = u32 (seq_of (buf_of d) + 1) ∧
    (played (va_log a') = played (va_log a) ∨
     played (va_log a') = played (va_log a) ++ [seq_of (buf_of d)]))).
Proof.
  intros Hst Hp. destruct (is_sound d) eqn:Hs; cycle 1.
  { pose proof (on_datagram_other a got d Hs) as Hc. cbv zeta.
    set (s1 := on_datagram _ _) in *. clearbody s1. unfold core in Hc.
    injection Hc as E1 E2 _ E4 _ _. rewrite E1, E2, E4. auto. }
  specialize (Hp eq_refl). rewrite (on_datagram_sound a got d Hs). cbv zeta. cbn [fst].
  assert (Hv : valid_packet (buf_of d) = true) by (unfold is_sound in Hs; apply andb_true_iff in Hs; tauto).
  pose proof (on_packet_cases a (buf_of d) (dg_rx_ns d) (dg_sdl d) Hv) as Hc.
  pose proof (core_new a (buf_of d) (dg_rx_ns d) (dg_sdl d)) as Hn.
  destruct (packet_new _ _ _ _) as [b fresh]. cbv zeta in Hn. rewrite Hp in Hn.
  set (hl := if _ : bool then _ else _) in Hn.
  assert (Hh : played hl = []).
  { subst hl. unfold hole_log. destruct (_ && _); [destruct (0 <? _)|]; reflexivity. }
  clearbody hl. cbn [negb orb andb] in Hn. destruct Hn as [Hfr Hn].
  unfold core in Hn. injection Hn as B1 B2 B3 B4 B5 B6.
  assert (Hpl : played (va_log b) = played (va_log a)) by (by rewrite B1, played_app, Hh, app_nil_r).
  pose proof (core_level b) as Hl. destruct (packet_level b) as [c q]. cbv zeta in Hc.
  assert (Hcl : va_started c = true ∧ played (va_log c) = played (va_log b)).
  { destruct Hl as [(_&_&E)|[(_&_&_&E)|(E1&_&_&->)]]; [| |done]; unfold core in E;
      injection E as E1 E2 _ _ _ _; rewrite E1, E2, played_app; (split; [done|]); cbn; by rewrite app_nil_r. }
  destruct Hcl as [Hcs Hcl]. destruct Hc as [[-> Ha]|[(->&_&Hc)|(->&_&Hc&_)]].
  - rewrite Ha, B2, B4, Hpl. apply eq_sym in Hfr. split; [unfold CONCEAL_MAX; lia|auto].
  - unfold core in Hc. injection Hc as C1 C2 _ C4 _ _. rewrite C1, C2, C4, Hcs, Hcl, Hpl.
    split; [done|]. right. split_and!; auto; lia.
  - unfold core in Hc. injection Hc as C1 C2 _ C4 _ _. rewrite C1, C2, C4, Hcs, played_app, Hcl, Hpl.
    split; [done|]. right. split_and!; auto; lia.
Qed.

(** The positions of what is heard, as numbers that do not wrap. *)
Lemma recv_positions (l : list dgram) a got P :
  Forall (λ d, bytes_ok (dg_data d)) l → va_started a = true → u32 P = va_next_seq a →
  no_pause (a, got) l →
  ∃ ps, played (va_log (recv_run (a, got) l).1) = played (va_log a) ++ (u32 <$> ps) ∧
    StronglySorted Z.lt ps ∧ Forall (λ p, P ≤ p) ps.
Proof.
  revert a got P. induction l as [|d l IH]; intros a got P Hok Hst HP Hnp.
  { exists []. split_and!; [by rewrite app_nil_r|constructor|constructor]. }
  apply Forall_cons in Hok as [Hd Hok]. destruct Hnp as [Hp Hnp]. unfold recv_run. cbn [foldl].
  pose proof (datagram_step a got d Hst Hp) as Hstep. cbv zeta in Hstep.
  destruct (on_datagram (a, got) d) as [a1 got1]. cbn [fst] in *. fold (recv_run (a1, got1) l).
  destruct Hstep as [Hst1 [[Hn Hpl]|(Hs&Hdist&Hn&Hpl)]].
  { destruct (IH a1 got1 P) as (ps&E&Hsort&Hge); [done..|congruence|done|].
    exists ps. by rewrite E, Hpl. }
  set (k := distance a (buf_of d)) in *.
  assert (Hseq : u32 (P + k) = seq_of (buf_of d)).
  { assert (Hr : 0 ≤ seq_of (buf_of d) < 2 ^ 32).
    { unfold seq_of, audio_hdr_of, get. cbn [ah_seq].
      assert (Hb : bytes_ok (slice 8 (Z.of_nat 4) (buf_of d))) by (apply slice_ok, Forall_take; done).
      pose proof (of_le_range _ Hb) as Hr. split; [lia|]. eapply Z.lt_le_trans; [apply Hr|].
      change (2 ^ 32) with (256 ^ 4). apply Z.pow_le_mono_r; [lia|].
      assert (length (slice 8 (Z.of_nat 4) (buf_of d)) ≤ 4)%nat; [|lia].
      unfold slice. rewrite length_take. lia. }
    subst k. unfold distance, seq_of, s32, u32 in *. cbn [ah_seq] in *.
    set (x := ah_seq _) in *. clearbody x. rewrite <- HP. dlia. }
  destruct (IH a1 got1 (P + k + 1)) as (ps&E&Hsort&Hge); [done..|rewrite Hn, <- Hseq; unfold u32; dlia|done|].
  assert (Hge' : Forall (λ p, P ≤ p) ps) by (eapply Forall_impl; [exact Hge|]; cbn; lia).
  destruct Hpl as [Hpl|Hpl].
  - exists ps. rewrite E, Hpl. auto.
  - exists ((P + k) :: ps). rewrite E, Hpl, <- app_assoc. cbn [app fmap list_fmap]. rewrite Hseq.
    split_and!; [done|constructor; [done|eapply Forall_impl; [exact Hge|]; cbn; lia]|constructor; [lia|done]].
Qed.
End run.

(** ** The packets of the server *)
Implicit Types (A : audio_globals) (o : SremfbAudio).

Lemma audio_hdr_roundtrip h (tl : bytes) :
  0 ≤ ah_magic h < 2 ^ 32 → 0 ≤ ah_type h < 2 ^ 8 → 0 ≤ ah_format h < 2 ^ 8 →
  0 ≤ ah_frames h < 2 ^ 16 → 0 ≤ ah_seq h < 2 ^ 32 → 0 ≤ ah_reserved h < 2 ^ 32 →
  0 ≤ ah_t_us h < 2 ^ 64 → audio_hdr_of (audio_hdr_bytes h ++ tl) = h.
Proof.
  intros. unfold audio_hdr_of, audio_hdr_bytes. rewrite <- !app_assoc. read_fields. by destruct h.
Qed.

(** The packets of a quantum from frame [off], when [o] sends them. *)
Fixpoint packets (fuel : nat) o (pcm : bytes) (frames t0_us off : Z) : list bytes :=
  match fuel with
  | O => []
  | S fuel =>
    if off <? frames then
      audio_packet o pcm frames t0_us off ::
      packets fuel o⟨a_seq ::= λ s, u32 (s + 1)⟩ pcm frames t0_us (off + packet_frames off frames)
    else []
  end.

(** The packets the kernel took. *)
Fixpoint picked (oks : list bool) (pkts : list bytes) : list bytes :=
  match pkts with
  | [] => []
  | pkt :: pkts => (if default false (head oks) then [pkt] else []) ++ picked (tail oks) pkts
  end.

Lemma on_audio_lookup A p f o : A_heap A !! p = Some o → A_heap (on_audio p f A) !! p = Some (f o).
Proof.
  intros Ho. unfold on_audio. cbn. rewrite lookup_alter_eq. by rewrite Ho.
Qed.

(** Everything of an output but its counters. *)
Definition output o := (a_c o, a_dest o, a_token o, a_have_dest o, a_last_hello_us o, a_stream o,
  a_node_name o, a_made_default o, a_announced o).

Lemma send_one_spec A p o pcm frames t0 off ok :
  A_heap A !! p = Some o →
  let A' := send_one A p pcm frames t0 off ok in
  A_sent A' = A_sent A ++
    (if ok then [(a_c o, a_dest o, audio_packet o pcm frames t0 off)] else []) ∧
  ∃ o', A_heap A' !! p = Some o' ∧ a_seq o' = u32 (a_seq o + 1) ∧ output o' = output o.
Proof.
  intros Ho. unfold send_one. rewrite Ho. cbv zeta.
  set (o1 := o⟨a_seq ::= λ s, u32 (s + 1)⟩). set (A1 := on_audio p _ A).
  assert (H1 : A_heap A1 !! p = Some o1) by (by apply on_audio_lookup).
  assert (S1 : A_sent A1 = A_sent A) by done. clearbody A1.
  destruct ok; unfold sendto.
  - cbn [A_sent on_audio upd]. rewrite S1. split; [done|]. eexists. split.
    + apply on_audio_lookup. cbn. exact H1.
    + done.
  - rewrite S1, app_nil_r. split; [done|]. by exists o1.
Qed.

Lemma packets_output fuel o o' pcm frames t0 off :
  a_seq o' = a_seq o → packets fuel o' pcm frames t0 off = packets fuel o pcm frames t0 off.
Proof.
  revert o o' off. induction fuel as [|fuel IH]; intros o o' off Hs; cbn [packets]; [done|].
  destruct (off <? frames); [|done]. f_equal; [unfold audio_packet; by rewrite Hs|].
  apply IH. cbn. by rewrite Hs.
Qed.

Lemma send_loop_spec fuel A p o pcm frames t0 off oks :
  A_heap A !! p = Some o → 0 ≤ a_seq o < 2 ^ 32 →
  let A' := send_loop fuel A p pcm frames t0 off oks in
  let pkts := packets fuel o pcm frames t0 off in
  A_sent A' = A_sent A ++ ((λ b, (a_c o, a_dest o, b)) <$> picked oks pkts) ∧
  ∃ o', A_heap A' !! p = Some o' ∧ output o' = output o ∧
    a_seq o' = u32 (a_seq o + Z.of_nat (length pkts)).
Proof.
  revert A o off oks. induction fuel as [|fuel IH]; intros A o off oks Ho Hr; cbn [send_loop packets].
  { cbn. rewrite app_nil_r. split; [done|]. exists o. split_and!; try done. rewrite Z.add_0_r, u32_small; lia. }
  destruct (off <? frames); cycle 1.
  { cbn. rewrite app_nil_r. split; [done|]. exists o. split_and!; try done. rewrite Z.add_0_r, u32_small; lia. }
  pose proof (send_one_spec A p o pcm frames t0 off (default false (head oks)) Ho) as (S1&o1&H1&Q1&O1).
  cbv zeta in *. set (A1 := send_one _ _ _ _ _ _ _) in *. clearbody A1.
  pose proof (u32_range (a_seq o + 1)) as Hu.
  destruct (IH A1 o1 (off + packet_frames off frames) (tail oks) H1) as (S2&o2&H2&O2&Q2); [rewrite Q1; lia|].
  assert (a_c o1 = a_c o ∧ a_dest o1 = a_dest o) as [Ec Ed].
  { unfold output in O1. split; congruence. }
  rewrite (packets_output fuel o⟨a_seq ::= λ s, u32 (s + 1)⟩ o1) in S2, Q2 by done.
  set (rest := packets fuel _ _ _ _ _) in *. clearbody rest. rewrite S2, S1, Ec, Ed. split.
  - cbn [picked]. rewrite fmap_app, <- app_assoc. f_equal. f_equal. by destruct (default false (head oks)).
  - exists o2. split_and!; [done|congruence|]. rewrite Q2, Q1. cbn [length]. unfold u32. dlia.
Qed.

(** ** What the viewer reads in them *)
Section flow.
Context `{S : SDLAudio} `{!SDLAudioLaws S}.
Implicit Types (a : view_audio) (d : dgram).

Lemma packet_frames_range off frames : off < frames → 1 ≤ packet_frames off frames ≤ 240.
Proof. unfold packet_frames, SREMFB_AUDIO_MAX_FRAMES. lia. Qed.

Lemma packet_fields o pcm frames t0 off (buf := audio_packet o pcm frames t0 off) :
  0 ≤ a_seq o < 2 ^ 32 → 0 ≤ off < frames → frames * 4 ≤ Z.of_nat (length pcm) →
  seq_of buf = a_seq o ∧ ah_frames (audio_hdr_of buf) = packet_frames off frames ∧
  pcm_of buf = slice (off * 4) (packet_frames off frames * 4) pcm ∧ valid_packet buf = true ∧
  (∀ d, dg_data d = buf → buf_of d = buf ∧ is_sound d = true).
Proof.
  intros Hs Ho Hl. pose proof (packet_frames_range off frames ltac:(lia)) as Hn.
  assert (off + packet_frames off frames ≤ frames) as Hend by (unfold packet_frames; lia).
  set (n := packet_frames off frames) in *.
  set (h := mk_audio_hdr SREMFB_MAGIC SREMFB_UDP_AUDIO SREMFB_AUDIO_S16LE_48K_STEREO
    (u16 n) (a_seq o) 0 (u64 (t0 + Z.quot (off * 1000000) SREMFB_AUDIO_RATE))).
  assert (Hbuf : buf = audio_hdr_bytes h ++ slice (off * 4) (n * 4) pcm) by done. clearbody buf n.
  assert (Hh : audio_hdr_of buf = h).
  { rewrite Hbuf. pose proof (u16_range n). apply audio_hdr_roundtrip; subst h;
      cbn [ah_magic ah_type ah_format ah_frames ah_seq ah_reserved ah_t_us];
      unfold SREMFB_MAGIC, SREMFB_UDP_AUDIO, SREMFB_AUDIO_S16LE_48K_STEREO;
      first [lia|apply u64_range]. }
  assert (Hhl : length (audio_hdr_bytes h) = 24%nat).
  { unfold audio_hdr_bytes. by rewrite !length_app, !length_le. }
  assert (Hsl : length (slice (off * 4) (n * 4) pcm) = Z.to_nat (n * 4)) by (apply length_slice; lia).
  assert (Hlen : Z.of_nat (length buf) = 24 + n * 4) by (rewrite Hbuf, length_app, Hhl, Hsl; lia).
  assert (Hu : u16 n = n) by (apply u16_small; lia).
  assert (Hv : valid_packet buf = true).
  { unfold valid_packet, packet_ok. rewrite Hh, Hlen. subst h. cbn [ah_format ah_frames]. rewrite Hu.
    unfold AUDIO_HDR_SIZE, BYTES_PER_FRAME, SREMFB_AUDIO_CHANNELS, SREMFB_AUDIO_MAX_FRAMES.
    rewrite negb_true_iff, !orb_false_iff, negb_false_iff. split_and!; try done; lia. }
  split_and!; [unfold seq_of; by rewrite Hh|by rewrite Hh| |done|].
  { unfold pcm_of. rewrite Hbuf. change (Z.to_nat AUDIO_HDR_SIZE) with 24%nat. rewrite <- Hhl.
    apply drop_app_length. }
  intros d Hd. assert (Hb : buf_of d = buf) by (unfold buf_of; rewrite Hd; apply take_ge; lia).
  split; [done|]. unfold is_sound. rewrite Hb, Hv.
  assert (get 4 0 buf = SREMFB_MAGIC) as -> by (change (get 4 0 buf) with (ah_magic (audio_hdr_of buf)); by rewrite Hh).
  assert (get 1 4 buf = SREMFB_UDP_AUDIO) as -> by (change (get 1 4 buf) with (ah_type (audio_hdr_of buf)); by rewrite Hh).
  unfold AUDIO_HDR_SIZE. rewrite !andb_true_iff. split_and!; try done; lia.
Qed.

(** The samples of all packets are those of the quantum. *)
Lemma packets_pcm fuel o pcm frames t0 off :
  0 ≤ a_seq o < 2 ^ 32 → 0 ≤ off ≤ frames → frames * 4 ≤ Z.of_nat (length pcm) →
  frames - off ≤ Z.of_nat fuel →
  concat (pcm_of <$> packets fuel o pcm frames t0 off) = slice (off * 4) ((frames - off) * 4) pcm.
Proof.
  revert o off. induction fuel as [|fuel IH]; intros o off Hs Ho Hl Hf; cbn [packets].
  { replace (frames - off) with 0 by lia. unfold slice. by rewrite Z.mul_0_l, take_0. }
  destruct (off <? frames) eqn:E; cycle 1.
  { replace (frames - off) with 0 by lia. unfold slice. by rewrite Z.mul_0_l, take_0. }
  pose proof (packet_frames_range off frames ltac:(lia)) as Hn.
  assert (off + packet_frames off frames ≤ frames) as Hend by (unfold packet_frames; lia).
  destruct (packet_fields o pcm frames t0 off) as (_&_&Hp&_); [lia..|].
  cbn [fmap list_fmap concat]. fold (audio_packet o pcm frames t0 off). rewrite Hp, IH; cycle 1.
  { cbn. apply u32_range. } { lia. } { lia. } { lia. }
  set (n := packet_frames off frames) in *.
  replace ((frames - off) * 4) with (n * 4 + (frames - (off + n)) * 4) by lia.
  replace ((off + n) * 4) with (off * 4 + n * 4) by lia. apply slice_join; lia.
Qed.

(** What is heard of the packets taken, after [m] missed ones: the log and
    the packets missed at the end. *)
Fixpoint heard (m : Z) (oks : list bool) (pkts : list bytes) : list audio_put * Z :=
  match pkts with
  | [] => ([], m)
  | pkt :: pkts =>
    if default false (head oks) then
      let '(l, m') := heard 0 (tail oks) pkts in
      (hole_log m (ah_frames (audio_hdr_of pkt)) ++ PPcm (seq_of pkt) (pcm_of pkt) :: l, m')
    else heard (m + 1) (tail oks) pkts
  end.

(** No hole longer than the receiver conceals. *)
Fixpoint holes_short (m : Z) (oks : list bool) (pkts : list bytes) : Prop :=
  match pkts with
  | [] => m ≤ CONCEAL_MAX
  | _ :: pkts =>
    if default false (head oks) then m ≤ CONCEAL_MAX ∧ holes_short 0 (tail oks) pkts
    else holes_short (m + 1) (tail oks) pkts
  end.

(** The packet arrives within the gap and finds the stream neither empty nor
    too deep. *)
Definition level_calm a d : Prop :=
  pause a (dg_rx_ns d) = false ∧
  let b := (packet_new a (buf_of d) (dg_rx_ns d) (dg_sdl d)).1 in
  Dleb (queued_ms b) D0 = false ∧ Dltb (Dadd (va_target_ms b) DROP_SLACK_MS) (queued_ms b) = false.

Fixpoint calm (s : view_audio * bool) (l : list dgram) : Prop :=
  match l with
  | [] => True
  | d :: l => level_calm s.1 d ∧ calm (on_datagram s d) l
  end.

Lemma calm_packet a got d m :
  is_sound d = true → va_started a = true → va_dropping a = false → level_calm a d →
  distance a (buf_of d) = m → 0 ≤ m ≤ CONCEAL_MAX →
  let a' := (on_datagram (a, got) d).1 in
  va_started a' = true ∧ va_dropping a' = false ∧ va_next_seq a' = u32 (seq_of (buf_of d) + 1) ∧
  va_log a' = va_log a ++ hole_log m (ah_frames (audio_hdr_of (buf_of d))) ++
                [PPcm (seq_of (buf_of d)) (pcm_of (buf_of d))].
Proof.
  intros Hs Hst Hdr [Hp [Hq1 Hq2]] Hd Hm. rewrite (on_datagram_sound a got d Hs). cbv zeta. cbn [fst].
  assert (Hv : valid_packet (buf_of d) = true) by (unfold is_sound in Hs; apply andb_true_iff in Hs; tauto).
  pose proof (on_packet_cases a (buf_of d) (dg_rx_ns d) (dg_sdl d) Hv) as Hc.
  pose proof (core_new a (buf_of d) (dg_rx_ns d) (dg_sdl d)) as Hn.
  destruct (packet_new _ _ _ _) as [b fresh]. cbv zeta in Hn. rewrite Hp, Hd in Hn. cbn [fst] in *.
  replace (0 <=? m) with true in Hn by lia. replace (m <=? CONCEAL_MAX) with true in Hn by lia.
  cbn [negb orb andb] in Hn. destruct Hn as [-> Hn]. unfold core in Hn. injection Hn as B1 B2 B3 B4 B5 B6.
  pose proof (core_level b) as Hl. destruct (packet_level b) as [c q]. cbv zeta in Hc.
  destruct Hl as [(E&_)|[(_&E&_)|(_&_&->&->)]]; [congruence|congruence|].
  destruct Hc as [[[=] _]|[(_&[_ E]&_)|(_&_&Hc&_)]]; [destruct E; congruence|].
  unfold core in Hc. injection Hc as C1 C2 C3 C4 _ _. rewrite C1, C2, C3, C4, B1, B2, <- app_assoc. done.
Qed.

(** A quantum at the viewer: the calm run hears exactly [heard]. *)
Lemma recv_packets fuel o pcm frames t0 off oks l a got m :
  0 ≤ a_seq o < 2 ^ 32 → 0 ≤ off ≤ frames → frames * 4 ≤ Z.of_nat (length pcm) →
  let pkts := packets fuel o pcm frames t0 off in
  dg_data <$> l = picked oks pkts → calm (a, got) l → 0 ≤ m → holes_short m oks pkts →
  va_started a = true → va_dropping a = false → va_next_seq a = u32 (a_seq o - m) →
  let a' := (recv_run (a, got) l).1 in
  va_started a' = true ∧ va_dropping a' = false ∧
  va_log a' = va_log a ++ (heard m oks pkts).1 ∧
  va_next_seq a' = u32 (a_seq o + Z.of_nat (length pkts) - (heard m oks pkts).2).
Proof.
  revert o off oks l a got m. induction fuel as [|fuel IH]; intros o off oks l a got m Hs Ho Hl; cbn [packets].
  { cbn. intros El _ _ _ Hst Hdr Hn. apply fmap_nil_inv in El as ->. cbn.
    rewrite app_nil_r, Z.add_0_r. auto. }
  destruct (off <? frames) eqn:E; cycle 1.
  { cbn. intros El _ _ _ Hst Hdr Hn. apply fmap_nil_inv in El as ->. cbn.
    rewrite app_nil_r, Z.add_0_r. auto. }
  pose proof (packet_frames_range off frames ltac:(lia)) as Hn.
  assert (off + packet_frames off frames ≤ frames) as Hend by (unfold packet_frames; lia).
  destruct (packet_fields o pcm frames t0 off) as (F1&F2&F3&_&F5); [lia..|].
  set (o1 := o⟨a_seq ::= λ s, u32 (s + 1)⟩).
  assert (Q1 : a_seq o1 = u32 (a_seq o + 1)) by done. pose proof (u32_range (a_seq o + 1)) as Hr1.
  rewrite <- Q1 in Hr1. clearbody o1.
  cbn [picked heard holes_short length]. set (pkt := audio_packet o pcm frames t0 off) in *.
  destruct (default false (head oks)) eqn:Hok.
  - cbn [app]. intros El Hcalm Hm [Hm8 Hsh] Hst Hdr Hnx.
    destruct l as [|d l]; [discriminate|]. cbn [fmap list_fmap] in El. injection El as Ed El.
    destruct (F5 d Ed) as [Eb Hsnd]. destruct Hcalm as [Hlc Hcalm].
    pose proof (calm_packet a got d m Hsnd Hst Hdr Hlc) as Hstep. cbv zeta in Hstep.
    rewrite Eb, F1 in Hstep.
    destruct Hstep as (S1&S2&S3&S4); [|lia|].
    { unfold distance. fold (seq_of pkt). rewrite F1, Hnx. unfold s32, u32, CONCEAL_MAX in *. dlia. }
    unfold recv_run. cbn [foldl]. destruct (on_datagram (a, got) d) as [a1 got1]. cbn [fst] in *.
    fold (recv_run (a1, got1) l).
    edestruct (IH o1 (off + packet_frames off frames) (tail oks) l a1 got1 0) as (R1&R2&R3&R4);
      [lia|lia|done|exact El|exact Hcalm|lia|exact Hsh|done|done|by rewrite S3, Q1, Z.sub_0_r, (u32_small (u32 _)) by apply u32_range|].
    cbv zeta. destruct (heard 0 (tail oks) _) as [hl m']. cbn [fst snd] in *.
    split_and!; [done|done| |].
    + rewrite R3, S4, F1. rewrite <- !app_assoc. cbn. by rewrite <- F3.
    + rewrite R4, Q1. unfold u32. dlia.
  - cbn [app]. intros El Hcalm Hm Hsh Hst Hdr Hnx.
    edestruct (IH o1 (off + packet_frames off frames) (tail oks) l a got (m + 1)) as (R1&R2&R3&R4);
      [lia|lia|done|exact El|exact Hcalm|lia|exact Hsh|done|done| |].
    { rewrite Hnx, Q1. unfold u32. dlia. }
    cbv zeta. split_and!; [done|done|done|]. rewrite R4, Q1. unfold u32. dlia.
Qed.

(** With every packet taken, the samples and nothing else. *)
Lemma heard_all oks pkts :
  Forall (eq true) oks → (length pkts ≤ length oks)%nat →
  heard 0 oks pkts = ((λ b, PPcm (seq_of b) (pcm_of b)) <$> pkts, 0).
Proof.
  revert oks. induction pkts as [|b pkts IH]; intros oks Ht Hl; [done|]. cbn in Hl.
  destruct oks as [|x oks]; [cbn in Hl; lia|]. apply Forall_cons in Ht as [<- Ht]. cbn in Hl.
  cbn [heard head default tail]. rewrite IH by (done || lia). done.
Qed.

(** ** The level ahead of what is put *)
Definition ms_of (q : Z) : double :=
  if 0 <? q
  then Ddiv (Dmul (Ddiv (D_of_Z q) (D_of_Z BYTES_PER_FRAME)) (D_of_Z 1000)) (D_of_Z SREMFB_AUDIO_RATE)
  else D0.
Definition queued a : Z := SDL_GetAudioStreamQueued (va_stream a).

Lemma queued_ms_of a : queued_ms a = ms_of (queued a).
Proof. done. Qed.

Lemma queued_zeros n a len : len ≤ Z.of_nat n → queued (put_zeros n a len) = queued a + Z.max 0 len.
Proof.
  revert a len. induction n as [|n IH]; intros a len Hl; cbn [put_zeros]; [lia|].
  destruct (0 <? len) eqn:E; [|lia]. set (k := if _ : bool then _ else _).
  assert (0 < k ≤ len) by (subst k; unfold ZERO_SIZE, SREMFB_AUDIO_MAX_FRAMES, BYTES_PER_FRAME,
    SREMFB_AUDIO_CHANNELS; destruct (len <? 240 * (2 * 2)) eqn:?; lia).
  clearbody k. rewrite IH by lia. unfold queued at 1. cbn. rewrite sdl_put, length_replicate. fold (queued a). lia.
Qed.

Lemma queued_silence a ms : queued (put_silence a ms) = queued a + 4 * Z.max 0 (silence_frames ms).
Proof.
  unfold put_silence. cbv zeta. set (len := silence_frames ms * BYTES_PER_FRAME).
  change (queued (put_zeros (Z.to_nat len) a len) = queued a + 4 * Z.max 0 (silence_frames ms)).
  rewrite queued_zeros by lia. subst len. unfold BYTES_PER_FRAME, SREMFB_AUDIO_CHANNELS. lia.
Qed.

(** The level a packet finds: what is queued, or the target after a
    refill of an empty stream. *)
Lemma level_queue b : let '(c, q) := packet_level b in
  (q = ms_of (queued c) ∧ queued c = queued b ∧ va_started b = true) ∨
  (q = va_target_ms b ∧
   ((va_started b = false ∧ queued c = 4 * Z.max 0 (silence_frames (va_target_ms b))) ∨
    (Dleb (ms_of (queued b)) D0 = true ∧
     queued c = queued b + 4 * Z.max 0 (silence_frames (va_target_ms b))))).
Proof.
  unfold packet_level. cbv zeta. rewrite queued_ms_of. destruct (va_started b); cbn [negb].
  - destruct (Dleb _ D0) eqn:E; [|left; split_and!; done]. right. split; [done|]. right. split; [done|].
    rewrite queued_silence. done.
  - right. set (b1 := b⟨va_stream ::= _⟩⟨va_log ::= _⟩).
    pose proof (core_silence b1 (va_target_ms b)) as Hc. change (va_target_ms b1) with (va_target_ms b).
    pose proof (queued_silence b1 (va_target_ms b)) as Hq.
    assert (queued b1 = 0) as Hz by (unfold queued; cbn; apply sdl_clear).
    set (b2 := put_silence _ _) in *. clearbody b2. unfold core in Hc. injection Hc as _ _ _ _ _ Ht.
    split; [exact Ht|]. left. split; [done|]. unfold queued in *. cbn in *. lia.
Qed.

Lemma pcm_short buf : valid_packet buf = true → Z.of_nat (length (pcm_of buf)) ≤ 960.
Proof.
  unfold valid_packet, packet_ok, pcm_of. rewrite negb_true_iff, !orb_false_iff, negb_false_iff.
  intros [[[_ E2] E3] E4]. rewrite length_drop. change (Z.to_nat AUDIO_HDR_SIZE) with 24%nat.
  unfold AUDIO_HDR_SIZE, BYTES_PER_FRAME, SREMFB_AUDIO_CHANNELS, SREMFB_AUDIO_MAX_FRAMES in *. lia.
Qed.

(** What a packet is put behind. *)
Lemma put_behind a buf rx sdl (a' := on_packet a buf rx sdl) :
  valid_packet buf = true → played (va_log a') ≠ played (va_log a) →
  ∃ ahead, queued a' = ahead + Z.of_nat (length (pcm_of buf)) ∧
    ((pause a rx = false ∧ level_fits (va_target_ms a) (va_dropping a) (ms_of ahead)) ∨
     ∃ rest, Dleb (ms_of rest) D0 = true ∧
       ahead = rest + 4 * Z.max 0 (silence_frames (va_target_ms a))).
Proof.
  intros Hv Hp. subst a'. pose proof (on_packet_cases a buf rx sdl Hv) as Hc.
  pose proof (core_new a buf rx sdl) as Hn. destruct (packet_new _ _ _ _) as [b fresh]. cbv zeta in Hn.
  destruct Hn as [_ Hn]. set (hl := if _ : bool then _ else _) in Hn.
  assert (Hh : played hl = []).
  { subst hl. unfold hole_log. destruct (_ && _); [destruct (0 <? _)|]; reflexivity. }
  clearbody hl. unfold core in Hn. injection Hn as B1 B2 B3 B4 B5 B6.
  assert (Hpl : played (va_log b) = played (va_log a)) by (by rewrite B1, played_app, Hh, app_nil_r).
  pose proof (core_level b) as Hl. pose proof (level_queue b) as Hq.
  destruct (packet_level b) as [c q]. cbv zeta in Hc.
  assert (Hcl : played (va_log c) = played (va_log b) ∧ va_target_ms c = va_target_ms b ∧
    (va_started b = true → va_dropping c = va_dropping b)).
  { destruct Hl as [(E0&_&E)|[(_&_&_&E)|(_&_&_&->)]]; [| |by split_and!]; unfold core in E;
      injection E as E1 _ E3 _ _ E6; rewrite E1, played_app, app_nil_r; split_and!; try done; congruence. }
  destruct Hcl as (Hcl&Hct&Hcd). destruct Hc as [[_ Ha]|[(_&_&Hc)|(_&Hf&Hc&Hsq)]].
  - destruct Hp. by rewrite Ha.
  - destruct Hp. unfold core in Hc. injection Hc as C1 _ _ _ _ _. by rewrite C1, Hcl.
  - exists (queued c). split; [exact Hsq|]. rewrite Hct, B6 in Hf. rewrite B6 in Hq.
    destruct Hq as [(->&_&Hs)|(_&[(_&E)|(Hz&E)])].
    + left. rewrite Hs in B2. rewrite (Hcd Hs), B3 in Hf. split; [|done].
      symmetry in B2. apply andb_true_iff in B2 as [B2 _]. by apply negb_true_iff in B2.
    + right. exists 0. split; [reflexivity|]. lia.
    + right. by exists (queued b).
Qed.

(** The silence for a hole of [d] packets of [n] frames is [d * n] frames
    or, by rounding, one less. *)
Definition hole_frames (d n : Z) : Z := silence_frames (Dmul (D_of_Z d) (pkt_ms n)).
Definition hole_close (d n : Z) : bool :=
  (hole_frames d n =? d * n) || (hole_frames d n =? d * n - 1).
Lemma hole_close_all : forallb (λ d : Z, forallb (hole_close d) (seqZ 1 240)) (seqZ 1 8) = true.
Proof. vm_compute. reflexivity. Qed.
Lemma hole_exact (d n : Z) : 1 ≤ d ≤ 8 → 1 ≤ n ≤ 240 → d * n - 1 ≤ hole_frames d n ≤ d * n.
Proof.
  intros Hd Hn. pose proof hole_close_all as Ha. rewrite forallb_forall in Ha.
  specialize (Ha d). rewrite <- list_elem_of_In, elem_of_seqZ in Ha. specialize (Ha ltac:(lia)).
  rewrite forallb_forall in Ha. specialize (Ha n). rewrite <- list_elem_of_In, elem_of_seqZ in Ha.
  specialize (Ha ltac:(lia)). unfold hole_close in Ha. lia.
Qed.

(** Seven packets of the server's quantum, 128 frames, lose one frame. *)
Example hole_one_short : hole_frames 7 128 = 7 * 128 - 1.
Proof. vm_compute. reflexivity. Qed.
End flow.
