(* ===== verification/AudioSys.v ===== *)
(** * audio.c: its threads

    The main loop ([main_at]: where on_udp() is for one hello), the data
    thread of PipeWire ([data_at]: where on_process() is) and the PipeWire
    loop, interleaved statement by statement where they share data.  The
    address of an output is being copied between two steps.
    pw_stream_destroy() waits for the data thread to be done with the
    stream. *)
From S2P Require Import Prelude Binary64 Protocol Core Net Session Audio.
From stdpp Require Import gmap strings list relations.
#[local] Open Scope list_scope.
#[local] Open Scope Z_scope.

Inductive main_at :=
  | MIdle
  | MWrite (p : Z) (cp : nat) (h : sremfb_udp_hello) (u : udp_in)
  | MPublish (p : Z) (cp : nat) (h : sremfb_udp_hello) (u : udp_in)
  | MStamp (p : Z) (cp : nat) (h : sremfb_udp_hello) (u : udp_in)
  | MEcho (cp : nat) (h : sremfb_udp_hello) (u : udp_in).
Inductive data_at :=
  | DIdle
  | DSend (p : Z) (pcm : bytes) (frames t0 off : Z).

Section sys.
Context `{Files} `{RunDir} `{NetNames} `{X264}.
(** The field peer of each client. *)
Variable peers : nat → string.
Implicit Types (A : audio_globals) (a : SremfbAudio) (p : Z).

(** What the PipeWire loop runs. *)
Inductive loop_step A : audio_globals → Prop :=
  | l_property subject key value : loop_step A (on_md_property A subject key value)
  | l_global id md name bound : loop_step A (on_global A id md name bound)
  | l_remove id : loop_step A (on_global_remove A id)
  | l_error id res : loop_step A (on_core_error A id res)
  | l_done id seq : loop_step A (on_core_done A id seq)
  | l_state p st : loop_step A (on_state A p st).

(** g_random_int_range(1, 65536) *)
Definition draws_ok (r : start_ans) : Prop := Forall (λ t, 1 ≤ t < 65536) (st_draws r).

Inductive astep : audio_globals * main_at * data_at → audio_globals * main_at * data_at → Prop :=
  | as_loop A A' m d : loop_step A A' → astep (A, m, d) (A', m, d)
  | as_start A cp c r fl c' A' d :
      draws_ok r → sremfb_audio_start A cp c r = Some (fl, c', A') →
      astep (A, MIdle, d) (A', MIdle, d)
  | as_stop A c d :
      (∀ p pcm frames t0 off, c_audio c = Some p → d ≠ DSend p pcm frames t0 off) →
      astep (A, MIdle, d) ((sremfb_audio_stop A c).2, MIdle, d)
  | as_hello A p cp h u a d :
      udp_target A peers u = Some (p, cp, h) → A_heap A !! p = Some a → a_have_dest a = true →
      astep (A, MIdle, d) (A, MStamp p cp h u, d)
  | as_first A p cp h u a d :
      udp_target A peers u = Some (p, cp, h) → A_heap A !! p = Some a → a_have_dest a = false →
      astep (A, MIdle, d) (on_audio p (λ a, a⟨a_dest := None⟩) A, MWrite p cp h u, d)
  | as_write A p cp h u d :
      astep (A, MWrite p cp h u, d) (udp_write_dest A p (ui_from u), MPublish p cp h u, d)
  | as_publish A p cp h u d :
      astep (A, MPublish p cp h u, d) (udp_publish A p, MStamp p cp h u, d)
  | as_stamp A p cp h u d :
      astep (A, MStamp p cp h u, d) (udp_stamp A p (ui_now u), MEcho cp h u, d)
  | as_echo A cp h u d : astep (A, MEcho cp h u, d) (udp_echo A cp h u, MIdle, d)
  | as_process A m p a b now :
      p ∈ A_live A → A_heap A !! p = Some a → pb_mapped b = true → process_listens a now = true →
      astep (A, m, DIdle) (A, m, DSend p (process_quantum b).1 (process_quantum b).2 now 0)
  | as_send A m p pcm frames t0 off ok :
      off < frames →
      astep (A, m, DSend p pcm frames t0 off)
        (send_one A p pcm frames t0 off ok, m, DSend p pcm frames t0 (off + packet_frames off frames))
  | as_done A m p pcm frames t0 off :
      frames ≤ off → astep (A, m, DSend p pcm frames t0 off) (A, m, DIdle).

(** ** The steps are those of the functions *)
Lemma send_loop_steps n A p pcm frames t0 off oks m :
  0 ≤ off → frames - off ≤ Z.of_nat n →
  rtc astep (A, m, DSend p pcm frames t0 off) (send_loop n A p pcm frames t0 off oks, m, DIdle).
Proof.
  revert A off oks. induction n as [|n IH]; intros A off oks Ho Hn; cbn [send_loop].
  { apply rtc_once, as_done. lia. }
  destruct (off <? frames) eqn:E; [|apply rtc_once, as_done; lia].
  eapply rtc_l; [apply as_send; lia|]. apply IH; unfold packet_frames, SREMFB_AUDIO_MAX_FRAMES; lia.
Qed.

Lemma on_process_steps A p b now oks m :
  p ∈ A_live A → rtc astep (A, m, DIdle) (on_process A p b now oks, m, DIdle).
Proof.
  intros Hp. unfold on_process. destruct b as [b|]; [|apply rtc_refl].
  destruct (A_heap A !! p) as [a|] eqn:Ea; [|apply rtc_refl].
  destruct (pb_mapped b && process_listens a now) eqn:E; [|apply rtc_refl].
  apply andb_true_iff in E as [E1 E2]. pose proof (as_process A m p a b now Hp Ea E1 E2) as Hs.
  destruct (process_quantum b) as [pcm frames]. cbn [fst snd] in Hs.
  eapply rtc_l; [exact Hs|]. unfold send_frames. apply send_loop_steps; lia.
Qed.

Lemma on_audio_twice A p f g : on_audio p f (on_audio p g A) = on_audio p (λ a, f (g a)) A.
Proof.
  assert (E : alter f p (alter g p (A_heap A)) = alter (λ a, f (g a)) p (A_heap A)).
  { apply map_eq. intros i. destruct (decide (p = i)) as [<-|].
    - rewrite !lookup_alter_eq. by destruct (A_heap A !! p).
    - by rewrite !lookup_alter_ne. }
  exact (f_equal (λ h, A⟨A_heap := h⟩) E).
Qed.

Lemma on_udp_steps A u d : rtc astep (A, MIdle, d) (on_udp_one peers A u, MIdle, d).
Proof.
  unfold on_udp_one. destruct (udp_target A peers u) as [[[p cp] h]|] eqn:Ht; [|apply rtc_refl].
  assert (Ha : ∃ a, A_heap A !! p = Some a).
  { unfold udp_target in Ht. destruct (_ || _); [done|].
    destruct (find_by_token _ _) as [q|]; [|done]. destruct (A_heap A !! q) as [a|] eqn:Eq; [|done].
    destruct (String.eqb _ _); [|done]. injection Ht as <- _ _. by exists a. }
  destruct Ha as [a Ea]. rewrite Ea. cbn [fmap option_fmap option_map].
  destruct (a_have_dest a) eqn:Hd.
  - eapply rtc_l; [by eapply as_hello|]. eapply rtc_l; [apply as_stamp|]. apply rtc_once, as_echo.
  - eapply rtc_l; [by eapply as_first|]. eapply rtc_l; [apply as_write|].
    eapply rtc_l; [apply as_publish|]. eapply rtc_l; [apply as_stamp|].
    eapply rtc_l; [apply as_echo|].
    unfold udp_write_dest, udp_publish. rewrite (on_audio_twice A). apply rtc_refl.
Qed.

(** ** What the metadata and the life of a stream leave alone *)
Record key := mk_key { k_c : nat; k_dest : option sockaddr; k_have : bool; k_token : Z }.
Definition key_of a : key := mk_key (a_c a) (a_dest a) (a_have_dest a) (a_token a).
Definition keyed A := (key_of <$> A_heap A, A_live A, A_next A, A_sent A).

Lemma keyed_on p f A : (∀ a, key_of (f a) = key_of a) → keyed (on_audio p f A) = keyed A.
Proof.
  intros Hf. unfold keyed, on_audio. cbn. f_equal. f_equal. f_equal. apply map_eq. intros i.
  rewrite !lookup_fmap. destruct (decide (p = i)) as [<-|]; [|by rewrite lookup_alter_ne].
  rewrite lookup_alter_eq. destruct (A_heap A !! p); cbn; by rewrite ?Hf.
Qed.

Lemma keyed_default_set A v : keyed (default_set A v) = keyed A.
Proof. unfold default_set. by case_match. Qed.
Lemma keyed_saved_write A v : keyed (saved_write A v) = keyed A.
Proof. unfold saved_write. destruct v; [|done]. by case_match. Qed.
Lemma keyed_save A : keyed (save_default A) = keyed A.
Proof. unfold save_default. case_match; [done|]. by rewrite keyed_saved_write. Qed.
Lemma keyed_take A p : keyed (audio_take_default A p) = keyed A.
Proof.
  unfold audio_take_default. destruct (A_md A), (A_heap A !! p); try done.
  rewrite keyed_on by done. by rewrite keyed_default_set, keyed_save.
Qed.
Lemma keyed_give_back A p : keyed (audio_give_back_default A p) = keyed A.
Proof.
  unfold audio_give_back_default. destruct (A_heap A !! p) as [a|], (A_md A); try done.
  destruct (negb _); [done|]. set (A1 := on_audio p _ A).
  assert (E : keyed A1 = keyed A) by (by apply keyed_on). clearbody A1.
  destruct (_ && _); [done|]. destruct (other_live A1 p _) as [o|]; [by rewrite keyed_take|].
  rewrite keyed_saved_write. rewrite <- E, <- (keyed_default_set A1 (A_orig_default A1)). done.
Qed.
Lemma keyed_loop A A' : loop_step A A' → keyed A' = keyed A.
Proof.
  destruct 1; unfold on_global, on_global_remove, on_core_error, on_core_done; try (by repeat case_match).
  - unfold on_md_property. destruct (_ || _); [done|]. set (A1 := A⟨A_cur_default := _⟩).
    assert (E : keyed A1 = keyed A) by done. clearbody A1. rewrite <- E. unfold recover_default.
    destruct (A_live A1), (A_cur_default A1); try done. destruct (names_ours _); [|done].
    destruct (_ !! _); [|done]. set (v := if _ : bool then _ else _). clearbody v.
    by rewrite <- (keyed_default_set A1 v).
  - unfold on_state. destruct st, (A_heap A !! p); try done; (destruct (a_announced _); [done|]);
      rewrite keyed_take; by apply keyed_on.
Qed.
Lemma keyed_connect A conn : keyed (pw_connect A conn).2 = keyed A.
Proof. unfold pw_connect. by repeat case_match. Qed.

(** ** The invariant *)
Section inv.
Let K : Type := gmap Z key * list Z * Z * list (nat * option sockaddr * bytes).

(** [ss] is an address of the client [cp]. *)
Definition reaches (cp : nat) (ss : sockaddr) : Prop := addr_ip ss = peer_ip (peers cp).

Definition dest_ok (k : key) : Prop :=
  k_have k = true → ∃ ss, k_dest k = Some ss ∧ reaches (k_c k) ss.

Definition main_ok (h : gmap Z key) (m : main_at) : Prop :=
  match m with
  | MIdle => True
  | MWrite p cp _ u =>
    reaches cp (ui_from u) ∧ ∃ k, h !! p = Some k ∧ k_have k = false ∧ k_c k = cp
  | MPublish p cp _ u =>
    reaches cp (ui_from u) ∧
    ∃ k, h !! p = Some k ∧ k_have k = false ∧ k_c k = cp ∧ k_dest k = Some (ui_from u)
  | MStamp _ cp _ u | MEcho cp _ u => reaches cp (ui_from u)
  end.
Definition data_ok (h : gmap Z key) (d : data_at) : Prop :=
  match d with
  | DIdle => True
  | DSend p _ _ _ _ => ∃ k, h !! p = Some k ∧ k_have k = true
  end.
Definition sent_ok (x : nat * option sockaddr * bytes) : Prop :=
  ∃ ss, x.1.2 = Some ss ∧ reaches x.1.1 ss.

(** Every live output is an object, the numbers are fresh, the tokens are
    valid and different. *)
Record outputs_ok (h : gmap Z key) (live : list Z) (next : Z) : Prop := {
  oo_live : ∀ p, p ∈ live → is_Some (h !! p);
  oo_next : ∀ p, is_Some (h !! p) → p < next;
  oo_nodup : NoDup live;
  oo_token : ∀ p k, p ∈ live → h !! p = Some k → 1 ≤ k_token k < 65536;
  oo_tokens : ∀ p q k j, p ∈ live → q ∈ live → h !! p = Some k → h !! q = Some j →
    k_token k = k_token j → p = q }.

Record audio_inv (k : K) (m : main_at) (d : data_at) : Prop := {
  ai_dest : ∀ p x, k.1.1.1 !! p = Some x → dest_ok x;
  ai_main : main_ok k.1.1.1 m;
  ai_data : data_ok k.1.1.1 d;
  ai_sent : Forall sent_ok k.2;
  ai_out : outputs_ok k.1.1.1 k.1.1.2 k.1.2 }.

Lemma keyed_alter p f g A : (∀ a, key_of (f a) = g (key_of a)) →
  keyed (on_audio p f A) = (alter g p (key_of <$> A_heap A), A_live A, A_next A, A_sent A).
Proof.
  intros Hf. unfold keyed, on_audio. cbn. f_equal. f_equal. f_equal. apply map_eq. intros i.
  rewrite !lookup_fmap. destruct (decide (p = i)) as [<-|].
  - rewrite !lookup_alter_eq, lookup_fmap. destruct (A_heap A !! p); cbn; by rewrite ?Hf.
  - by rewrite !lookup_alter_ne, lookup_fmap.
Qed.

Lemma outputs_alter h live next p g : (∀ k, k_token (g k) = k_token k) →
  outputs_ok h live next → outputs_ok (alter g p h) live next.
Proof.
  intros Hg [O1 O2 O3 O4 O5].
  assert (L : ∀ q k, alter g p h !! q = Some k → ∃ k0, h !! q = Some k0 ∧ k_token k = k_token k0).
  { intros q k Hk. destruct (decide (p = q)) as [<-|].
    - rewrite lookup_alter_eq in Hk. apply fmap_Some in Hk as (k0&Hk0&->). by exists k0.
    - rewrite lookup_alter_ne in Hk by done. by exists k. }
  split.
  - intros q Hq. rewrite lookup_alter_is_Some. auto.
  - intros q Hq. apply O2. by rewrite lookup_alter_is_Some in Hq.
  - done.
  - intros q k Hq Hk. destruct (L q k Hk) as (k0&H0'&->). eauto.
  - intros q r k j Hq Hr Hk Hj. destruct (L q k Hk) as (k0&Hk0&->). destruct (L r j Hj) as (j0&Hj0&->). eauto.
Qed.

Lemma data_alter h d p g : (∀ k, k_have k = true → k_have (g k) = true) →
  data_ok h d → data_ok (alter g p h) d.
Proof.
  intros Hg. destruct d as [|q pcm frames t0 off]; [done|]. intros (k&Hk&Hh). cbn.
  destruct (decide (p = q)) as [<-|]; [|exists k; by rewrite lookup_alter_ne].
  exists (g k). rewrite lookup_alter_eq, Hk. auto.
Qed.

(** One output changes. *)
Lemma inv_alter h live next sent m m' d p g k :
  audio_inv (h, live, next, sent) m d → h !! p = Some k →
  (∀ k, k_token (g k) = k_token k) → (∀ k, k_have k = true → k_have (g k) = true) →
  dest_ok (g k) → main_ok (alter g p h) m' →
  audio_inv (alter g p h, live, next, sent) m' d.
Proof.
  intros [I1 I2 I3 I4 I5] Hk Ht Hh Hd Hm. cbn in *. split; cbn.
  - intros q x Hx. destruct (decide (p = q)) as [<-|].
    + rewrite lookup_alter_eq, Hk in Hx. cbn in Hx. by injection Hx as <-.
    + rewrite lookup_alter_ne in Hx by done. eauto.
  - done.
  - by apply data_alter.
  - done.
  - by apply outputs_alter.
Qed.

(** What on_udp() accepts comes from the client of the output. *)
Lemma target_reaches A u p cp h : udp_target A peers u = Some (p, cp, h) →
  reaches cp (ui_from u) ∧ ∃ a, A_heap A !! p = Some a ∧ a_c a = cp.
Proof.
  unfold udp_target, reaches. destruct (_ || _); [done|]. destruct (find_by_token _ _) as [q|]; [|done].
  destruct (A_heap A !! q) as [a|] eqn:Eq; [|done]. destruct (String.eqb _ _) eqn:Es; [|done].
  apply String.eqb_eq in Es. intros [= <- <- _]. split; [done|by exists a].
Qed.

Lemma keyed_lookup A p a : A_heap A !! p = Some a → (keyed A).1.1.1 !! p = Some (key_of a).
Proof. intros Ha. cbn. by rewrite lookup_fmap, Ha. Qed.
Lemma keyed_lookup_inv A p k : (keyed A).1.1.1 !! p = Some k → ∃ a, A_heap A !! p = Some a ∧ key_of a = k.
Proof. cbn. rewrite lookup_fmap. intros Hk. apply fmap_Some in Hk as (a&Ha&->). by exists a. Qed.

Lemma keyed_send_one A p a pcm frames t0 off ok : A_heap A !! p = Some a →
  ∃ l, Forall (λ x : nat * option sockaddr * bytes, x.1 = (a_c a, a_dest a)) l ∧
    keyed (send_one A p pcm frames t0 off ok) =
      ((keyed A).1.1.1, (keyed A).1.1.2, (keyed A).1.2, A_sent A ++ l).
Proof.
  intros Ha. unfold send_one. rewrite Ha. cbv zeta. set (A1 := on_audio p _ A).
  assert (E : keyed A1 = keyed A) by (by apply keyed_on). clearbody A1.
  assert (E' := E). unfold keyed in E. injection E as E1 E2 E3 E4. unfold sendto. destruct ok.
  - exists [(a_c a, a_dest a, audio_packet a pcm frames t0 off)]. split; [by repeat constructor|].
    rewrite keyed_on by done. unfold keyed. cbn. by rewrite E1, E2, E3, E4.
  - exists []. split; [constructor|]. rewrite E', app_nil_r. done.
Qed.

(** ** Start and stop *)
Lemma find_token_none h t live : find_token h t live = None →
  ∀ p a, p ∈ live → h !! p = Some a → a_token a ≠ t.
Proof.
  induction live as [|q live IH]; cbn [find_token]; [by intros _ ? ? ?%elem_of_nil|].
  destruct (h !! q) as [b|] eqn:Eq.
  - destruct (a_token b =? t) eqn:E; [done|]. intros Hn p a [->|Hp]%elem_of_cons Ha; [|eauto].
    rewrite Eq in Ha. injection Ha as <-. lia.
  - intros Hn p a [->|Hp]%elem_of_cons Ha; [congruence|eauto].
Qed.

Lemma pick_token_ok A draws t : pick_token A draws = Some t → Forall (λ t, 1 ≤ t < 65536) draws →
  1 ≤ t < 65536 ∧ find_by_token A t = None.
Proof.
  induction draws as [|x draws IH]; cbn [pick_token]; [done|]. intros Ht Hd.
  apply Forall_cons in Hd as [Hx Hd]. destruct (find_by_token A (u16 x)) eqn:E; [auto|].
  injection Ht as <-. rewrite u16_small in * by lia. auto.
Qed.

Lemma inv_start A cp c r fl c' A' d : draws_ok r → sremfb_audio_start A cp c r = Some (fl, c', A') →
  audio_inv (keyed A) MIdle d → audio_inv (keyed A') MIdle d.
Proof.
  intros Hdr Hst HI. unfold sremfb_audio_start in Hst.
  destruct (_ || _); [by injection Hst as <- <- <-|].
  apply bind_Some in Hst as (t&Ht&Hst). destruct (pick_token_ok A _ t Ht Hdr) as [Htr Htn].
  pose proof (keyed_connect A (st_conn r)) as Hk. destruct (pw_connect A (st_conn r)) as [ok A1].
  cbn [snd] in Hk. destruct (_ || _); [injection Hst as <- <- <-; by rewrite Hk|].
  injection Hst as _ _ <-. rewrite <- Hk in HI. assert (Hn : find_by_token A1 t = None).
  { destruct (find_by_token A1 t) as [q|] eqn:Eq; [|done]. exfalso.
    unfold find_by_token in *. unfold keyed in Hk. injection Hk as K1 K2 _ _. rewrite K2 in Eq.
    assert (E : ∀ l, find_token (A_heap A1) t l = find_token (A_heap A) t l); [|by rewrite E, Htn in Eq].
    induction l as [|x l IH]; cbn [find_token]; [done|]. rewrite IH.
    assert (Ex : key_of <$> A_heap A1 !! x = key_of <$> A_heap A !! x) by (by rewrite <- !lookup_fmap, K1).
    destruct (A_heap A1 !! x) as [a1|], (A_heap A !! x) as [a2|]; try done. cbn in Ex. injection Ex as _ _ _ ->.
    done. }
  clear Hk Htn. destruct HI as [I1 I2 I3 I4 [O1 O2 O3 O4 O5]].
  unfold keyed. cbn in *. rewrite fmap_insert. set (a := mk_audio _ _ _ _ _ _ _ _ _ _ _ _ _).
  assert (Hf : (key_of <$> A_heap A1) !! A_next A1 = None).
  { destruct (_ !! A_next A1) eqn:E; [|done]. specialize (O2 (A_next A1)). rewrite E in O2.
    specialize (O2 ltac:(by eexists)). lia. }
  assert (Hnl : A_next A1 ∉ A_live A1) by (intros Hin; destruct (O1 _ Hin); congruence).
  assert (Ho : ∀ p, p ∈ A_live A1 → A_next A1 ≠ p) by (intros p Hin Hp; by rewrite Hp in Hnl).
  assert (Hold : ∀ p k, p ∈ A_live A1 → (key_of <$> A_heap A1) !! p = Some k → k_token k ≠ t).
  { intros p k Hin Hk. rewrite lookup_fmap in Hk. apply fmap_Some in Hk as (b&Hb&->).
    exact (find_token_none _ _ _ Hn p b Hin Hb). }
  split; cbn; [| |destruct d; [done|]|done|split].
  - intros p x Hx. destruct (decide (A_next A1 = p)) as [<-|]; [|rewrite lookup_insert_ne in Hx by done; eauto].
    rewrite lookup_insert_eq in Hx. by injection Hx as <-.
  - done.
  - destruct I3 as (k&Hk&Hh). exists k. rewrite lookup_insert_ne; [done|congruence].
  - intros p [Hp| ->%list_elem_of_singleton]%elem_of_app; [|by rewrite lookup_insert_eq].
    rewrite lookup_insert_ne by auto. auto.
  - intros p Hp. destruct (decide (A_next A1 = p)) as [<-|]; [lia|].
    rewrite lookup_insert_ne in Hp by done. specialize (O2 p Hp). lia.
  - apply NoDup_app. split_and!; [done| |apply NoDup_singleton].
    intros x Hx Hin%list_elem_of_singleton. subst x. done.
  - intros p k [Hp| ->%list_elem_of_singleton]%elem_of_app Hk.
    + rewrite lookup_insert_ne in Hk by auto. eauto.
    + rewrite lookup_insert_eq in Hk. by injection Hk as <-.
  - intros p q k j [Hp| ->%list_elem_of_singleton]%elem_of_app [Hq| ->%list_elem_of_singleton]%elem_of_app Hk Hj E;
      [rewrite lookup_insert_ne in Hk, Hj by auto; eauto| | |done].
    + rewrite lookup_insert_ne in Hk by auto. rewrite lookup_insert_eq in Hj. injection Hj as <-.
      by destruct (Hold p k Hp Hk).
    + rewrite lookup_insert_ne in Hj by auto. rewrite lookup_insert_eq in Hk. injection Hk as <-.
      by destruct (Hold q j Hq Hj).
Qed.

Lemma inv_stop A c d :
  (∀ p pcm frames t0 off, c_audio c = Some p → d ≠ DSend p pcm frames t0 off) →
  audio_inv (keyed A) MIdle d → audio_inv (keyed (sremfb_audio_stop A c).2) MIdle d.
Proof.
  intros Hd HI. unfold sremfb_audio_stop. destruct (c_audio c) as [p|]; [|done]. cbn [snd].
  set (A1 := A⟨A_live ::= _⟩). pose proof (keyed_give_back A1 p) as Hk.
  set (A2 := audio_give_back_default A1 p) in *. clearbody A2. unfold keyed in *. cbn in Hk |- *.
  injection Hk as K1 K2 K3 K4. rewrite fmap_delete, K1, K2, K3, K4. clear K1 K2 K3 K4 A2.
  destruct HI as [I1 I2 I3 I4 [O1 O2 O3 O4 O5]]. cbn in *.
  assert (L : ∀ q k, delete p (key_of <$> A_heap A) !! q = Some k → (key_of <$> A_heap A) !! q = Some k)
    by (intros q k Hk; apply lookup_delete_Some in Hk; tauto).
  assert (F : ∀ q, q ∈ filter (λ q, q ≠ p) (A_live A) → q ≠ p ∧ q ∈ A_live A)
    by (intros q Hq; by apply list_elem_of_filter in Hq).
  split; cbn; [eauto|done| |done|split].
  - destruct d as [|q pcm frames t0 off]; [done|]. destruct I3 as (k&Hk&Hh). exists k. split; [|done].
    rewrite lookup_delete_ne; [done|]. intros <-. by eapply Hd.
  - intros q [Hne Hq]%F. rewrite lookup_delete_ne by done. auto.
  - intros q [k Hk]. apply O2. eauto.
  - by apply NoDup_filter.
  - intros q k [_ Hq]%F Hk. eauto.
  - intros q r k j [_ Hq]%F [_ Hr]%F Hk Hj. eauto.
Qed.

(** ** Every step *)
Lemma data_inv h live next sent m d d' : audio_inv (h, live, next, sent) m d → data_ok h d' →
  audio_inv (h, live, next, sent) m d'.
Proof. intros [I1 I2 I3 I4 I5] Hd. by split. Qed.

Lemma main_inv h live next sent m m' d : audio_inv (h, live, next, sent) m d → main_ok h m' →
  audio_inv (h, live, next, sent) m' d.
Proof. intros [I1 I2 I3 I4 I5] Hm. by split. Qed.

Lemma sent_inv h live next sent l m d : audio_inv (h, live, next, sent) m d → Forall sent_ok l →
  audio_inv (h, live, next, sent ++ l) m d.
Proof. intros [I1 I2 I3 I4 I5] Hl. split; try done. cbn in *. by apply Forall_app. Qed.

Lemma astep_inv A m d A' m' d' : astep (A, m, d) (A', m', d') →
  audio_inv (keyed A) m d → audio_inv (keyed A') m' d'.
Proof.
  inversion 1; subst; intros HI;
    try match goal with E : udp_target _ _ _ = _ |- _ => rename E into Ht end;
    try match goal with E : A_heap _ !! _ = Some _ |- _ => rename E into Ha end;
    try match goal with E : process_listens _ _ = true |- _ => rename E into Hl end;
    try match goal with E : a_have_dest _ = _ |- _ => rename E into Hav end.
  - by erewrite keyed_loop.
  - by eapply inv_start.
  - by apply inv_stop.
  - apply (main_inv _ _ _ _ _ _ _ HI). by apply target_reaches in Ht as [Hr _].
  - destruct (target_reaches _ _ _ _ _ Ht) as [Hr (a'&Ha'&Hc)].
    assert (a' = a) as -> by congruence. rewrite (keyed_alter _ _ (λ k, mk_key (k_c k) None (k_have k) (k_token k))) by done.
    eapply inv_alter; [exact HI|by apply keyed_lookup|done|done| |].
    + intros Hh. cbn in Hh. congruence.
    + split; [done|]. eexists. rewrite lookup_alter_eq, (lookup_fmap _ (A_heap A)), Ha. cbn. by split_and!.
  - destruct HI as [I1 [Hr (k&Hk&Hh&Hc)] I3 I4 I5]. unfold udp_write_dest.
    rewrite (keyed_alter _ _ (λ k, mk_key (k_c k) (Some (ui_from u)) (k_have k) (k_token k))) by done.
    eapply (inv_alter _ _ _ _ (MWrite p cp h u)); [by split; [..|split; [|exists k]| | |]|exact Hk|done|done| |].
    + intros Hh'. cbn in Hh'. congruence.
    + split; [done|]. eexists. rewrite lookup_alter_eq. cbn in Hk. rewrite Hk. cbn. by split_and!.
  - destruct HI as [I1 [Hr (k&Hk&Hh&Hc&Hd)] I3 I4 I5]. unfold udp_publish.
    rewrite (keyed_alter _ _ (λ k, mk_key (k_c k) (k_dest k) true (k_token k))) by done.
    eapply (inv_alter _ _ _ _ (MPublish p cp h u)); [by split; [..|split; [|exists k]| | |]|exact Hk|done|done| |done].
    intros _. exists (ui_from u). cbn. by rewrite Hc.
  - unfold udp_stamp. rewrite keyed_on by done. by apply (main_inv _ _ _ _ (MStamp p cp h u)); [|apply HI].
  - unfold udp_echo, sendto. pose proof (ai_main _ _ _ HI) as Hr. cbn in Hr.
    apply (main_inv _ _ _ _ _ MIdle) in HI; [|done]. destruct (ui_ok u); [|done].
    apply (sent_inv _ _ _ _ [_] _ _ HI). constructor; [|done]. by exists (ui_from u).
  - apply (data_inv _ _ _ _ _ _ _ HI). exists (key_of a). split; [by apply keyed_lookup|].
    unfold process_listens in Hl. by apply andb_true_iff in Hl as [? _].
  - destruct (ai_data _ _ _ HI) as (k&Hk&Hh). destruct (keyed_lookup_inv _ _ _ Hk) as (a&Ha&<-).
    destruct (keyed_send_one A p a pcm frames t0 off ok Ha) as (l&Hl&->).
    destruct (ai_dest _ _ _ HI p (key_of a) Hk Hh) as (ss&Hd&Hr). cbn in Hd, Hr.
    eapply data_inv; [apply (sent_inv _ _ _ _ l _ _ HI)|by exists (key_of a)].
    eapply Forall_impl; [exact Hl|]. intros [[cp' ds] b] [= -> ->]. by exists ss.
  - apply (data_inv _ _ _ _ _ _ _ HI). done.
Qed.

Lemma astep_reach A m d w : rtc astep (A, m, d) w → audio_inv (keyed A) m d →
  audio_inv (keyed w.1.1) w.1.2 w.2.
Proof.
  intros Hr. remember (A, m, d) as v eqn:E. revert A m d E. induction Hr as [v|v v' w Hs Hr IH]; intros A m d ->;
    [done|]. intros HI. destruct v' as [[A' m'] d']. eapply IH; [done|]. by eapply astep_inv.
Qed.
End inv.
End sys.

(** * The default output of the desktop *)
Lemma prefix_app s t : String.prefix s (s +:+ t) = true.
Proof.
  induction s as [|c s IH]; [by destruct t|].
  change (String c s +:+ t) with (String c (s +:+ t)). cbn [String.prefix]. rewrite IH.
  by destruct (Ascii.ascii_dec c c).
Qed.

Lemma strstr_app s1 pat s2 : strstr (s1 +:+ (pat +:+ s2)) pat = true.
Proof.
  induction s1 as [|c s1 IH].
  - change ("" +:+ (pat +:+ s2)) with (pat +:+ s2). pose proof (prefix_app pat s2) as Hp.
    destruct (pat +:+ s2) as [|c s]; cbn [strstr]; by rewrite Hp.
  - change (String c s1 +:+ (pat +:+ s2)) with (String c (s1 +:+ (pat +:+ s2))). cbn [strstr].
    rewrite IH. apply orb_true_r.
Qed.

Lemma substring_all n s : (String.length s ≤ n)%nat → String.substring 0 n s = s.
Proof.
  revert n. induction s as [|c s IH]; intros [|n] Hn; cbn in *; try done; [lia|]. f_equal. apply IH. lia.
Qed.
Lemma length_substring n s : (String.length (String.substring 0 n s) ≤ n)%nat.
Proof. revert n. induction s as [|c s IH]; intros [|n]; cbn; try lia. specialize (IH n). lia. Qed.
Lemma length_append s t : String.length (s +:+ t) = (String.length s + String.length t)%nat.
Proof. induction s as [|c s IH]; cbn; [done|]. by rewrite <- IH. Qed.

(** The JSON of an output names it. *)
Lemma json_names node : (String.length node ≤ 47)%nat → names_node (Some (default_json node)) node = true.
Proof.
  intros Hn. unfold names_node, default_json, g_snprintf, quoted. cbn [pred].
  rewrite !substring_all.
  - change (strstr (("{ " +:+ (dq +:+ "name" +:+ dq) +:+ ": ") +:+ (dq +:+ node +:+ dq) +:+ " }")
      (dq +:+ node +:+ dq) = true). apply strstr_app.
  - rewrite !length_append. cbn. lia.
  - rewrite !length_append. cbn. lia.
Qed.

Section default.
Context `{Files} `{RunDir} `{NetNames} `{X264}.
Implicit Types (A : audio_globals) (a : SremfbAudio) (p : Z).

(** PipeWire with its "default" metadata, [q] the changes we asked for that
    it has not made yet, [v] the configured default; it reports every
    change.  Between two operations of the server, and before the user
    chooses another default, it catches up. *)
Definition asked A A' : list (option string) := drop (length (A_requests A)) (A_requests A').
Definition notify A (v : option string) : audio_globals := on_md_property A 0 (Some DEFAULT_KEY) v.

(** What the desktop's own default has been: the last one the user (or the
    session) configured, all of them, and whether one was configured while an
    output of ours was to be the default. *)
Record desktop := mk_desktop {
  dk_last : option string; dk_all : list (option string); dk_held : bool }.
Definition user_chose A (w : option string) (k : desktop) : desktop :=
  mk_desktop w (w :: dk_all k) (dk_held k || A_saved A).

Inductive dstep : audio_globals * list (option string) * option string * desktop →
    audio_globals * list (option string) * option string * desktop → Prop :=
  | ds_start A cp c r fl c' A' v k :
      sremfb_audio_start A cp c r = Some (fl, c', A') → dstep (A, [], v, k) (A', asked A A', v, k)
  | ds_state A p st v k :
      p ∈ A_live A → dstep (A, [], v, k) (on_state A p st, asked A (on_state A p st), v, k)
  | ds_stop A c p v k (A' := (sremfb_audio_stop A c).2) :
      c_audio c = Some p → p ∈ A_live A → dstep (A, [], v, k) (A', asked A A', v, k)
  | ds_apply A v q v0 k :
      dstep (A, v :: q, v0, k) (notify A v, q ++ asked A (notify A v), v, k)
  | ds_user A v w k :
      (∀ d, w = Some d → names_ours d = false) →
      dstep (A, [], v, k) (notify A w, asked A (notify A w), w, user_chose A w k).

(** An output that was made the default and still stands for it. *)
Definition holds_default A p : Prop :=
  p ∈ A_live A ∧ ∃ a, A_heap A !! p = Some a ∧ a_made_default a = true.

Section desktop.
Variable k : desktop.

(** A default to put back: one the desktop had, and its last one unless the
    user chose while ours was in place. *)
Definition kept (d : option string) : Prop :=
  d ∈ dk_all k ∧ (dk_held k = false → d = dk_last k).

(** Nothing of ours is configured; or one of our outputs is and the
    desktop's own default is kept; or it is, but the user chose since. *)
Definition default_ok A (v : option string) : Prop :=
  A_cur_default A = v ∧
  ((¬ (∃ p, holds_default A p) ∧ kept v ∧ A_saved A = false ∧ A_files A !! saved_path = None) ∨
   (A_saved A = true ∧ kept (A_orig_default A) ∧
    ((∃ p a, holds_default A p ∧ A_heap A !! p = Some a ∧ v = Some (default_json (a_node_name a))) ∨
     (dk_held k = true ∧ v ∈ dk_all k)))).

(** PipeWire is there, and every live output is a stream with a short name. *)
Record outputs_live A : Prop := {
  ol_md : is_Some (A_md A);
  ol_core : A_core A = true; ol_broken : A_broken A = false;
  ol_next : ∀ p, is_Some (A_heap A !! p) → p < A_next A;
  ol_live : ∀ p, p ∈ A_live A → ∃ a, A_heap A !! p = Some a ∧ a_stream a = true ∧
    (String.length (a_node_name a) ≤ 47)%nat }.

Definition settled_ok A v : Prop := outputs_live A ∧ default_ok A v.

(** What one change leaves to do. *)
Definition pending_ok A (q : list (option string)) v : Prop :=
  (q = [] ∧ settled_ok A v) ∨
  (∃ w, q = [w] ∧ A_requests (notify A w) = A_requests A ∧ settled_ok (notify A w) w).

Hypothesis not_ours : ∀ d, Some d ∈ dk_all k → names_ours d = false.

Lemma notify_quiet A w : (A_live A ≠ [] ∨ ∀ d, w = Some d → names_ours d = false) →
  notify A w = A⟨A_cur_default := w⟩.
Proof.
  intros Hq. unfold notify, on_md_property. rewrite Z.eqb_refl, String.eqb_refl. cbn [negb orb].
  unfold recover_default. cbn. destruct (A_live A); [|done]. destruct Hq as [Hq|Hq]; [done|].
  destruct w as [d|]; [|done]. by rewrite Hq.
Qed.

Lemma asked_same A A' : A_requests A' = A_requests A → asked A A' = [].
Proof. intros E. unfold asked. rewrite E. apply drop_all. Qed.
Lemma asked_one A A' w : A_requests A' = A_requests A ++ [w] → asked A A' = [w].
Proof. intros E. unfold asked. rewrite E. apply drop_app_length. Qed.

(** An output becomes the default. *)
Lemma take_pending A p a n :
  outputs_live A → p ∈ A_live A → A_heap A !! p = Some a → a_node_name a = n →
  (A_saved A = false ∧ kept (A_cur_default A) ∨ A_saved A = true ∧ kept (A_orig_default A)) →
  let A' := audio_take_default A p in
  A_requests A' = A_requests A ++ [Some (default_json n)] ∧ A_live A' = A_live A ∧ A_next A' = A_next A ∧
  A_md A' = A_md A ∧ A_core A' = A_core A ∧ A_broken A' = A_broken A ∧
  A_heap A' = alter (λ a, a⟨a_made_default := true⟩) p (A_heap A) ∧
  A_saved A' = true ∧ kept (A_orig_default A').
Proof.
  intros [O1 O2 O3 O4 O5] Hp Ha <- Hs. unfold audio_take_default. destruct O1 as [md Hmd]. rewrite Hmd, Ha.
  set (A1 := save_default A).
  assert (E : A_requests A1 = A_requests A ∧ A_live A1 = A_live A ∧ A_next A1 = A_next A ∧
    A_md A1 = A_md A ∧ A_core A1 = A_core A ∧ A_broken A1 = A_broken A ∧ A_heap A1 = A_heap A ∧
    A_saved A1 = true ∧ kept (A_orig_default A1)).
  { subst A1. unfold save_default. destruct Hs as [[-> Hc]|[Hs Ho]]; [|rewrite Hs; by split_and!].
    unfold saved_write.
    assert (match A_cur_default A with Some d => if names_ours d then None else Some d | None => None end =
      A_cur_default A) as ->.
    { destruct (A_cur_default A) as [d|] eqn:Ed; [|done]. by rewrite not_ours by apply Hc. }
    destruct (file_writable _); by split_and!. }
  clearbody A1. destruct E as (E1&E2&E3&E4&E5&E6&E7&E8&E9).
  cbn zeta. unfold default_set. rewrite E4, Hmd. cbn. rewrite E1, E7. split_and!; congruence.
Qed.

Lemma outputs_transfer A A' : outputs_live A →
  A_md A' = A_md A → A_core A' = A_core A → A_broken A' = A_broken A → A_next A' = A_next A →
  (∀ p, is_Some (A_heap A' !! p) → is_Some (A_heap A !! p)) →
  (∀ p, p ∈ A_live A' → p ∈ A_live A ∧ ∀ a, A_heap A !! p = Some a → ∃ a', A_heap A' !! p = Some a' ∧
    a_stream a' = a_stream a ∧ a_node_name a' = a_node_name a) →
  outputs_live A'.
Proof.
  intros [O1 O2 O3 O4 O5] E1 E2 E3 E4 Hh Hl. split; [by rewrite E1|congruence|congruence| |].
  - intros p Hp. rewrite E4. auto.
  - intros p Hp. destruct (Hl p Hp) as [Hin Ha]. destruct (O5 p Hin) as (a&Ea&Es&En).
    destruct (Ha a Ea) as (a'&Ea'&Es'&En'). exists a'. rewrite Es', En'. by split_and!.
Qed.

(** The default is this output's once PipeWire has reported it. *)
Lemma take_settled p a n (A' : audio_globals) :
  outputs_live A' → p ∈ A_live A' → A_heap A' !! p = Some a → a_node_name a = n →
  a_made_default a = true → A_saved A' = true → kept (A_orig_default A') →
  let w := Some (default_json n) in
  A_requests (notify A' w) = A_requests A' ∧ settled_ok (notify A' w) w.
Proof.
  intros HO Hp Ha <- Hm Hs Ho. cbv zeta. rewrite notify_quiet by (left; intros E; rewrite E in Hp; by apply not_elem_of_nil in Hp).
  split; [done|]. split.
  - eapply outputs_transfer; [exact HO|done..|]. intros q Hq. split; [done|]. intros b Hb. exists b. by split_and!.
  - split; [done|]. right. split_and!; [done|done|]. left. exists p, a. split_and!; [|done|done].
    split; [done|]. by exists a.
Qed.

(** ** The operations *)
Lemma node_name_short mac : (String.length (node_name mac) ≤ 47)%nat.
Proof. apply length_substring. Qed.

Lemma start_settled A cp c r fl c' A' v : settled_ok A v →
  sremfb_audio_start A cp c r = Some (fl, c', A') → pending_ok A' (asked A A') v.
Proof.
  intros [HO HD] Hs. unfold sremfb_audio_start in Hs.
  assert (Hsame : pending_ok A (asked A A) v) by (left; split; [by apply asked_same|by split]).
  destruct (_ || _); [injection Hs as _ _ <-; exact Hsame|].
  apply bind_Some in Hs as (t&_&Hs). unfold pw_connect in Hs.
  rewrite (ol_core A HO), (ol_broken A HO) in Hs. cbn [negb andb] in Hs.
  destruct (_ || _); [injection Hs as _ _ <-; exact Hsame|]. injection Hs as _ _ <-.
  set (a := mk_audio _ _ _ _ _ _ _ _ _ _ _ _ _).
  assert (Hnl : ∀ p, p ∈ A_live A → p ≠ A_next A).
  { intros p Hp ->. destruct (ol_live A HO _ Hp) as (b&Hb&_).
    specialize (ol_next A HO (A_next A) ltac:(by eexists)). lia. }
  left. split; [by apply asked_same|]. split.
  - destruct HO as [O1 O2 O3 O4 O5]. split; cbn; [done..| |].
    + intros p Hp. destruct (decide (p = A_next A)) as [->|]; [lia|].
      rewrite lookup_insert_ne in Hp by done. specialize (O4 p Hp). lia.
    + intros p [Hp| ->%list_elem_of_singleton]%elem_of_app.
      * rewrite lookup_insert_ne by (intros E; by apply (Hnl p Hp)). auto.
      * exists a. rewrite lookup_insert_eq. split_and!; [done|done|apply node_name_short].
  - assert (Hh : ∀ p, holds_default A⟨A_heap ::= <[A_next A := a]>⟩⟨A_next ::= Z.succ⟩
        ⟨A_live ::= λ l, l ++ [A_next A]⟩ p ↔ holds_default A p).
    { intros p. unfold holds_default. cbn. split.
      - intros [[Hp| ->%list_elem_of_singleton]%elem_of_app (b&Hb&Hm)].
        + split; [done|]. rewrite lookup_insert_ne in Hb by (intros E; by apply (Hnl p Hp)). by exists b.
        + rewrite lookup_insert_eq in Hb. by injection Hb as <-.
      - intros [Hp (b&Hb&Hm)]. split; [apply elem_of_app; by left|]. exists b.
        by rewrite lookup_insert_ne by (intros E; by apply (Hnl p Hp)). }
    destruct HD as [HD [(D1&D2&D3&D4)|(D1&D2&[(p&b&Hp&Hb&Hv)|Hu])]]; (split; [done|]).
    + left. split_and!; try done. intros [p Hp]. apply D1. exists p. by apply Hh.
    + right. split_and!; try done. left. exists p, b. split_and!; [by apply Hh| |done].
      cbn. rewrite lookup_insert_ne; [done|]. intros E. by apply (Hnl p (proj1 Hp)).
    + right. split_and!; try done. by right.
Qed.

(** What the invariant says before an output takes the default. *)
Lemma settled_saved A v : settled_ok A v →
  A_saved A = false ∧ kept (A_cur_default A) ∨ A_saved A = true ∧ kept (A_orig_default A).
Proof. intros [_ [E [(D1&D2&D3&D4)|(D1&D2&_)]]]; [left; rewrite E|right]; by split. Qed.

Lemma state_settled A p st v : settled_ok A v → p ∈ A_live A →
  pending_ok (on_state A p st) (asked A (on_state A p st)) v.
Proof.
  intros HS Hp. assert (Hsame : pending_ok A (asked A A) v) by (left; split; [by apply asked_same|done]).
  destruct (ol_live A (proj1 HS) p Hp) as (a&Ha&Hst&Hnm). unfold on_state. rewrite Ha.
  assert (Hgo : pending_ok (audio_take_default (on_audio p (λ a, a⟨a_announced := true⟩) A) p)
    (asked A (audio_take_default (on_audio p (λ a, a⟨a_announced := true⟩) A) p)) v).
  { set (A1 := on_audio p _ A).
    assert (Ha1 : A_heap A1 !! p = Some a⟨a_announced := true⟩) by (subst A1; cbn; by rewrite lookup_alter_eq, Ha).
    assert (HO1 : outputs_live A1).
    { eapply outputs_transfer; [exact (proj1 HS)|done..| |]; cbn.
      - intros q. by rewrite lookup_alter_is_Some.
      - intros q Hq. split; [done|]. intros b Hb. destruct (decide (p = q)) as [<-|].
        + exists b⟨a_announced := true⟩. by rewrite lookup_alter_eq, Hb.
        + exists b. by rewrite lookup_alter_ne. }
    destruct (take_pending A1 p _ (a_node_name a) HO1 Hp Ha1 eq_refl (settled_saved A v HS)) as (T1&T2&T3&T4&T5&T6&T7&T8&T9).
    set (A2 := audio_take_default A1 p) in *. clearbody A2.
    assert (Ha2 : A_heap A2 !! p = Some a⟨a_announced := true⟩⟨a_made_default := true⟩)
      by (by rewrite T7, lookup_alter_eq, Ha1).
    assert (HO2 : outputs_live A2).
    { eapply outputs_transfer; [exact HO1|done..| |].
      - intros q. rewrite T7. by rewrite lookup_alter_is_Some.
      - intros q Hq. rewrite T2 in Hq. split; [done|]. intros b Hb. destruct (decide (p = q)) as [<-|].
        + exists b⟨a_made_default := true⟩. by rewrite T7, lookup_alter_eq, Hb.
        + exists b. by rewrite T7, lookup_alter_ne. }
    right. exists (Some (default_json (a_node_name a))). split; [by apply asked_one|].
    apply (take_settled p (a⟨a_announced := true⟩⟨a_made_default := true⟩)); try done. by rewrite T2. }
  destruct st; try exact Hsame; (destruct (a_announced a); [exact Hsame|exact Hgo]).
Qed.

Lemma other_live_spec A p live :
  (∀ q, q ∈ live → q ≠ p ∧ ∃ b, A_heap A !! q = Some b ∧ a_stream b = true) →
  match other_live A p live with Some o => o ∈ live | None => live = [] end.
Proof.
  destruct live as [|q live]; [done|]. intros Hl. cbn [other_live].
  destruct (Hl q) as [Hne (b&->&->)]; [by left|]. replace (q =? p) with false by lia. by left.
Qed.

(** The output [p] taken off, with its default given back or not. *)
Lemma stop_frame A A1 p :
  outputs_live A → A_md A1 = A_md A → A_core A1 = A_core A → A_broken A1 = A_broken A →
  A_next A1 = A_next A → A_live A1 = filter (λ q, q ≠ p) (A_live A) →
  (∀ q, q ≠ p → (A_heap A1 !! q = A_heap A !! q ∨
     ∃ b, A_heap A !! q = Some b ∧ A_heap A1 !! q = Some b⟨a_made_default := true⟩)) →
  outputs_live A1⟨A_heap ::= delete p⟩.
Proof.
  intros HO E1 E2 E3 E4 E5 Hh.
  assert (L : ∀ q, q ∈ A_live A1 → q ≠ p ∧ q ∈ A_live A) by (intros q Hq; rewrite E5 in Hq; by apply list_elem_of_filter in Hq).
  eapply outputs_transfer; [exact HO|done..| |]; cbn.
  - intros q [b Hb]. apply lookup_delete_Some in Hb as [Hne Hb].
    destruct (Hh q) as [E|(b0&Hb0&_)]; [done|rewrite <- E, Hb; by eexists|by exists b0].
  - intros q Hq. destruct (L q Hq) as [Hne Hin]. split; [done|]. intros b Hb. rewrite lookup_delete_ne by done.
    destruct (Hh q Hne) as [E|(b0&Hb0&E)]; rewrite E.
    + exists b. by split_and!.
    + exists b0⟨a_made_default := true⟩. rewrite Hb in Hb0. injection Hb0 as ->. by split_and!.
Qed.

Lemma stop_settled A c p v : settled_ok A v → c_audio c = Some p → p ∈ A_live A →
  pending_ok (sremfb_audio_stop A c).2 (asked A (sremfb_audio_stop A c).2) v.
Proof.
  intros HS Hc Hp. pose proof HS as [HO [Hcur HD]]. unfold sremfb_audio_stop. rewrite Hc. cbn [snd].
  destruct (ol_live A HO p Hp) as (a&Ha&Hst&Hnm). destruct (ol_md A HO) as [md Hmd].
  set (A1 := A⟨A_live ::= _⟩).
  assert (L : ∀ q, q ∈ A_live A1 → q ≠ p ∧ q ∈ A_live A) by (intros q Hq; by apply list_elem_of_filter in Hq).
  assert (L' : ∀ q, q ≠ p → q ∈ A_live A → q ∈ A_live A1) by (intros q Hne Hq; by apply list_elem_of_filter).
  unfold audio_give_back_default. change (A_heap A1) with (A_heap A). change (A_md A1) with (A_md A).
  rewrite Ha, Hmd.
  (* nothing is asked when another output holds the default, or none does *)
  assert (Hkeep : ∀ A2, A_md A2 = A_md A → A_core A2 = A_core A → A_broken A2 = A_broken A →
    A_next A2 = A_next A → A_live A2 = A_live A1 → A_requests A2 = A_requests A →
    A_cur_default A2 = A_cur_default A → A_saved A2 = A_saved A → A_orig_default A2 = A_orig_default A →
    A_files A2 = A_files A → (∀ q, q ≠ p → A_heap A2 !! q = A_heap A !! q) →
    (A_saved A = true → (∃ p0 b, p0 ≠ p ∧ holds_default A p0 ∧ A_heap A !! p0 = Some b ∧
       v = Some (default_json (a_node_name b))) ∨ (dk_held k = true ∧ v ∈ dk_all k)) →
    pending_ok A2⟨A_heap ::= delete p⟩ (asked A A2⟨A_heap ::= delete p⟩) v).
  { intros A2 E1 E2 E3 E4 E5 E6 E7 E8 E9 E10 Hh Hsv. left. split; [by apply asked_same|]. split.
    - eapply stop_frame; [exact HO|done..|]. intros q Hne. left. auto.
    - split; [cbn; by rewrite E7|]. destruct HD as [(D1&D2&D3&D4)|(D1&D2&_)].
      + left. cbn. rewrite E8, E10. split_and!; try done. intros (q&Hq&b&Hb&Hm). apply D1. exists q.
        cbn in Hq, Hb. rewrite E5 in Hq. destruct (L q Hq) as [Hne Hin].
        rewrite lookup_delete_ne, Hh in Hb by done. split; [done|]. by exists b.
      + right. cbn. rewrite E8, E9. split_and!; try done.
        destruct (Hsv D1) as [(p0&b&Hne&[Hin (b'&Hb'&Hm)]&Hb&->)|Hu]; [left|by right].
        exists p0, b. cbn. rewrite lookup_delete_ne, Hh by done. split_and!; try done. split.
        * cbn. rewrite E5. auto.
        * exists b'. cbn. by rewrite lookup_delete_ne, Hh. }
  destruct (a_made_default a) eqn:Hmade; cbn [negb]; cycle 1.
  { apply Hkeep; try done. intros Hs.
    destruct HD as [(_&_&D3&_)|(D1&D2&[(p0&b&Hh&Hb&Hv)|Hu])]; [congruence| |by right]. left.
    exists p0, b. split_and!; try done. intros ->. destruct Hh as [_ (b'&Hb'&Hm)]. congruence. }
  set (A2 := on_audio p _ A1).
  assert (Hh2 : ∀ q, q ≠ p → A_heap A2 !! q = A_heap A !! q) by (intros q Hne; cbn; by rewrite lookup_alter_ne).
  destruct HD as [(D1&_)|(D1&D2&HD)].
  { destruct D1. exists p. split; [done|]. by exists a. }
  change (A_cur_default A2) with (A_cur_default A). rewrite Hcur.
  destruct (bool_decide _ && _) eqn:Hn.
  { apply andb_true_iff in Hn as [_ Hn]. apply Hkeep; try done. intros _.
    destruct HD as [(p0&b&Hh&Hb&Hv)|Hu]; [left|by right].
    exists p0, b. split_and!; try done. intros ->.
    assert (b = a) as -> by congruence. rewrite Hv, json_names in Hn by done. done. }
  clear Hn HD. assert (Ho : match other_live A2 p (A_live A2) with Some o => o ∈ A_live A2 | None => A_live A2 = [] end).
  { apply other_live_spec. intros q Hq. destruct (L q Hq) as [Hne Hin]. split; [done|].
    destruct (ol_live A HO q Hin) as (x&Hx&Hsx&_). exists x. by rewrite Hh2. }
  destruct (other_live A2 p (A_live A2)) as [o|].
  - destruct (L o Ho) as [Hne Hin]. destruct (ol_live A HO o Hin) as (bo&Hbo&_).
    assert (HO2 : outputs_live A2).
    { eapply outputs_transfer; [exact HO|done..| |].
      - intros q Hq. cbn in Hq. by rewrite lookup_alter_is_Some in Hq.
      - intros q Hq. destruct (L q Hq) as [Hqp Hql]. split; [done|]. intros x Hx. exists x.
        rewrite Hh2 by done. by split_and!. }
    destruct (take_pending A2 o bo (a_node_name bo) HO2 Ho) as (T1&T2&T3&T4&T5&T6&T7&T8&T9);
      [by rewrite Hh2|done|by right|].
    set (A3 := audio_take_default A2 o) in *. clearbody A3.
    assert (HO3 : outputs_live A3⟨A_heap ::= delete p⟩).
    { eapply stop_frame; [exact HO|done..|]. intros q Hqp. destruct (decide (o = q)) as [<-|Hqo].
      - right. exists bo. split; [done|]. by rewrite T7, lookup_alter_eq, Hh2, Hbo.
      - left. by rewrite T7, lookup_alter_ne, Hh2. }
    right. exists (Some (default_json (a_node_name bo))). split; [by apply asked_one|].
    apply (take_settled o (bo⟨a_made_default := true⟩)); try done; [by cbn; rewrite T2|].
    cbn. by rewrite lookup_delete_ne, T7, lookup_alter_eq, Hh2, Hbo.
  - unfold default_set. change (A_md A2) with (A_md A). rewrite Hmd.
    change (A_orig_default A2) with (A_orig_default A). cbn [saved_write].
    set (A3 := _⟨A_heap ::= delete p⟩). right. exists (A_orig_default A).
    assert (E3 : A_requests A3 = A_requests A ++ [A_orig_default A] ∧ A_live A3 = [] ∧ A_md A3 = A_md A ∧
      A_core A3 = A_core A ∧ A_broken A3 = A_broken A ∧ A_saved A3 = false ∧
      A_files A3 !! saved_path = None ∧ A_next A3 = A_next A ∧
      A_heap A3 = delete p (alter (λ a, a⟨a_made_default := false⟩) p (A_heap A))).
    { subst A3. split_and!; try done. cbn. by rewrite lookup_delete_eq. }
    clearbody A3. destruct E3 as (R1&R2&R3&R4&R5&R6&R7&R8&R9).
    split; [by apply asked_one|]. rewrite notify_quiet
      by (right; intros d E; apply not_ours; rewrite <- E; apply D2). split; [done|]. split.
    + eapply outputs_transfer; [exact HO|done..| |]; cbn.
      * intros q. rewrite R9. intros [x Hx]. apply lookup_delete_Some in Hx as [Hqp Hx].
        rewrite lookup_alter_ne in Hx by done. by exists x.
      * rewrite R2. intros q Hq. by apply not_elem_of_nil in Hq.
    + split; [done|]. left. split_and!; try done. intros (q&Hq&_). cbn in Hq. rewrite R2 in Hq.
      by apply not_elem_of_nil in Hq.
Qed.

End desktop.

(** The user chooses: before one of ours takes the default that is what
    will be put back, and afterwards the choice stands until the next
    operation of the server. *)
Lemma user_settled k A v w :
  (∀ d, w = Some d → names_ours d = false) → settled_ok k A v →
  pending_ok (user_chose A w k) (notify A w) (asked A (notify A w)) w.
Proof.
  intros Hw [HO [Hcur HD]]. rewrite notify_quiet by by right. left. split; [by apply asked_same|]. split.
  - eapply outputs_transfer; [exact HO|done..|]. intros q Hq. split; [done|]. intros b Hb. exists b. by split_and!.
  - split; [done|]. destruct HD as [(D1&D2&D3&D4)|(D1&[D2 _]&_)].
    + left. split_and!; try done. split; [by left|done].
    + right. unfold kept, user_chose. cbn. rewrite D1, orb_true_r.
      split_and!; [done|by right|done|]. right. split; [done|by left].
Qed.

(** ** Every step *)
Definition desktop_ok (k : desktop) : Prop := ∀ d, Some d ∈ dk_all k → names_ours d = false.

Lemma dstep_pending A q v k A' q' v' k' : dstep (A, q, v, k) (A', q', v', k') →
  desktop_ok k → pending_ok k A q v → desktop_ok k' ∧ pending_ok k' A' q' v'.
Proof.
  inversion 1; subst; intros Hk [[Eq HS]|(w'&Eq&Hr&HS)]; try done.
  - split; [done|]. by eapply start_settled.
  - split; [done|]. by apply state_settled.
  - split; [done|]. by eapply stop_settled.
  - split; [done|]. injection Eq as -> ->. left. split; [by apply asked_same|done].
  - split; [|by eapply user_settled]. intros d [E|Hd]%elem_of_cons; [by symmetry in E; auto|by apply Hk].
Qed.

Lemma dstep_reach A q v k w : rtc dstep (A, q, v, k) w → desktop_ok k → pending_ok k A q v →
  pending_ok w.2 w.1.1.1 w.1.1.2 w.1.2.
Proof.
  intros Hr. remember (A, q, v, k) as u eqn:E. revert A q v k E.
  induction Hr as [u|u u' w Hs Hr IH]; intros A q v k ->; [done|]. intros Hk HI.
  destruct u' as [[[A' q'] v'] k']. destruct (dstep_pending _ _ _ _ _ _ _ _ Hs Hk HI). by eapply IH.
Qed.
End default.
