(* ===== verification/AudioProps.v ===== *)
(** * Properties of the sound (server/core/audio.c, view/audio.c) *)
From S2P Require Import Prelude Binary64 Protocol Core Net XmitSpec Session Audio ViewAudio AudioFlow.
From S2P Require Import AudioSys Evdi EvdiSys Samples.
From Stdlib Require Import Sorted.
From stdpp Require Import gmap strings list relations.
#[local] Open Scope list_scope.
#[local] Open Scope Z_scope.

(** ** The flow *)
Section flow.
Context `{S : SDLAudio} `{!SDLAudioLaws S}.

(** (C11) From the server's samples to the viewer's sound stream.  The
    packets of a quantum are its samples, cut; the ones the kernel takes
    leave with consecutive numbers.  Take a viewer that has started, is not
    dropping and expects these numbers ([m] short of them when the last [m]
    packets before were missing), and let the network deliver exactly the
    packets the kernel took, in order ([picked]), each without a pause and
    with the stream neither empty nor too deep ([calm]), with no hole of
    more than CONCEAL_MAX packets ([holes_short]).  Then it hands to SDL
    exactly the samples of each packet in order, with silence for the
    missing ones; with no packet lost, the samples and nothing else.  It is
    then ready for the next quantum.  Outside these conditions on_packet()
    may drop packets or start over (see the theorems on replays and on the
    latency). *)
Theorem audio_flow A p o pcm frames t0 oks a got l m
    (A' := send_frames A p pcm frames t0 oks) (pkts := packets (Z.to_nat frames) o pcm frames t0 0)
    (a' := (recv_run (a, got) l).1) :
  A_heap A !! p = Some o → 0 ≤ a_seq o < 2 ^ 32 → 0 ≤ frames →
  frames * 4 ≤ Z.of_nat (length pcm) →
  dg_data <$> l = picked oks pkts → calm (a, got) l → 0 ≤ m → holes_short m oks pkts →
  va_started a = true → va_dropping a = false → va_next_seq a = u32 (a_seq o - m) →
  concat (pcm_of <$> pkts) = take (Z.to_nat (frames * 4)) pcm ∧
  A_sent A' = A_sent A ++ ((λ b, (a_c o, a_dest o, b)) <$> picked oks pkts) ∧
  (∃ o', A_heap A' !! p = Some o' ∧ a_seq o' = u32 (a_seq o + Z.of_nat (length pkts)) ∧
     va_next_seq a' = u32 (a_seq o' - (heard m oks pkts).2)) ∧
  va_started a' = true ∧ va_dropping a' = false ∧
  va_log a' = va_log a ++ (heard m oks pkts).1 ∧
  (m = 0 → Forall (eq true) oks → (length pkts ≤ length oks)%nat →
   va_log a' = va_log a ++ ((λ b, PPcm (seq_of b) (pcm_of b)) <$> pkts)).
Proof.
  intros Ho Hs Hf Hlen El Hcalm Hm Hsh Hst Hdr Hnx.
  destruct (send_loop_spec (Z.to_nat frames) A p o pcm frames t0 0 oks Ho Hs) as (S1&o'&S2&_&S3).
  destruct (recv_packets (Z.to_nat frames) o pcm frames t0 0 oks l a got m Hs ltac:(lia) Hlen El Hcalm Hm Hsh
    Hst Hdr Hnx) as (R1&R2&R3&R4).
  assert (Hall : m = 0 → Forall (eq true) oks → (length pkts ≤ length oks)%nat →
    (heard m oks pkts).1 = (λ b, PPcm (seq_of b) (pcm_of b)) <$> pkts)
    by (intros -> Ht Hl; by rewrite heard_all).
  subst A' a' pkts. split_and!; try done.
  - pose proof (packets_pcm (Z.to_nat frames) o pcm frames t0 0 Hs ltac:(lia) Hlen ltac:(lia)) as Hp.
    rewrite Z.sub_0_r in Hp. exact Hp.
  - exists o'. split_and!; [done|done|]. rewrite R4, S3. unfold u32. dlia.
  - intros Hm0 Ht Hl. by rewrite <- (Hall Hm0 Ht Hl).
Qed.

(** (C13) While the sound does not pause, whatever datagrams arrive: no
    packet's samples are handed to SDL twice and none after a later one.
    What is handed over has strictly increasing positions, the sequence
    numbers being the positions modulo 2^32. *)
Theorem audio_no_replay a got l :
  Forall (λ d, bytes_ok (dg_data d)) l → va_started a = true → 0 ≤ va_next_seq a < 2 ^ 32 →
  no_pause (a, got) l →
  ∃ ps, played (va_log (recv_run (a, got) l).1) = played (va_log a) ++ (u32 <$> ps) ∧
    StronglySorted Z.lt ps ∧ Forall (λ q, va_next_seq a ≤ q) ps.
Proof.
  intros Hok Hst Hr Hnp. apply recv_positions; try done. by apply u32_small.
Qed.

(** (C15) Latency stays capped: the samples of a packet are put behind a
    queue whose length is within the target plus the slack (within the
    target while dropping), or behind a fresh refill of target
    milliseconds; they add at most 5 ms. *)
Theorem audio_latency_capped a buf rx sdl (a' := on_packet a buf rx sdl) :
  valid_packet buf = true → played (va_log a') ≠ played (va_log a) →
  ∃ ahead, queued a' = ahead + Z.of_nat (length (pcm_of buf)) ∧
    Z.of_nat (length (pcm_of buf)) ≤ SREMFB_AUDIO_RATE * 5 / 1000 * BYTES_PER_FRAME ∧
    ((pause a rx = false ∧
      (Dltb (va_target_ms a) (ms_of ahead) = false ∨
       (va_dropping a = false ∧ Dltb (Dadd (va_target_ms a) DROP_SLACK_MS) (ms_of ahead) = false))) ∨
     ∃ rest, Dleb (ms_of rest) D0 = true ∧
       ahead = rest + 4 * Z.max 0 (silence_frames (va_target_ms a))).
Proof.
  intros Hv Hp. destruct (put_behind a buf rx sdl Hv Hp) as (ahead&E1&E2). exists ahead.
  split; [exact E1|]. split; [by apply pcm_short|exact E2].
Qed.
End flow.

(** ** The server *)
Section server.
Context `{Files} `{RunDir} `{NetNames} `{X264}.

(** (C12) At every interleaving of the main loop, the PipeWire loop and the
    data thread: every datagram that leaves goes to a completely written
    address, and that is the address of the very client the output is
    for.  The tokens that select an output are never 0 and never shared. *)
Theorem audio_only_to_peer (peers : nat → string) A A' m d :
  A_heap A = ∅ → A_live A = [] → A_sent A = [] →
  rtc (astep peers) (A, MIdle, DIdle) (A', m, d) →
  (∀ cp dest b, (cp, dest, b) ∈ A_sent A' → ∃ ss, dest = Some ss ∧ addr_ip ss = peer_ip (peers cp)) ∧
  (∀ p a, p ∈ A_live A' → A_heap A' !! p = Some a → 1 ≤ a_token a < 65536) ∧
  (∀ p q a b, p ∈ A_live A' → q ∈ A_live A' → A_heap A' !! p = Some a → A_heap A' !! q = Some b →
     a_token a = a_token b → p = q).
Proof.
  intros Eh El Es Hr. assert (HI : audio_inv peers (keyed A) MIdle DIdle).
  { unfold keyed. rewrite Eh, El, Es, fmap_empty. split; try done. split; cbn.
    - intros p Hp. by apply not_elem_of_nil in Hp.
    - intros p [k Hk]. by rewrite lookup_empty in Hk.
    - constructor.
    - intros p k Hp. by apply not_elem_of_nil in Hp.
    - intros p q k j Hp. by apply not_elem_of_nil in Hp. }
  pose proof (astep_reach peers A MIdle DIdle _ Hr HI) as [I1 _ _ I4 [_ _ _ O4 O5]]. cbn in *.
  assert (K : ∀ p a, A_heap A' !! p = Some a → (key_of <$> A_heap A') !! p = Some (key_of a))
    by (intros p a Ha; by rewrite lookup_fmap, Ha).
  split_and!.
  - intros cp dest b Hin. rewrite Forall_forall in I4. exact (I4 _ Hin).
  - intros p a Hp Ha. exact (O4 p _ Hp (K p a Ha)).
  - intros p q a b Hp Hq Ha Hb E. exact (O5 p q _ _ Hp Hq (K p a Ha) (K q b Hb) E).
Qed.

(** (C14) The desktop's default output, for any starts, stream states and
    stops of outputs and any other outputs the user chooses, with PipeWire
    up and making each change before the next of these steps.  As long as the
    user did not choose while an output of a client was to be the default:
    while some output holds it, the default names such an output; when none
    does (the clients have left), the default is the last one the user chose,
    or the one there was at the start, and no file of it is left behind.
    In any case the default names an output of a connected client or is one
    the desktop had itself. *)
Theorem audio_default_restored d0 A A' v k :
  (∀ d, d0 = Some d → names_ours d = false) →
  is_Some (A_md A) → A_core A = true → A_broken A = false → A_live A = [] → A_heap A = ∅ →
  A_saved A = false → A_cur_default A = d0 → A_files A !! saved_path = None →
  rtc dstep (A, [], d0, mk_desktop d0 [d0] false) (A', [], v, k) →
  let ours := ∃ p a, holds_default A' p ∧ A_heap A' !! p = Some a ∧
    v = Some (default_json (a_node_name a)) in
  (ours ∨ v ∈ dk_all k) ∧
  (dk_held k = false →
    ((∃ p, holds_default A' p) → ours) ∧
    (¬ (∃ p, holds_default A' p) →
       v = dk_last k ∧ A_saved A' = false ∧ A_files A' !! saved_path = None)).
Proof.
  intros Hn Hmd Hc Hb Hl Hh Hs Hcur Hf Hr. cbv zeta.
  assert (Hk : desktop_ok (mk_desktop d0 [d0] false)).
  { intros d E%list_elem_of_singleton. by apply Hn. }
  assert (HP : pending_ok (mk_desktop d0 [d0] false) A [] d0).
  { left. split; [done|]. split.
    - split; try done; rewrite ?Hh, ?Hl; [intros p [x Hx]; by rewrite lookup_empty in Hx|].
      intros p Hp. by apply not_elem_of_nil in Hp.
    - split; [done|]. left. split_and!; try done; [|split; [by left|done]].
      intros (p&Hp&_). rewrite Hl in Hp. by apply not_elem_of_nil in Hp. }
  pose proof (dstep_reach A [] d0 _ _ Hr Hk HP) as [[_ [_ [_ HD]]]|(w&[=]&_)]. cbn in HD.
  destruct HD as [(D1&[D2 D2']&D3&D4)|(D1&D2&[Ho|[Hu Hv]])].
  - split; [by right|]. intros He. split; [intros Hp; by destruct (D1 Hp)|]. intros _. by split_and!; auto.
  - split; [by left|]. intros _. split; [done|]. intros Hno. destruct Hno as []. destruct Ho as (p&_&Hp&_). by exists p.
  - split; [by right|]. congruence.
Qed.

(** sremfb_audio_start() keeps what the frame sources rely on. *)
Lemma audio_start_vis A cp c r fl c' A' :
  draws_ok r → sremfb_audio_start A cp c r = Some (fl, c', A') → 0 ≤ c_audio_token c < 65536 →
  0 ≤ fl < 256 ∧ vis c' = vis c ∧ 0 ≤ c_audio_token c' < 65536.
Proof.
  intros Hd Hs Ht. unfold sremfb_audio_start in Hs.
  destruct (_ || _); [injection Hs as <- <- <-; split_and!; (done || lia)|].
  apply bind_Some in Hs as (t&Hpt&Hs). destruct (pick_token_ok A _ t Hpt Hd) as [Htr _].
  destruct (pw_connect _ _) as [ok A1]. destruct (_ || _); [injection Hs as <- <- <-; split_and!; (done || lia)|].
  injection Hs as <- <- <-. split; [done|]. split; [done|]. cbn. lia.
Qed.

(** The sound as the frame sources see it: what a start answers, for any
    state of the sound and any answers of PipeWire. *)
Definition audio_peers (A : audio_globals) (cp : nat) (r : start_ans) (lay : Type)
    (layout_client : lay → SremfbClient → lay) : EvdiPeers :=
  {| sremfb_audio_start_op := λ c,
       match sremfb_audio_start A cp c r with Some (fl, c', _) => (fl, c') | None => (0, c) end;
     lay_t := lay; sremfb_layout_client_op := layout_client |}.

#[export] Instance audio_peers_laws A cp r lay f :
  TCEq (bool_decide (draws_ok r)) true → AudioLaws (audio_peers A cp r lay f).
Proof.
  intros Hd%TCEq_eq%bool_decide_eq_true. split; cbn.
  - intros c. unfold sremfb_audio_start. destruct (_ || _); [done|].
    destruct (pick_token _ _) as [t|]; [|done]. cbn. destruct (pw_connect _ _). by destruct (_ || _).
  - intros c Ht. destruct (sremfb_audio_start A cp c r) as [[[fl c'] A1]|] eqn:E; [|by split].
    by destruct (audio_start_vis A cp c r fl c' A1 Hd E Ht).
Qed.
End server.

(** The session's view of it: stopping the sound of a client that leaves. *)
Definition audio_peripherals `{Files} `{RunDir} `{X264} (lay : Type)
    (layout_gone : lay → nat → SremfbClient → lay) : Peripherals :=
  {| per_t := audio_globals * lay;
     Session.sremfb_audio_stop := λ s _ c, ((sremfb_audio_stop s.1 c).2, s.2);
     sremfb_layout_client_gone := λ s p c, (s.1, layout_gone s.2 p c) |}.

(** ** Witnesses *)

(** A stream that counts its bytes. *)
Definition sample_sdl : SDLAudio := {|
  SDL_AudioStream := Z; SDL_GetAudioStreamQueued := λ s, s;
  SDL_PutAudioStreamData := λ s b, s + Z.of_nat (length b); SDL_ClearAudioStream := λ _, 0;
  SDL_SetAudioStreamFrequencyRatio := λ s _, s |}.
#[export] Instance sample_sdl_laws : SDLAudioLaws sample_sdl.
Proof. by split. Qed.

Definition sample_audio_files : Files := λ _, true.
Definition sample_rundir : RunDir := None.
Definition sample_audio_names : NetNames := λ _, "::1"%string.
Definition sample_addr : sockaddr := SA_INET (of_le [192; 0; 2; 7]) 5004.
Definition sample_peers_of (cp : nat) : string := "192.0.2.7:40000".

(** A client that plays audio, PipeWire up with "X" as default. *)
Definition sample_sound_client : @SremfbClient sample_x264 :=
  (client_new0 5 (sample_hello SREMFB_PIX_XRGB8888 1) "192.0.2.7:40000")⟨c_audio_cap := true⟩.
Definition sample_X : option string := Some "{ X }"%string.
Definition sample_Y : option string := Some "{ Y }"%string.
Definition sample_A0 : audio_globals :=
  A_zero⟨A_enabled := true⟩⟨A_core := true⟩⟨A_md := Some 33⟩⟨A_cur_default := sample_X⟩.
Definition sample_ans : start_ans := mk_start_ans [4242] true true true.
Definition sample_start (A : audio_globals) : option (Z * @SremfbClient sample_x264 * audio_globals) :=
  @sremfb_audio_start sample_x264 A 3%nat sample_sound_client sample_ans.
Definition sample_started_A (A : audio_globals) : audio_globals := default A (snd <$> sample_start A).
Definition sample_started_c (A : audio_globals) : @SremfbClient sample_x264 :=
  default sample_sound_client (snd <$> (fst <$> sample_start A)).
Abbreviation sample_on_state := (@on_state sample_audio_files sample_rundir).
Abbreviation sample_notify := (@notify sample_rundir).
Abbreviation sample_stop := (@sremfb_audio_stop sample_audio_files sample_rundir sample_x264).

Definition sample_A1 := sample_started_A sample_A0.
Definition sample_A2 := sample_on_state sample_A1 1 PW_PAUSED.
Definition sample_ours : option string := 
  Some (default_json (node_name (ch_mac (c_hello sample_sound_client)))).

Lemma sample_start_eq A : A_enabled A = true → A = sample_A0 →
  sample_start A = Some (SREMFB_SRV_FLAG_AUDIO, sample_started_c A, sample_started_A A).
Proof. intros _ ->. vm_compute. reflexivity. Qed.
Definition sample_A3 := sample_notify sample_A2 sample_ours.
Definition sample_A4 := (sample_stop sample_A3 (sample_started_c sample_A0)).2.
Definition sample_A5 := sample_notify sample_A4 sample_X.

Abbreviation sample_dstep := (@dstep sample_audio_files sample_rundir sample_x264).
(** The user chooses "X" instead of "Y", then a client comes and leaves. *)
Definition sample_B0 : audio_globals := sample_A0⟨A_cur_default := sample_Y⟩.
Definition sample_desktop0 := mk_desktop sample_Y [sample_Y] false.
Definition sample_desktop := mk_desktop sample_X [sample_X; sample_Y] false.
Lemma sample_dsteps :
  rtc sample_dstep (sample_B0, [], sample_Y, sample_desktop0) (sample_A5, [], sample_X, sample_desktop).
Proof.
  assert (H0 : ∀ d, sample_X = Some d → names_ours d = false) by (intros d [= <-]; vm_compute; reflexivity).
  pose proof (@ds_user sample_audio_files sample_rundir sample_x264 sample_B0 sample_Y sample_X
    sample_desktop0 H0) as S0.
  assert (E0 : (sample_notify sample_B0 sample_X, asked sample_B0 (sample_notify sample_B0 sample_X),
    sample_X, user_chose sample_B0 sample_X sample_desktop0) = (sample_A0, [], sample_X, sample_desktop))
    by (vm_compute; reflexivity).
  rewrite E0 in S0.
  pose proof (@ds_start sample_audio_files sample_rundir sample_x264 sample_A0 3%nat sample_sound_client
    sample_ans _ _ _ sample_X sample_desktop (sample_start_eq sample_A0 eq_refl eq_refl)) as S1.
  change (sample_started_A sample_A0) with sample_A1 in S1.
  assert (E1 : asked sample_A0 sample_A1 = []) by (vm_compute; reflexivity). rewrite E1 in S1.
  assert (H1 : 1 ∈ A_live sample_A1) by (vm_compute; left).
  pose proof (@ds_state sample_audio_files sample_rundir sample_x264 sample_A1 1 PW_PAUSED sample_X sample_desktop H1) as S2.
  fold sample_A2 in S2.
  assert (E2 : asked sample_A1 sample_A2 = [sample_ours]) by (vm_compute; reflexivity). rewrite E2 in S2.
  pose proof (@ds_apply sample_audio_files sample_rundir sample_x264 sample_A2 sample_ours [] sample_X
    sample_desktop) as S3.
  fold sample_A3 in S3.
  assert (E3 : asked sample_A2 sample_A3 = []) by (vm_compute; reflexivity). rewrite E3 in S3.
  assert (H3 : 1 ∈ A_live sample_A3) by (vm_compute; left).
  assert (H3c : c_audio (sample_started_c sample_A0) = Some 1) by (vm_compute; reflexivity).
  pose proof (@ds_stop sample_audio_files sample_rundir sample_x264 sample_A3 (sample_started_c sample_A0) 1
    sample_ours sample_desktop H3c H3) as S4. cbv zeta in S4. fold sample_A4 in S4.
  assert (E4 : asked sample_A3 sample_A4 = [sample_X]) by (vm_compute; reflexivity). rewrite E4 in S4.
  pose proof (@ds_apply sample_audio_files sample_rundir sample_x264 sample_A4 sample_X [] sample_ours
    sample_desktop) as S5.
  fold sample_A5 in S5.
  assert (E5 : asked sample_A4 sample_A5 = []) by (vm_compute; reflexivity). rewrite E5 in S5.
  eapply rtc_l; [exact S0|]. eapply rtc_l; [exact S1|]. eapply rtc_l; [exact S2|]. eapply rtc_l; [exact S3|].
  eapply rtc_l; [exact S4|]. apply rtc_once. exact S5.
Qed.

Lemma audio_default_restored_witness :
  A_requests sample_A5 = [sample_ours; sample_X] ∧ dk_last sample_desktop = sample_X ∧
  A_saved sample_A5 = false ∧ A_files sample_A5 !! @saved_path sample_rundir = None.
Proof.
  split; [vm_compute; reflexivity|].
  refine (proj2 (proj2 (@audio_default_restored sample_audio_files sample_rundir sample_x264
    sample_Y sample_B0 sample_A5 sample_X sample_desktop _ _ _ _ _ _ _ _ _ sample_dsteps) _) _).
  - intros d [= <-]. vm_compute. reflexivity.
  - by exists 33.
  - reflexivity.
  - reflexivity.
  - reflexivity.
  - reflexivity.
  - reflexivity.
  - reflexivity.
  - reflexivity.
  - reflexivity.
  - intros (p&Hp&_). vm_compute in Hp. by apply not_elem_of_nil in Hp.
Defined.

(** While the client listens the user picks Y; that stays when the client
    leaves.  But the next time the client comes and goes, the default
    becomes X again, what the desktop had before the first time. *)
Definition sample_B4 := (sample_stop (sample_notify sample_A3 sample_Y) (sample_started_c sample_A0)).2.
Definition sample_B5 := sample_on_state (sample_started_A sample_B4) 2 PW_PAUSED.
Definition sample_B6 := sample_notify sample_B5 sample_ours.
Definition sample_B7 := (sample_stop sample_B6 (sample_started_c sample_B4)).2.
Example user_choice_forgotten :
  A_cur_default sample_B4 = sample_Y ∧ A_live sample_B4 = [] ∧ asked sample_A3 sample_B4 = [] ∧
  asked sample_B4 sample_B5 = [sample_ours] ∧ asked sample_B6 sample_B7 = [sample_X].
Proof. vm_compute. split_and!; reflexivity. Qed.

(** A quantum of 300 frames across the wrap of the sequence numbers. *)
Definition sample_o : SremfbAudio :=
  mk_audio 3 true "sremfb.020000000001" "sRemFB" 4242 true true (Some sample_addr) true 900000 4294967295 0 0.
Definition sample_AF : audio_globals := sample_A0⟨A_heap := {[ 1 := sample_o ]}⟩⟨A_live := [1]⟩.
Definition sample_pcm : bytes := (λ i, i mod 256) <$> seqZ 0 1200.
Definition sample_pkts : list bytes := packets 300 sample_o sample_pcm 300 1000000 0.

(** The viewer with a target of 10 ms and as much in its stream. *)
Abbreviation sample_view := (@view_audio sample_sdl).
Definition sample_stats0 : audio_stats := mk_astats false 0 0 0 0 0 0 0 0 0 0 0 0.
Definition sample_senv : @start_env sample_sdl :=
  mk_senv true (Some (0 : @SDL_AudioStream sample_sdl)) (Some (480, 48000)) (Some true) true.
Definition sample_va : sample_view :=
  default (mk_view_audio sample_stats0 None D0 None false 0 (0 : @SDL_AudioStream sample_sdl) D0 false false
             0 0 D0 D0 0 [] 0 0 0 false [] [])
    ((λ a : sample_view, a⟨va_started := true⟩⟨va_next_seq := 4294967295⟩⟨va_last_rx_ns := 1000000⟩) <$>
      @view_audio_start sample_sdl 4242 (D_of_Z 10) sample_stats0 None sample_senv).
Definition sample_dg (b : bytes) (t : Z) : @dgram sample_sdl := mk_dgram b t t (1920 : @SDL_AudioStream sample_sdl).
Definition sample_l : list (@dgram sample_sdl) :=
  [sample_dg (nth 0 sample_pkts []) 2000000; sample_dg (nth 1 sample_pkts []) 3000000].

Lemma audio_flow_witness :
  seq_of <$> sample_pkts = [4294967295; 0] ∧ concat (pcm_of <$> sample_pkts) = sample_pcm ∧
  va_log (recv_run (sample_va, false) sample_l).1 = (λ b, PPcm (seq_of b) (pcm_of b)) <$> sample_pkts.
Proof.
  assert (Hp : A_heap sample_AF !! 1 = Some sample_o) by reflexivity.
  assert (Hl : dg_data <$> sample_l = picked [true; true] (packets (Z.to_nat 300) sample_o sample_pcm 300 1000000 0))
    by (vm_compute; reflexivity).
  assert (Hc : calm (sample_va, false) sample_l) by (vm_compute; split_and!; reflexivity).
  assert (Hlen : 300 * 4 ≤ Z.of_nat (length sample_pcm)) by (vm_compute; congruence).
  assert (Hh : holes_short 0 [true; true] (packets (Z.to_nat 300) sample_o sample_pcm 300 1000000 0))
    by (vm_compute; split_and!; congruence).
  assert (Hs : 0 ≤ a_seq sample_o < 2 ^ 32) by (cbn; lia).
  destruct (audio_flow sample_AF 1 sample_o sample_pcm 300 1000000 [true; true] sample_va false sample_l 0
    Hp Hs ltac:(lia) Hlen Hl Hc ltac:(lia) Hh eq_refl eq_refl eq_refl) as (F1&_&_&_&_&_&F2).
  split; [vm_compute; reflexivity|]. split.
  - transitivity (take (Z.to_nat (300 * 4)) sample_pcm); [exact F1|vm_compute; reflexivity].
  - apply F2; [reflexivity|by repeat constructor|vm_compute; lia].
Defined.

(** The same two packets, the second first and again. *)
Definition sample_mixed : list (@dgram sample_sdl) :=
  [sample_dg (nth 1 sample_pkts []) 2000000; sample_dg (nth 0 sample_pkts []) 3000000;
   sample_dg (nth 1 sample_pkts []) 4000000].
Lemma audio_no_replay_witness :
  played (va_log (recv_run (sample_va, false) sample_mixed).1) = [0] ∧
  ∃ ps, played (va_log (recv_run (sample_va, false) sample_mixed).1) = u32 <$> ps ∧ StronglySorted Z.lt ps.
Proof.
  split; [vm_compute; reflexivity|].
  assert (Hok : Forall (λ d, bytes_ok (dg_data d)) sample_mixed).
  { assert (bool_decide (Forall (Forall (λ x, 0 ≤ x < 256)) (dg_data <$> sample_mixed)) = true) as Hb
      by (vm_compute; reflexivity).
    apply bool_decide_eq_true in Hb. exact (proj1 (Forall_fmap dg_data _ _) Hb). }
  destruct (audio_no_replay sample_va false sample_mixed Hok) as (ps&E&Hs&_).
  - reflexivity.
  - vm_compute. split; congruence.
  - vm_compute. split_and!; intros; reflexivity.
  - exists ps. split; [exact E|exact Hs].
Defined.

(** The first packet, behind 10 ms. *)
Lemma audio_latency_capped_witness :
  let a' := on_packet sample_va (nth 0 sample_pkts []) 2000000 (1920 : @SDL_AudioStream sample_sdl) in
  queued a' = 2880 ∧ ∃ ahead, queued a' = ahead + 960.
Proof.
  split; [vm_compute; reflexivity|].
  destruct (audio_latency_capped sample_va (nth 0 sample_pkts []) 2000000 (1920 : @SDL_AudioStream sample_sdl))
    as (ahead&E&_).
  - vm_compute. reflexivity.
  - vm_compute. congruence.
  - exists ahead. rewrite E. by f_equal.
Defined.

(** The client connects, says hello, and a quantum leaves. *)
Definition sample_hello_in : udp_in :=
  mk_udp_in (udp_hello_bytes (mk_udp_hello SREMFB_MAGIC SREMFB_UDP_AUDIO_HELLO 0 4242 77)) sample_addr 800000 true.
Abbreviation sample_astep := (@astep sample_audio_files sample_rundir sample_audio_names sample_x264 sample_peers_of).
Definition sample_C2 := @on_udp_one sample_audio_names sample_peers_of sample_A1 sample_hello_in.
Definition sample_buf : pw_buf := mk_pw_buf true sample_pcm 1200 0 1200.
Definition sample_C3 := on_process sample_C2 1 (Some sample_buf) 900000 [true; true].
Lemma sample_asteps : rtc sample_astep (sample_A0, MIdle, DIdle) (sample_C3, MIdle, DIdle).
Proof.
  assert (Hd : draws_ok sample_ans) by (repeat constructor; cbn; lia).
  eapply rtc_l.
  { exact (@as_start sample_audio_files sample_rundir sample_audio_names sample_x264 sample_peers_of sample_A0
      3%nat sample_sound_client sample_ans _ _ _ DIdle Hd (sample_start_eq sample_A0 eq_refl eq_refl)). }
  etransitivity; [apply on_udp_steps|]. apply on_process_steps. vm_compute. left.
Qed.
Lemma audio_only_to_peer_witness :
  length (A_sent sample_C3) = 3%nat ∧
  ∀ cp dest b, (cp, dest, b) ∈ A_sent sample_C3 → ∃ ss, dest = Some ss ∧
    @addr_ip sample_audio_names ss = peer_ip (sample_peers_of cp).
Proof.
  split; [vm_compute; reflexivity|].
  exact (proj1 (@audio_only_to_peer sample_audio_files sample_rundir sample_audio_names sample_x264 sample_peers_of
    sample_A0 sample_C3 MIdle DIdle eq_refl eq_refl eq_refl sample_asteps)).
Defined.
